(** * PrismaAccessSync: a shallow embedding of [sync.py]

    The development follows the layout of the class [PrismaAccessSync]:

    - JSON values as Python sees them after [response.json()], with the
      dictionary, truthiness, subscript and iteration primitives the code
      relies on, and Python exceptions as an error monad;
    - the normalizer ([_normalize_pattern]), the reference rewriters
      ([_remap_pattern_ids], [_remap_expression_tree], [_remap_profile_ids]),
      the identity mappers and the classifier ([compare_patterns]);
    - the transport as an oracle over an abstract world, with the trace of
      requests that were issued, and on top of it the listing, create and
      update calls and the orchestrator [sync];
    - a heap of mutable Python objects, on which [copy.deepcopy] and the
      in-place rewriting are replayed to study aliasing.

    Console output ([print]) is not modelled.  JSON numbers are integers;
    floating point numbers do not occur in identifiers or names. *)

From Stdlib Require Import ZArith Lia.
From stdpp Require Import base list strings option numbers.
From stdpp Require pretty.

Open Scope string_scope.
Open Scope list_scope.

(** ** Python exceptions and the error monad *)

(** The exceptions the code can meet.  [Failure] is the
    [Exception(f"...: {status_code} - {text}")] raised by the listing, create
    and update calls; [TransportError] stands for what [requests] itself
    raises; [JSONDecodeError] for a body that [response.json()] cannot
    decode. *)
Inductive exn : Type :=
| AttributeError (attr : string)
| TypeError (what : string)
| KeyError (k : string)
| Failure (what : string) (status : Z) (text : string)
| TransportError (msg : string)
| JSONDecodeError
| RecursionError
| ReferenceError.

Inductive result (A : Type) : Type :=
| Ok (a : A)
| Err (e : exn).
Arguments Ok {A} a.
Arguments Err {A} e.

Definition rbind {A B} (r : result A) (k : A -> result B) : result B :=
  match r with
  | Ok a => k a
  | Err e => Err e
  end.

Declare Scope result_scope.
Delimit Scope result_scope with result.
Notation "x <- r ;; k" := (rbind r (fun x => k))
  (at level 200, r at level 99, k at level 200, right associativity)
  : result_scope.

Definition is_ok {A} (r : result A) : bool :=
  match r with Ok _ => true | Err _ => false end.

(** [for x in xs: f(x)] collecting the results, stopping at the first
    exception. *)
Fixpoint rmap {A B} (f : A -> result B) (xs : list A) : result (list B) :=
  match xs with
  | [] => Ok []
  | x :: xs' =>
      (y <- f x ;; ys <- rmap f xs' ;; Ok (y :: ys))%result
  end.

(** [[x for x in xs if keep(x)]] *)
Fixpoint rfilter {A} (keep : A -> result bool) (xs : list A) : result (list A) :=
  match xs with
  | [] => Ok []
  | x :: xs' =>
      (b <- keep x ;; ys <- rfilter keep xs' ;;
       Ok (if b : bool then x :: ys else ys))%result
  end.

(** ** JSON values *)

#[local] Unset Elimination Schemes.
Inductive json : Type :=
| JNull
| JBool (b : bool)
| JInt (n : Z)
| JStr (s : string)
| JList (l : list json)
| JDict (d : list (string * json)).
#[local] Set Elimination Schemes.

(** A Python [dict] keeps its keys in insertion order: it is an association
    list whose keys are pairwise distinct. *)
Abbreviation dict K V := (list (K * V)) (only parsing).

Section Json_induction.
Variable P : json -> Prop.
Hypothesis Hnull : P JNull.
Hypothesis Hbool : forall b, P (JBool b).
Hypothesis Hint : forall n, P (JInt n).
Hypothesis Hstr : forall s, P (JStr s).
Hypothesis Hlist : forall l, Forall P l -> P (JList l).
Hypothesis Hdict : forall d, Forall (fun kv => P (snd kv)) d -> P (JDict d).

Fixpoint json_induction (j : json) : P j :=
match j with
| JNull => Hnull
| JBool b => Hbool b
| JInt n => Hint n
| JStr s => Hstr s
| JList l =>
  Hlist l ((fix go (l : list json) : Forall P l :=
              match l with
              | [] => Forall_nil P
              | x :: l' => Forall_cons P x l' (json_induction x) (go l')
              end) l)
| JDict d =>
  Hdict d ((fix go (d : list (string * json))
             : Forall (fun kv => P (snd kv)) d :=
              match d with
              | [] => Forall_nil _
              | kv :: d' =>
                  Forall_cons (fun kv => P (snd kv)) kv d'
                    (json_induction (snd kv)) (go d')
              end) d)
end.
End Json_induction.

(** Nesting depth of a value: the number of containers around its deepest
    scalar. *)
Fixpoint json_depth (j : json) : nat :=
  match j with
  | JList l => S (foldr (fun x n => Nat.max (json_depth x) n) 0%nat l)
  | JDict d => S (foldr (fun kv n => Nat.max (json_depth (snd kv)) n) 0%nat d)
  | _ => 0%nat
  end.

(** ** Dictionaries *)

Section Dict.
Context {K V : Type} `{EqDecision K}.

(** [d.get(k)] / [k in d] *)
Fixpoint dict_get (k : K) (d : dict K V) : option V :=
match d with
| [] => None
| (k', v) :: d' => if decide (k' = k) then Some v else dict_get k d'
end.

Definition dict_mem (k : K) (d : dict K V) : bool :=
match dict_get k d with Some _ => true | None => false end.

(** [d[k] = v]: an existing key keeps its position, a new key goes last. *)
Fixpoint dict_set (k : K) (v : V) (d : dict K V) : dict K V :=
match d with
| [] => [(k, v)]
| (k', v') :: d' =>
  if decide (k' = k) then (k', v) :: d' else (k', v') :: dict_set k v d'
end.

Definition dict_keys (d : dict K V) : list K := map fst d.
End Dict.

(** ** Python primitives on JSON values *)

(** [bool(x)] *)
Definition truthy (j : json) : bool :=
  match j with
  | JNull => false
  | JBool b => b
  | JInt n => negb (n =? 0)%Z
  | JStr s => negb (String.eqb s "")
  | JList l => match l with [] => false | _ => true end
  | JDict d => match d with [] => false | _ => true end
  end.

(** [x.get(k)]: only a dict has the method; a missing key gives [None]. *)
Definition py_get (x : json) (k : string) : result json :=
  match x with
  | JDict d => Ok (default JNull (dict_get k d))
  | _ => Err (AttributeError "get")
  end.

(** [x[k]] for a string [k]. *)
Definition py_getitem (x : json) (k : string) : result json :=
  match x with
  | JDict d =>
      match dict_get k d with
      | Some v => Ok v
      | None => Err (KeyError k)
      end
  | JList _ | JStr _ => Err (TypeError "indices must be integers")
  | _ => Err (TypeError "object is not subscriptable")
  end.

(** [x[k] = v] for a string [k]. *)
Definition py_setitem (x : json) (k : string) (v : json) : result json :=
  match x with
  | JDict d => Ok (JDict (dict_set k v d))
  | JList _ => Err (TypeError "indices must be integers")
  | _ => Err (TypeError "object does not support item assignment")
  end.

(** The characters of a string, as Python yields them when iterating. *)
Fixpoint chars (s : string) : list json :=
  match s with
  | EmptyString => []
  | String c s' => JStr (String c EmptyString) :: chars s'
  end.

(** [for e in x]: a list yields its elements, a dict its keys, a string its
    characters; nothing else is iterable. *)
Definition py_iter (x : json) : result (list json) :=
  match x with
  | JList l => Ok l
  | JDict d => Ok (map (fun kv => JStr (fst kv)) d)
  | JStr s => Ok (chars s)
  | _ => Err (TypeError "object is not iterable")
  end.

(** [x == s] for a string literal [s]. *)
Definition is_str (s : string) (x : json) : bool :=
  match x with
  | JStr s' => String.eqb s' s
  | _ => false
  end.

(** Keys of Python-level dictionaries: the hashable JSON values.  [True] and
    [1] (and [False] and [0]) are one key, as in Python. *)
Inductive key : Type :=
| KNone
| KInt (n : Z)
| KStr (s : string).

#[global] Instance key_eq_dec : EqDecision key.
Proof. solve_decision. Defined.

Definition hash_key (x : json) : result key :=
  match x with
  | JNull => Ok KNone
  | JBool b => Ok (KInt (if b then 1 else 0))
  | JInt n => Ok (KInt n)
  | JStr s => Ok (KStr s)
  | JList _ => Err (TypeError "unhashable type: 'list'")
  | JDict _ => Err (TypeError "unhashable type: 'dict'")
  end.

(** ** The normalizer *)

Definition METADATA_FIELDS : list string :=
  ["id"; "created_at"; "created_by"; "updated_at";
   "updated_by"; "version"; "tenant"; "tenant_id"].

(** [{k: v for k, v in pattern.items() if k not in self.METADATA_FIELDS}] *)
Definition _normalize_pattern (pattern : json) : result json :=
  match pattern with
  | JDict d => Ok (JDict (filter (fun kv => fst kv ∉ METADATA_FIELDS) d))
  | _ => Err (AttributeError "items")
  end.

(** ** The reference rewriters *)

(** Both rewriters work on a [copy.deepcopy] of their argument and update it
    in place.  On values the copy is the identity, and an in-place update of
    an object stored under a key is the update of that key; the heap-level
    replay further down accounts for the copy and the aliasing. *)

(** [if x.get(k): body(x[k])], where [body] updates [x[k]] in place. *)
Definition under (k : string) (body : json -> result json) (x : json)
  : result json :=
  (v <- py_get x k ;;
   if truthy v then v' <- body v ;; py_setitem x k v' else Ok x)%result.

(** [for e in v: body(e)], where [body] updates [e] in place.  The keys of a
    dict and the characters of a string are fresh immutable objects: the
    container is not affected by what [body] does to them. *)
Definition each (body : json -> result json) (v : json) : result json :=
  match v with
  | JList l => (l' <- rmap body l ;; Ok (JList l'))%result
  | _ => (es <- py_iter v ;; _ <- rmap body es ;; Ok v)%result
  end.

(** [if item.get('id') in mapping: item['id'] = mapping[item['id']]] *)
Definition remap_id (mapping : dict key json) (item : json) : result json :=
  (i <- py_get item "id" ;;
   k <- hash_key i ;;
   if dict_mem k mapping then
     i' <- py_getitem item "id" ;;
     k' <- hash_key i' ;;
     match dict_get k' mapping with
     | Some v => py_setitem item "id" v
     | None => Err (KeyError "id")
     end
   else Ok item)%result.

(** [_remap_expression_tree], with the recursion depth made explicit:
    [if tree.get('rule_item') and tree['rule_item'].get('id') in mapping: ...]
    then [if tree.get('sub_expressions'): for sub_expr in ...: recurse]. *)
Fixpoint remap_tree (fuel : nat) (mapping : dict key json) (tree : json)
  : result json :=
  match fuel with
  | O => Err RecursionError
  | S fuel' =>
      (tree1 <- under "rule_item" (remap_id mapping) tree ;;
       under "sub_expressions" (each (remap_tree fuel' mapping)) tree1)%result
  end.

Definition _remap_expression_tree (tree : json) (pattern_id_mapping : dict key json)
  : result json :=
  remap_tree (S (json_depth tree)) pattern_id_mapping tree.

Definition _remap_pattern_ids (profile : json) (pattern_id_mapping : dict key json)
  : result json :=
  (profile1 <-
     under "advance_data_patterns_rules"
       (each (under "conditions"
                (each (under "rule_items"
                         (each (remap_id pattern_id_mapping))))))
       profile ;;
   under "detection_rules"
     (each (under "expression_tree"
              (fun tree => _remap_expression_tree tree pattern_id_mapping)))
     profile1)%result.

(** [profile_id_mapping.get(profile_id, profile_id)] *)
Definition remap_profile_id (profile_id_mapping : dict key json)
  (profile_id : json) : result json :=
  (k <- hash_key profile_id ;;
   Ok (default profile_id (dict_get k profile_id_mapping)))%result.

Definition remap_multi_profile (profile_id_mapping : dict key json)
  (multi_profile : json) : result json :=
  (ids <- py_get multi_profile "data_profile_ids" ;;
   if truthy ids
   then es <- py_iter ids ;;
        remapped_ids <- rmap (remap_profile_id profile_id_mapping) es ;;
        py_setitem multi_profile "data_profile_ids" (JList remapped_ids)
   else Ok multi_profile)%result.

Definition remap_detection_rule_profiles (profile_id_mapping : dict key json)
  (detection_rule : json) : result json :=
  (rt <- py_get detection_rule "rule_type" ;;
   if is_str "multi_profile" rt
   then under "multi_profile" (remap_multi_profile profile_id_mapping)
          detection_rule
   else Ok detection_rule)%result.

Definition _remap_profile_ids (profile : json) (profile_id_mapping : dict key json)
  : result json :=
  under "detection_rules"
    (each (remap_detection_rule_profiles profile_id_mapping)) profile.

(** ** The identity mappers *)

(** [{p['name']: f(p) for p in ps}]: a name seen again overwrites the value
    and keeps the position of its first occurrence. *)
Fixpoint index_into (f : json -> result json) (acc : dict key json)
  (ps : list json) : result (dict key json) :=
  match ps with
  | [] => Ok acc
  | p :: ps' =>
      (n <- py_getitem p "name" ;;
       v <- f p ;;
       k <- hash_key n ;;
       index_into f (dict_set k v acc) ps')%result
  end.

Definition index_by_name (f : json -> result json) (ps : json)
  : result (dict key json) :=
  (es <- py_iter ps ;; index_into f [] es)%result.

Fixpoint build_mapping_loop (dest_by_name : dict key json)
  (mapping : dict key json) (source : list json) : result (dict key json) :=
  match source with
  | [] => Ok mapping
  | sp :: source' =>
      (source_name <- py_getitem sp "name" ;;
       source_id <- py_getitem sp "id" ;;
       kn <- hash_key source_name ;;
       match dict_get kn dest_by_name with
       | Some dest_id =>
           ki <- hash_key source_id ;;
           build_mapping_loop dest_by_name (dict_set ki dest_id mapping) source'
       | None => build_mapping_loop dest_by_name mapping source'
       end)%result
  end.

Definition _build_pattern_id_mapping (source_patterns dest_patterns : json)
  : result (dict key json) :=
  (dest_by_name <- index_by_name (fun p => py_getitem p "id") dest_patterns ;;
   es <- py_iter source_patterns ;;
   build_mapping_loop dest_by_name [] es)%result.

Definition _build_profile_id_mapping (source_profiles dest_profiles : json)
  : result (dict key json) :=
  (dest_by_name <- index_by_name (fun p => py_getitem p "id") dest_profiles ;;
   es <- py_iter source_profiles ;;
   build_mapping_loop dest_by_name [] es)%result.

(** ** The classifier *)

(** [DeepDiff] comes from the [deepdiff] package: the classifier only builds
    the difference of two values, stores it and tests whether it is empty. *)
Class Differ : Type := {
  Diff : Type;
  DeepDiff : json -> json -> Diff;
  diff_nonempty : Diff -> bool
}.

(** An optional mapping argument, as tested by [if mapping:]. *)
Definition mapping_given (m : option (dict key json)) : option (dict key json) :=
  match m with
  | Some (_ :: _) => m
  | _ => None
  end.

Section Classifier.
Context `{Differ}.

Record update_item : Type := {
upd_source : json;
upd_destination : json;
upd_diff : Diff
}.

Record plan : Type := {
to_create : list json;
to_update : list update_item;
identical : list json
}.

(** The source body as it is compared: normalized, then rewritten with the
mappings that were given. *)
Definition source_norm_of (source_pattern : json)
(pattern_id_mapping profile_id_mapping : option (dict key json))
: result json :=
(source_norm <- _normalize_pattern source_pattern ;;
 source_norm <- match mapping_given pattern_id_mapping with
              | Some m => _remap_pattern_ids source_norm m
              | None => Ok source_norm
              end ;;
 match mapping_given profile_id_mapping with
 | Some m => _remap_profile_ids source_norm m
 | None => Ok source_norm
 end)%result.

Fixpoint compare_loop (dest_dict : dict key json)
(pattern_id_mapping profile_id_mapping : option (dict key json))
(items : list (key * json)) (acc : plan) : result plan :=
match items with
| [] => Ok acc
| (name, source_pattern) :: items' =>
  match dict_get name dest_dict with
  | None =>
      compare_loop dest_dict pattern_id_mapping profile_id_mapping items'
        {| to_create := to_create acc ++ [source_pattern];
           to_update := to_update acc;
           identical := identical acc |}
  | Some dest_pattern =>
      (source_norm <- source_norm_of source_pattern
                        pattern_id_mapping profile_id_mapping ;;
       dest_norm <- _normalize_pattern dest_pattern ;;
       let diff := DeepDiff source_norm dest_norm in
       if diff_nonempty diff
       then compare_loop dest_dict pattern_id_mapping profile_id_mapping
              items'
              {| to_create := to_create acc;
                 to_update := to_update acc ++
                   [{| upd_source := source_pattern;
                       upd_destination := dest_pattern;
                       upd_diff := diff |}];
                 identical := identical acc |}
       else compare_loop dest_dict pattern_id_mapping profile_id_mapping
              items'
              {| to_create := to_create acc;
                 to_update := to_update acc;
                 identical := identical acc ++ [source_pattern] |})%result
  end
end.

Definition compare_patterns (source_patterns dest_patterns : json)
(pattern_id_mapping profile_id_mapping : option (dict key json))
: result plan :=
(source_dict <- index_by_name Ok source_patterns ;;
 dest_dict <- index_by_name Ok dest_patterns ;;
 compare_loop dest_dict pattern_id_mapping profile_id_mapping source_dict
 {| to_create := []; to_update := []; identical := [] |})%result.
End Classifier.

(** ** The transport and the entity store calls *)

Inductive method : Type := GET | POST | PUT.

(** The addresses the calls are sent to: the two collection URLs, the profile
    creation endpoint, and [f"{url}/{id}"] for an update, whose [id] is
    whatever value the destination entity carries. *)
Inductive url : Type :=
| data_pattern_url
| data_profile_url
| data_profile_create_url
| data_pattern_item_url (pattern_id : json)
| data_profile_item_url (profile_id : json).

Record request : Type := {
  req_method : method;
  req_url : url;
  req_token : string;
  req_json : option json
}.

(** What the code reads of a response: [status_code], [text], and [json()],
    which raises when the body does not decode. *)
Record response : Type := {
  status_code : Z;
  text : string;
  body : option json
}.

(** The remote services: any state, any answer, possibly an exception raised
    by [requests]. *)
Class Transport : Type := {
  World : Type;
  send : request -> World -> result response * World
}.

Section Store.
Context `{Transport}.

Record state : Type := {
world : World;
trace : list request
}.

(** Computations that talk to the services and may raise. *)
Definition M (A : Type) : Type := state -> result A * state.

Definition ret {A} (a : A) : M A := fun s => (Ok a, s).
Definition raise {A} (e : exn) : M A := fun s => (Err e, s).
Definition lift {A} (r : result A) : M A := fun s => (r, s).
Definition bind {A B} (m : M A) (k : A -> M B) : M B :=
fun s => match m s with
       | (Ok a, s') => k a s'
       | (Err e, s') => (Err e, s')
       end.

(** [requests.get/post/put] *)
Definition requests (r : request) : M response :=
fun s => let (res, w) := send r (world s) in
       (res, {| world := w; trace := trace s ++ [r] |}).

Definition response_json (r : response) : M json :=
match body r with
| Some j => ret j
| None => raise JSONDecodeError
end.
End Store.

Declare Scope sync_scope.
Delimit Scope sync_scope with sync.
Notation "x <- m ;; k" := (bind m (fun x => k))
  (at level 200, m at level 99, k at level 200, right associativity)
  : sync_scope.

Section Calls.
Context `{Transport}.

(** [d.get(k, [])] *)
Definition py_get_or_empty (x : json) (k : string) : result json :=
match x with
| JDict d => Ok (default (JList []) (dict_get k d))
| _ => Err (AttributeError "get")
end.

Definition get_data_patterns (token : string) (custom_only : bool) : M json :=
(response <- requests {| req_method := GET; req_url := data_pattern_url;
                       req_token := token; req_json := None |} ;;
 if negb (status_code response =? 200)%Z
 then raise (Failure "Error during retrieval" (status_code response)
             (text response))
 else
 j <- response_json response ;;
 patterns <- lift (py_get_or_empty j "resources") ;;
 if custom_only
 then es <- lift (py_iter patterns) ;;
      ps <- lift (rfilter (fun p => (t <- py_get p "type" ;;
                                     Ok (negb (is_str "predefined" t)))%result)
                    es) ;;
      ret (JList ps)
 else ret patterns)%sync.

Definition get_data_profiles (token : string) (custom_only : bool) : M json :=
(response <- requests {| req_method := GET; req_url := data_profile_url;
                       req_token := token; req_json := None |} ;;
 if negb (status_code response =? 200)%Z
 then raise (Failure "Error retrieving profiles" (status_code response)
             (text response))
 else
 profiles <- response_json response ;;
 profiles <- match profiles with
             | JList _ => ret profiles
             | _ => lift (py_get_or_empty profiles "resources")
             end ;;
 if custom_only
 then es <- lift (py_iter profiles) ;;
      ps <- lift (rfilter (fun p => (t <- py_get p "profile_type" ;;
                                     Ok (is_str "custom" t))%result)
                    es) ;;
      ret (JList ps)
 else ret profiles)%sync.

Definition status_in (codes : list Z) (r : response) : bool :=
bool_decide (status_code r ∈ codes).

Definition create_pattern (pattern : json) (token : string) : M json :=
(clean_pattern <- lift (_normalize_pattern pattern) ;;
 response <- requests {| req_method := POST; req_url := data_pattern_url;
                       req_token := token;
                       req_json := Some clean_pattern |} ;;
 if negb (status_in [200; 201]%Z response)
 then raise (Failure "Error during creation" (status_code response)
             (text response))
 else response_json response)%sync.

(** The body of a profile call: normalized, pattern references rewritten,
profile references rewritten when a non-empty mapping is given. *)
Definition clean_profile_of (profile : json)
(pattern_id_mapping : dict key json)
(profile_id_mapping : option (dict key json)) : result json :=
(clean_profile <- _normalize_pattern profile ;;
 clean_profile <- _remap_pattern_ids clean_profile pattern_id_mapping ;;
 match mapping_given profile_id_mapping with
 | Some m => _remap_profile_ids clean_profile m
 | None => Ok clean_profile
 end)%result.

Definition create_profile (profile : json) (token : string)
(pattern_id_mapping : dict key json)
(profile_id_mapping : option (dict key json)) : M json :=
(clean_profile <- lift (clean_profile_of profile pattern_id_mapping
                        profile_id_mapping) ;;
 response <- requests {| req_method := POST;
                       req_url := data_profile_create_url;
                       req_token := token;
                       req_json :=
                         Some (JDict [("dataProfile", clean_profile)]) |} ;;
 if negb (status_in [200; 201]%Z response)
 then raise (Failure "Error creating profile" (status_code response)
             (text response))
 else response_json response)%sync.

(** [response.json() if response.text else {"status": "updated"}] *)
Definition updated_result (r : response) : M json :=
if String.eqb (text r) ""
then ret (JDict [("status", JStr "updated")])
else response_json r.

Definition update_pattern (pattern_id : json) (pattern : json)
(token : string) : M json :=
(clean_pattern <- lift (_normalize_pattern pattern) ;;
 response <- requests {| req_method := PUT;
                       req_url := data_pattern_item_url pattern_id;
                       req_token := token;
                       req_json := Some clean_pattern |} ;;
 if negb (status_in [200; 204]%Z response)
 then raise (Failure "Error during update" (status_code response)
             (text response))
 else updated_result response)%sync.

Definition update_profile (profile_id : json) (profile : json)
(token : string) (pattern_id_mapping : dict key json)
(profile_id_mapping : option (dict key json)) : M json :=
(clean_profile <- lift (clean_profile_of profile pattern_id_mapping
                        profile_id_mapping) ;;
 response <- requests {| req_method := PUT;
                       req_url := data_profile_item_url profile_id;
                       req_token := token;
                       req_json :=
                         Some (JDict [("dataProfile", clean_profile)]) |} ;;
 if negb (status_in [200; 204]%Z response)
 then raise (Failure "Error updating profile" (status_code response)
             (text response))
 else updated_result response)%sync.
End Calls.

(** ** The orchestrator *)

(** [f"Error creating {name}: {str(e)}"] and [f"Error updating ..."], kept
    structured. *)
Inductive error_msg : Type :=
| Error_creating (name : json) (e : exn)
| Error_updating (name : json) (e : exn).

(** [report['patterns']] and [report['profiles']] *)
Record kind_report : Type := {
  rep_to_create : nat;
  rep_to_update : nat;
  rep_identical : nat;
  created : list json;
  updated : list json;
  errors : list error_msg
}.

Record report : Type := {
  patterns : kind_report;
  profiles : kind_report
}.

(** [global_report['tenants'][name]]: a report, or [{'error': str(e)}]. *)
Inductive tenant_entry : Type :=
| tenant_report (r : report)
| tenant_error (e : exn).

Record global_report : Type := {
  source_name : string;
  source_patterns_count : nat;
  source_profiles_count : nat;
  tenants : dict string tenant_entry
}.

(** What [sync] returns: [{}] when no destination matches the selection, the
    global report otherwise. *)
Inductive sync_result : Type :=
| empty_result
| full_result (g : global_report).

(** An entry of [self.destinations] *)
Record destination : Type := {
  dest_name : string;
  dest_token : string
}.

Record syncer : Type := {
  source_creds_name : string;
  source_token : string;
  destinations : list destination
}.

Definition add_created (name : json) (r : kind_report) : kind_report :=
  {| rep_to_create := rep_to_create r; rep_to_update := rep_to_update r;
     rep_identical := rep_identical r;
     created := created r ++ [name]; updated := updated r;
     errors := errors r |}.

Definition add_updated (name : json) (r : kind_report) : kind_report :=
  {| rep_to_create := rep_to_create r; rep_to_update := rep_to_update r;
     rep_identical := rep_identical r;
     created := created r; updated := updated r ++ [name];
     errors := errors r |}.

Definition add_error (msg : error_msg) (r : kind_report) : kind_report :=
  {| rep_to_create := rep_to_create r; rep_to_update := rep_to_update r;
     rep_identical := rep_identical r;
     created := created r; updated := updated r;
     errors := errors r ++ [msg] |}.

Section Orchestrator.
Context `{Differ} `{Transport}.

(** [try: body except Exception as e: handler(e)]; what the body did to the
services before it raised stays done. *)
Definition try_catch {A} (body : M A) (handler : exn -> M A) : M A :=
fun s => match body s with
       | (Ok a, s') => (Ok a, s')
       | (Err e, s') => handler e s'
       end.

(** [for x in items: body(x)], the body updating [r]. *)
Fixpoint for_each {A R} (body : A -> R -> M R) (items : list A) (r : R)
: M R :=
match items with
| [] => ret r
| x :: items' => (r' <- body x r ;; for_each body items' r')%sync
end.

Definition counts_of (p : plan) : kind_report :=
{| rep_to_create := length (to_create p);
 rep_to_update := length (to_update p);
 rep_identical := length (identical p);
 created := []; updated := []; errors := [] |}.

Definition empty_kind_report : kind_report :=
{| rep_to_create := 0; rep_to_update := 0; rep_identical := 0;
 created := []; updated := []; errors := [] |}.

Definition set_counts (p : plan) (r : kind_report) : kind_report :=
{| rep_to_create := length (to_create p);
 rep_to_update := length (to_update p);
 rep_identical := length (identical p);
 created := created r; updated := updated r; errors := errors r |}.

(** The four apply loops of [sync]. *)
Definition create_pattern_item (token : string) (pattern : json)
(r : kind_report) : M kind_report :=
try_catch
(_ <- create_pattern pattern token ;;
 name <- lift (py_getitem pattern "name") ;;
 ret (add_created name r))%sync
(fun e =>
   (name <- lift (py_getitem pattern "name") ;;
    ret (add_error (Error_creating name e) r))%sync).

Definition update_pattern_item (token : string) (item : update_item)
(r : kind_report) : M kind_report :=
try_catch
(dest_id <- lift (py_getitem (upd_destination item) "id") ;;
 _ <- update_pattern dest_id (upd_source item) token ;;
 name <- lift (py_getitem (upd_source item) "name") ;;
 ret (add_updated name r))%sync
(fun e =>
   (name <- lift (py_getitem (upd_source item) "name") ;;
    ret (add_error (Error_updating name e) r))%sync).

Definition create_profile_item (token : string)
(pattern_id_mapping profile_id_mapping : dict key json) (profile : json)
(r : kind_report) : M kind_report :=
try_catch
(_ <- create_profile profile token pattern_id_mapping
        (Some profile_id_mapping) ;;
 name <- lift (py_getitem profile "name") ;;
 ret (add_created name r))%sync
(fun e =>
   (name <- lift (py_getitem profile "name") ;;
    ret (add_error (Error_creating name e) r))%sync).

Definition update_profile_item (token : string)
(pattern_id_mapping profile_id_mapping : dict key json)
(item : update_item) (r : kind_report) : M kind_report :=
try_catch
(dest_id <- lift (py_getitem (upd_destination item) "id") ;;
 _ <- update_profile dest_id (upd_source item) token pattern_id_mapping
        (Some profile_id_mapping) ;;
 name <- lift (py_getitem (upd_source item) "name") ;;
 ret (add_updated name r))%sync
(fun e =>
   (name <- lift (py_getitem (upd_source item) "name") ;;
    ret (add_error (Error_updating name e) r))%sync).

(** The body of the [try] of one destination, up to the report that is
stored for it. *)
Definition sync_tenant (self : syncer) (dry_run : bool)
(source_patterns source_profiles : json) (dest : destination) : M report :=
((* STEP 1: data patterns *)
 dest_patterns <- get_data_patterns (dest_token dest) true ;;
 plan_p <- lift (compare_patterns source_patterns dest_patterns None None) ;;
 let rp := counts_of plan_p in
 rp <- (if negb dry_run
      then rp <- for_each (create_pattern_item (dest_token dest))
                   (to_create plan_p) rp ;;
           rp <- for_each (update_pattern_item (dest_token dest))
                   (to_update plan_p) rp ;;
           (* reload destination patterns after modification *)
           _ <- get_data_patterns (dest_token dest) true ;;
           ret rp
      else ret rp) ;;
 (* STEP 2: data profiles *)
 all_source_patterns <- get_data_patterns (source_token self) false ;;
 all_dest_patterns <- get_data_patterns (dest_token dest) false ;;
 pattern_id_mapping <- lift (_build_pattern_id_mapping all_source_patterns
                             all_dest_patterns) ;;
 dest_profiles <- get_data_profiles (dest_token dest) true ;;
 profile_id_mapping <- lift (_build_profile_id_mapping source_profiles
                             dest_profiles) ;;
 plan_f <- lift (compare_patterns source_profiles dest_profiles
                 (Some pattern_id_mapping) (Some profile_id_mapping)) ;;
 let rf := set_counts plan_f empty_kind_report in
 if dry_run
 then ret {| patterns := rp; profiles := rf |}
 else
 rf <- for_each (create_profile_item (dest_token dest)
                   pattern_id_mapping profile_id_mapping)
         (to_create plan_f) rf ;;
 rf <- for_each (update_profile_item (dest_token dest)
                   pattern_id_mapping profile_id_mapping)
         (to_update plan_f) rf ;;
 ret {| patterns := rp; profiles := rf |})%sync.

(** One turn of [for dest in tenants_to_sync]. *)
Definition sync_dest (self : syncer) (dry_run : bool)
(source_patterns source_profiles : json) (dest : destination)
(tenants : dict string tenant_entry) : M (dict string tenant_entry) :=
try_catch
(r <- sync_tenant self dry_run source_patterns source_profiles dest ;;
 ret (dict_set (dest_name dest) (tenant_report r) tenants))%sync
(fun e => ret (dict_set (dest_name dest) (tenant_error e) tenants)).

(** [tenants_to_sync]: every destination, or those named by a non-empty
[target_tenants]. *)
Definition tenants_to_sync (self : syncer)
(target_tenants : option (list string)) : list destination :=
match target_tenants with
| Some (t :: ts) =>
  filter (fun d => dest_name d ∈ t :: ts) (destinations self)
| _ => destinations self
end.

Definition py_len (x : json) : result nat :=
match x with
| JList l => Ok (length l)
| JDict d => Ok (length d)
| JStr s => Ok (String.length s)
| _ => Err (TypeError "object has no len()")
end.

(** [if target_tenants: ...; if not tenants_to_sync: return {}] *)
Definition no_tenant_found (target_tenants : option (list string))
(dests : list destination) : bool :=
match target_tenants, dests with
| Some (_ :: _), [] => true
| _, _ => false
end.

Definition sync (self : syncer) (dry_run : bool)
(target_tenants : option (list string)) : M sync_result :=
(source_patterns <- get_data_patterns (source_token self) true ;;
 source_profiles <- get_data_profiles (source_token self) true ;;
 let dests := tenants_to_sync self target_tenants in
 if no_tenant_found target_tenants dests
 then ret empty_result
 else
 np <- lift (py_len source_patterns) ;;
 nf <- lift (py_len source_profiles) ;;
 tenants <- for_each (sync_dest self dry_run source_patterns
                        source_profiles) dests [] ;;
 ret (full_result
        {| source_name := source_creds_name self;
           source_patterns_count := np;
           source_profiles_count := nf;
           tenants := tenants |}))%sync.
End Orchestrator.

(** The entry that [sync] records for a destination, from what the
    processing of the destination came to. *)
Definition outcome_entry (r : result report) : tenant_entry :=
  match r with
  | Ok rep => tenant_report rep
  | Err e => tenant_error e
  end.

(** ** The requests issued by a computation *)

(** Counting calls: a create call is a [POST], an update call a [PUT], a
    listing a [GET] of one of the two collections with the token of the
    environment that is listed. *)
Definition is_create (r : request) : nat :=
  match req_method r with POST => 1 | _ => 0 end.

Definition is_update (r : request) : nat :=
  match req_method r with PUT => 1 | _ => 0 end.

Definition lists_patterns (token : string) (r : request) : nat :=
  match req_method r, req_url r with
  | GET, data_pattern_url => if String.eqb (req_token r) token then 1 else 0
  | _, _ => 0
  end.

Definition lists_profiles (token : string) (r : request) : nat :=
  match req_method r, req_url r with
  | GET, data_profile_url => if String.eqb (req_token r) token then 1 else 0
  | _, _ => 0
  end.

Definition weight (f : request -> nat) (l : list request) : nat :=
  foldr (fun r n => f r + n) 0 l.

Section Emission.
Context `{Transport}.

(** [emits f lo hi m]: running [m] only appends requests to the trace; those
    it appends weigh at most [hi], and at least [lo] when [m] returns. *)
Definition emits (f : request -> nat) (lo hi : nat) {A} (m : M A) : Prop :=
  forall s,
  exists new,
    trace (snd (m s)) = trace s ++ new /\
    weight f new <= hi /\
    (is_ok (fst (m s)) = true -> lo <= weight f new).

End Emission.

(** [m] first issues the request [rq], whatever follows. *)
Definition starts_with `{Transport} (rq : request) {A} (m : M A) : Prop :=
  forall s, exists rest, trace (snd (m s)) = trace s ++ rq :: rest.

(** The requests of the store calls. *)
Definition list_patterns_request (token : string) : request :=
  {| req_method := GET; req_url := data_pattern_url;
     req_token := token; req_json := None |}.

Definition list_profiles_request (token : string) : request :=
  {| req_method := GET; req_url := data_profile_url;
     req_token := token; req_json := None |}.

Definition create_pattern_request (token : string) (clean_pattern : json)
  : request :=
  {| req_method := POST; req_url := data_pattern_url;
     req_token := token; req_json := Some clean_pattern |}.

Definition update_pattern_request (token : string) (pattern_id : json)
  (clean_pattern : json) : request :=
  {| req_method := PUT; req_url := data_pattern_item_url pattern_id;
     req_token := token; req_json := Some clean_pattern |}.

(** ** The apply loops *)

(** The exception a call raised, if any. *)
Definition failure {A} (r : result A) : option exn :=
  match r with
  | Ok _ => None
  | Err e => Some e
  end.

(** What the turn of an item leaves in the report: its name among the
    created or updated ones, or an error message with its name. *)
Definition settle (add_ok : json -> kind_report -> kind_report)
  (mk_err : json -> exn -> error_msg) (name : json) (o : option exn)
  (r : kind_report) : kind_report :=
  match o with
  | None => add_ok name r
  | Some e => add_error (mk_err name e) r
  end.

Fixpoint settle_all (add_ok : json -> kind_report -> kind_report)
  (mk_err : json -> exn -> error_msg) (names : list json)
  (outcomes : list (option exn)) (r : kind_report) : kind_report :=
  match names, outcomes with
  | n :: names', o :: outcomes' =>
      settle_all add_ok mk_err names' outcomes' (settle add_ok mk_err n o r)
  | _, _ => r
  end.

(** The names that went through, and the messages of those that did not. *)
Definition succeeded (names : list json) (outcomes : list (option exn))
  : list json :=
  omap (fun no => match snd no with None => Some (fst no) | Some _ => None end)
    (zip names outcomes).

Definition failed (mk_err : json -> exn -> error_msg) (names : list json)
  (outcomes : list (option exn)) : list error_msg :=
  omap (fun no => match snd no with
                  | None => None
                  | Some e => Some (mk_err (fst no) e)
                  end)
    (zip names outcomes).

Section Attempts.
Context `{Differ} `{Transport}.

(** Every call is made in turn, from the state the call before it left and
    whatever that call returned; what each call raised is kept. *)
Fixpoint attempts {A} (call : A -> M json) (items : list A) (s : state)
  : list (option exn) * state :=
  match items with
  | [] => ([], s)
  | x :: items' =>
      let (res, s1) := call x s in
      let (os, s') := attempts call items' s1 in
      (failure res :: os, s')
  end.

(** The calls of the four loops. *)
Definition create_pattern_call (token : string) (pattern : json) : M json :=
  create_pattern pattern token.

Definition update_pattern_call (token : string) (item : update_item) : M json :=
  (dest_id <- lift (py_getitem (upd_destination item) "id") ;;
   update_pattern dest_id (upd_source item) token)%sync.

Definition create_profile_call (token : string)
  (pattern_id_mapping profile_id_mapping : dict key json) (profile : json)
  : M json :=
  create_profile profile token pattern_id_mapping (Some profile_id_mapping).

Definition update_profile_call (token : string)
  (pattern_id_mapping profile_id_mapping : dict key json) (item : update_item)
  : M json :=
  (dest_id <- lift (py_getitem (upd_destination item) "id") ;;
   update_profile dest_id (upd_source item) token pattern_id_mapping
     (Some profile_id_mapping))%sync.
End Attempts.

(** ** Listing the source *)


(** ** The entry of a destination that fails *)

(** The statement of the specification: once the source is listed, the
    error that the processing of a selected destination raised is what the
    report holds for that destination. *)
Definition failed_destination_is_recorded : Prop :=
  forall (D : Differ) (T : Transport) (self : syncer) (dry_run : bool)
         (target_tenants : option (list string)) (s s1 s2 : state)
         (sp sf : json) (ds1 ds2 : list destination) (d : destination)
         (e : exn),
    get_data_patterns (source_token self) true s = (Ok sp, s1) ->
    get_data_profiles (source_token self) true s1 = (Ok sf, s2) ->
    tenants_to_sync self target_tenants = ds1 ++ d :: ds2 ->
    fst (sync_tenant self dry_run sp sf d
           (snd (for_each (sync_dest self dry_run sp sf) ds1 [] s2))) = Err e ->
    exists g s',
      sync self dry_run target_tenants s = (Ok (full_result g), s') /\
      dict_get (dest_name d) (tenants g) = Some (tenant_error e).

(** ** Paths into JSON values *)

(** A path descends through keys of dicts and indices of lists. *)
Inductive step : Type :=
| SKey (k : string)
| SIdx (i : nat).

#[global] Instance step_eq_dec : EqDecision step.
Proof. solve_decision. Defined.

Fixpoint jget (path : list step) (x : json) : option json :=
  match path with
  | [] => Some x
  | SKey k :: rest =>
      match x with
      | JDict d =>
          match dict_get k d with
          | Some v => jget rest v
          | None => None
          end
      | _ => None
      end
  | SIdx i :: rest =>
      match x with
      | JList l =>
          match l !! i with
          | Some v => jget rest v
          | None => None
          end
      | _ => None
      end
  end.

(** Two values have the same shape at their root: lists of one length, dicts
    with the same keys in the same order, or equal scalars. *)
Definition shape_eq (v v' : json) : Prop :=
  match v, v' with
  | JList l, JList l' => length l = length l'
  | JDict d, JDict d' => dict_keys d = dict_keys d'
  | _, _ => v = v'
  end.

(** [agree_except S f x x']: [x'] is [x] in which the value at every path of
    [S] was replaced by its image under [f].  Every path of [x] that does not
    run through a rewritten value is a path of [x'] and conversely; a value
    whose subtree holds no path of [S] is unchanged; containers on the way to
    a rewritten value keep their length, their keys and the order of both. *)
Definition agree_except (S : list step -> bool) (f : json -> json)
  (x x' : json) : Prop :=
  forall path,
    (forall q r, path = q ++ r -> r <> [] -> S q = false) ->
    match jget path x with
    | None => jget path x' = None
    | Some v =>
        exists v', jget path x' = Some v' /\
                   (S path = true -> v' = f v) /\
                   ((forall q, S (path ++ q) = false) -> v' = v) /\
                   (S path = false -> shape_eq v v')
    end.

(** The value an identifier is rewritten to: [mapping[i]] when [i] is a key
    of [mapping], [i] itself otherwise. *)
Definition mapped (mapping : dict key json) (i : json) : json :=
  match hash_key i with
  | Ok k => default i (dict_get k mapping)
  | Err _ => i
  end.

(** Sets of paths, built like the rewriters: the empty path, a key or an
    index followed by a path of [S] (which may depend on the index), a
    union. *)
Definition here (path : list step) : bool :=
  match path with
  | [] => true
  | _ => false
  end.

Definition pkey (k : string) (S : list step -> bool) (path : list step) : bool :=
  match path with
  | SKey k' :: rest => String.eqb k' k && S rest
  | _ => false
  end.

Definition pidxi (S : nat -> list step -> bool) (path : list step) : bool :=
  match path with
  | SIdx i :: rest => S i rest
  | _ => false
  end.

Definition pidx (S : list step -> bool) : list step -> bool :=
  pidxi (fun _ => S).

Definition punion (S1 S2 : list step -> bool) (path : list step) : bool :=
  S1 path || S2 path.

(** The paths of the identifiers of the nodes of an expression tree:
    [(.sub_expressions[n])* .rule_item.id] *)
Fixpoint tree_id_path (path : list step) : bool :=
  match path with
  | SKey k :: rest =>
      (String.eqb k "rule_item" && pkey "id" here rest)
      || (String.eqb k "sub_expressions" &&
          match rest with
          | SIdx _ :: rest' => tree_id_path rest'
          | _ => false
          end)
  | _ => false
  end.

(** The paths of the pattern identifiers of a profile:
    [.advance_data_patterns_rules[i].conditions[j].rule_items[k].id] and
    [.detection_rules[i].expression_tree] followed by the path of the
    identifier of a node. *)
Definition pattern_id_path : list step -> bool :=
  punion
    (pkey "advance_data_patterns_rules"
       (pidx (pkey "conditions"
                (pidx (pkey "rule_items" (pidx (pkey "id" here)))))))
    (pkey "detection_rules" (pidx (pkey "expression_tree" tree_id_path))).

(** The node of an expression tree reached by taking the [n]-th
    sub-expression for each [n] of [ns]. *)
Definition node_path (ns : list nat) : list step :=
  flat_map (fun n => [SKey "sub_expressions"; SIdx n]) ns.

(** Well-formed inputs of the rewriters, by the same combinators as the
    rewriters: the data model of the profiles. *)
Definition wf_under (k : string) (wf_body : json -> bool) (x : json) : bool :=
  match x with
  | JDict d =>
      match dict_get k d with
      | Some v => if truthy v then wf_body v else true
      | None => true
      end
  | _ => false
  end.

Definition wf_each (wf_body : json -> bool) (v : json) : bool :=
  match v with
  | JList l => forallb wf_body l
  | _ => false
  end.

(** An object carrying an identifier: a dict whose [id] is a hashable value. *)
Definition wf_item (item : json) : bool :=
  match item with
  | JDict d =>
      match dict_get "id" d with
      | Some i => is_ok (hash_key i)
      | None => false
      end
  | _ => false
  end.

(** An expression node: a dict whose [rule_item], when set, carries an
    identifier and whose [sub_expressions], when set, is a list of nodes. *)
Fixpoint wf_tree (tree : json) : bool :=
  match tree with
  | JDict d =>
      forallb
        (fun kv =>
           if String.eqb (fst kv) "rule_item"
           then negb (truthy (snd kv)) || wf_item (snd kv)
           else if String.eqb (fst kv) "sub_expressions"
           then negb (truthy (snd kv)) ||
                match snd kv with
                | JList l => forallb wf_tree l
                | _ => false
                end
           else true) d
  | _ => false
  end.

Definition wf_pattern_refs (profile : json) : bool :=
  wf_under "advance_data_patterns_rules"
    (wf_each (wf_under "conditions"
                (wf_each (wf_under "rule_items" (wf_each wf_item))))) profile
  && wf_under "detection_rules"
       (wf_each (wf_under "expression_tree" wf_tree)) profile.

(** ** The profile references of a profile *)

(** [detection_rules[i].rule_type == 'multi_profile'] *)
Definition is_multi_profile_rule (profile : json) (i : nat) : bool :=
  match jget [SKey "detection_rules"; SIdx i; SKey "rule_type"] profile with
  | Some rt => is_str "multi_profile" rt
  | None => false
  end.

(** The paths of the profile identifiers that [_remap_profile_ids] reads:
    [.detection_rules[i].multi_profile.data_profile_ids[j]], for the rules
    [i] of type [multi_profile]. *)
Definition profile_id_path (profile : json) : list step -> bool :=
  pkey "detection_rules"
    (pidxi (fun i rest =>
              is_multi_profile_rule profile i &&
              pkey "multi_profile" (pkey "data_profile_ids" (pidx here)) rest)).

(** The statement of the specification, whose data model puts the list on
    the rule itself, [{rule_type: multi_profile, data_profile_ids: [...]}]:
    every identifier of [.detection_rules[i].data_profile_ids] of a rule of
    type [multi_profile] is replaced by its image in the mapping. *)
Definition flat_data_profile_ids_rewritten : Prop :=
  forall (profile : json) (mapping : dict key json) (profile' : json)
         (i j : nat) (v : json),
    _remap_profile_ids profile mapping = Ok profile' ->
    is_multi_profile_rule profile i = true ->
    jget [SKey "detection_rules"; SIdx i; SKey "data_profile_ids"; SIdx j]
      profile = Some v ->
    jget [SKey "detection_rules"; SIdx i; SKey "data_profile_ids"; SIdx j]
      profile' = Some (mapped mapping v).

Definition hashable (x : json) : bool := is_ok (hash_key x).

Definition wf_detection_rule (detection_rule : json) : bool :=
  match detection_rule with
  | JDict d =>
      if is_str "multi_profile" (default JNull (dict_get "rule_type" d))
      then wf_under "multi_profile"
             (wf_under "data_profile_ids" (wf_each hashable)) detection_rule
      else true
  | _ => false
  end.

Definition wf_profile_refs (profile : json) : bool :=
  wf_under "detection_rules" (wf_each wf_detection_rule) profile.

(** ** Names and the outputs of the classifier *)

(** The key under which an entity is indexed: its hashed [name]. *)
Definition name_key (entity : json) : option key :=
  match py_getitem entity "name" with
  | Ok n =>
      match hash_key n with
      | Ok k => Some k
      | Err _ => None
      end
  | Err _ => None
  end.

(** The last entity of a list that goes by the name [k]. *)
Definition last_named (k : key) (entities : list json) : option json :=
  list.last (filter (fun e => name_key e = Some k) entities).

Section Plan.
Context `{Differ}.

(** The source entities of the three outputs. *)
Definition entries_of (p : plan) : list json :=
to_create p ++ map upd_source (to_update p) ++ identical p.

(** What the classifier decides for the source entity [e], given the
  destination entity [dest] it is compared against, if any: to create
  without one; otherwise to update, with both entities and their
  difference, when the difference of the compared bodies is not empty, and
  identical when it is. *)
Definition decided (pm fm : option (dict key json)) (p : plan)
(e : json) (dest : option json) : Prop :=
match dest with
| None => e ∈ to_create p
| Some de =>
    exists sn dn,
      source_norm_of e pm fm = Ok sn /\
      _normalize_pattern de = Ok dn /\
      if diff_nonempty (DeepDiff sn dn)
      then {| upd_source := e; upd_destination := de;
              upd_diff := DeepDiff sn dn |} ∈ to_update p
      else e ∈ identical p
end.
End Plan.

(** ** The comparison of [DeepDiff] *)

(** The field that is left out of the comparison, by
    [exclude_regex_paths=r".*\['supported_confidence_levels'\]"]. *)
Definition excluded (k : string) : bool :=
  String.eqb k "supported_confidence_levels".

Fixpoint count_if {A} (p : A -> bool) (l : list A) : nat :=
  match l with
  | [] => 0
  | x :: l' => (if p x then 1 else 0) + count_if p l'
  end.

(** Modelled from the spec: the [deepdiff] package is not part of the
    sources; its comparison with [ignore_order=True] and the excluded path is
    described in section 4.4 as deep structural equality over mappings,
    sequences and scalars, in which sequences are compared as multisets of
    elements and the excluded field is left out whatever its value.  Two
    mappings are equal when they have the same items, two sequences when
    every element occurs as often in one as in the other. *)
Fixpoint deep_eqb (a b : json) : bool :=
  match a, b with
  | JNull, JNull => true
  | JBool x, JBool y => Bool.eqb x y
  | JInt x, JInt y => (x =? y)%Z
  | JStr x, JStr y => String.eqb x y
  | JList l1, JList l2 =>
      (length l1 =? length l2)%nat &&
      forallb (fun x => (count_if (deep_eqb x) l1 =? count_if (deep_eqb x) l2)%nat)
        l1
  | JDict d1, JDict d2 =>
      let keep := fun kv : string * json => negb (excluded (fst kv)) in
      (count_if keep d1 =? count_if keep d2)%nat &&
      forallb
        (fun kv =>
           let same := fun kv' : string * json =>
                         keep kv' && String.eqb (fst kv) (fst kv')
                         && deep_eqb (snd kv) (snd kv') in
           excluded (fst kv) || (count_if same d1 =? count_if same d2)%nat)
        d1
  | _, _ => false
  end.

(** Modelled from the spec: the difference is opaque; all that is observed is
    whether it is empty. *)
#[global] Instance spec_differ : Differ := {|
  Diff := bool;
  DeepDiff := fun a b => negb (deep_eqb a b);
  diff_nonempty := fun d => d
|}.

(** Two values that differ only in the order of the elements of their lists
    and in what they hold under the excluded key, at any depth.  A dict is
    what it holds under its keys: the order in which the keys come makes no
    difference either. *)
#[local] Unset Elimination Schemes.
Inductive same_modulo : json -> json -> Prop :=
| sm_null : same_modulo JNull JNull
| sm_bool b : same_modulo (JBool b) (JBool b)
| sm_int n : same_modulo (JInt n) (JInt n)
| sm_str s : same_modulo (JStr s) (JStr s)
| sm_list l1 l1' l2 :
    Forall2 same_modulo l1 l1' -> l1' ≡ₚ l2 ->
    same_modulo (JList l1) (JList l2)
| sm_dict d1 d1' d2 :
    Forall2 (fun kv1 kv2 => fst kv1 = fst kv2 /\ same_modulo (snd kv1) (snd kv2))
      (filter (fun kv => excluded (fst kv) = false) d1) d1' ->
    d1' ≡ₚ filter (fun kv => excluded (fst kv) = false) d2 ->
    same_modulo (JDict d1) (JDict d2).
#[local] Set Elimination Schemes.

(** ** Mutable objects: the copy and the in-place rewriting *)

(** The rewriters start with [profile = copy.deepcopy(profile)] and then
    assign into the objects of the copy.  Here the objects live in a heap:
    lists and dicts are cells that hold scalars and references, an
    assignment [x[k] = v] overwrites the cell of [x], and two references to
    one cell are aliases.  Identifiers are scalars, hence so are the values
    of a mapping. *)
Module Heap.

Abbreviation loc := nat (only parsing).

Inductive scalar : Type :=
| SNull
| SBool (b : bool)
| SInt (n : Z)
| SStr (s : string).

Inductive val : Type :=
| VScalar (c : scalar)
| VRef (l : loc).

Inductive obj : Type :=
| OList (items : list val)
| ODict (entries : list (string * val)).

(** A location is an index; allocation appends. *)
Abbreviation heap := (list obj) (only parsing).

Definition HM (A : Type) : Type := heap -> result A * heap.

Definition hret {A} (a : A) : HM A := fun h => (Ok a, h).
Definition hraise {A} (e : exn) : HM A := fun h => (Err e, h).
Definition hlift {A} (r : result A) : HM A := fun h => (r, h).
Definition hbind {A B} (m : HM A) (k : A -> HM B) : HM B :=
  fun h => match m h with
           | (Ok a, h') => k a h'
           | (Err e, h') => (Err e, h')
           end.

Declare Scope heap_scope.
Delimit Scope heap_scope with heap.
Notation "x <- m ;; k" := (hbind m (fun x => k))
  (at level 200, m at level 99, k at level 200, right associativity)
  : heap_scope.

Definition alloc (o : obj) : HM loc :=
  fun h => (Ok (length h), h ++ [o]).

Definition load (l : loc) : HM obj :=
  fun h => match h !! l with
           | Some o => (Ok o, h)
           | None => (Err ReferenceError, h)
           end.

Definition store (l : loc) (o : obj) : HM unit :=
  fun h => (Ok tt, <[l := o]> h).

(** [for x in xs: body(x)] *)
Fixpoint hfor {A} (body : A -> HM unit) (xs : list A) : HM unit :=
  match xs with
  | [] => hret tt
  | x :: xs' => (_ <- body x ;; hfor body xs')%heap
  end.

(** *** Python primitives on heap values *)

(** [x.get(k)] *)
Definition h_get (x : val) (k : string) : HM val :=
  match x with
  | VRef l =>
      (o <- load l ;;
       match o with
       | ODict d => hret (default (VScalar SNull) (dict_get k d))
       | OList _ => hraise (AttributeError "get")
       end)%heap
  | VScalar _ => hraise (AttributeError "get")
  end.

(** [x[k]] *)
Definition h_getitem (x : val) (k : string) : HM val :=
  match x with
  | VRef l =>
      (o <- load l ;;
       match o with
       | ODict d =>
           match dict_get k d with
           | Some v => hret v
           | None => hraise (KeyError k)
           end
       | OList _ => hraise (TypeError "indices must be integers")
       end)%heap
  | VScalar (SStr _) => hraise (TypeError "indices must be integers")
  | VScalar _ => hraise (TypeError "object is not subscriptable")
  end.

(** [x[k] = v]: the cell of [x] is overwritten. *)
Definition h_setitem (x : val) (k : string) (v : val) : HM unit :=
  match x with
  | VRef l =>
      (o <- load l ;;
       match o with
       | ODict d => store l (ODict (dict_set k v d))
       | OList _ => hraise (TypeError "indices must be integers")
       end)%heap
  | VScalar _ => hraise (TypeError "object does not support item assignment")
  end.

(** [bool(x)] *)
Definition h_truthy (x : val) : HM bool :=
  match x with
  | VScalar SNull => hret false
  | VScalar (SBool b) => hret b
  | VScalar (SInt n) => hret (negb (n =? 0)%Z)
  | VScalar (SStr s) => hret (negb (String.eqb s ""))
  | VRef l =>
      (o <- load l ;;
       match o with
       | OList [] | ODict [] => hret false
       | _ => hret true
       end)%heap
  end.

Fixpoint h_chars (s : string) : list val :=
  match s with
  | EmptyString => []
  | String c s' => VScalar (SStr (String c EmptyString)) :: h_chars s'
  end.

(** [for e in x] *)
Definition h_iter (x : val) : HM (list val) :=
  match x with
  | VRef l =>
      (o <- load l ;;
       match o with
       | OList items => hret items
       | ODict d => hret (map (fun kv => VScalar (SStr (fst kv))) d)
       end)%heap
  | VScalar (SStr s) => hret (h_chars s)
  | VScalar _ => hraise (TypeError "object is not iterable")
  end.

(** [x.append(v)] *)
Definition h_append (x : val) (v : val) : HM unit :=
  match x with
  | VRef l =>
      (o <- load l ;;
       match o with
       | OList items => store l (OList (items ++ [v]))
       | ODict _ => hraise (AttributeError "append")
       end)%heap
  | VScalar _ => hraise (AttributeError "append")
  end.

Definition h_hash (x : val) : result key :=
  match x with
  | VScalar SNull => Ok KNone
  | VScalar (SBool b) => Ok (KInt (if b then 1 else 0))
  | VScalar (SInt n) => Ok (KInt n)
  | VScalar (SStr s) => Ok (KStr s)
  | VRef _ => Err (TypeError "unhashable type")
  end.

Definition h_is_str (s : string) (x : val) : bool :=
  match x with
  | VScalar (SStr s') => String.eqb s' s
  | _ => false
  end.

(** *** [copy.deepcopy] *)

(** [memo] maps the objects already copied to their copies, so that what
    was shared stays shared and a cycle is copied once.  A list is copied as
    [y = []; memo[id(x)] = y; for a in x: y.append(deepcopy(a, memo))], a
    dict alike; scalars are returned as they are. *)

(** [for a in x: y.append(copy(a, memo))], for the list [y] at [l']
    that holds [acc]. *)
Fixpoint copy_items (copy : val -> dict loc loc -> HM (val * dict loc loc))
  (l' : loc) (items acc : list val) (memo : dict loc loc)
  : HM (list val * dict loc loc) :=
  match items with
  | [] => hret (acc, memo)
  | a :: items' =>
      (am <- copy a memo ;;
       _ <- store l' (OList (acc ++ [fst am])) ;;
       copy_items copy l' items' (acc ++ [fst am]) (snd am))%heap
  end.

(** [for key, value in x.items(): y[key] = copy(value, memo)], for the dict
    [y] at [l'] that holds [acc]. *)
Fixpoint copy_entries (copy : val -> dict loc loc -> HM (val * dict loc loc))
  (l' : loc) (entries acc : list (string * val)) (memo : dict loc loc)
  : HM (list (string * val) * dict loc loc) :=
  match entries with
  | [] => hret (acc, memo)
  | (k, a) :: entries' =>
      (am <- copy a memo ;;
       _ <- store l' (ODict (dict_set k (fst am) acc)) ;;
       copy_entries copy l' entries' (dict_set k (fst am) acc) (snd am))%heap
  end.

Fixpoint deepcopy (fuel : nat) (v : val) (memo : dict loc loc)
  : HM (val * dict loc loc) :=
  match v with
  | VScalar _ => hret (v, memo)
  | VRef l =>
      match dict_get l memo with
      | Some l' => hret (VRef l', memo)
      | None =>
          match fuel with
          | O => hraise RecursionError
          | S fuel' =>
              (o <- load l ;;
               match o with
               | OList items =>
                   l' <- alloc (OList []) ;;
                   r <- copy_items (deepcopy fuel') l' items []
                          (dict_set l l' memo) ;;
                   hret (VRef l', snd r)
               | ODict entries =>
                   l' <- alloc (ODict []) ;;
                   r <- copy_entries (deepcopy fuel') l' entries []
                          (dict_set l l' memo) ;;
                   hret (VRef l', snd r)
               end)%heap
          end
      end
  end.

(** *** The rewriters, in place *)

(** [if x.get(k): body(x[k])] *)
Definition h_under (k : string) (body : val -> HM unit) (x : val) : HM unit :=
  (v <- h_get x k ;;
   b <- h_truthy v ;;
   if b : bool then v' <- h_getitem x k ;; body v' else hret tt)%heap.

(** [for e in v: body(e)] *)
Definition h_each (body : val -> HM unit) (v : val) : HM unit :=
  (items <- h_iter v ;; hfor body items)%heap.

(** [if item.get('id') in mapping: item['id'] = mapping[item['id']]] *)
Definition h_remap_id (mapping : dict key scalar) (item : val) : HM unit :=
  (i <- h_get item "id" ;;
   k <- hlift (h_hash i) ;;
   if dict_mem k mapping then
     i' <- h_getitem item "id" ;;
     k' <- hlift (h_hash i') ;;
     match dict_get k' mapping with
     | Some v => h_setitem item "id" (VScalar v)
     | None => hraise (KeyError "id")
     end
   else hret tt)%heap.

Fixpoint _remap_expression_tree (fuel : nat) (tree : val)
  (pattern_id_mapping : dict key scalar) : HM unit :=
  match fuel with
  | O => hraise RecursionError
  | S fuel' =>
      (_ <- h_under "rule_item" (h_remap_id pattern_id_mapping) tree ;;
       h_under "sub_expressions"
         (h_each (fun sub_expr =>
                    _remap_expression_tree fuel' sub_expr pattern_id_mapping))
         tree)%heap
  end.

Definition _remap_pattern_ids (fuel : nat) (profile : val)
  (pattern_id_mapping : dict key scalar) : HM val :=
  (copy <- deepcopy fuel profile [] ;;
   let profile := fst copy in
   _ <- h_under "advance_data_patterns_rules"
          (h_each (h_under "conditions"
                     (h_each (h_under "rule_items"
                                (h_each (h_remap_id pattern_id_mapping))))))
          profile ;;
   _ <- h_under "detection_rules"
          (h_each (h_under "expression_tree"
                     (fun tree =>
                        _remap_expression_tree fuel tree pattern_id_mapping)))
          profile ;;
   hret profile)%heap.

(** [profile_id_mapping.get(profile_id, profile_id)] *)
Definition h_remap_profile_id (profile_id_mapping : dict key scalar)
  (profile_id : val) : HM val :=
  (k <- hlift (h_hash profile_id) ;;
   hret (match dict_get k profile_id_mapping with
         | Some v => VScalar v
         | None => profile_id
         end))%heap.

Definition h_remap_multi_profile (profile_id_mapping : dict key scalar)
  (multi_profile : val) : HM unit :=
  (ids <- h_get multi_profile "data_profile_ids" ;;
   b <- h_truthy ids ;;
   if b : bool
   then ids' <- h_getitem multi_profile "data_profile_ids" ;;
        remapped_ids <- alloc (OList []) ;;
        items <- h_iter ids' ;;
        _ <- hfor (fun profile_id =>
                     v <- h_remap_profile_id profile_id_mapping profile_id ;;
                     h_append (VRef remapped_ids) v) items ;;
        h_setitem multi_profile "data_profile_ids" (VRef remapped_ids)
   else hret tt)%heap.

Definition h_remap_detection_rule (profile_id_mapping : dict key scalar)
  (detection_rule : val) : HM unit :=
  (rt <- h_get detection_rule "rule_type" ;;
   if h_is_str "multi_profile" rt
   then multi_profile <- h_get detection_rule "multi_profile" ;;
        b <- h_truthy multi_profile ;;
        if b : bool
        then h_remap_multi_profile profile_id_mapping multi_profile
        else hret tt
   else hret tt)%heap.

Definition _remap_profile_ids (fuel : nat) (profile : val)
  (profile_id_mapping : dict key scalar) : HM val :=
  (copy <- deepcopy fuel profile [] ;;
   let profile := fst copy in
   _ <- h_under "detection_rules"
          (h_each (h_remap_detection_rule profile_id_mapping)) profile ;;
   hret profile)%heap.

(** *** Reading a heap value as a JSON value *)

Definition json_of_scalar (c : scalar) : json :=
  match c with
  | SNull => JNull
  | SBool b => JBool b
  | SInt n => JInt n
  | SStr s => JStr s
  end.

Fixpoint read (fuel : nat) (h : heap) (v : val) : option json :=
  match v with
  | VScalar c => Some (json_of_scalar c)
  | VRef l =>
      match fuel with
      | O => None
      | S fuel' =>
          match h !! l with
          | Some (OList items) =>
              option_map JList
                ((fix read_items (items : list val) : option (list json) :=
                    match items with
                    | [] => Some []
                    | a :: items' =>
                        match read fuel' h a, read_items items' with
                        | Some j, Some js => Some (j :: js)
                        | _, _ => None
                        end
                    end) items)
          | Some (ODict entries) =>
              option_map JDict
                ((fix read_entries (entries : list (string * val))
                  : option (list (string * json)) :=
                    match entries with
                    | [] => Some []
                    | (k, a) :: entries' =>
                        match read fuel' h a, read_entries entries' with
                        | Some j, Some js => Some ((k, j) :: js)
                        | _, _ => None
                        end
                    end) entries)
          | None => None
          end
      end
  end.

(** *** Building the objects of a JSON value *)

(** What [response.json()] does: every list and dict of the document becomes
    an object of its own, so the value is a tree without sharing. *)
Fixpoint of_json (j : json) : HM val :=
  match j with
  | JNull => hret (VScalar SNull)
  | JBool b => hret (VScalar (SBool b))
  | JInt n => hret (VScalar (SInt n))
  | JStr s => hret (VScalar (SStr s))
  | JList xs =>
      (items <- (fix items_of (xs : list json) : HM (list val) :=
                   match xs with
                   | [] => hret []
                   | x :: xs' =>
                       v <- of_json x ;; vs <- items_of xs' ;; hret (v :: vs)
                   end) xs ;;
       l <- alloc (OList items) ;;
       hret (VRef l))%heap
  | JDict d =>
      (entries <- (fix entries_of (d : list (string * json))
                   : HM (list (string * val)) :=
                     match d with
                     | [] => hret []
                     | (k, x) :: d' =>
                         v <- of_json x ;; vs <- entries_of d' ;;
                         hret ((k, v) :: vs)
                     end) d ;;
       l <- alloc (ODict entries) ;;
       hret (VRef l))%heap
  end.

(** The heap that holds [j] alone, and the reference to [j] in it. *)
Definition loaded (j : json) : list obj := snd (of_json j []).
Definition root (j : json) : val := VRef (length (loaded j) - 1).

(** *** Freshness *)

(** The values that do not lead to a location below [n0]. *)
Definition fresh (n0 : nat) (v : val) : Prop :=
  match v with
  | VScalar _ => True
  | VRef l => n0 <= l
  end.

Definition obj_fresh (n0 : nat) (o : obj) : Prop :=
  match o with
  | OList items => Forall (fresh n0) items
  | ODict entries => Forall (fun kv => fresh n0 (snd kv)) entries
  end.

(** The objects from [n0] on only refer to objects from [n0] on. *)
Definition closed (n0 : nat) (h : heap) : Prop :=
  forall l o, n0 <= l -> h !! l = Some o -> obj_fresh n0 o.

(** [framed n0 P m]: run on a heap whose objects from [n0] on are closed,
    [m] leaves such a heap, does not touch any object below [n0], only
    grows the heap, and what it returns satisfies [P]. *)
Definition framed (n0 : nat) {A} (P : A -> Prop) (m : HM A) : Prop :=
  forall h,
    n0 <= length h -> closed n0 h ->
    closed n0 (snd (m h)) /\
    length h <= length (snd (m h)) /\
    (forall l, l < n0 -> snd (m h) !! l = h !! l) /\
    (forall a, fst (m h) = Ok a -> P a).
End Heap.

(** ** Sample data *)

Module Sample.
(** An expression tree three levels deep, its leaves referring to the
patterns [p1] and [p2]. *)
Definition tree : json :=
JDict [("operator_type", JStr "and");
     ("rule_item", JNull);
     ("sub_expressions",
       JList [JDict [("rule_item",
                       JDict [("id", JStr "p1"); ("name", JStr "SSN")]);
                     ("sub_expressions", JList [])];
              JDict [("operator_type", JStr "or");
                     ("sub_expressions",
                       JList [JDict [("rule_item",
                                       JDict [("id", JStr "p2")])];
                              JDict [("rule_item",
                                       JDict [("id", JStr "p1");
                                              ("occurrence", JInt 3)])]])]])].

Definition profile : json :=
JDict [("id", JInt 7);
     ("name", JStr "PII");
     ("profile_type", JStr "custom");
     ("advance_data_patterns_rules",
       JList [JDict [("conditions",
                       JList [JDict [("rule_items",
                                       JList [JDict [("id", JStr "p1");
                                                     ("name", JStr "SSN")];
                                              JDict [("id", JStr "p3")]])]])]]);
     ("detection_rules",
       JList [JDict [("rule_type", JStr "expression_tree");
                     ("expression_tree", tree)]])].

(** [p1] and [p2] exist at the destination, [p3] does not. *)
Definition pattern_id_mapping : dict key json :=
[(KStr "p1", JStr "p9"); (KStr "p2", JStr "p8")].

(** A profile that groups two other profiles, as the service stores it and
as the data model of the specification lays it out. *)
Definition multi_profile : json :=
JDict [("name", JStr "Group");
     ("detection_rules",
       JList [JDict [("rule_type", JStr "multi_profile");
                     ("multi_profile",
                       JDict [("operator_type", JStr "or");
                              ("data_profile_ids",
                                JList [JInt 11; JInt 12; JInt 13])])];
              JDict [("rule_type", JStr "expression_tree");
                     ("expression_tree", tree)]])].

Definition flat_multi_profile : json :=
JDict [("name", JStr "Group");
     ("detection_rules",
       JList [JDict [("rule_type", JStr "multi_profile");
                     ("data_profile_ids", JList [JInt 11; JInt 12])]])].

(** Profiles 11 and 12 exist at the destination, 13 does not. *)
Definition profile_id_mapping : dict key json :=
[(KInt 11, JInt 501); (KInt 12, JInt 502)].

(** Source patterns in which the name [SSN] comes twice, and destination
patterns in which it comes twice as well. *)
Definition ssn_first : json :=
  JDict [("id", JStr "p1"); ("name", JStr "SSN"); ("regex", JStr "\d{9}")].

Definition credit_card : json :=
  JDict [("id", JStr "p2"); ("name", JStr "Credit card");
         ("regex", JStr "\d{16}")].

Definition ssn_last : json :=
  JDict [("id", JStr "p3"); ("name", JStr "SSN");
         ("regex", JStr "\d{3}-\d{2}-\d{4}")].

Definition source_patterns : list json := [ssn_first; credit_card; ssn_last].

Definition dest_ssn_first : json :=
  JDict [("id", JStr "q1"); ("name", JStr "SSN"); ("regex", JStr "\d{9}")].

Definition dest_ssn_last : json :=
  JDict [("id", JStr "q2"); ("name", JStr "SSN");
         ("regex", JStr "\d{3}-\d{2}-\d{4}"); ("version", JInt 4)].

Definition dest_patterns : list json := [dest_ssn_first; dest_ssn_last].

(** A pattern whose destination copy lists its tags and its rule items in
another order and carries other confidence levels. *)
Definition passport : json :=
  JDict [("id", JStr "p7"); ("name", JStr "Passport");
         ("tags", JList [JStr "travel"; JStr "identity"]);
         ("detection",
           JDict [("supported_confidence_levels", JList [JStr "high"]);
                  ("rule_items",
                    JList [JDict [("type", JStr "regex");
                                  ("supported_confidence_levels", JNull)];
                           JDict [("type", JStr "keyword")]])])].

Definition dest_passport : json :=
  JDict [("id", JStr "q7"); ("name", JStr "Passport");
         ("tags", JList [JStr "identity"; JStr "travel"]);
         ("detection",
           JDict [("supported_confidence_levels",
                    JList [JStr "low"; JStr "high"]);
                  ("rule_items",
                    JList [JDict [("type", JStr "keyword")];
                           JDict [("type", JStr "regex")]])]);
         ("updated_at", JStr "2024-01-01")].

(** A syncer with two destinations and services that answer by the token
that comes with the request: [src] lists the sample patterns and the sample
profile, [dst] has nothing yet and refuses to create the pattern
[Credit card], [down] answers 503 to everything. *)
Definition resources (token : string) (u : url) : json :=
  if String.eqb token "src"
  then match u with
       | data_pattern_url => JList source_patterns
       | _ => JList [profile]
       end
  else JList [].

Definition answer (r : request) : result response :=
  if String.eqb (req_token r) "down"
  then Ok {| status_code := 503; text := "unavailable"; body := None |}
  else
    match req_method r, req_url r with
    | GET, data_pattern_url =>
        Ok {| status_code := 200; text := "{...}";
              body := Some (JDict [("resources",
                                     resources (req_token r) data_pattern_url)]) |}
    | GET, data_profile_url =>
        Ok {| status_code := 200; text := "[...]";
              body := Some (resources (req_token r) data_profile_url) |}
    | POST, data_pattern_url =>
        match req_json r with
        | Some (JDict d) =>
            if is_str "Credit card" (default JNull (dict_get "name" d))
            then Ok {| status_code := 400; text := "rejected"; body := None |}
            else Ok {| status_code := 201; text := "{}"; body := Some (JDict []) |}
        | _ => Ok {| status_code := 400; text := "no body"; body := None |}
        end
    | POST, _ =>
        Ok {| status_code := 201; text := "{}"; body := Some (JDict []) |}
    | PUT, _ => Ok {| status_code := 204; text := ""; body := None |}
    | GET, _ => Ok {| status_code := 404; text := "not found"; body := None |}
    end.

#[global] Instance server : Transport :=
  {| World := unit; send := fun r w => (answer r, w) |}.

Definition prod : destination := {| dest_name := "Prod"; dest_token := "dst" |}.
Definition dev : destination := {| dest_name := "Dev"; dest_token := "down" |}.

Definition syncer_prod_dev : syncer :=
  {| source_creds_name := "Source"; source_token := "src";
     destinations := [dev; prod] |}.

Definition syncer_prod : syncer :=
  {| source_creds_name := "Source"; source_token := "src";
     destinations := [prod] |}.

(** Two destinations that go by one name, the first of them down. *)
Definition prod_down : destination :=
  {| dest_name := "Prod"; dest_token := "down" |}.

Definition syncer_two_prods : syncer :=
  {| source_creds_name := "Source"; source_token := "src";
     destinations := [prod_down; prod] |}.

Definition start : @state server :=
  @Build_state server tt [].

(** The mappings above as the rewriters on objects take them. *)
Definition heap_pattern_id_mapping : dict key Heap.scalar :=
[(KStr "p1", Heap.SStr "p9"); (KStr "p2", Heap.SStr "p8")].

Definition heap_profile_id_mapping : dict key Heap.scalar :=
[(KInt 11, Heap.SInt 501); (KInt 12, Heap.SInt 502)].

(** A profile whose two detection rules share one expression tree: the
objects 2 and 3 both refer to the object 1. *)
Definition shared_heap : list Heap.obj :=
[Heap.ODict [("id", Heap.VScalar (Heap.SStr "p1"))];
 Heap.ODict [("rule_item", Heap.VRef 0)];
 Heap.ODict [("rule_type", Heap.VScalar (Heap.SStr "expression_tree"));
             ("expression_tree", Heap.VRef 1)];
 Heap.ODict [("rule_type", Heap.VScalar (Heap.SStr "expression_tree"));
             ("expression_tree", Heap.VRef 1)];
 Heap.OList [Heap.VRef 2; Heap.VRef 3];
 Heap.ODict [("name", Heap.VScalar (Heap.SStr "Shared"));
             ("detection_rules", Heap.VRef 4)]].

Definition shared_profile : json :=
JDict [("name", JStr "Shared");
     ("detection_rules",
       JList [JDict [("rule_type", JStr "expression_tree");
                     ("expression_tree",
                       JDict [("rule_item", JDict [("id", JStr "p1")])])];
              JDict [("rule_type", JStr "expression_tree");
                     ("expression_tree",
                       JDict [("rule_item", JDict [("id", JStr "p1")])])]])].

(** A list that contains itself. *)
Definition cyclic_heap : list Heap.obj :=
[Heap.OList [Heap.VRef 0]].
End Sample.

(** ** Identifiers and counterparts *)

(** [e['id']], when [e] has one. *)
Definition id_of (e : json) : option json :=
  match py_getitem e "id" with
  | Ok i => Some i
  | Err _ => None
  end.

(** The key under which the identifier of [e] is looked up in a mapping. *)
Definition id_key (e : json) : option key :=
  match id_of e with
  | Some i =>
      match hash_key i with
      | Ok k => Some k
      | Err _ => None
      end
  | None => None
  end.

(** The destination entity that goes by the name of [sp]: the last one of
    that name. *)
Definition counterpart (dst : list json) (sp : json) : option json :=
  match name_key sp with
  | Some n => last_named n dst
  | None => None
  end.

(** The identifier of the counterpart of [sp]. *)
Definition counterpart_id (dst : list json) (sp : json) : option json :=
  match counterpart dst sp with
  | Some de => id_of de
  | None => None
  end.

(** ** The order of a plan *)

(** The elements of a list in the order in which they are first seen. *)
Fixpoint first_seen {A} `{EqDecision A} (l : list A) : list A :=
  match l with
  | [] => []
  | x :: l' => x :: filter (fun y => y <> x) (first_seen l')
  end.

(** ** The entities that a listing keeps *)

(** [p.get("type") != "predefined"] *)
Definition is_custom_pattern (p : json) : bool :=
  match py_get p "type" with
  | Ok t => negb (is_str "predefined" t)
  | Err _ => false
  end.

(** [p.get("profile_type") == "custom"] *)
Definition is_custom_profile (p : json) : bool :=
  match py_get p "profile_type" with
  | Ok t => is_str "custom" t
  | Err _ => false
  end.

(** The body of a request has no metadata field at its top level. *)
Definition clean_body (b : json) : Prop :=
  exists d, b = JDict d /\ forall k, k ∈ METADATA_FIELDS -> dict_get k d = None.

(** A service that lists a custom pattern, a predefined one and one without
    type, and profiles either as a bare list or under [resources],
    according to the token. *)
Module Catalog.
Definition custom_pattern : json :=
  JDict [("id", JStr "c1"); ("name", JStr "Badge"); ("type", JStr "custom")].
Definition predefined_pattern : json :=
  JDict [("id", JStr "c2"); ("name", JStr "IBAN"); ("type", JStr "predefined")].
Definition untyped_pattern : json :=
  JDict [("id", JStr "c3"); ("name", JStr "Plate")].

Definition custom_profile : json :=
  JDict [("id", JInt 1); ("name", JStr "HR"); ("profile_type", JStr "custom")].
Definition predefined_profile : json :=
  JDict [("id", JInt 2); ("name", JStr "PCI");
         ("profile_type", JStr "predefined")].
Definition untyped_profile : json :=
  JDict [("id", JInt 3); ("name", JStr "Legacy")].

Definition all_patterns : list json :=
  [custom_pattern; predefined_pattern; untyped_pattern].
Definition all_profiles : list json :=
  [custom_profile; predefined_profile; untyped_profile].

Definition answer (r : request) : result response :=
  match req_method r, req_url r with
  | GET, data_pattern_url =>
      Ok {| status_code := 200; text := "{...}";
            body := Some (JDict [("resources", JList all_patterns)]) |}
  | GET, data_profile_url =>
      Ok {| status_code := 200; text := "...";
            body := Some (if String.eqb (req_token r) "bare"
                          then JList all_profiles
                          else JDict [("resources", JList all_profiles)]) |}
  | _, _ => Ok {| status_code := 500; text := "read only"; body := None |}
  end.

#[global] Instance service : Transport :=
  {| World := unit; send := fun r w => (answer r, w) |}.

Definition start : @state service := @Build_state service tt [].
End Catalog.
(** A syncer whose one destination carries the token of the source, and
    services that answer the first two requests, the listings of the source,
    as the sample source does and every later one as the empty sample
    destination does. *)
Module Mirror.
Definition as_destination (r : request) : request :=
  {| req_method := req_method r; req_url := req_url r;
     req_token := "dst"; req_json := req_json r |}.

Definition service : Transport :=
  {| World := nat;
     send := fun r n =>
               (if (n <? 2)%nat then Sample.answer r
                else Sample.answer (as_destination r), S n) |}.

Definition start : @state service := @Build_state service 0%nat [].

Definition syncer_mirror : syncer :=
  {| source_creds_name := "Source"; source_token := "src";
     destinations := [{| dest_name := "Mirror"; dest_token := "src" |}] |}.
End Mirror.

(** ** The requests a computation may issue *)

(** [only_issues P m]: running [m] only appends requests to the trace, and
    every request it appends satisfies [P]. *)
Definition only_issues `{Transport} (P : request -> Prop) {A} (m : M A) : Prop :=
  forall s, exists new, trace (snd (m s)) = trace s ++ new /\ Forall P new.

(** A listing of the patterns or of the profiles with [token]. *)
Definition listing_of (token : string) (rq : request) : Prop :=
  rq = list_patterns_request token \/ rq = list_profiles_request token.

(** A create or update call with [token]: a [POST] to the collection of the
    patterns or to the creation endpoint of the profiles, or a [PUT] to an
    entity, whose body (under [dataProfile] for a profile) holds no metadata
    field. *)
Definition write_to (token : string) (rq : request) : Prop :=
  req_token rq = token /\
  match req_method rq, req_url rq, req_json rq with
  | POST, data_pattern_url, Some b => clean_body b
  | PUT, data_pattern_item_url _, Some b => clean_body b
  | POST, data_profile_create_url, Some (JDict [(k, c)]) =>
      k = "dataProfile" /\ clean_body c
  | PUT, data_profile_item_url _, Some (JDict [(k, c)]) =>
      k = "dataProfile" /\ clean_body c
  | _, _, _ => False
  end.

(** The requests of the processing of one destination: the listing of the
    patterns of the source, listings of the destination and, outside a dry
    run, create and update calls to the destination. *)
Definition tenant_request (self : syncer) (dry_run : bool) (dest : destination)
  (rq : request) : Prop :=
  rq = list_patterns_request (source_token self) \/
  listing_of (dest_token dest) rq \/
  (dry_run = false /\ write_to (dest_token dest) rq).

(** The requests of a run: listings of the source, and the requests of the
    processing of the selected destinations. *)
Definition run_request (self : syncer) (dry_run : bool)
  (target_tenants : option (list string)) (rq : request) : Prop :=
  listing_of (source_token self) rq \/
  exists dest, dest ∈ tenants_to_sync self target_tenants /\
               (listing_of (dest_token dest) rq \/
                (dry_run = false /\ write_to (dest_token dest) rq)).

(** Computations that neither talk to the services nor touch the trace. *)
Definition stateless `{Transport} {A} (m : M A) : Prop :=
  forall s, snd (m s) = s.
(** ** Accounting for the items of a plan *)

Definition is_creating (msg : error_msg) : bool :=
  match msg with Error_creating _ _ => true | Error_updating _ _ => false end.

(** The errors of a report that come from creations, and from updates. *)
Definition creating_errors (r : kind_report) : nat :=
  count_if is_creating (errors r).

Definition updating_errors (r : kind_report) : nat :=
  count_if (fun msg => negb (is_creating msg)) (errors r).

(** Every entity that was to create is among the created ones or has its
    creation error, and likewise for the updates. *)
Definition accounted (r : kind_report) : Prop :=
  length (created r) + creating_errors r = rep_to_create r /\
  length (updated r) + updating_errors r = rep_to_update r.

(** What the turns of the apply loops keep or advance in a report: the
    three counts, the creations settled and the updates settled. *)
Definition tally (r : kind_report) : nat * nat * nat * nat * nat :=
  (rep_to_create r, rep_to_update r, rep_identical r,
   length (created r) + creating_errors r,
   length (updated r) + updating_errors r).

Definition one_creation (t : nat * nat * nat * nat * nat)
  : nat * nat * nat * nat * nat :=
  let '(c, u, i, dc, du) := t in (c, u, i, S dc, du).

Definition one_update (t : nat * nat * nat * nat * nat)
  : nat * nat * nat * nat * nat :=
  let '(c, u, i, dc, du) := t in (c, u, i, dc, S du).

(** ** The command line *)

(** What the script reads from the terminal: [input()] returns a line or
    raises (end of input, interrupt). *)
Class Console : Type := {
  Stdin : Type;
  input : Stdin -> result string * Stdin
}.

(** [c.lower()] for an ASCII letter. *)
Definition lower_char (c : Ascii.ascii) : Ascii.ascii :=
  let n := Ascii.nat_of_ascii c in
  if (65 <=? n)%nat && (n <=? 90)%nat then Ascii.ascii_of_nat (n + 32) else c.

Fixpoint lower (s : string) : string :=
  match s with
  | EmptyString => EmptyString
  | String c s' => String (lower_char c) (lower s')
  end.

(** [input().lower() == 'yes']: the answer is [yes] in any mix of cases.
    Lowering only matters on ASCII letters here, as no other character
    lowers to one of [y], [e], [s]. *)
Definition says_yes (answer : string) : bool := String.eqb (lower answer) "yes".

Section Main.
Context `{Differ} `{Transport} `{Console}.

(** One turn of the confirmation loop of the interactive mode:
    [if input().lower() == 'yes': syncer.sync(dry_run=False,
    target_tenants=[dest['name']])]. *)
Definition confirm_and_sync (self : syncer) (dest : destination)
  (cin : Stdin) : M Stdin :=
  match input cin with
  | (Ok answer, cin') =>
      if says_yes answer
      then (_ <- sync self false (Some [dest_name dest]) ;; ret cin')%sync
      else ret cin'
  | (Err e, _) => raise e
  end.

(** The modes of the script, from [--execute], [--all] and the [--tenant]
    options, once the synchronizer is built. *)
Definition main_modes (self : syncer) (execute all : bool)
  (tenants : option (list string)) (cin : Stdin) : M Stdin :=
  let dry_run := negb execute in
  if all && execute
  then (_ <- sync self false None ;; ret cin)%sync
  else
    match tenants with
    | Some (t :: ts) =>
        (_ <- sync self dry_run (Some (t :: ts)) ;; ret cin)%sync
    | _ =>
        if execute
        then (_ <- sync self true None ;;
              for_each (confirm_and_sync self) (destinations self) cin)%sync
        else (_ <- sync self true None ;; ret cin)%sync
    end.
End Main.

(** The names of the destinations that are confirmed, the answers being
    read in the order of the destinations until one cannot be read. *)
Fixpoint confirmed_names `{Console} (dests : list destination) (cin : Stdin)
  : list string :=
  match dests with
  | [] => []
  | d :: dests' =>
      match input cin with
      | (Ok answer, cin') =>
          if says_yes answer
          then dest_name d :: confirmed_names dests' cin'
          else confirmed_names dests' cin'
      | (Err _, _) => []
      end
  end.

(** A console that answers from a list of lines, then with empty lines. *)
#[global] Instance scripted : Console :=
  {| Stdin := list string;
     input := fun lines =>
                match lines with
                | line :: rest => (Ok line, rest)
                | [] => (Ok "", [])
                end |}.

(** The requests of the interactive mode: listings, and create or update
    calls to a destination that goes by a confirmed name. *)
Definition confirmed_request `{Console} (self : syncer) (cin : Stdin)
  (rq : request) : Prop :=
  (exists token, listing_of token rq) \/
  exists dest, dest ∈ destinations self /\
               dest_name dest ∈ confirmed_names (destinations self) cin /\
               write_to (dest_token dest) rq.
(** ** Authentication and construction *)

(** [__init__] authenticates the source, then every destination in turn.
    The token endpoint is an oracle of its own: any state, any answer to
    the [POST] that carries the scope and the credentials. *)
Module Connect.

Record auth_request : Type := {
  auth_scope : json;
  auth_service_account : json;
  auth_api_key : json
}.

Class Authority : Type := {
  Realm : Type;
  token_endpoint : auth_request -> Realm -> result response * Realm
}.

(** An entry of [self.destinations] *)
Record connection : Type := {
  name : json;
  token : json;
  creds : json
}.

(** The attributes that [__init__] sets from its arguments. *)
Record instance : Type := {
  source_creds : json;
  source_token : json;
  destinations : list connection
}.

Section Construction.
Context `{Authority}.

Record auth_state : Type := {
  realm : Realm;
  posted : list auth_request
}.

Definition AM (A : Type) : Type := auth_state -> result A * auth_state.

Definition aret {A} (a : A) : AM A := fun s => (Ok a, s).
Definition araise {A} (e : exn) : AM A := fun s => (Err e, s).
Definition alift {A} (r : result A) : AM A := fun s => (r, s).
Definition abind {A B} (m : AM A) (k : A -> AM B) : AM B :=
  fun s => match m s with
           | (Ok a, s') => k a s'
           | (Err e, s') => (Err e, s')
           end.
Definition atry {A} (body : AM A) (handler : exn -> AM A) : AM A :=
  fun s => match body s with
           | (Ok a, s') => (Ok a, s')
           | (Err e, s') => handler e s'
           end.

(** [requests.post(auth_url, data=..., auth=HTTPBasicAuth(...))] *)
Definition post (r : auth_request) : AM response :=
  fun s => let (res, w) := token_endpoint r (realm s) in
           (res, {| realm := w; posted := posted s ++ [r] |}).
End Construction.

Declare Scope auth_scope.
Delimit Scope auth_scope with auth.
Notation "x <- m ;; k" := (abind m (fun x => k))
  (at level 200, m at level 99, k at level 200, right associativity)
  : auth_scope.

(** [d.get(k, default)] *)
Definition py_get_default (x : json) (k : string) (dflt : json) : result json :=
  match x with
  | JDict d => Ok (default dflt (dict_get k d))
  | _ => Err (AttributeError "get")
  end.

Section Construction_calls.
Context `{Authority}.

Definition _authenticate (creds : json) : AM json :=
  (scope <- alift (py_getitem creds "scope") ;;
   service_account <- alift (py_getitem creds "service_account") ;;
   api_key <- alift (py_getitem creds "api_key") ;;
   response <- post {| auth_scope := scope;
                       auth_service_account := service_account;
                       auth_api_key := api_key |} ;;
   if negb (status_code response =? 200)%Z
   then araise (Failure "Authentication error" (status_code response)
                  (text response))
   else
     match body response with
     | Some j => alift (py_get j "access_token")
     | None => araise JSONDecodeError
     end)%auth.

(** [f"Tenant {len(self.destinations) + 1}"] *)
Definition default_name (destinations : list connection) : json :=
  JStr ("Tenant " +:+ pretty.pretty (length destinations + 1)).

(** One turn of [for dest_creds in dest_creds_list]: the destination is
    appended when it authenticates; otherwise the handler only reads its
    name for the message. *)
Definition connect (dest_creds : json) (destinations : list connection)
  : AM (list connection) :=
  atry
    (token <- _authenticate dest_creds ;;
     name <- alift (py_get_default dest_creds "name"
                      (default_name destinations)) ;;
     aret (destinations ++
           [{| name := name; token := token; creds := dest_creds |}]))%auth
    (fun e =>
       (_ <- alift (py_get_default dest_creds "name" (JStr "tenant")) ;;
        aret destinations)%auth).

Fixpoint connect_all (dest_creds_list : list json)
  (destinations : list connection) : AM (list connection) :=
  match dest_creds_list with
  | [] => aret destinations
  | dest_creds :: rest =>
      (destinations <- connect dest_creds destinations ;;
       connect_all rest destinations)%auth
  end.

Definition __init__ (source_creds : json) (dest_creds_list : list json)
  : AM instance :=
  (source_token <- _authenticate source_creds ;;
   destinations <- connect_all dest_creds_list [] ;;
   aret {| source_creds := source_creds; source_token := source_token;
           destinations := destinations |})%auth.

(** Every destination is tried in turn, from the state the one before it
    left, whatever came of it. *)
Fixpoint attempts (dest_creds_list : list json) (s : auth_state)
  : list (result json) * auth_state :=
  match dest_creds_list with
  | [] => ([], s)
  | dest_creds :: rest =>
      let (res, s1) := _authenticate dest_creds s in
      let (ress, s') := attempts rest s1 in
      (res :: ress, s')
  end.
End Construction_calls.

(** The credentials that authenticated, with their tokens. *)
Fixpoint connected (dest_creds_list : list json) (results : list (result json))
  : list (json * json) :=
  match dest_creds_list, results with
  | dest_creds :: rest, Ok token :: results' =>
      (dest_creds, token) :: connected rest results'
  | _ :: rest, Err _ :: results' => connected rest results'
  | _, _ => []
  end.

(** An endpoint that knows one account per scope, answers [401] to the
    others, and for the scope [tsg_id:3] an answer without token. *)
Definition answer (r : auth_request) : result response :=
  match auth_scope r with
  | JStr "tsg_id:1" =>
      Ok {| status_code := 200; text := "{...}";
            body := Some (JDict [("access_token", JStr "t1")]) |}
  | JStr "tsg_id:2" =>
      Ok {| status_code := 200; text := "{...}";
            body := Some (JDict [("access_token", JStr "t2")]) |}
  | JStr "tsg_id:3" =>
      Ok {| status_code := 200; text := "{}"; body := Some (JDict []) |}
  | _ => Ok {| status_code := 401; text := "unauthorized"; body := None |}
  end.

#[global] Instance endpoint : Authority :=
  {| Realm := unit; token_endpoint := fun r w => (answer r, w) |}.

Definition account (scope : string) (names : list (string * json)) : json :=
  JDict ([("service_account", JStr "sa"); ("api_key", JStr "key");
          ("scope", JStr scope)] ++ names).

Definition start : @auth_state endpoint := @Build_auth_state endpoint tt [].
End Connect.

(** The sample group of profiles as a destination stores it once it has
    been synchronized with the sample mappings. *)
Definition synced_group : json :=
  JDict [("id", JInt 900); ("name", JStr "Group");
         ("detection_rules",
           JList [JDict [("rule_type", JStr "multi_profile");
                         ("multi_profile",
                           JDict [("operator_type", JStr "or");
                                  ("data_profile_ids",
                                    JList [JInt 501; JInt 502; JInt 13])])];
                  JDict [("rule_type", JStr "expression_tree");
                         ("expression_tree",
  JDict [("operator_type", JStr "and");
         ("rule_item", JNull);
         ("sub_expressions",
           JList [JDict [("rule_item",
                           JDict [("id", JStr "p9"); ("name", JStr "SSN")]);
                         ("sub_expressions", JList [])];
                  JDict [("operator_type", JStr "or");
                         ("sub_expressions",
                           JList [JDict [("rule_item",
                                           JDict [("id", JStr "p8")])];
                                  JDict [("rule_item",
                                           JDict [("id", JStr "p9");
                                                  ("occurrence", JInt 3)])]])]])])]]);
         ("version", JInt 2)].

(** ** Documents as objects *)

(** [represents h j v fp]: in the heap [h] the value [v] is the document
    [j], every list and dict of [j] being the object at one location of
    [fp], the locations listed parent first. *)
#[warnings="-register-all"]
Inductive represents (h : list Heap.obj)
  : json -> Heap.val -> list nat -> Prop :=
| rep_null : represents h JNull (Heap.VScalar Heap.SNull) []
| rep_bool b : represents h (JBool b) (Heap.VScalar (Heap.SBool b)) []
| rep_int n : represents h (JInt n) (Heap.VScalar (Heap.SInt n)) []
| rep_str s : represents h (JStr s) (Heap.VScalar (Heap.SStr s)) []
| rep_list l items js fps :
    h !! l = Some (Heap.OList items) ->
    Forall3 (represents h) js items fps ->
    represents h (JList js) (Heap.VRef l) (l :: concat fps)
| rep_dict l entries d fps :
    h !! l = Some (Heap.ODict entries) ->
    map fst d = map fst entries ->
    Forall3 (represents h) (map snd d) (map snd entries) fps ->
    represents h (JDict d) (Heap.VRef l) (l :: concat fps).

(** A mapping to scalars, as the rewriters on values take it. *)
Definition scalar_mapping (m : dict key Heap.scalar) : dict key json :=
  map (fun kv => (fst kv, Heap.json_of_scalar (snd kv))) m.

(** From the heap [h], where a document has its objects at [fp], to the
    heap [h'], where it has them at [fp']: the objects at [fp'] are those
    at [fp] or new ones, and no other object of [h] has changed. *)
Definition evolves (h : list Heap.obj) (fp : list nat)
  (h' : list Heap.obj) (fp' : list nat) : Prop :=
  (forall l, l ∈ fp' -> l ∈ fp \/ length h <= l) /\
  (forall l, l < length h -> l ∉ fp -> h' !! l = h !! l) /\
  length h <= length h'.

(** [in_place D body pbody]: on a document of [D] with objects of its own,
    the statement [body], which updates the objects, does what the function
    [pbody] does to the value: it raises when [pbody] does, and otherwise
    leaves the result of [pbody] in the objects. *)
Definition in_place (D : json -> Prop) (body : Heap.val -> Heap.HM unit)
  (pbody : json -> result json) : Prop :=
  forall h v j fp,
    D j -> represents h j v fp -> NoDup fp ->
    match pbody j with
    | Ok j' =>
        exists h' fp',
          body v h = (Ok tt, h') /\ represents h' j' v fp' /\ NoDup fp' /\
          evolves h fp h' fp'
    | Err _ => exists e h', body v h = (Err e, h')
    end.

(** The keys of a Python dict are distinct; a document satisfies this at
    every dict. *)
Fixpoint distinct_keys (j : json) : bool :=
  match j with
  | JList l => forallb distinct_keys l
  | JDict d =>
      bool_decide (NoDup (map fst d)) &&
      forallb (fun kv => distinct_keys (snd kv)) d
  | _ => true
  end.

(** [copies copy j]: [copy] builds the document [j] again, in new objects,
    from objects that the memo does not know yet. *)
Definition copies
  (copy : Heap.val -> dict nat nat -> Heap.HM (Heap.val * dict nat nat))
  (j : json) : Prop :=
  forall h v fp memo,
    represents h j v fp -> NoDup fp ->
    (forall l, l ∈ fp -> dict_get l memo = None) ->
    exists v' memo' h' fp',
      copy v memo h = (Ok (v', memo'), h') /\
      represents h' j v' fp' /\ NoDup fp' /\
      Forall (fun l => length h <= l) fp' /\
      length h <= length h' /\
      (forall l, l < length h -> h' !! l = h !! l) /\
      (forall l, l ∉ fp -> dict_get l memo' = dict_get l memo).

(** The scalars [vs] are the values [js]. *)
Definition scalars_of (js : list json) (vs : list Heap.val) : Prop :=
  Forall2 (fun j a => exists s, a = Heap.VScalar s /\ j = Heap.json_of_scalar s)
    js vs.

(** * Properties *)

(** ** Dictionaries *)

Section Dict_facts.
Context {K V : Type} `{EqDecision K}.
Implicit Types (d : dict K V) (k : K) (v : V).

Lemma dict_get_set_eq k v d : dict_get k (dict_set k v d) = Some v.
Proof.
induction d as [|[k' v'] d IH]; simpl.
- by rewrite decide_True.
- destruct (decide (k' = k)) as [->|Hne]; simpl.
+ by rewrite decide_True.
+ by rewrite decide_False.
Qed.

Lemma dict_get_set_ne k k' v d :
k <> k' -> dict_get k' (dict_set k v d) = dict_get k' d.
Proof.
intros Hne. induction d as [|[k0 v0] d IH]; simpl.
- by rewrite decide_False.
- destruct (decide (k0 = k)) as [->|Hne0]; simpl.
+ by rewrite !decide_False.
+ destruct (decide (k0 = k')); [done|apply IH].
Qed.

Lemma dict_keys_set_present k v d :
is_Some (dict_get k d) -> dict_keys (dict_set k v d) = dict_keys d.
Proof.
induction d as [|[k' v'] d IH]; simpl.
- by intros [? ?].
- destruct (decide (k' = k)) as [->|Hne]; simpl; [done|].
intros Hs. unfold dict_keys in *. simpl. by rewrite IH.
Qed.

Lemma dict_get_Some_elem k v d : dict_get k d = Some v -> (k, v) ∈ d.
Proof.
induction d as [|[k' v'] d IH]; simpl; [done|].
destruct (decide (k' = k)) as [->|Hne].
- intros [= ->]. apply list_elem_of_here.
- intros Hg. apply list_elem_of_further, IH, Hg.
Qed.

Lemma dict_get_None_keys k d : dict_get k d = None <-> k ∉ dict_keys d.
Proof.
unfold dict_keys. induction d as [|[k' v'] d IH]; simpl.
- split; [intros _; apply not_elem_of_nil|done].
- rewrite not_elem_of_cons. destruct (decide (k' = k)) as [->|Hne].
+ split; [done|]. intros [? _]. done.
+ rewrite IH. split; [intros ?; split; [congruence|done]|intros [_ ?]; done].
Qed.

End Dict_facts.

(** ** The normalizer *)

Lemma normalize_get (k : string) (d : list (string * json)) :
  dict_get k (filter (fun kv => fst kv ∉ METADATA_FIELDS) d) =
  if decide (k ∉ METADATA_FIELDS) then dict_get k d else None.
Proof.
  induction d as [|[k' v'] d IH].
  - simpl. by destruct (decide (k ∉ METADATA_FIELDS)).
  - rewrite filter_cons. cbn [fst].
    destruct (decide (k' ∉ METADATA_FIELDS)) as [Hk'|Hk'].
    + cbn [dict_get]. destruct (decide (k' = k)) as [->|Hne]; [|apply IH].
      by destruct (decide (k ∉ METADATA_FIELDS)).
    + rewrite IH. cbn [dict_get].
      destruct (decide (k' = k)) as [->|Hne]; [|done].
      by destruct (decide (k ∉ METADATA_FIELDS)).
Qed.

(** C2: [_normalize_pattern] returns a dict that holds none of the eight
    reserved metadata keys, in which every other key has the value it had
    (nested structures included, as they are not looked into), and whose
    entries come in their original order. *)
Theorem normalize_removes_metadata (d : list (string * json)) :
  exists d',
    _normalize_pattern (JDict d) = Ok (JDict d') /\
    (forall k,
        k ∈ ["id"; "created_at"; "created_by"; "updated_at";
             "updated_by"; "version"; "tenant"; "tenant_id"] ->
        (k ∉ dict_keys d') /\ dict_get k d' = None) /\
    (forall k,
        k ∉ ["id"; "created_at"; "created_by"; "updated_at";
             "updated_by"; "version"; "tenant"; "tenant_id"] ->
        dict_get k d' = dict_get k d) /\
    d' `sublist_of` d.
Proof.
  eexists. split; [reflexivity|].
  change ["id"; "created_at"; "created_by"; "updated_at";
          "updated_by"; "version"; "tenant"; "tenant_id"] with METADATA_FIELDS.
  split; [|split].
  - intros k Hk.
    assert (Hnone : dict_get k (filter (fun kv => fst kv ∉ METADATA_FIELDS) d) = None).
    { rewrite normalize_get.
      destruct (decide (k ∉ METADATA_FIELDS)); [contradiction|done]. }
    split; [|done]. by apply dict_get_None_keys.
  - intros k Hk. rewrite normalize_get.
    by destruct (decide (k ∉ METADATA_FIELDS)).
  - apply sublist_filter.
Qed.

(** ** Rewriting at a set of paths *)

Lemma rbind_Ok {A B} (r : result A) (k : A -> result B) (b : B) :
  rbind r k = Ok b -> exists a, r = Ok a /\ k a = Ok b.
Proof. destruct r as [a|e]; simpl; [eauto|done]. Qed.

Lemma rmap_Forall2 {A B} (f : A -> result B) (xs : list A) (ys : list B) :
  rmap f xs = Ok ys -> Forall2 (fun x y => f x = Ok y) xs ys.
Proof.
  revert ys. induction xs as [|x xs IH]; intros ys; simpl.
  - intros [= <-]. constructor.
  - intros Hb. apply rbind_Ok in Hb as (y & Hy & Hb).
    apply rbind_Ok in Hb as (ys' & Hys & [= <-]).
    constructor; [done|by apply IH].
Qed.

Lemma dict_set_same {K V} `{EqDecision K} (k : K) (v : V) (d : list (K * V)) :
  dict_get k d = Some v -> dict_set k v d = d.
Proof.
  induction d as [|[k' v'] d IH]; simpl; [done|].
  destruct (decide (k' = k)) as [->|Hne].
  - by intros [= ->].
  - intros Hg. by rewrite IH.
Qed.

Lemma shape_eq_refl v : shape_eq v v.
Proof. by destruct v. Qed.

Lemma shape_eq_trans v1 v2 v3 : shape_eq v1 v2 -> shape_eq v2 v3 -> shape_eq v1 v3.
Proof.
  destruct v1, v2; simpl; try done; try (intros ->; done);
    destruct v3; simpl; try done; congruence.
Qed.

Lemma jget_falsy s rest v : truthy v = false -> jget (s :: rest) v = None.
Proof.
  destruct s, v as [| | | |[|]|[|]]; simpl; try done.
Qed.

(** A value that holds nothing to rewrite agrees with itself. *)
Lemma agree_except_same S f x :
  (forall path v, S path = true -> jget path x = Some v -> f v = v) ->
  agree_except S f x x.
Proof.
  intros Hfix path _. destruct (jget path x) as [v|] eqn:Hv; [|done].
  exists v. split; [done|]. split; [|split].
  - intros HS. symmetry. by apply (Hfix path).
  - done.
  - intros _. apply shape_eq_refl.
Qed.

Lemma agree_except_ext S S' f x x' :
  (forall path, S path = S' path) ->
  agree_except S f x x' -> agree_except S' f x x'.
Proof.
  intros Hext Hag path Hpre.
  specialize (Hag path).
  assert (Hpre' : forall q r, path = q ++ r -> r <> [] -> S q = false).
  { intros q r Hp Hr. rewrite Hext. by apply (Hpre q r). }
  specialize (Hag Hpre'). destruct (jget path x) as [v|]; [|done].
  destruct Hag as (v' & Hv' & H1 & H2 & H3). exists v'.
  split; [done|]. split; [|split].
  - rewrite <- Hext. done.
  - intros Hfree. apply H2. intros q. by rewrite Hext.
  - rewrite <- Hext. done.
Qed.

(** A rewriter of the values at the paths of [S]. *)
Definition rewrites (S : list step -> bool) (f : json -> json)
  (body : json -> result json) : Prop :=
  forall x x', body x = Ok x' -> agree_except S f x x'.

Lemma under_agree k S f body x x' :
  S [] = false ->
  under k body x = Ok x' ->
  (forall v v', jget [SKey k] x = Some v -> truthy v = true ->
                body v = Ok v' -> agree_except S f v v') ->
  agree_except (pkey k S) f x x'.
Proof.
  intros Hnil Hu Hbody. unfold under in Hu.
  apply rbind_Ok in Hu as (v & Hv & Hu).
  destruct x as [| | | | |d]; simpl in Hv; try done.
  injection Hv as <-.
  destruct (truthy (default JNull (dict_get k d))) eqn:Htr.
  - apply rbind_Ok in Hu as (v' & Hv' & Hset). simpl in Hset.
    injection Hset as <-.
    destruct (dict_get k d) as [v|] eqn:Hget; [|done]. simpl in *.
    rewrite Hget in Hbody. specialize (Hbody v v' eq_refl Htr Hv').
    intros [|[k'|i] rest] Hpre; simpl.
    + eexists. split; [done|]. split; [done|]. split.
      * intros Hfree. f_equal.
        destruct (Hbody [] ltac:(intros [|] ?; simpl; intros [=]; congruence))
          as (w & [= <-] & _ & H2 & _).
        rewrite H2, dict_set_same; [done..|].
        intros q. specialize (Hfree (SKey k :: q)). simpl in Hfree.
        by rewrite String.eqb_refl in Hfree.
      * intros _. symmetry. apply dict_keys_set_present. by rewrite Hget.
    + destruct (decide (k = k')) as [<-|Hne].
      * rewrite Hget, dict_get_set_eq, String.eqb_refl. simpl.
        apply (Hbody rest). intros q r -> Hr.
        specialize (Hpre (SKey k :: q) r eq_refl Hr). simpl in Hpre.
        by rewrite String.eqb_refl in Hpre.
      * rewrite dict_get_set_ne by done.
        destruct (dict_get k' d) as [v0|]; [|done].
        destruct (jget rest v0) as [w|]; [|done].
        exists w. split; [done|].
        assert (Hk : String.eqb k' k = false) by (apply String.eqb_neq; congruence).
        rewrite Hk. simpl. split; [done|]. split; [done|].
        intros _. apply shape_eq_refl.
    + done.
  - injection Hu as <-. apply agree_except_same.
    intros [|[k'|i] rest] w; simpl; try done.
    destruct (String.eqb k' k) eqn:Hk; [|done]. apply String.eqb_eq in Hk as ->.
    simpl. intros HS. destruct (dict_get k d) as [v|]; [|done]. simpl in Htr.
    destruct rest as [|s rest]; [congruence|].
    by rewrite jget_falsy.
Qed.

Lemma under_rewrites k S f body :
  S [] = false -> rewrites S f body -> rewrites (pkey k S) f (under k body).
Proof.
  intros Hnil Hbody x x' Hu. eapply under_agree; [done|exact Hu|].
  intros v v' _ _. apply Hbody.
Qed.

Lemma each_agree S f body x x' :
  each body x = Ok x' ->
  (forall i a b, jget [SIdx i] x = Some a -> body a = Ok b ->
                 agree_except (S i) f a b) ->
  agree_except (pidxi S) f x x'.
Proof.
  intros He Hbody.
  assert (Hother : (forall l, x <> JList l) -> x' = x ->
                   agree_except (pidxi S) f x x').
  { intros Hnl ->. apply agree_except_same.
    intros [|[k|i] rest] w; simpl; try done.
    intros _. destruct x; try done. by destruct (Hnl l). }
  destruct x as [| | | |l|d]; simpl in He;
    try (apply Hother; [done|];
         repeat (apply rbind_Ok in He as (? & ? & He)); congruence).
  clear Hother. apply rbind_Ok in He as (l' & Hl' & [= <-]).
  apply rmap_Forall2 in Hl'.
  assert (Hlen : length l = length l') by (by eapply Forall2_length).
  assert (Hlk : forall i a, l !! i = Some a ->
                  exists b, l' !! i = Some b /\ agree_except (S i) f a b).
  { intros i a Ha.
    destruct (Forall2_lookup_l _ _ _ _ _ Hl' Ha) as (b & Hb & Hab).
    exists b. split; [done|]. apply Hbody; [|done]. simpl. by rewrite Ha. }
  intros [|[k|i] rest] Hpre; simpl.
  - eexists. split; [done|]. split; [done|]. split; [|done].
    intros Hfree. f_equal. apply list_eq. intros i.
    destruct (l !! i) as [a|] eqn:Ha.
    + destruct (Hlk i a Ha) as (b & -> & Hab). f_equal.
      destruct (Hab [] ltac:(intros [|] ?; simpl; intros [=]; congruence))
        as (w & [= <-] & _ & H2 & _).
      apply H2. intros q. apply (Hfree (SIdx i :: q)).
    + apply lookup_ge_None. apply lookup_ge_None in Ha. lia.
  - done.
  - destruct (l !! i) as [a|] eqn:Ha.
    + destruct (Hlk i a Ha) as (b & -> & Hab). apply (Hab rest).
      intros q r -> Hr. apply (Hpre (SIdx i :: q) r eq_refl Hr).
    + assert (l' !! i = None) as ->; [|done].
      apply lookup_ge_None. apply lookup_ge_None in Ha. lia.
Qed.

Lemma each_rewrites S f body :
  rewrites S f body -> rewrites (pidx S) f (each body).
Proof.
  intros Hbody x x' He. apply each_agree with (body := body); [done|].
  intros i a b _. apply Hbody.
Qed.

(** Two sets of paths none of which extends a path of the other. *)
Definition apart (S1 S2 : list step -> bool) : Prop :=
  forall p q, (S1 p = true -> S2 (p ++ q) = false) /\
              (S2 p = true -> S1 (p ++ q) = false).

Lemma agree_except_seq S1 S2 f x x1 x2 :
  apart S1 S2 ->
  agree_except S1 f x x1 -> agree_except S2 f x1 x2 ->
  agree_except (punion S1 S2) f x x2.
Proof.
  intros Hap H1 H2 path Hpre.
  assert (Hpre1 : forall q r, path = q ++ r -> r <> [] -> S1 q = false).
  { intros q r Hp Hr. specialize (Hpre q r Hp Hr). unfold punion in Hpre.
    by apply orb_false_iff in Hpre as [? ?]. }
  assert (Hpre2 : forall q r, path = q ++ r -> r <> [] -> S2 q = false).
  { intros q r Hp Hr. specialize (Hpre q r Hp Hr). unfold punion in Hpre.
    by apply orb_false_iff in Hpre as [? ?]. }
  specialize (H1 path Hpre1). specialize (H2 path Hpre2).
  destruct (jget path x) as [v|].
  - destruct H1 as (v1 & Hv1 & A1 & B1 & C1). rewrite Hv1 in H2.
    destruct H2 as (v2 & Hv2 & A2 & B2 & C2).
    exists v2. split; [done|]. unfold punion. split; [|split].
    + intros HS. apply orb_true_iff in HS as [HS|HS].
      * rewrite <- (A1 HS). apply B2. intros q. by apply (Hap path q).
      * rewrite (A2 HS). f_equal. apply B1. intros q. by apply (Hap path q).
    + intros Hfree. rewrite B2, B1; [done| |].
      * intros q. specialize (Hfree q). by apply orb_false_iff in Hfree as [? ?].
      * intros q. specialize (Hfree q). by apply orb_false_iff in Hfree as [? ?].
    + intros HS. apply orb_false_iff in HS as [HS1 HS2].
      eapply shape_eq_trans; [by apply C1|by apply C2].
  - by rewrite H1 in H2.
Qed.

Lemma mapped_not_mem (m : list (key * json)) i k :
  hash_key i = Ok k -> dict_mem k m = false -> mapped m i = i.
Proof.
  unfold mapped, dict_mem. intros ->. by destruct (dict_get k m).
Qed.

Lemma remap_id_rewrites m :
  rewrites (pkey "id" here) (mapped m) (remap_id m).
Proof.
  intros x x' Hr. unfold remap_id in Hr.
  apply rbind_Ok in Hr as (i & Hi & Hr).
  apply rbind_Ok in Hr as (k & Hk & Hr).
  destruct x as [| | | | |d]; simpl in Hi; try done. injection Hi as <-.
  destruct (dict_mem k m) eqn:Hmem.
  - apply rbind_Ok in Hr as (i' & Hi' & Hr).
    apply rbind_Ok in Hr as (k' & Hk' & Hr).
    simpl in Hi'. destruct (dict_get "id" d) as [i0|] eqn:Hget; [|done].
    injection Hi' as <-. simpl in Hk. rewrite Hk in Hk'. injection Hk' as <-.
    destruct (dict_get k m) as [v|] eqn:Hv; [|done]. simpl in Hr.
    injection Hr as <-.
    assert (Hm : mapped m i0 = v) by (unfold mapped; by rewrite Hk, Hv).
    intros [|[k'|n] rest] Hpre; simpl.
    + eexists. split; [done|]. split; [done|]. split.
      * intros Hfree. specialize (Hfree [SKey "id"]). done.
      * intros _. symmetry. apply dict_keys_set_present. by rewrite Hget.
    + destruct (decide ("id" = k')) as [<-|Hne].
      * rewrite Hget, dict_get_set_eq. simpl.
        destruct rest as [|s rest]; simpl.
        -- exists v. split; [done|]. split; [by intros _|]. split; [|done].
           intros Hfree. specialize (Hfree []). done.
        -- specialize (Hpre [SKey "id"] (s :: rest) eq_refl). simpl in Hpre.
           by specialize (Hpre ltac:(done)).
      * rewrite dict_get_set_ne by done.
        destruct (dict_get k' d) as [v0|]; [|done].
        destruct (jget rest v0) as [w|]; [|done].
        exists w. split; [done|].
        assert (Hkk : String.eqb k' "id" = false) by (apply String.eqb_neq; congruence).
        rewrite Hkk. simpl. split; [done|]. split; [done|].
        intros _. apply shape_eq_refl.
    + done.
  - injection Hr as <-. apply agree_except_same.
    intros [|[k'|n] rest] w; simpl; try done.
    destruct (String.eqb k' "id") eqn:Hkk; [|done].
    apply String.eqb_eq in Hkk as ->. simpl.
    destruct rest; [|done]. intros _.
    destruct (dict_get "id" d) as [i0|]; [|done]. simpl in Hk.
    intros [= <-]. by eapply mapped_not_mem.
Qed.

Lemma apart_pkey k1 k2 S1 S2 : k1 <> k2 -> apart (pkey k1 S1) (pkey k2 S2).
Proof.
  intros Hne [|[k|i] p] q; simpl; try done.
  destruct (String.eqb k k1) eqn:H1, (String.eqb k k2) eqn:H2; simpl; try done.
  apply String.eqb_eq in H1, H2. congruence.
Qed.

Lemma tree_id_path_unfold path :
  punion (pkey "rule_item" (pkey "id" here))
         (pkey "sub_expressions" (pidx tree_id_path)) path
  = tree_id_path path.
Proof. by destruct path as [|[k|i] rest]. Qed.

Lemma remap_tree_rewrites m n :
  rewrites tree_id_path (mapped m) (remap_tree n m).
Proof.
  induction n as [|n IH]; intros x x' Hx; simpl in Hx; [done|].
  apply rbind_Ok in Hx as (x1 & Hx1 & Hx).
  eapply agree_except_ext; [apply tree_id_path_unfold|].
  eapply agree_except_seq.
  - by apply apart_pkey.
  - eapply under_rewrites; [done|apply remap_id_rewrites|exact Hx1].
  - eapply under_rewrites; [done|apply each_rewrites, IH|exact Hx].
Qed.

Lemma remap_pattern_ids_rewrites m :
  rewrites pattern_id_path (mapped m) (fun p => _remap_pattern_ids p m).
Proof.
  intros x x' Hx. unfold _remap_pattern_ids in Hx.
  apply rbind_Ok in Hx as (x1 & Hx1 & Hx).
  unfold pattern_id_path. eapply agree_except_seq.
  - by apply apart_pkey.
  - eapply under_rewrites; [done| |exact Hx1].
    apply each_rewrites, under_rewrites; [done|].
    apply each_rewrites, under_rewrites; [done|].
    apply each_rewrites, remap_id_rewrites.
  - eapply under_rewrites; [done| |exact Hx].
    apply each_rewrites, under_rewrites; [done|].
    intros t t'. apply remap_tree_rewrites.
Qed.

(** *** The rewriters return on well-formed input *)

Lemma forallb_elem {A} (f : A -> bool) (l : list A) (x : A) :
  forallb f l = true -> x ∈ l -> f x = true.
Proof.
  intros Hf Hx. apply (proj1 (forallb_forall f l) Hf). by apply list_elem_of_In.
Qed.

Definition total (wf : json -> bool) (body : json -> result json) : Prop :=
  forall x, wf x = true -> exists x', body x = Ok x'.

Lemma rmap_total {A B} (f : A -> result B) (xs : list A) :
  Forall (fun x => exists y, f x = Ok y) xs -> exists ys, rmap f xs = Ok ys.
Proof.
  induction 1 as [|x xs [y Hy] _ [ys Hys]]; simpl; [by eexists|].
  rewrite Hy. simpl. rewrite Hys. simpl. by eexists.
Qed.

Lemma under_total k wf body :
  total wf body -> total (wf_under k wf) (under k body).
Proof.
  intros Hb [| | | | |d] Hwf; simpl in Hwf; try done.
  unfold under. simpl.
  destruct (dict_get k d) as [v|]; simpl; [|by eexists].
  destruct (truthy v); [|by eexists].
  destruct (Hb v Hwf) as [v' ->]. simpl. by eexists.
Qed.

Lemma each_total wf body :
  total wf body -> total (wf_each wf) (each body).
Proof.
  intros Hb [| | | |l|] Hwf; simpl in Hwf; try done. simpl.
  destruct (rmap_total body l) as [l' ->]; [|simpl; by eexists].
  apply list.Forall_forall. intros x Hx. apply Hb.
  exact (forallb_elem _ _ _ Hwf Hx).
Qed.

Lemma remap_id_total m : total wf_item (remap_id m).
Proof.
  intros [| | | | |d] Hwf; simpl in Hwf; try done.
  unfold remap_id. simpl.
  destruct (dict_get "id" d) as [i|] eqn:Hi; [|done]. simpl.
  destruct (hash_key i) as [k|] eqn:Hk; [|done]. simpl.
  unfold dict_mem. destruct (dict_get k m) as [v|] eqn:Hv; by eexists.
Qed.

(** Rewriting under one key leaves the well-formedness under another. *)
Lemma under_wf_other k k' wf body x x' :
  k <> k' -> under k body x = Ok x' -> wf_under k' wf x' = wf_under k' wf x.
Proof.
  intros Hne Hu. unfold under in Hu.
  apply rbind_Ok in Hu as (v & Hv & Hu).
  destruct x as [| | | | |d]; simpl in Hv; try done.
  destruct (truthy v); [|by injection Hu as <-].
  apply rbind_Ok in Hu as (v' & _ & [= <-]).
  simpl. by rewrite dict_get_set_ne.
Qed.

Lemma json_depth_dict_get k d v :
  dict_get k d = Some v -> (json_depth v < json_depth (JDict d))%nat.
Proof.
  simpl. induction d as [|[k' v'] d IH]; simpl; [done|].
  destruct (decide (k' = k)); [intros [= ->]; lia|].
  intros Hg. specialize (IH Hg). lia.
Qed.

Lemma json_depth_elem x l :
  x ∈ l -> (json_depth x < json_depth (JList l))%nat.
Proof.
  simpl. induction 1 as [|? ? ? _ IH]; simpl; lia.
Qed.

Lemma wf_tree_rule_item d :
  wf_tree (JDict d) = true -> wf_under "rule_item" wf_item (JDict d) = true.
Proof.
  simpl. intros Hwf. destruct (dict_get "rule_item" d) as [v|] eqn:Hv; [|done].
  apply dict_get_Some_elem in Hv.
  pose proof (forallb_elem _ _ _ Hwf Hv) as Hkv. simpl in Hkv.
  by destruct (truthy v).
Qed.

Lemma wf_tree_sub_expressions d v :
  wf_tree (JDict d) = true -> dict_get "sub_expressions" d = Some v ->
  truthy v = true ->
  exists l, v = JList l /\ Forall (fun t => wf_tree t = true) l.
Proof.
  intros Hwf Hv Htr. apply dict_get_Some_elem in Hv.
  simpl in Hwf. pose proof (forallb_elem _ _ _ Hwf Hv) as Hkv.
  simpl in Hkv. rewrite Htr in Hkv. simpl in Hkv.
  destruct v as [| | | |l|]; try done. exists l. split; [done|].
  apply list.Forall_forall. intros t Ht. exact (forallb_elem _ _ _ Hkv Ht).
Qed.

Lemma remap_tree_total m n tree :
  wf_tree tree = true -> (json_depth tree < n)%nat ->
  exists tree', remap_tree n m tree = Ok tree'.
Proof.
  revert tree. induction n as [|n IH]; intros tree Hwf Hd; [lia|].
  destruct tree as [| | | | |d]; try done. simpl.
  destruct (under_total "rule_item" _ _ (remap_id_total m) (JDict d)
              (wf_tree_rule_item d Hwf)) as [tree1 Htree1].
  rewrite Htree1. simpl.
  assert (Hsub : exists d1, tree1 = JDict d1 /\
                   dict_get "sub_expressions" d1 = dict_get "sub_expressions" d).
  { unfold under in Htree1. simpl in Htree1.
    destruct (truthy _); [|injection Htree1 as <-; by eexists].
    apply rbind_Ok in Htree1 as (v' & _ & [= <-]).
    eexists. split; [done|]. by rewrite dict_get_set_ne. }
  destruct Hsub as (d1 & -> & Hd1). unfold under. simpl. rewrite Hd1.
  destruct (dict_get "sub_expressions" d) as [v|] eqn:Hv; simpl; [|by eexists].
  destruct (truthy v) eqn:Htr; [|by eexists].
  destruct (wf_tree_sub_expressions d v Hwf Hv Htr) as (l & -> & Hl).
  simpl. destruct (rmap_total (remap_tree n m) l) as [l' ->]; [|simpl; by eexists].
  apply list.Forall_forall. intros t Ht. apply IH.
  - rewrite list.Forall_forall in Hl. by apply Hl.
  - apply json_depth_dict_get in Hv. apply json_depth_elem in Ht. lia.
Qed.

Lemma remap_pattern_ids_total m :
  total wf_pattern_refs (fun p => _remap_pattern_ids p m).
Proof.
  intros p Hwf. unfold wf_pattern_refs in Hwf.
  apply andb_true_iff in Hwf as [Hadv Hdet].
  unfold _remap_pattern_ids.
  edestruct (under_total "advance_data_patterns_rules") as [p1 Hp1];
    [|exact Hadv|].
  { apply each_total, under_total, each_total, under_total, each_total,
      remap_id_total. }
  rewrite Hp1. simpl.
  eapply under_total.
  - apply each_total, under_total. intros t Ht. unfold _remap_expression_tree.
    apply remap_tree_total; [done|lia].
  - erewrite under_wf_other; [exact Hdet| |exact Hp1]. done.
Qed.

(** *** Reading the rewritten identifiers *)

(** No path of the set extends another one. *)
Definition prefix_free (S : list step -> bool) : Prop :=
  forall q r, S q = true -> r <> [] -> S (q ++ r) = false.

Lemma prefix_free_here : prefix_free here.
Proof. intros [|] [|]; done. Qed.

Lemma prefix_free_pkey k S : prefix_free S -> prefix_free (pkey k S).
Proof.
  intros HS [|[k'|i] q] r; simpl; try done.
  destruct (String.eqb k' k); simpl; [apply HS|done].
Qed.

Lemma prefix_free_pidx S : prefix_free S -> prefix_free (pidx S).
Proof. intros HS [|[k'|i] q] r; simpl; try done. apply HS. Qed.

Lemma prefix_free_punion S1 S2 :
  apart S1 S2 -> prefix_free S1 -> prefix_free S2 ->
  prefix_free (punion S1 S2).
Proof.
  intros Hap H1 H2 q r Hq Hr. unfold punion in *.
  apply orb_true_iff in Hq as [Hq|Hq]; apply orb_false_iff; split.
  - by apply H1.
  - by apply (Hap q r).
  - by apply (Hap q r).
  - by apply H2.
Qed.

Lemma prefix_free_tree_id_path : prefix_free tree_id_path.
Proof.
  assert (Hn : forall n q r, (length q <= n)%nat -> tree_id_path q = true ->
                             r <> [] -> tree_id_path (q ++ r) = false).
  { induction n as [|n IH]; intros q r Hlen Hq Hr.
    - destruct q; [done|simpl in Hlen; lia].
    - rewrite <- tree_id_path_unfold in Hq. rewrite <- tree_id_path_unfold.
      revert q r Hlen Hq Hr.
      assert (Hpf : forall q r, (length q <= n)%nat ->
                      pidx tree_id_path q = true -> r <> [] ->
                      pidx tree_id_path (q ++ r) = false).
      { intros [|[k|i] q] r Hlen; simpl; try done.
        apply IH. simpl in Hlen. lia. }
      intros q r Hlen Hq Hr. unfold punion in *.
      apply orb_true_iff in Hq as [Hq|Hq]; apply orb_false_iff; split.
      + by apply (prefix_free_pkey _ _ (prefix_free_pkey _ _ prefix_free_here)).
      + by apply (apart_pkey "rule_item" "sub_expressions" (pkey "id" here)
                    (pidx tree_id_path) ltac:(done) q r).
      + by apply (apart_pkey "rule_item" "sub_expressions" (pkey "id" here)
                    (pidx tree_id_path) ltac:(done) q r).
      + destruct q as [|[k|i] q]; simpl in *; try done.
        destruct (String.eqb k "sub_expressions"); simpl in *; [|done].
        apply Hpf; [lia|done..]. }
  intros q r. by apply (Hn (length q)).
Qed.

Lemma prefix_free_pattern_id_path : prefix_free pattern_id_path.
Proof.
  apply prefix_free_punion.
  - by apply apart_pkey.
  - repeat first [apply prefix_free_pkey | apply prefix_free_pidx].
    apply prefix_free_here.
  - repeat first [apply prefix_free_pkey | apply prefix_free_pidx].
    apply prefix_free_tree_id_path.
Qed.

Lemma agree_except_at S f x x' path v :
  prefix_free S -> agree_except S f x x' ->
  S path = true -> jget path x = Some v -> jget path x' = Some (f v).
Proof.
  intros Hpf Hag HS Hv. specialize (Hag path). rewrite Hv in Hag.
  destruct Hag as (v' & Hv' & H1 & _).
  - intros q r -> Hr. destruct (S q) eqn:Hq; [|done].
    by rewrite (Hpf q r Hq Hr) in HS.
  - by rewrite Hv', H1.
Qed.

Lemma tree_id_path_node ns :
  tree_id_path (node_path ns ++ [SKey "rule_item"; SKey "id"]) = true.
Proof. induction ns as [|n ns IH]; [done|apply IH]. Qed.

(** C3: [_remap_pattern_ids] returns on every well-formed profile; whenever
    it returns, the identifier of every node of every expression tree, at any
    depth, and the identifier of every rule item of the advanced rules is
    replaced by its image in the mapping, or kept when the mapping has no
    entry for it, and the rest of the profile keeps its shape, its order and
    its values. *)
Theorem remap_pattern_ids_spec (profile : json) (mapping : dict key json) :
  (wf_pattern_refs profile = true ->
   exists profile', _remap_pattern_ids profile mapping = Ok profile') /\
  (forall profile',
      _remap_pattern_ids profile mapping = Ok profile' ->
      (forall i ns v,
          jget ([SKey "detection_rules"; SIdx i; SKey "expression_tree"]
                  ++ node_path ns ++ [SKey "rule_item"; SKey "id"]) profile
          = Some v ->
          jget ([SKey "detection_rules"; SIdx i; SKey "expression_tree"]
                  ++ node_path ns ++ [SKey "rule_item"; SKey "id"]) profile'
          = Some (mapped mapping v)) /\
      (forall i j k v,
          jget [SKey "advance_data_patterns_rules"; SIdx i; SKey "conditions";
                SIdx j; SKey "rule_items"; SIdx k; SKey "id"] profile
          = Some v ->
          jget [SKey "advance_data_patterns_rules"; SIdx i; SKey "conditions";
                SIdx j; SKey "rule_items"; SIdx k; SKey "id"] profile'
          = Some (mapped mapping v)) /\
      agree_except pattern_id_path (mapped mapping) profile profile').
Proof.
  split; [apply remap_pattern_ids_total|].
  intros profile' Hp.
  pose proof (remap_pattern_ids_rewrites mapping profile profile' Hp) as Hag.
  split; [|split]; [| |exact Hag].
  - intros i ns v. apply agree_except_at with (S := pattern_id_path);
      [apply prefix_free_pattern_id_path|exact Hag|].
    apply tree_id_path_node.
  - intros i j k v. apply agree_except_at with (S := pattern_id_path);
      [apply prefix_free_pattern_id_path|exact Hag|done].
Qed.

Lemma remap_pattern_ids_spec_witness :
  exists profile',
    _remap_pattern_ids Sample.profile Sample.pattern_id_mapping = Ok profile' /\
    jget ([SKey "detection_rules"; SIdx 0; SKey "expression_tree"]
            ++ node_path [1; 1]%nat ++ [SKey "rule_item"; SKey "id"]) profile'
    = Some (JStr "p9") /\
    jget [SKey "advance_data_patterns_rules"; SIdx 0; SKey "conditions";
          SIdx 0; SKey "rule_items"; SIdx 1; SKey "id"] profile'
    = Some (JStr "p3").
Proof.
  destruct (remap_pattern_ids_spec Sample.profile Sample.pattern_id_mapping)
    as [Htotal Hspec].
  destruct (Htotal eq_refl) as [profile' Hp].
  destruct (Hspec profile' Hp) as (Htree & Hadv & _).
  exists profile'. split; [exact Hp|]. split.
  - exact (Htree 0%nat [1; 1]%nat (JStr "p1") eq_refl).
  - exact (Hadv 0%nat 0%nat 1%nat (JStr "p3") eq_refl).
Defined.

(** ** Rewriting the profile references *)

Lemma remap_profile_id_rewrites m :
  rewrites here (mapped m) (remap_profile_id m).
Proof.
  intros x x' Hx. unfold remap_profile_id in Hx.
  apply rbind_Ok in Hx as (k & Hk & [= <-]).
  intros [|s rest] Hpre.
  - simpl. eexists. split; [done|]. split; [|split]; try done.
    + intros _. unfold mapped. by rewrite Hk.
    + intros Hfree. by specialize (Hfree []).
  - by specialize (Hpre [] (s :: rest) eq_refl ltac:(done)).
Qed.

Lemma remap_multi_profile_list m mp :
  wf_under "data_profile_ids" (wf_each hashable) mp = true ->
  remap_multi_profile m mp =
  under "data_profile_ids" (each (remap_profile_id m)) mp.
Proof.
  destruct mp as [| | | | |d]; try done. simpl.
  unfold remap_multi_profile, under. simpl.
  destruct (dict_get "data_profile_ids" d) as [ids|]; simpl; [|done].
  destruct (truthy ids) eqn:Htr; [|done].
  destruct ids as [| | | |l|]; try done. simpl.
  by destruct (rmap (remap_profile_id m) l).
Qed.

Lemma remap_profile_id_total m : total hashable (remap_profile_id m).
Proof.
  intros x Hx. unfold hashable in Hx. unfold remap_profile_id.
  destruct (hash_key x); [|done]. simpl. by eexists.
Qed.

Lemma remap_detection_rule_profiles_total m :
  total wf_detection_rule (remap_detection_rule_profiles m).
Proof.
  intros [| | | | |d] Hwf; try done. cbn [wf_detection_rule] in Hwf.
  unfold remap_detection_rule_profiles. cbn [py_get rbind].
  destruct (is_str "multi_profile" (default JNull (dict_get "rule_type" d)));
    [|by eexists].
  apply (under_total "multi_profile"
           (wf_under "data_profile_ids" (wf_each hashable))); [|done].
  intros mp Hmp. rewrite remap_multi_profile_list by done.
  exact (under_total "data_profile_ids" _ _
           (each_total _ _ (remap_profile_id_total m)) mp Hmp).
Qed.

Lemma wf_under_jget k wf x v :
  wf_under k wf x = true -> jget [SKey k] x = Some v -> truthy v = true ->
  wf v = true.
Proof.
  destruct x as [| | | | |d]; try done. simpl.
  destruct (dict_get k d) as [v0|]; [|done].
  intros Hwf [= ->] Htr. by rewrite Htr in Hwf.
Qed.

Lemma wf_each_jget wf x i a :
  wf_each wf x = true -> jget [SIdx i] x = Some a -> wf a = true.
Proof.
  destruct x as [| | | |l|]; try done. simpl.
  destruct (l !! i) as [a0|] eqn:Ha; [|done].
  intros Hwf [= ->]. eapply forallb_elem; [exact Hwf|].
  by eapply list_elem_of_lookup_2.
Qed.

Lemma jget_app p1 p2 x :
  jget (p1 ++ p2) x = jget p1 x ≫= jget p2.
Proof.
  revert x. induction p1 as [|[k|i] p1 IH]; intros x; simpl; [done| |].
  - destruct x; try done. destruct (dict_get k d); [apply IH|done].
  - destruct x; try done. destruct (l !! i); [apply IH|done].
Qed.

Lemma remap_profile_ids_agree m profile profile' :
  wf_profile_refs profile = true ->
  _remap_profile_ids profile m = Ok profile' ->
  agree_except (profile_id_path profile) (mapped m) profile profile'.
Proof.
  intros Hwf Hp. unfold profile_id_path.
  eapply under_agree; [done|exact Hp|].
  intros rules rules' Hrules Htr Hrules'.
  pose proof (wf_under_jget _ _ _ _ Hwf Hrules Htr) as Hwfr.
  eapply each_agree; [exact Hrules'|].
  intros i rule rule' Hrule Hrule'. cbv beta.
  pose proof (wf_each_jget _ _ _ _ Hwfr Hrule) as Hwfd.
  assert (Hmulti : is_multi_profile_rule profile i =
                   match jget [SKey "rule_type"] rule with
                   | Some rt => is_str "multi_profile" rt
                   | None => false
                   end).
  { unfold is_multi_profile_rule.
    change [SKey "detection_rules"; SIdx i; SKey "rule_type"]
      with ([SKey "detection_rules"] ++ [SIdx i] ++ [SKey "rule_type"]).
    rewrite (jget_app [SKey "detection_rules"]), Hrules.
    cbn [mbind option_bind].
    by rewrite (jget_app [SIdx i]), Hrule. }
  destruct rule as [| | | | |d]; try done.
  assert (Hm2 : is_multi_profile_rule profile i =
                is_str "multi_profile" (default JNull (dict_get "rule_type" d))).
  { rewrite Hmulti. simpl. by destruct (dict_get "rule_type" d). }
  rewrite Hm2. clear Hmulti Hm2.
  unfold remap_detection_rule_profiles in Hrule'. cbn [py_get rbind] in Hrule'.
  cbn [wf_detection_rule] in Hwfd.
  destruct (is_str "multi_profile" (default JNull (dict_get "rule_type" d))).
  - eapply agree_except_ext;
      [|eapply under_agree; [|exact Hrule'|]]; [done|done|].
    intros mp mp' Hmp Hmptr.
    pose proof (wf_under_jget _ _ _ _ Hwfd Hmp Hmptr) as Hwfm.
    rewrite remap_multi_profile_list by done.
    apply under_rewrites; [done|].
    apply each_rewrites, remap_profile_id_rewrites.
  - injection Hrule' as <-. by apply agree_except_same.
Qed.

(** C5, as the code has it: on a well-formed profile [_remap_profile_ids]
    returns; in every detection rule whose [rule_type] is [multi_profile],
    each element of the list [data_profile_ids] of the rule's
    [multi_profile] object is replaced by [mapping.get(id, id)]; detection
    rules of any other type are unchanged, and so is the rest of the
    profile. *)
Theorem remap_profile_ids_spec (profile : json) (mapping : dict key json) :
  wf_profile_refs profile = true ->
  exists profile',
    _remap_profile_ids profile mapping = Ok profile' /\
    (forall i j v,
        is_multi_profile_rule profile i = true ->
        jget [SKey "detection_rules"; SIdx i; SKey "multi_profile";
              SKey "data_profile_ids"; SIdx j] profile = Some v ->
        jget [SKey "detection_rules"; SIdx i; SKey "multi_profile";
              SKey "data_profile_ids"; SIdx j] profile'
        = Some (mapped mapping v)) /\
    (forall i rule,
        is_multi_profile_rule profile i = false ->
        jget [SKey "detection_rules"; SIdx i] profile = Some rule ->
        jget [SKey "detection_rules"; SIdx i] profile' = Some rule) /\
    agree_except (profile_id_path profile) (mapped mapping) profile profile'.
Proof.
  intros Hwf.
  destruct (under_total "detection_rules" (wf_each wf_detection_rule)
              (each (remap_detection_rule_profiles mapping))) with profile
    as [profile' Hp]; [|done|].
  { apply each_total, remap_detection_rule_profiles_total. }
  exists profile'. split; [exact Hp|].
  pose proof (remap_profile_ids_agree mapping profile profile' Hwf Hp) as Hag.
  split; [|split]; [| |exact Hag].
  - intros i j v Hmulti Hv.
    specialize (Hag [SKey "detection_rules"; SIdx i; SKey "multi_profile";
                     SKey "data_profile_ids"; SIdx j]).
    rewrite Hv in Hag. destruct Hag as (v' & Hv' & H1 & _).
    + intros q r Hq Hr.
      destruct q as [|s1 [|s2 [|s3 [|s4 [|s5 q]]]]]; simplify_eq/=;
        rewrite ?Hmulti; try done.
      match goal with
      | H : _ ++ _ = [] |- _ => by apply app_eq_nil in H as [-> ->]
      | H : [] = _ ++ _ |- _ =>
          symmetry in H; by apply app_eq_nil in H as [-> ->]
      end.
    + rewrite Hv', H1; [done|]. simpl. by rewrite Hmulti.
  - intros i rule Hmulti Hrule.
    specialize (Hag [SKey "detection_rules"; SIdx i]).
    rewrite Hrule in Hag. destruct Hag as (v' & Hv' & _ & H2 & _).
    + intros q r Hq Hr.
      destruct q as [|s1 [|s2 q]]; simplify_eq/=; try done.
      match goal with
      | H : _ ++ _ = [] |- _ => by apply app_eq_nil in H as [-> ->]
      | H : [] = _ ++ _ |- _ =>
          symmetry in H; by apply app_eq_nil in H as [-> ->]
      end.
    + rewrite Hv', H2; [done|]. intros q. simpl. by rewrite Hmulti.
Qed.

Lemma remap_profile_ids_spec_witness :
  exists profile',
    _remap_profile_ids Sample.multi_profile Sample.profile_id_mapping
    = Ok profile' /\
    jget [SKey "detection_rules"; SIdx 0; SKey "multi_profile";
          SKey "data_profile_ids"] profile'
    = Some (JList [JInt 501; JInt 502; JInt 13]) /\
    jget [SKey "detection_rules"; SIdx 1] profile'
    = jget [SKey "detection_rules"; SIdx 1] Sample.multi_profile.
Proof.
  destruct (remap_profile_ids_spec Sample.multi_profile
              Sample.profile_id_mapping eq_refl)
    as (profile' & Hp & Hids & Hother & _).
  exists profile'. split; [exact Hp|]. split.
  - injection Hp as <-. reflexivity.
  - exact (Hother 1%nat _ eq_refl eq_refl).
Defined.

(** C5, as the specification lays the rule out: a list [data_profile_ids]
    that sits on the rule itself is not rewritten. *)
Lemma flat_data_profile_ids_not_rewritten :
  ~ flat_data_profile_ids_rewritten.
Proof.
  intros Hclaim.
  specialize (Hclaim Sample.flat_multi_profile Sample.profile_id_mapping
                Sample.flat_multi_profile 0%nat 0%nat (JInt 11)
                eq_refl eq_refl eq_refl).
  vm_compute in Hclaim. discriminate Hclaim.
Qed.

(** ** The classifier *)

Lemma dict_keys_set {K V} `{EqDecision K} (k : K) (v : V) (d : list (K * V)) :
  dict_keys (dict_set k v d) =
  if dict_mem k d then dict_keys d else dict_keys d ++ [k].
Proof.
  unfold dict_keys, dict_mem. induction d as [|[k' v'] d IH]; simpl; [done|].
  destruct (decide (k' = k)) as [->|Hne]; simpl; [done|].
  rewrite IH. by destruct (dict_get k d).
Qed.

Lemma dict_set_NoDup {K V} `{EqDecision K} (k : K) (v : V) (d : list (K * V)) :
  NoDup (dict_keys d) -> NoDup (dict_keys (dict_set k v d)).
Proof.
  intros Hnd. rewrite dict_keys_set. unfold dict_mem.
  destruct (dict_get k d) eqn:Hg; [done|].
  apply list.NoDup_app. split; [done|]. split; [|apply NoDup_singleton].
  intros x Hx Hx'. apply list_elem_of_singleton in Hx' as ->.
  by apply dict_get_None_keys in Hg.
Qed.

Lemma elem_of_dict_set {K V} `{EqDecision K} (k k' : K) (v v' : V)
  (d : list (K * V)) :
  (k', v') ∈ dict_set k v d -> (k', v') = (k, v) \/ (k', v') ∈ d.
Proof.
  induction d as [|[k0 v0] d IH]; simpl.
  - intros Hin. apply list_elem_of_singleton in Hin. by left.
  - destruct (decide (k0 = k)) as [->|Hne]; intros Hin;
      apply elem_of_cons in Hin as [Hin|Hin].
    + by left.
    + right. by apply list_elem_of_further.
    + right. rewrite Hin. apply list_elem_of_here.
    + destruct (IH Hin) as [?|?]; [by left|right].
      by apply list_elem_of_further.
Qed.

Lemma dict_get_elem_NoDup {K V} `{EqDecision K} (k : K) (v : V)
  (d : list (K * V)) :
  NoDup (dict_keys d) -> (k, v) ∈ d -> dict_get k d = Some v.
Proof.
  unfold dict_keys. induction d as [|[k0 v0] d IH]; simpl.
  - intros _ Hin. by apply not_elem_of_nil in Hin.
  - intros Hnd Hin. apply list.NoDup_cons in Hnd as [Hk0 Hnd].
    apply elem_of_cons in Hin as [[= -> ->]|Hin].
    + by rewrite decide_True.
    + destruct (decide (k0 = k)) as [->|Hne]; [|by apply IH].
      destruct Hk0. apply list_elem_of_fmap. by exists (k, v).
Qed.

Lemma last_named_cons k e es :
  last_named k (e :: es) =
  match last_named k es with
  | Some e' => Some e'
  | None => if decide (name_key e = Some k) then Some e else None
  end.
Proof.
  unfold last_named. rewrite filter_cons.
  destruct (decide (name_key e = Some k)); [|by destruct (list.last _)].
  rewrite last_cons. by destruct (list.last _).
Qed.

Lemma index_into_spec es acc d :
  index_into Ok acc es = Ok d ->
  (forall k, dict_get k d =
             match last_named k es with
             | Some e => Some e
             | None => dict_get k acc
             end) /\
  (NoDup (dict_keys acc) -> NoDup (dict_keys d)) /\
  ((forall k e, (k, e) ∈ acc -> name_key e = Some k) ->
   forall k e, (k, e) ∈ d -> name_key e = Some k).
Proof.
  revert acc d. induction es as [|e es IH]; intros acc d; simpl.
  - intros [= <-]. done.
  - intros Hi. apply rbind_Ok in Hi as (n & Hn & Hi).
    apply rbind_Ok in Hi as (ke & Hke & Hi).
    assert (Hname : name_key e = Some ke) by (unfold name_key; by rewrite Hn, Hke).
    destruct (IH _ _ Hi) as (Hget & Hnd & Hnamed). split; [|split].
    + intros k. rewrite Hget, last_named_cons.
      destruct (last_named k es); [done|]. rewrite Hname.
      destruct (decide (Some ke = Some k)) as [[= ->]|Hne].
      * apply dict_get_set_eq.
      * apply dict_get_set_ne. congruence.
    + intros Hacc. by apply Hnd, dict_set_NoDup.
    + intros Hacc. apply Hnamed. intros k e' Hin.
      apply elem_of_dict_set in Hin as [[= -> ->]|Hin]; [done|by apply Hacc].
Qed.

Lemma index_into_total es acc :
  Forall (fun e => is_Some (name_key e)) es ->
  exists d, index_into Ok acc es = Ok d.
Proof.
  intros Hes. revert acc. induction Hes as [|e es [k Hk] _ IH]; intros acc; simpl.
  - by eexists.
  - unfold name_key in Hk.
    destruct (py_getitem e "name") as [n|]; [|done]. simpl.
    destruct (hash_key n) as [k'|]; [|done]. simpl. apply IH.
Qed.

Lemma name_key_dict e k : name_key e = Some k -> exists d, e = JDict d.
Proof. unfold name_key. destruct e; try done. by eexists. Qed.

Section Classifier_facts.
Context `{Differ}.

Lemma decided_mono pm fm p p' e dest :
  (forall x, x ∈ to_create p -> x ∈ to_create p') ->
  (forall x, x ∈ to_update p -> x ∈ to_update p') ->
  (forall x, x ∈ identical p -> x ∈ identical p') ->
  decided pm fm p e dest -> decided pm fm p' e dest.
Proof.
  intros Hc Hu Hi. destruct dest as [de|]; simpl; [|by apply Hc].
  intros (sn & dn & Hsn & Hdn & Hd). exists sn, dn. split; [done|]. split; [done|].
  destruct (diff_nonempty _); [by apply Hu|by apply Hi].
Qed.

Lemma compare_loop_spec dd pm fm items acc p :
  compare_loop dd pm fm items acc = Ok p ->
  entries_of p ≡ₚ entries_of acc ++ map snd items /\
  (forall x, x ∈ to_create acc -> x ∈ to_create p) /\
  (forall x, x ∈ to_update acc -> x ∈ to_update p) /\
  (forall x, x ∈ identical acc -> x ∈ identical p) /\
  (forall k e, (k, e) ∈ items -> decided pm fm p e (dict_get k dd)).
Proof.
  revert acc p. induction items as [|[k e] items IH]; intros acc p; simpl.
  - intros [= <-]. rewrite app_nil_r. repeat split; try done.
    intros k e Hin. by apply not_elem_of_nil in Hin.
  - destruct (dict_get k dd) as [de|] eqn:Hde.
    + intros Hl. apply rbind_Ok in Hl as (sn & Hsn & Hl).
      apply rbind_Ok in Hl as (dn & Hdn & Hl).
      destruct (diff_nonempty (DeepDiff sn dn)) eqn:Hdiff;
        destruct (IH _ _ Hl) as (Hperm & Hc & Hu & Hi & Hdec);
        simpl in Hc, Hu, Hi; (split; [|split; [|split; [|split]]]).
      * rewrite Hperm. unfold entries_of. simpl. rewrite map_app. simpl.
        solve_Permutation.
      * done.
      * intros x Hx. apply Hu, elem_of_app. by left.
      * done.
      * intros k' e' Hin. apply elem_of_cons in Hin as [[= -> ->]|Hin];
          [|by apply Hdec].
        rewrite Hde. exists sn, dn. split; [done|]. split; [done|].
        rewrite Hdiff. apply Hu, elem_of_app. right. apply list_elem_of_here.
      * rewrite Hperm. unfold entries_of. simpl. solve_Permutation.
      * done.
      * done.
      * intros x Hx. apply Hi, elem_of_app. by left.
      * intros k' e' Hin. apply elem_of_cons in Hin as [[= -> ->]|Hin];
          [|by apply Hdec].
        rewrite Hde. exists sn, dn. split; [done|]. split; [done|].
        rewrite Hdiff. apply Hi, elem_of_app. right. apply list_elem_of_here.
    + intros Hl. destruct (IH _ _ Hl) as (Hperm & Hc & Hu & Hi & Hdec).
      simpl in Hc, Hu, Hi. split; [|split; [|split; [|split]]]; try done.
      * rewrite Hperm. unfold entries_of. simpl. solve_Permutation.
      * intros x Hx. apply Hc, elem_of_app. by left.
      * intros k' e' Hin. apply elem_of_cons in Hin as [[= -> ->]|Hin];
          [|by apply Hdec].
        rewrite Hde. simpl. apply Hc, elem_of_app. right. apply list_elem_of_here.
Qed.

Lemma compare_loop_total dd items acc :
  (forall k e, (k, e) ∈ items -> exists d, e = JDict d) ->
  (forall k de, dict_get k dd = Some de -> exists d, de = JDict d) ->
  exists p, compare_loop dd None None items acc = Ok p.
Proof.
  intros Hitems Hdd. revert acc.
  induction items as [|[k e] items IH]; intros acc; simpl; [by eexists|].
  destruct (Hitems k e) as [d ->]; [apply list_elem_of_here|].
  assert (Hrest : forall k e, (k, e) ∈ items -> exists d, e = JDict d).
  { intros k' e' Hin. apply (Hitems k'). by apply list_elem_of_further. }
  destruct (dict_get k dd) as [de|] eqn:Hde; [|by apply IH].
  destruct (Hdd k de Hde) as [d' ->]. simpl.
  destruct (diff_nonempty _); by apply IH.
Qed.

Lemma filter_named_values (d : list (key * json)) k :
  NoDup (dict_keys d) ->
  (forall k e, (k, e) ∈ d -> name_key e = Some k) ->
  filter (fun e => name_key e = Some k) (map snd d) = option_list (dict_get k d).
Proof.
  unfold dict_keys. induction d as [|[k0 e0] d IH]; [done|].
  intros Hnd Hnamed. apply list.NoDup_cons in Hnd as [Hk0 Hnd]. simpl.
  assert (Hn0 : name_key e0 = Some k0) by apply Hnamed, list_elem_of_here.
  assert (Hrest : forall k e, (k, e) ∈ d -> name_key e = Some k).
  { intros k' e' Hin. by apply Hnamed, list_elem_of_further. }
  rewrite filter_cons, Hn0, (IH Hnd Hrest).
  destruct (decide (k0 = k)) as [->|Hne].
  - destruct (decide (Some k = Some k)); [|done].
    apply (dict_get_None_keys k d) in Hk0. by rewrite Hk0.
  - destruct (decide (Some k0 = Some k)); [congruence|done].
Qed.

Lemma compare_patterns_by_name src dst pm fm p k :
  compare_patterns (JList src) (JList dst) pm fm = Ok p ->
  filter (fun e => name_key e = Some k) (entries_of p)
  = option_list (last_named k src) /\
  (forall e, last_named k src = Some e ->
             decided pm fm p e (last_named k dst)).
Proof.
  unfold compare_patterns, index_by_name. cbn [py_iter rbind].
  intros Hc. apply rbind_Ok in Hc as (sd & Hsd & Hc).
  apply rbind_Ok in Hc as (dd & Hdd & Hc).
  destruct (index_into_spec _ _ _ Hsd) as (Hsget & Hsnd & Hsnamed).
  destruct (index_into_spec _ _ _ Hdd) as (Hdget & _ & _).
  destruct (compare_loop_spec _ _ _ _ _ _ Hc) as (Hperm & _ & _ & _ & Hdec).
  assert (Hnd : NoDup (dict_keys sd)) by apply Hsnd, NoDup_nil_2.
  assert (Hnamed : forall k e, (k, e) ∈ sd -> name_key e = Some k).
  { apply Hsnamed. intros k' e' Hin. by apply not_elem_of_nil in Hin. }
  assert (Hs : dict_get k sd = last_named k src).
  { rewrite Hsget. by destruct (last_named k src). }
  assert (Hd : dict_get k dd = last_named k dst).
  { rewrite Hdget. by destruct (last_named k dst). }
  split.
  - assert (Hf : filter (fun e => name_key e = Some k) (entries_of p)
                 ≡ₚ option_list (last_named k src)).
    { rewrite Hperm. simpl. rewrite filter_named_values by done. by rewrite Hs. }
    destruct (last_named k src); simpl in *.
    + by apply Permutation_singleton_r.
    + by apply Permutation_nil_r.
  - intros e He. rewrite <- Hd. apply Hdec.
    apply dict_get_Some_elem. by rewrite Hs.
Qed.

Lemma compare_patterns_total (src dst : list json) :
  Forall (fun e => is_Some (name_key e)) src ->
  Forall (fun e => is_Some (name_key e)) dst ->
  exists p, compare_patterns (JList src) (JList dst) None None = Ok p.
Proof.
  intros Hsrc Hdst. unfold compare_patterns, index_by_name. cbn [py_iter rbind].
  destruct (index_into_total src [] Hsrc) as [sd Hsd].
  destruct (index_into_total dst [] Hdst) as [dd Hdd].
  rewrite Hsd, Hdd. cbn [rbind].
  destruct (index_into_spec _ _ _ Hsd) as (_ & _ & Hsnamed).
  destruct (index_into_spec _ _ _ Hdd) as (_ & _ & Hdnamed).
  apply compare_loop_total.
  - intros k e Hin. apply (name_key_dict e k), Hsnamed; [|done].
    intros k' e' Hin'. by apply not_elem_of_nil in Hin'.
  - intros k de Hde. apply (name_key_dict de k), Hdnamed.
    + intros k' e' Hin'. by apply not_elem_of_nil in Hin'.
    + by apply dict_get_Some_elem.
Qed.

(** The one entry of a name is in one output only. *)
Lemma only_entry_not_updated p k e :
  filter (fun e' => name_key e' = Some k) (entries_of p) = [e] ->
  e ∈ identical p ->
  forall u, u ∈ to_update p -> name_key (upd_source u) <> Some k.
Proof.
  intros Hf He u Hu Hk. unfold entries_of in Hf.
  assert (HPe : name_key e = Some k).
  { assert (Hin : e ∈ [e]) by apply list_elem_of_here.
    rewrite <- Hf in Hin. by apply list_elem_of_filter in Hin as [? _]. }
  rewrite !list.filter_app in Hf.
  assert (H1 : upd_source u ∈ filter (fun e' => name_key e' = Some k)
                                (map upd_source (to_update p))).
  { apply list_elem_of_filter. split; [done|].
    apply list_elem_of_fmap. by exists u. }
  assert (H2 : e ∈ filter (fun e' => name_key e' = Some k) (identical p)).
  { by apply list_elem_of_filter. }
  apply (f_equal length) in Hf. rewrite !length_app in Hf. simpl in Hf.
  destruct (filter _ (map upd_source (to_update p)));
    [by apply not_elem_of_nil in H1|].
  destruct (filter _ (identical p)); [by apply not_elem_of_nil in H2|].
  simpl in Hf. lia.
Qed.

(** C10: of the entities of the source list that share a name, the outputs
    hold the last one and nothing else under that name, and it is compared
    against the last entity of that name of the destination list. *)
Theorem compare_patterns_last_of_each_name
  (src dst : list json) (pm fm : option (dict key json)) :
  (Forall (fun e => is_Some (name_key e)) src ->
   Forall (fun e => is_Some (name_key e)) dst ->
   exists p, compare_patterns (JList src) (JList dst) None None = Ok p) /\
  (forall p,
      compare_patterns (JList src) (JList dst) pm fm = Ok p ->
      forall k,
        match last_named k src with
        | Some e =>
            filter (fun e' => name_key e' = Some k) (entries_of p) = [e] /\
            decided pm fm p e (last_named k dst)
        | None =>
            filter (fun e' => name_key e' = Some k) (entries_of p) = []
        end).
Proof.
  split; [apply compare_patterns_total|].
  intros p Hp k.
  destruct (compare_patterns_by_name src dst pm fm p k Hp) as [Hf Hdec].
  destruct (last_named k src) as [e|]; [|done].
  split; [done|by apply Hdec].
Qed.
End Classifier_facts.

Lemma compare_patterns_last_of_each_name_witness :
  exists p,
    compare_patterns (JList Sample.source_patterns) (JList Sample.dest_patterns)
      None None = Ok p /\
    filter (fun e' => name_key e' = Some (KStr "SSN")) (entries_of p)
    = [Sample.ssn_last] /\
    decided None None p Sample.ssn_last (Some Sample.dest_ssn_last).
Proof.
  destruct (compare_patterns_last_of_each_name
              Sample.source_patterns Sample.dest_patterns None None)
    as [Htotal Hspec].
  destruct Htotal as [p Hp].
  - repeat constructor; by eexists.
  - repeat constructor; by eexists.
  - exists p. split; [exact Hp|].
    exact (Hspec p Hp (KStr "SSN")).
Defined.

(** ** The comparison modelled from the specification *)

Lemma count_if_ext {A} (p q : A -> bool) (l : list A) :
  (forall x, x ∈ l -> p x = q x) -> count_if p l = count_if q l.
Proof.
  induction l as [|x l IH]; intros Hpq; simpl; [done|].
  rewrite (Hpq x) by apply list_elem_of_here.
  rewrite IH; [done|]. intros y Hy. by apply Hpq, list_elem_of_further.
Qed.

Lemma count_if_Forall2 {A} (p : A -> bool) (la lb : list A) :
  Forall2 (fun a b => p a = p b) la lb -> count_if p la = count_if p lb.
Proof. induction 1 as [|a b la lb Hab _ IH]; simpl; [done|]. by rewrite Hab, IH. Qed.

Lemma count_if_perm {A} (p : A -> bool) (la lb : list A) :
  la ≡ₚ lb -> count_if p la = count_if p lb.
Proof. induction 1; simpl; lia. Qed.

Lemma count_if_filter {A} (keep q : A -> bool) (l : list A) :
  count_if (fun x => keep x && q x) l =
  count_if q (filter (fun x => keep x = true) l).
Proof.
  induction l as [|x l IH]; simpl; [done|].
  rewrite filter_cons. destruct (decide (keep x = true)) as [Hk|Hk].
  - rewrite Hk. simpl. by rewrite IH.
  - destruct (keep x); [done|]. by rewrite IH.
Qed.

Lemma count_if_length {A} (keep : A -> bool) (l : list A) :
  count_if keep l = length (filter (fun x => keep x = true) l).
Proof.
  induction l as [|x l IH]; simpl; [done|].
  rewrite filter_cons. destruct (decide (keep x = true)) as [Hk|Hk].
  - rewrite Hk. simpl. by rewrite IH.
  - destruct (keep x); [done|]. by rewrite IH.
Qed.

Lemma forallb_ext_elem {A} (f g : A -> bool) (l : list A) :
  (forall x, x ∈ l -> f x = g x) -> forallb f l = forallb g l.
Proof.
  induction l as [|x l IH]; intros Hfg; simpl; [done|].
  rewrite (Hfg x) by apply list_elem_of_here.
  rewrite IH; [done|]. intros y Hy. by apply Hfg, list_elem_of_further.
Qed.

(** The entries of a dict that take part in the comparison. *)
Lemma kept_filter (d : list (string * json)) :
  filter (fun kv => negb (excluded (fst kv)) = true) d =
  filter (fun kv => excluded (fst kv) = false) d.
Proof.
  induction d as [|kv d IH]; [done|]. rewrite !filter_cons, IH.
  destruct (excluded (fst kv)); simpl; done.
Qed.

Lemma same_modulo_inv_list l1 y :
  same_modulo (JList l1) y ->
  exists l1' l2, y = JList l2 /\ Forall2 same_modulo l1 l1' /\ l1' ≡ₚ l2.
Proof. inversion 1; subst. by eexists _, _. Qed.

Lemma same_modulo_inv_dict d1 y :
  same_modulo (JDict d1) y ->
  exists d1' d2, y = JDict d2 /\
    Forall2 (fun kv1 kv2 => fst kv1 = fst kv2 /\ same_modulo (snd kv1) (snd kv2))
      (filter (fun kv => excluded (fst kv) = false) d1) d1' /\
    d1' ≡ₚ filter (fun kv => excluded (fst kv) = false) d2.
Proof. inversion 1; subst. by eexists _, _. Qed.

(** Dicts that list the same keys in the same order. *)
Lemma sm_dict_same_order d1 d2 :
  Forall2 (fun kv1 kv2 => fst kv1 = fst kv2 /\ same_modulo (snd kv1) (snd kv2))
    (filter (fun kv => excluded (fst kv) = false) d1)
    (filter (fun kv => excluded (fst kv) = false) d2) ->
  same_modulo (JDict d1) (JDict d2).
Proof. intros Hd. by eapply sm_dict. Qed.

(** Comparing with either of two values that are the same modulo order and
    excluded fields gives the same answer. *)
Lemma deep_eqb_same_modulo_r x :
  forall y y', same_modulo y y' -> deep_eqb x y = deep_eqb x y'.
Proof.
  induction x as [| | | |l1 IH|d1 IH] using json_induction; intros y y' Hsm.
  - destruct Hsm; done.
  - destruct Hsm; done.
  - destruct Hsm; done.
  - destruct Hsm; done.
  - destruct Hsm as [| | | |l2 l2' l3 Hl Hp|]; try done. simpl.
    assert (Hlen : length l2 = length l3).
    { rewrite <- (Permutation_length Hp). by eapply Forall2_length. }
    rewrite Hlen. f_equal. apply forallb_ext_elem. intros x Hx.
    rewrite list.Forall_forall in IH. f_equal.
    rewrite <- (count_if_perm _ _ _ Hp). apply count_if_Forall2.
    eapply Forall2_impl; [|exact Hl]. intros a b Hab. by apply IH.
  - destruct Hsm as [| | | | |d2 d2' d3 Hd Hp]; try done. simpl.
    rewrite !(count_if_length (fun kv => negb (excluded (fst kv)))), !kept_filter.
    rewrite (Forall2_length Hd), (Permutation_length Hp). f_equal.
    apply forallb_ext_elem. intros kv Hkv. f_equal. f_equal.
    rewrite list.Forall_forall in IH. specialize (IH kv Hkv).
    assert (Hcount : forall d,
               count_if (fun kv' : string * json =>
                           negb (excluded (fst kv')) && String.eqb (fst kv) (fst kv')
                           && deep_eqb (snd kv) (snd kv')) d =
               count_if (fun kv' : string * json =>
                           String.eqb (fst kv) (fst kv')
                           && deep_eqb (snd kv) (snd kv'))
                 (filter (fun kv' => excluded (fst kv') = false) d)).
    { intros d. rewrite <- kept_filter.
      rewrite <- (count_if_filter (fun kv' => negb (excluded (fst kv')))).
      apply count_if_ext. intros ? _. by rewrite andb_assoc. }
    rewrite !Hcount, <- (count_if_perm _ _ _ Hp). apply count_if_Forall2.
    eapply Forall2_impl; [|exact Hd]. intros a b [Hk Hv]. simpl.
    by rewrite Hk, (IH _ _ Hv).
Qed.

Lemma forallb_true_elem {A} (f : A -> bool) (l : list A) :
  (forall x, x ∈ l -> f x = true) -> forallb f l = true.
Proof.
  intros Hf. apply forallb_forall. intros x Hx. by apply Hf, list_elem_of_In.
Qed.

Lemma deep_eqb_same_modulo a b : same_modulo a b -> deep_eqb a b = true.
Proof.
  intros Hsm. destruct Hsm as [|b0|n|s|l1 l1' l2 Hl Hp|d1 d1' d2 Hd Hp]; simpl.
  - done.
  - by destruct b0.
  - apply Z.eqb_refl.
  - apply String.eqb_refl.
  - assert (Hlen : length l1 = length l2).
    { rewrite <- (Permutation_length Hp). by eapply Forall2_length. }
    rewrite Hlen, Nat.eqb_refl. simpl. apply forallb_true_elem. intros x _.
    apply Nat.eqb_eq. rewrite <- (count_if_perm _ _ _ Hp).
    apply count_if_Forall2. eapply Forall2_impl; [|exact Hl].
    intros a b. apply deep_eqb_same_modulo_r.
  - rewrite !(count_if_length (fun kv => negb (excluded (fst kv)))), !kept_filter.
    rewrite (Forall2_length Hd), (Permutation_length Hp), Nat.eqb_refl. simpl.
    apply forallb_true_elem. intros kv _.
    destruct (excluded (fst kv)); [done|]. simpl. apply Nat.eqb_eq.
    assert (Hcount : forall d,
               count_if (fun kv' : string * json =>
                           negb (excluded (fst kv')) && String.eqb (fst kv) (fst kv')
                           && deep_eqb (snd kv) (snd kv')) d =
               count_if (fun kv' : string * json =>
                           String.eqb (fst kv) (fst kv')
                           && deep_eqb (snd kv) (snd kv'))
                 (filter (fun kv' => excluded (fst kv') = false) d)).
    { intros d. rewrite <- kept_filter.
      rewrite <- (count_if_filter (fun kv' => negb (excluded (fst kv')))).
      apply count_if_ext. intros ? _. by rewrite andb_assoc. }
    rewrite !Hcount, <- (count_if_perm _ _ _ Hp). apply count_if_Forall2.
    eapply Forall2_impl; [|exact Hd]. intros a b [Hk Hv]. simpl.
    by rewrite Hk, (deep_eqb_same_modulo_r _ _ _ Hv).
Qed.

(** C6: when the bodies that are compared for a name, the source one
    normalized (and rewritten, when mappings are given) and the destination
    one normalized, differ only in the order of the elements of lists and in
    what they hold under [supported_confidence_levels], at any depth, the
    source entity is classified identical and the name has no entry to
    update.  The comparison is the one modelled from the specification. *)
Theorem compare_patterns_identical_modulo
  (src dst : list json) (k : key) (e de : json) :
  last_named k src = Some e ->
  last_named k dst = Some de ->
  (Forall (fun e => is_Some (name_key e)) src ->
   Forall (fun e => is_Some (name_key e)) dst ->
   forall sn dn,
     _normalize_pattern e = Ok sn ->
     _normalize_pattern de = Ok dn ->
     same_modulo sn dn ->
     exists p,
       compare_patterns (JList src) (JList dst) None None = Ok p /\
       e ∈ identical p /\
       (forall u, u ∈ to_update p -> name_key (upd_source u) <> Some k)) /\
  (forall pm fm p sn dn,
      compare_patterns (JList src) (JList dst) pm fm = Ok p ->
      source_norm_of e pm fm = Ok sn ->
      _normalize_pattern de = Ok dn ->
      same_modulo sn dn ->
      e ∈ identical p /\
      (forall u, u ∈ to_update p -> name_key (upd_source u) <> Some k)).
Proof.
  intros He Hde.
  assert (Hgen : forall pm fm p sn dn,
             compare_patterns (JList src) (JList dst) pm fm = Ok p ->
             source_norm_of e pm fm = Ok sn ->
             _normalize_pattern de = Ok dn ->
             same_modulo sn dn ->
             e ∈ identical p /\
             (forall u, u ∈ to_update p -> name_key (upd_source u) <> Some k)).
  { intros pm fm p sn dn Hp Hsn Hdn Hsm.
    destruct (compare_patterns_by_name src dst pm fm p k Hp) as [Hf Hdec].
    rewrite He in Hf. specialize (Hdec e He). rewrite Hde in Hdec.
    destruct Hdec as (sn' & dn' & Hsn' & Hdn' & Hd).
    rewrite Hsn in Hsn'. injection Hsn' as <-.
    rewrite Hdn in Hdn'. injection Hdn' as <-.
    simpl in Hd. rewrite (deep_eqb_same_modulo sn dn Hsm) in Hd. simpl in Hd.
    split; [done|]. by eapply only_entry_not_updated. }
  split; [|exact Hgen].
  intros Hsrc Hdst sn dn Hsn Hdn Hsm.
  destruct (compare_patterns_total src dst Hsrc Hdst) as [p Hp].
  exists p. split; [done|]. apply (Hgen None None p sn dn); try done.
  unfold source_norm_of. by rewrite Hsn.
Qed.

Lemma compare_patterns_identical_modulo_witness :
  exists p,
    compare_patterns (JList [Sample.credit_card; Sample.passport])
      (JList [Sample.dest_passport]) None None = Ok p /\
    Sample.passport ∈ identical p.
Proof.
  destruct (compare_patterns_identical_modulo
              [Sample.credit_card; Sample.passport] [Sample.dest_passport]
              (KStr "Passport") Sample.passport Sample.dest_passport
              eq_refl eq_refl) as [Hpatterns _].
  edestruct Hpatterns as (p & Hp & Hid & _).
  - repeat constructor; by eexists.
  - repeat constructor; by eexists.
  - reflexivity.
  - reflexivity.
  - apply sm_dict_same_order. vm_compute.
    apply Forall2_cons; [split; [reflexivity|apply sm_str]|].
    apply Forall2_cons; [split; [reflexivity|]|].
    { apply sm_list with (l1' := [JStr "travel"; JStr "identity"]).
      - repeat apply Forall2_cons; try apply Forall2_nil; apply sm_str.
      - apply perm_swap. }
    apply Forall2_cons; [split; [reflexivity|]|apply Forall2_nil].
    apply sm_dict_same_order. vm_compute.
    apply Forall2_cons; [split; [reflexivity|]|apply Forall2_nil].
    apply sm_list with (l1' := [JDict [("type", JStr "regex")];
                                JDict [("type", JStr "keyword")]]).
    + apply Forall2_cons; [|apply Forall2_cons; [|apply Forall2_nil]];
        apply sm_dict_same_order; vm_compute;
        (apply Forall2_cons; [split; [reflexivity|apply sm_str]|apply Forall2_nil]).
    + apply perm_swap.
  - exists p. split; [exact Hp|exact Hid].
Defined.

(** Bodies that list their keys in another order, and the elements of a
    list in another order, are the same; so are they for the comparison. *)
Example key_order_is_no_difference :
  let a := JDict [("name", JStr "Passport");
                  ("tags", JList [JStr "travel"; JStr "identity"])] in
  let b := JDict [("tags", JList [JStr "identity"; JStr "travel"]);
                  ("supported_confidence_levels", JList [JStr "high"]);
                  ("name", JStr "Passport")] in
  same_modulo a b /\ deep_eqb a b = true.
Proof.
  assert (Hsm : same_modulo
                  (JDict [("name", JStr "Passport");
                          ("tags", JList [JStr "travel"; JStr "identity"])])
                  (JDict [("tags", JList [JStr "identity"; JStr "travel"]);
                          ("supported_confidence_levels", JList [JStr "high"]);
                          ("name", JStr "Passport")])).
  { apply sm_dict with
      (d1' := [("name", JStr "Passport");
               ("tags", JList [JStr "identity"; JStr "travel"])]).
    - vm_compute.
      apply Forall2_cons; [split; [reflexivity|apply sm_str]|].
      apply Forall2_cons; [split; [reflexivity|]|apply Forall2_nil].
      apply sm_list with (l1' := [JStr "travel"; JStr "identity"]).
      + repeat apply Forall2_cons; try apply Forall2_nil; apply sm_str.
      + apply perm_swap.
    - vm_compute. apply perm_swap. }
  split; [exact Hsm|by apply deep_eqb_same_modulo].
Qed.

(** ** Counting the requests of the store calls *)

Lemma weight_app f l1 l2 : weight f (l1 ++ l2) = weight f l1 + weight f l2.
Proof. induction l1 as [|r l1 IH]; simpl; [done|]. rewrite IH. lia. Qed.

Section Emission_facts.
Context `{Transport}.

Lemma bind_Ok {A B} (m : M A) (k : A -> M B) s b s' :
  bind m k s = (Ok b, s') ->
  exists a s1, m s = (Ok a, s1) /\ k a s1 = (Ok b, s').
Proof.
  unfold bind. destruct (m s) as [[a|e] s1]; [|done]. intros Hk. by exists a, s1.
Qed.

Lemma lift_Ok {A} (r : result A) s a s' :
  lift r s = (Ok a, s') -> r = Ok a /\ s' = s.
Proof. unfold lift. by intros [= -> ->]. Qed.

Lemma emits_weaken f lo hi lo' hi' {A} (m : M A) :
  emits f lo hi m -> lo' <= lo -> hi <= hi' -> emits f lo' hi' m.
Proof.
  intros Hm Hlo Hhi s. destruct (Hm s) as (new & Ht & Hle & Hge).
  exists new. split; [done|]. split; [lia|]. intros Hok. specialize (Hge Hok). lia.
Qed.

Lemma emits_ret f {A} (a : A) : emits f 0 0 (ret a).
Proof. intros s. exists []. simpl. by rewrite app_nil_r. Qed.

Lemma emits_raise f {A} (e : exn) : emits f 0 0 (raise (A := A) e).
Proof. intros s. exists []. simpl. by rewrite app_nil_r. Qed.

Lemma emits_lift f {A} (r : result A) : emits f 0 0 (lift r).
Proof. intros s. exists []. simpl. by rewrite app_nil_r. Qed.

Lemma emits_requests f r : emits f (f r) (f r) (requests r).
Proof.
  intros s. exists [r]. unfold requests. destruct (send r (world s)) as [res w].
  simpl. split; [done|]. split; [lia|]. intros _. lia.
Qed.

Lemma emits_bind f lo1 hi1 lo2 hi2 {A B} (m : M A) (k : A -> M B) :
  emits f lo1 hi1 m -> (forall a, emits f lo2 hi2 (k a)) ->
  emits f (lo1 + lo2) (hi1 + hi2) (bind m k).
Proof.
  intros Hm Hk s. unfold bind.
  destruct (Hm s) as (new1 & Ht1 & Hle1 & Hge1).
  destruct (m s) as [[a|e] s1]; simpl in *.
  - destruct (Hk a s1) as (new2 & Ht2 & Hle2 & Hge2).
    exists (new1 ++ new2). rewrite Ht2, Ht1, weight_app, (assoc_L (++)).
    split; [done|]. split; [lia|]. intros Hok.
    specialize (Hge1 eq_refl). specialize (Hge2 Hok). lia.
  - exists new1. split; [done|]. split; [lia|done].
Qed.

(** A step that issues nothing counted, before or after. *)
Lemma emits_bind_l f lo hi {A B} (m : M A) (k : A -> M B) :
  emits f 0 0 m -> (forall a, emits f lo hi (k a)) -> emits f lo hi (bind m k).
Proof. intros Hm Hk. by apply (emits_bind f 0 0 lo hi). Qed.

Lemma emits_bind_r f lo hi {A B} (m : M A) (k : A -> M B) :
  emits f lo hi m -> (forall a, emits f 0 0 (k a)) -> emits f lo hi (bind m k).
Proof.
  intros Hm Hk. eapply emits_weaken; [by apply (emits_bind f lo hi 0 0)|lia..].
Qed.

Lemma emits_try_catch f hi1 hi2 {A} (body : M A) (handler : exn -> M A) :
  emits f 0 hi1 body -> (forall e, emits f 0 hi2 (handler e)) ->
  emits f 0 (hi1 + hi2) (try_catch body handler).
Proof.
  intros Hb Hh s. unfold try_catch.
  destruct (Hb s) as (new1 & Ht1 & Hle1 & _).
  destruct (body s) as [[a|e] s1]; simpl in *.
  - exists new1. split; [done|]. split; lia.
  - destruct (Hh e s1) as (new2 & Ht2 & Hle2 & _).
    exists (new1 ++ new2). rewrite Ht2, Ht1, weight_app, (assoc_L (++)).
    split; [done|]. split; lia.
Qed.

Lemma emits_for_each f hi {A R} (body : A -> R -> M R) (items : list A) (r : R) :
  (forall x r, emits f 0 hi (body x r)) ->
  emits f 0 (hi * length items) (for_each body items r).
Proof.
  intros Hb. revert r. induction items as [|x items IH]; intros r; simpl.
  - eapply emits_weaken; [apply emits_ret|lia..].
  - eapply emits_weaken; [apply (emits_bind f 0 hi 0 (hi * length items))|lia..].
    + apply Hb.
    + apply IH.
Qed.

Lemma emits_response_json f r : emits f 0 0 (response_json r).
Proof. unfold response_json. destruct (body r); [apply emits_ret|apply emits_raise]. Qed.

Lemma emits_updated_result f r : emits f 0 0 (updated_result r).
Proof.
  unfold updated_result. destruct (String.eqb _ _);
    [apply emits_ret|apply emits_response_json].
Qed.
End Emission_facts.

(** Steps that issue nothing that is counted: the tactic walks through a
    computation and leaves the store calls to the caller. *)
Ltac emits_zero :=
  lazymatch goal with
  | |- emits _ _ _ (ret _) => simple apply emits_ret
  | |- emits _ _ _ (raise _) => simple apply emits_raise
  | |- emits _ _ _ (lift _) => simple apply emits_lift
  | |- emits _ _ _ (response_json _) => simple apply emits_response_json
  | |- emits _ _ _ (updated_result _) => simple apply emits_updated_result
  | |- emits _ _ _ (bind (requests _) _) => idtac
  | |- emits _ _ _ (bind _ _) =>
      simple apply emits_bind_l; [emits_zero|intros ?; emits_zero]
  | |- emits _ _ _ (if ?b then _ else _) => destruct b; emits_zero
  | |- emits _ _ _ (match ?x with _ => _ end) => destruct x; emits_zero
  | |- _ => idtac
  end.

Section Call_facts.
Context `{Transport}.

Lemma get_data_patterns_emits f token custom_only :
  emits f (f (list_patterns_request token)) (f (list_patterns_request token))
    (get_data_patterns token custom_only).
Proof.
  unfold get_data_patterns. apply emits_bind_r; [apply emits_requests|].
  intros response. emits_zero.
Qed.

Lemma get_data_profiles_emits f token custom_only :
  emits f (f (list_profiles_request token)) (f (list_profiles_request token))
    (get_data_profiles token custom_only).
Proof.
  unfold get_data_profiles. apply emits_bind_r; [apply emits_requests|].
  intros response. emits_zero.
Qed.

(** What a create or update call issues is a [POST] or a [PUT]. *)
Lemma create_pattern_emits f pattern token :
  (forall r, req_method r = POST -> f r = 0) ->
  emits f 0 0 (create_pattern pattern token).
Proof.
  intros Hf. unfold create_pattern. emits_zero.
  apply emits_bind_r; [|intros; emits_zero].
  match goal with |- emits _ _ _ (requests ?r) => rewrite <- (Hf r) by done end.
  apply emits_requests.
Qed.

Lemma create_profile_emits f profile token pm fm :
  (forall r, req_method r = POST -> f r = 0) ->
  emits f 0 0 (create_profile profile token pm fm).
Proof.
  intros Hf. unfold create_profile. emits_zero.
  apply emits_bind_r; [|intros; emits_zero].
  match goal with |- emits _ _ _ (requests ?r) => rewrite <- (Hf r) by done end.
  apply emits_requests.
Qed.

Lemma update_pattern_emits f pattern_id pattern token :
  (forall r, req_method r = PUT -> f r = 0) ->
  emits f 0 0 (update_pattern pattern_id pattern token).
Proof.
  intros Hf. unfold update_pattern. emits_zero.
  apply emits_bind_r; [|intros; emits_zero].
  match goal with |- emits _ _ _ (requests ?r) => rewrite <- (Hf r) by done end.
  apply emits_requests.
Qed.

Lemma update_profile_emits f profile_id profile token pm fm :
  (forall r, req_method r = PUT -> f r = 0) ->
  emits f 0 0 (update_profile profile_id profile token pm fm).
Proof.
  intros Hf. unfold update_profile. emits_zero.
  apply emits_bind_r; [|intros; emits_zero].
  match goal with |- emits _ _ _ (requests ?r) => rewrite <- (Hf r) by done end.
  apply emits_requests.
Qed.
End Call_facts.

Section Orchestrator_emission.
Context `{Differ} `{Transport}.

Lemma emits_for_each_zero f {A R} (body : A -> R -> M R) (items : list A) (r : R) :
  (forall x r, emits f 0 0 (body x r)) -> emits f 0 0 (for_each body items r).
Proof.
  intros Hb. eapply emits_weaken; [by apply (emits_for_each f 0)|lia..].
Qed.

Lemma emits_try_catch_zero f {A} (body : M A) (handler : exn -> M A) :
  emits f 0 0 body -> (forall e, emits f 0 0 (handler e)) ->
  emits f 0 0 (try_catch body handler).
Proof. intros Hb Hh. by apply (emits_try_catch f 0 0). Qed.

Lemma create_pattern_item_emits f token pattern r :
  (forall rq, req_method rq = POST -> f rq = 0) ->
  emits f 0 0 (create_pattern_item token pattern r).
Proof.
  intros Hf. unfold create_pattern_item.
  apply emits_try_catch_zero; [|intros e]; emits_zero.
  by apply create_pattern_emits.
Qed.

Lemma update_pattern_item_emits f token item r :
  (forall rq, req_method rq = PUT -> f rq = 0) ->
  emits f 0 0 (update_pattern_item token item r).
Proof.
  intros Hf. unfold update_pattern_item.
  apply emits_try_catch_zero; [|intros e]; emits_zero.
  by apply update_pattern_emits.
Qed.

Lemma create_profile_item_emits f token pm fm profile r :
  (forall rq, req_method rq = POST -> f rq = 0) ->
  emits f 0 0 (create_profile_item token pm fm profile r).
Proof.
  intros Hf. unfold create_profile_item.
  apply emits_try_catch_zero; [|intros e]; emits_zero.
  by apply create_profile_emits.
Qed.

Lemma update_profile_item_emits f token pm fm item r :
  (forall rq, req_method rq = PUT -> f rq = 0) ->
  emits f 0 0 (update_profile_item token pm fm item r).
Proof.
  intros Hf. unfold update_profile_item.
  apply emits_try_catch_zero; [|intros e]; emits_zero.
  by apply update_profile_emits.
Qed.

(** What one destination costs: one listing of the source patterns, and
    whatever the create and update calls weigh when they are issued. *)
Lemma sync_tenant_emits f self dry_run sp sf dest :
  f (list_patterns_request (dest_token dest)) = 0 ->
  f (list_profiles_request (dest_token dest)) = 0 ->
  (dry_run = true \/
   forall rq, req_method rq = POST \/ req_method rq = PUT -> f rq = 0) ->
  emits f (f (list_patterns_request (source_token self)))
          (f (list_patterns_request (source_token self)))
    (sync_tenant self dry_run sp sf dest).
Proof.
  intros Hpat Hprof Hmut.
  assert (Hget : forall c, emits f 0 0 (get_data_patterns (dest_token dest) c)).
  { intros c. eapply emits_weaken; [apply get_data_patterns_emits|lia..]. }
  assert (Hgetp : forall c, emits f 0 0 (get_data_profiles (dest_token dest) c)).
  { intros c. eapply emits_weaken; [apply get_data_profiles_emits|lia..]. }
  unfold sync_tenant.
  apply emits_bind_l; [apply Hget|intros dest_patterns].
  apply emits_bind_l; [apply emits_lift|intros plan_p].
  apply emits_bind_l.
  { destruct dry_run; simpl; [apply emits_ret|].
    destruct Hmut as [?|Hmut]; [done|].
    apply emits_bind_l; [|intros rp].
    { apply emits_for_each_zero. intros x r.
      apply create_pattern_item_emits. intros rq Hrq. apply Hmut. by left. }
    apply emits_bind_l; [|intros rp'].
    { apply emits_for_each_zero. intros x r.
      apply update_pattern_item_emits. intros rq Hrq. apply Hmut. by right. }
    apply emits_bind_l; [apply Hget|intros ?]. apply emits_ret. }
  intros rp.
  apply emits_bind_r; [apply get_data_patterns_emits|intros all_source].
  apply emits_bind_l; [apply Hget|intros all_dest].
  apply emits_bind_l; [apply emits_lift|intros pm].
  apply emits_bind_l; [apply Hgetp|intros dest_profiles].
  apply emits_bind_l; [apply emits_lift|intros fm].
  apply emits_bind_l; [apply emits_lift|intros plan_f].
  destruct dry_run; [apply emits_ret|].
  destruct Hmut as [?|Hmut]; [done|].
  apply emits_bind_l; [|intros rf].
  { apply emits_for_each_zero. intros x r.
    apply create_profile_item_emits. intros rq Hrq. apply Hmut. by left. }
  apply emits_bind_l; [|intros rf'].
  { apply emits_for_each_zero. intros x r.
    apply update_profile_item_emits. intros rq Hrq. apply Hmut. by right. }
  apply emits_ret.
Qed.

Lemma sync_dest_emits f self dry_run sp sf dest tenants :
  f (list_patterns_request (dest_token dest)) = 0 ->
  f (list_profiles_request (dest_token dest)) = 0 ->
  (dry_run = true \/
   forall rq, req_method rq = POST \/ req_method rq = PUT -> f rq = 0) ->
  emits f 0 (f (list_patterns_request (source_token self)))
    (sync_dest self dry_run sp sf dest tenants).
Proof.
  intros Hpat Hprof Hmut. unfold sync_dest.
  eapply emits_weaken;
    [apply (emits_try_catch f (f (list_patterns_request (source_token self))) 0)
    |lia..].
  - eapply emits_weaken; [apply emits_bind_r|lia|reflexivity].
    + by apply sync_tenant_emits.
    + intros r. apply emits_ret.
  - intros e. apply emits_ret.
Qed.

Lemma tenants_to_sync_subset self target d :
  d ∈ tenants_to_sync self target -> d ∈ destinations self.
Proof.
  unfold tenants_to_sync. destruct target as [[|t ts]|]; try done.
  intros Hd. by apply list_elem_of_filter in Hd as [_ ?].
Qed.

Lemma sync_emits f self dry_run target :
  (forall d, d ∈ destinations self ->
             f (list_patterns_request (dest_token d)) = 0 /\
             f (list_profiles_request (dest_token d)) = 0) ->
  (dry_run = true \/
   forall rq, req_method rq = POST \/ req_method rq = PUT -> f rq = 0) ->
  emits f
    (f (list_patterns_request (source_token self)) +
     f (list_profiles_request (source_token self)))
    (f (list_patterns_request (source_token self)) +
     f (list_profiles_request (source_token self)) +
     f (list_patterns_request (source_token self)) *
     length (tenants_to_sync self target))
    (sync self dry_run target).
Proof.
  intros Hdest Hmut. unfold sync.
  set (a := f (list_patterns_request (source_token self))).
  set (b := f (list_profiles_request (source_token self))).
  set (n := length (tenants_to_sync self target)).
  eapply emits_weaken; [apply (emits_bind f a a b (b + a * n))|lia..];
    [apply get_data_patterns_emits|intros sp].
  eapply emits_weaken; [apply (emits_bind f b b 0 (a * n))|lia..];
    [apply get_data_profiles_emits|intros sf].
  subst n. destruct (no_tenant_found _ _).
  { eapply emits_weaken; [apply emits_ret|lia..]. }
  apply emits_bind_l; [apply emits_lift|intros np].
  apply emits_bind_l; [apply emits_lift|intros nf].
  apply emits_bind_r; [|intros; apply emits_ret].
  assert (Hsub : forall d, d ∈ tenants_to_sync self target -> d ∈ destinations self)
    by apply tenants_to_sync_subset.
  generalize (@nil (string * tenant_entry)).
  induction (tenants_to_sync self target) as [|d ds IH]; intros tenants; simpl.
  - eapply emits_weaken; [apply emits_ret|lia..].
  - destruct (Hdest d) as [Hpat Hprof]; [apply Hsub, list_elem_of_here|].
    eapply emits_weaken; [apply (emits_bind f 0 a 0 (a * length ds))|lia..].
    + by apply sync_dest_emits.
    + intros tenants'. apply IH. intros d' Hd'. by apply Hsub, list_elem_of_further.
Qed.
End Orchestrator_emission.

Section Orchestrator_reports.
Context `{Differ} `{Transport}.

(** A destination always gets its entry, and what was done to the services
    stays done. *)
Lemma sync_dest_run self dry_run sp sf dest tenants s :
  sync_dest self dry_run sp sf dest tenants s =
  (Ok (dict_set (dest_name dest)
         (outcome_entry (fst (sync_tenant self dry_run sp sf dest s))) tenants),
   snd (sync_tenant self dry_run sp sf dest s)).
Proof.
  unfold sync_dest, try_catch, bind.
  by destruct (sync_tenant self dry_run sp sf dest s) as [[rep|e] s'].
Qed.

Lemma for_each_app {A R} (body : A -> R -> M R) (l1 l2 : list A) (r : R) s :
  for_each body (l1 ++ l2) r s =
  bind (for_each body l1 r) (for_each body l2) s.
Proof.
  revert r s. induction l1 as [|x l1 IH]; intros r s; simpl; [done|].
  unfold bind. destruct (body x r s) as [[r'|e] s']; [|done].
  rewrite IH. by unfold bind.
Qed.

Lemma for_each_sync_dest_total self dry_run sp sf dests tenants s :
  exists tenants' s',
    for_each (sync_dest self dry_run sp sf) dests tenants s = (Ok tenants', s').
Proof.
  revert tenants s. induction dests as [|d dests IH]; intros tenants s; simpl.
  - by eexists _, _.
  - unfold bind. rewrite sync_dest_run. apply IH.
Qed.

Lemma for_each_sync_dest_entries self dry_run sp sf dests tenants s tenants' s' :
  for_each (sync_dest self dry_run sp sf) dests tenants s = (Ok tenants', s') ->
  (forall name, is_Some (dict_get name tenants) ->
                is_Some (dict_get name tenants')) /\
  (forall d, d ∈ dests -> is_Some (dict_get (dest_name d) tenants')) /\
  (forall name entry,
      dict_get name tenants' = Some entry ->
      dict_get name tenants = Some entry \/
      exists d s_d,
        d ∈ dests /\
        entry = outcome_entry (fst (sync_tenant self dry_run sp sf d s_d))).
Proof.
  revert tenants s. induction dests as [|d dests IH]; intros tenants s; simpl.
  - intros [= <- <-]. split; [done|]. split; [|by left].
    intros d Hd. by apply not_elem_of_nil in Hd.
  - unfold bind. rewrite sync_dest_run. intros Hrun.
    destruct (IH _ _ Hrun) as (Hkeep & Hall & Hfrom). split; [|split].
    + intros name Hname. apply Hkeep.
      destruct (decide (dest_name d = name)) as [<-|Hne].
      * by rewrite dict_get_set_eq.
      * by rewrite dict_get_set_ne.
    + intros d' Hd'. apply elem_of_cons in Hd' as [->|Hd']; [|by apply Hall].
      apply Hkeep. by rewrite dict_get_set_eq.
    + intros name entry Hentry.
      destruct (Hfrom name entry Hentry) as [Hset|(d' & s_d & Hd' & ->)].
      * destruct (decide (dest_name d = name)) as [<-|Hne].
        -- rewrite dict_get_set_eq in Hset. injection Hset as <-.
           right. exists d, s. split; [apply list_elem_of_here|done].
        -- rewrite dict_get_set_ne in Hset by done. by left.
      * right. exists d', s_d. split; [by apply list_elem_of_further|done].
Qed.

(** In a dry run the report of a destination holds the counts of the two
    classifications and nothing else. *)
Lemma sync_tenant_dry_run_report self sp sf dest s rep s' :
  sync_tenant self true sp sf dest s = (Ok rep, s') ->
  exists dest_patterns dest_profiles pm fm plan_p plan_f,
    compare_patterns sp dest_patterns None None = Ok plan_p /\
    compare_patterns sf dest_profiles (Some pm) (Some fm) = Ok plan_f /\
    rep = {| patterns := counts_of plan_p; profiles := counts_of plan_f |}.
Proof.
  unfold sync_tenant. intros Hrun.
  apply bind_Ok in Hrun as (dest_patterns & s1 & _ & Hrun).
  apply bind_Ok in Hrun as (plan_p & s2 & Hplan_p & Hrun).
  apply lift_Ok in Hplan_p as [Hplan_p ->].
  apply bind_Ok in Hrun as (rp & s3 & Hrp & Hrun).
  simpl in Hrp. injection Hrp as <- <-.
  apply bind_Ok in Hrun as (all_source & s4 & _ & Hrun).
  apply bind_Ok in Hrun as (all_dest & s5 & _ & Hrun).
  apply bind_Ok in Hrun as (pm & s6 & _ & Hrun).
  apply bind_Ok in Hrun as (dest_profiles & s7 & _ & Hrun).
  apply bind_Ok in Hrun as (fm & s8 & _ & Hrun).
  apply bind_Ok in Hrun as (plan_f & s9 & Hplan_f & Hrun).
  apply lift_Ok in Hplan_f as [Hplan_f ->].
  simpl in Hrun. injection Hrun as <- <-.
  by exists dest_patterns, dest_profiles, pm, fm, plan_p, plan_f.
Qed.


Lemma sync_full_result self dry_run target s g s' :
  sync self dry_run target s = (Ok (full_result g), s') ->
  exists sp sf s1 s2,
    get_data_patterns (source_token self) true s = (Ok sp, s1) /\
    get_data_profiles (source_token self) true s1 = (Ok sf, s2) /\
    no_tenant_found target (tenants_to_sync self target) = false /\
    for_each (sync_dest self dry_run sp sf) (tenants_to_sync self target) [] s2
    = (Ok (tenants g), s').
Proof.
  unfold sync. intros Hrun.
  apply bind_Ok in Hrun as (sp & s1 & Hsp & Hrun).
  apply bind_Ok in Hrun as (sf & s2 & Hsf & Hrun).
  destruct (no_tenant_found _ _) eqn:Hsel; [done|].
  apply bind_Ok in Hrun as (np & s3 & Hnp & Hrun).
  apply lift_Ok in Hnp as [_ ->].
  apply bind_Ok in Hrun as (nf & s4 & Hnf & Hrun).
  apply lift_Ok in Hnf as [_ ->].
  apply bind_Ok in Hrun as (tenants & s5 & Hloop & Hrun).
  simpl in Hrun. injection Hrun as <- <-.
  by exists sp, sf, s1, s2.
Qed.

(** C1: a dry run issues no create call and no update call, whatever the
    services answer; every selected destination gets an entry; the entry of
    a destination that was processed to the end holds the numbers of
    entities to create, to update and identical of the pattern and of the
    profile classification, and empty lists of created and updated names
    and of errors. *)
Theorem dry_run_issues_no_create_or_update
  (self : syncer) (target_tenants : option (list string)) (s : state) :
  exists new,
    trace (snd (sync self true target_tenants s)) = trace s ++ new /\
    weight is_create new = 0 /\
    weight is_update new = 0 /\
    forall g,
      fst (sync self true target_tenants s) = Ok (full_result g) ->
      exists sp sf,
        fst (get_data_patterns (source_token self) true s) = Ok sp /\
        fst (get_data_profiles (source_token self) true
               (snd (get_data_patterns (source_token self) true s))) = Ok sf /\
        (forall d, d ∈ tenants_to_sync self target_tenants ->
                   is_Some (dict_get (dest_name d) (tenants g))) /\
        (forall name rep,
            dict_get name (tenants g) = Some (tenant_report rep) ->
            exists dest_patterns dest_profiles pm fm plan_p plan_f,
              compare_patterns sp dest_patterns None None = Ok plan_p /\
              compare_patterns sf dest_profiles (Some pm) (Some fm)
              = Ok plan_f /\
              rep = {| patterns := counts_of plan_p;
                       profiles := counts_of plan_f |} /\
              created (patterns rep) = [] /\ updated (patterns rep) = [] /\
              errors (patterns rep) = [] /\
              created (profiles rep) = [] /\ updated (profiles rep) = [] /\
              errors (profiles rep) = []).
Proof.
  destruct (sync_emits is_create self true target_tenants) with s
    as (new & Hnew & Hcreate & _); [done|by left|].
  destruct (sync_emits is_update self true target_tenants) with s
    as (new' & Hnew' & Hupdate & _); [done|by left|].
  assert (new' = new) as -> by (rewrite Hnew in Hnew'; by apply app_inv_head in Hnew').
  simpl in Hcreate, Hupdate.
  exists new. split; [done|]. split; [lia|]. split; [lia|].
  intros g Hg. destruct (sync self true target_tenants s) as [r s'] eqn:Hrun.
  simpl in Hg. subst r.
  apply sync_full_result in Hrun as (sp & sf & s1 & s2 & Hsp & Hsf & _ & Hloop).
  exists sp, sf. rewrite Hsp. simpl. rewrite Hsf. simpl.
  split; [done|]. split; [done|].
  destruct (for_each_sync_dest_entries _ _ _ _ _ _ _ _ _ Hloop)
    as (_ & Hall & Hfrom).
  split; [exact Hall|].
  intros name rep Hrep.
  destruct (Hfrom name _ Hrep) as [?|(d & s_d & _ & Hentry)]; [done|].
  destruct (sync_tenant self true sp sf d s_d) as [[rep'|e] s_d'] eqn:Htenant;
    simpl in Hentry; [|done].
  injection Hentry as ->.
  apply sync_tenant_dry_run_report in Htenant
    as (dp & df & pm & fm & pp & pf & Hpp & Hpf & ->).
  by exists dp, df, pm, fm, pp, pf.
Qed.
End Orchestrator_reports.

Section Destination_isolation.
Context `{Differ} `{Transport}.

Lemma get_data_patterns_custom_list token s sp s' :
  get_data_patterns token true s = (Ok sp, s') -> exists l, sp = JList l.
Proof.
  unfold get_data_patterns. intros Hrun.
  apply bind_Ok in Hrun as (response & s1 & _ & Hrun).
  destruct (negb _); [done|].
  apply bind_Ok in Hrun as (j & s2 & _ & Hrun).
  apply bind_Ok in Hrun as (patterns & s3 & _ & Hrun).
  apply bind_Ok in Hrun as (es & s4 & _ & Hrun).
  apply bind_Ok in Hrun as (ps & s5 & _ & Hrun).
  injection Hrun as <- <-. by eexists.
Qed.

Lemma get_data_profiles_custom_list token s sf s' :
  get_data_profiles token true s = (Ok sf, s') -> exists l, sf = JList l.
Proof.
  unfold get_data_profiles. intros Hrun.
  apply bind_Ok in Hrun as (response & s1 & _ & Hrun).
  destruct (negb _); [done|].
  apply bind_Ok in Hrun as (j & s2 & _ & Hrun).
  apply bind_Ok in Hrun as (profiles & s3 & _ & Hrun).
  apply bind_Ok in Hrun as (es & s4 & _ & Hrun).
  apply bind_Ok in Hrun as (ps & s5 & _ & Hrun).
  injection Hrun as <- <-. by eexists.
Qed.

(** The entry of a destination whose name is not taken by a later one is
    the outcome of its own processing, from the state the destinations
    before it left. *)
Lemma for_each_sync_dest_own_entry self dry_run sp sf ds1 d ds2 tenants s
  tenants' s' :
  for_each (sync_dest self dry_run sp sf) (ds1 ++ d :: ds2) tenants s
  = (Ok tenants', s') ->
  dest_name d ∉ map dest_name ds2 ->
  dict_get (dest_name d) tenants' =
  Some (outcome_entry
          (fst (sync_tenant self dry_run sp sf d
                  (snd (for_each (sync_dest self dry_run sp sf) ds1 tenants s))))).
Proof.
  rewrite for_each_app. unfold bind at 1.
  destruct (for_each_sync_dest_total self dry_run sp sf ds1 tenants s)
    as (t1 & s1 & Hrun1).
  rewrite Hrun1. cbn [snd for_each]. unfold bind at 1. rewrite sync_dest_run.
  set (t2 := dict_set _ _ t1). set (s2 := snd _). intros Hrun2 Hfresh.
  assert (Hget : dict_get (dest_name d) t2 =
                 Some (outcome_entry (fst (sync_tenant self dry_run sp sf d s1))))
    by apply dict_get_set_eq.
  clearbody t2 s2. clear Hrun1. revert t2 s2 Hrun2 Hget.
  induction ds2 as [|d2 ds2 IH]; intros t2 s2 Hrun2 Hget; simpl in *.
  - unfold ret in Hrun2. by injection Hrun2 as <- <-.
  - apply not_elem_of_cons in Hfresh as [Hne Hfresh].
    unfold bind in Hrun2. rewrite sync_dest_run in Hrun2.
    apply (IH Hfresh _ _ Hrun2). by rewrite dict_get_set_ne.
Qed.

End Destination_isolation.

Ltac emits_side := simpl; first [lia | done].

Ltac emits_auto :=
  lazymatch goal with
  | |- emits _ _ _ (ret _) => simple apply emits_ret
  | |- emits _ _ _ (raise _) => simple apply emits_raise
  | |- emits _ _ _ (lift _) => simple apply emits_lift
  | |- emits _ _ _ (response_json _) => simple apply emits_response_json
  | |- emits _ _ _ (updated_result _) => simple apply emits_updated_result
  | |- emits _ _ _ (requests _) =>
      eapply emits_weaken; [simple apply emits_requests|emits_side..]
  | |- emits _ _ _ (get_data_patterns _ _) =>
      eapply emits_weaken; [simple apply get_data_patterns_emits|emits_side..]
  | |- emits _ _ _ (get_data_profiles _ _) =>
      eapply emits_weaken; [simple apply get_data_profiles_emits|emits_side..]
  | |- emits _ _ _ (bind _ _) =>
      simple apply emits_bind_l; [emits_auto|intros ?; emits_auto]
  | |- emits _ _ _ (try_catch _ _) =>
      simple apply emits_try_catch_zero; [emits_auto|intros ?; emits_auto]
  | |- emits _ _ _ (for_each _ _ _) =>
      simple apply emits_for_each_zero; intros ? ?; emits_auto
  | |- emits _ _ _ (create_pattern _ _) => unfold create_pattern; emits_auto
  | |- emits _ _ _ (update_pattern _ _ _) => unfold update_pattern; emits_auto
  | |- emits _ _ _ (create_profile _ _ _ _) => unfold create_profile; emits_auto
  | |- emits _ _ _ (update_profile _ _ _ _ _) => unfold update_profile; emits_auto
  | |- emits _ _ _ (create_pattern_item _ _ _) =>
      unfold create_pattern_item; emits_auto
  | |- emits _ _ _ (update_pattern_item _ _ _) =>
      unfold update_pattern_item; emits_auto
  | |- emits _ _ _ (create_profile_item _ _ _ _ _) =>
      unfold create_profile_item; emits_auto
  | |- emits _ _ _ (update_profile_item _ _ _ _ _) =>
      unfold update_profile_item; emits_auto
  | |- emits _ _ _ (sync_tenant _ _ _ _ _) => unfold sync_tenant; emits_auto
  | |- emits _ _ _ (sync_dest _ _ _ _ _ _) => unfold sync_dest; emits_auto
  | |- emits _ _ _ (if ?b then _ else _) => destruct b; emits_auto
  | |- emits _ _ _ (match ?x with _ => _ end) => destruct x; emits_auto
  | |- _ => idtac
  end.

Section Destination_contacted.
Context `{Differ} `{Transport}.

Lemma starts_with_requests rq {A} (k : response -> M A) :
  (forall a, emits (fun _ => 0) 0 0 (k a)) -> starts_with rq (bind (requests rq) k).
Proof.
  intros Hk s. unfold bind, requests.
  destruct (send rq (world s)) as [[a|e] w]; simpl.
  - destruct (Hk a {| world := w; trace := trace s ++ [rq] |})
      as (rest & Hrest & _).
    exists rest. rewrite Hrest. simpl. by rewrite <- (assoc_L (++)).
  - by exists [].
Qed.

Lemma starts_with_bind rq {A B} (m : M A) (k : A -> M B) :
  starts_with rq m -> (forall a, emits (fun _ => 0) 0 0 (k a)) ->
  starts_with rq (bind m k).
Proof.
  intros Hm Hk s. unfold bind. destruct (Hm s) as (rest & Hrest).
  destruct (m s) as [[a|e] s1]; simpl in *.
  - destruct (Hk a s1) as (rest' & Hrest' & _).
    exists (rest ++ rest'). rewrite Hrest', Hrest.
    by rewrite <- (assoc_L (++)).
  - by exists rest.
Qed.

Lemma get_data_patterns_starts token custom_only :
  starts_with (list_patterns_request token) (get_data_patterns token custom_only).
Proof.
  unfold get_data_patterns. apply starts_with_requests. intros a. emits_auto.
Qed.

(** Every destination that is processed is asked for its patterns. *)
Lemma sync_tenant_starts self dry_run sp sf dest :
  starts_with (list_patterns_request (dest_token dest))
    (sync_tenant self dry_run sp sf dest).
Proof.
  unfold sync_tenant. apply starts_with_bind; [apply get_data_patterns_starts|].
  intros a. emits_auto.
Qed.

Lemma for_each_sync_dest_contacts self dry_run sp sf dests tenants s :
  exists new,
    trace (snd (for_each (sync_dest self dry_run sp sf) dests tenants s))
    = trace s ++ new /\
    forall d, d ∈ dests -> list_patterns_request (dest_token d) ∈ new.
Proof.
  revert tenants s. induction dests as [|d dests IH]; intros tenants s; simpl.
  - exists []. rewrite app_nil_r. split; [done|].
    intros d Hd. by apply not_elem_of_nil in Hd.
  - unfold bind. rewrite sync_dest_run.
    destruct (sync_tenant_starts self dry_run sp sf d s) as (rest & Hrest).
    destruct (IH (dict_set (dest_name d)
                    (outcome_entry (fst (sync_tenant self dry_run sp sf d s)))
                    tenants)
                 (snd (sync_tenant self dry_run sp sf d s)))
      as (new & Hnew & Hall).
    exists (list_patterns_request (dest_token d) :: rest ++ new).
    rewrite Hnew, Hrest. split.
    + by rewrite <- (assoc_L (++)).
    + intros d' Hd'. apply elem_of_cons in Hd' as [->|Hd'].
      * apply list_elem_of_here.
      * apply list_elem_of_further, elem_of_app. right. by apply Hall.
Qed.
End Destination_contacted.

Section Destination_isolation_theorem.
Context `{Differ} `{Transport}.

(** C8, as the code has it: once the source is listed and some destination
    is selected, [sync] returns a report with an entry for every selected
    destination, each of which was asked for its patterns; the entry of a
    destination that is the last of its name is the report of its
    processing when that returned and the error when it raised, the
    processing starting from the state the destinations before it left,
    whether they failed or not.  The entries go by name, so what a
    destination came to is replaced by the outcome of a later one of the
    same name. *)
Theorem destination_failures_are_isolated
  (self : syncer) (dry_run : bool) (target_tenants : option (list string))
  (s s1 s2 : state) (sp sf : json) :
  get_data_patterns (source_token self) true s = (Ok sp, s1) ->
  get_data_profiles (source_token self) true s1 = (Ok sf, s2) ->
  no_tenant_found target_tenants (tenants_to_sync self target_tenants) = false ->
  exists g s',
    sync self dry_run target_tenants s = (Ok (full_result g), s') /\
    (forall d, d ∈ tenants_to_sync self target_tenants ->
               is_Some (dict_get (dest_name d) (tenants g))) /\
    (forall ds1 d ds2,
        tenants_to_sync self target_tenants = ds1 ++ d :: ds2 ->
        dest_name d ∉ map dest_name ds2 ->
        dict_get (dest_name d) (tenants g) =
        Some (outcome_entry
                (fst (sync_tenant self dry_run sp sf d
                        (snd (for_each (sync_dest self dry_run sp sf) ds1 []
                                s2)))))) /\
    (exists new,
        trace s' = trace s2 ++ new /\
        forall d, d ∈ tenants_to_sync self target_tenants ->
                  list_patterns_request (dest_token d) ∈ new).
Proof.
  intros Hsp Hsf Hsel.
  destruct (for_each_sync_dest_total self dry_run sp sf
              (tenants_to_sync self target_tenants) [] s2)
    as (tenants & s' & Hloop).
  destruct (get_data_patterns_custom_list _ _ _ _ Hsp) as [lp ->].
  destruct (get_data_profiles_custom_list _ _ _ _ Hsf) as [lf ->].
  eexists _, s'. split; [|split; [|split]].
  - unfold sync, bind. rewrite Hsp, Hsf, Hsel. simpl. by rewrite Hloop.
  - simpl. by apply (for_each_sync_dest_entries _ _ _ _ _ _ _ _ _ Hloop).
  - intros ds1 d ds2 Hds Hfresh. simpl. rewrite Hds in Hloop.
    by apply (for_each_sync_dest_own_entry _ _ _ _ _ _ _ _ _ _ _ Hloop).
  - destruct (for_each_sync_dest_contacts self dry_run (JList lp) (JList lf)
                (tenants_to_sync self target_tenants) [] s2)
      as (new & Hnew & Hall).
    rewrite Hloop in Hnew. by exists new.
Qed.

End Destination_isolation_theorem.

Lemma destination_failures_are_isolated_witness :
  exists g s',
    @sync spec_differ Sample.server Sample.syncer_prod_dev false None Sample.start
    = (Ok (full_result g), s') /\
    dict_get "Dev" (tenants g)
    = Some (tenant_error (Failure "Error during retrieval" 503 "unavailable")) /\
    is_Some (dict_get "Prod" (tenants g)).
Proof.
  destruct (@destination_failures_are_isolated spec_differ Sample.server
              Sample.syncer_prod_dev false None Sample.start _ _ _ _
              eq_refl eq_refl eq_refl)
    as (g & s' & Hrun & Hall & Hown & _).
  exists g, s'. split; [exact Hrun|]. split.
  - exact (Hown [] Sample.dev [Sample.prod] eq_refl
             ltac:(vm_compute; intros Hin; inversion Hin as [|? ? ? Hin'];
                   inversion Hin')).
  - apply (Hall Sample.prod). vm_compute. apply list_elem_of_further, list_elem_of_here.
Defined.


(** C8, as the specification has it: of two selected destinations that go
    by one name, the first raises and the second returns; the report has
    one entry under the name, the report of the second, and the error of
    the first is nowhere. *)
Lemma failure_under_a_shared_name_is_lost :
  ~ failed_destination_is_recorded.
Proof.
  intros Hclaim.
  destruct (Hclaim spec_differ Sample.server Sample.syncer_two_prods false None
              Sample.start _ _ _ _ [] [Sample.prod] Sample.prod_down
              (Failure "Error during retrieval" 503 "unavailable")
              eq_refl eq_refl eq_refl eq_refl)
    as (g & s' & Hrun & Hentry).
  vm_compute in Hrun. injection Hrun as <- _.
  vm_compute in Hentry. discriminate.
Qed.


(** ** The apply loops *)

Lemma settle_all_created mk_err names outcomes r :
  created (settle_all add_created mk_err names outcomes r)
  = created r ++ succeeded names outcomes /\
  updated (settle_all add_created mk_err names outcomes r) = updated r /\
  errors (settle_all add_created mk_err names outcomes r)
  = errors r ++ failed mk_err names outcomes.
Proof.
  revert outcomes r.
  induction names as [|n names IH]; intros [|o outcomes] r; simpl;
    rewrite ?app_nil_r; try done.
  destruct (IH outcomes (settle add_created mk_err n o r)) as (Hc & Hu & He).
  rewrite Hc, Hu, He. unfold succeeded, failed. simpl.
  destruct o as [e|]; simpl; by rewrite <- (assoc_L (++)).
Qed.

Lemma settle_all_updated mk_err names outcomes r :
  updated (settle_all add_updated mk_err names outcomes r)
  = updated r ++ succeeded names outcomes /\
  created (settle_all add_updated mk_err names outcomes r) = created r /\
  errors (settle_all add_updated mk_err names outcomes r)
  = errors r ++ failed mk_err names outcomes.
Proof.
  revert outcomes r.
  induction names as [|n names IH]; intros [|o outcomes] r; simpl;
    rewrite ?app_nil_r; try done.
  destruct (IH outcomes (settle add_updated mk_err n o r)) as (Hc & Hu & He).
  rewrite Hc, Hu, He. unfold succeeded, failed. simpl.
  destruct o as [e|]; simpl; by rewrite <- (assoc_L (++)).
Qed.

Section Apply_loops.
Context `{Differ} `{Transport}.

(** A loop whose turns never let an exception out makes every call and
    settles every item. *)
Lemma isolated_loop {A} (item_fn : A -> kind_report -> M kind_report)
  (call : A -> M json) (name_of : A -> result json) add_ok mk_err :
  (forall x r s n,
      name_of x = Ok n ->
      item_fn x r s =
      (Ok (settle add_ok mk_err n (failure (fst (call x s))) r),
       snd (call x s))) ->
  forall items names r s,
    rmap name_of items = Ok names ->
    for_each item_fn items r s =
    (Ok (settle_all add_ok mk_err names (fst (attempts call items s)) r),
     snd (attempts call items s)) /\
    length (fst (attempts call items s)) = length items.
Proof.
  intros Hitem items. induction items as [|x items IH]; intros names r s Hn.
  - simpl in *. injection Hn as <-. done.
  - simpl in Hn. apply rbind_Ok in Hn as (n & Hx & Hn).
    apply rbind_Ok in Hn as (names' & Hnames & [= <-]).
    simpl. unfold bind. rewrite (Hitem x r s n Hx).
    destruct (call x s) as [res s1]. simpl.
    destruct (IH names' (settle add_ok mk_err n (failure res) r) s1 Hnames)
      as [Hrun Hlen].
    destruct (attempts call items s1) as [os s']. simpl in *.
    by rewrite Hrun, Hlen.
Qed.

Lemma create_pattern_item_settles token x r s n :
  py_getitem x "name" = Ok n ->
  create_pattern_item token x r s =
  (Ok (settle add_created Error_creating n
         (failure (fst (create_pattern_call token x s))) r),
   snd (create_pattern_call token x s)).
Proof.
  intros Hn. unfold create_pattern_item, create_pattern_call, try_catch, bind, lift.
  destruct (create_pattern x token s) as [[a|e] s1]; by rewrite Hn.
Qed.

Lemma update_pattern_item_settles token x r s n :
  py_getitem (upd_source x) "name" = Ok n ->
  update_pattern_item token x r s =
  (Ok (settle add_updated Error_updating n
         (failure (fst (update_pattern_call token x s))) r),
   snd (update_pattern_call token x s)).
Proof.
  intros Hn. unfold update_pattern_item, update_pattern_call, try_catch, bind, lift.
  destruct (py_getitem (upd_destination x) "id") as [dest_id|e];
    [|by rewrite Hn].
  destruct (update_pattern dest_id (upd_source x) token s) as [[a|e] s1];
    by rewrite Hn.
Qed.

Lemma create_profile_item_settles token pm fm x r s n :
  py_getitem x "name" = Ok n ->
  create_profile_item token pm fm x r s =
  (Ok (settle add_created Error_creating n
         (failure (fst (create_profile_call token pm fm x s))) r),
   snd (create_profile_call token pm fm x s)).
Proof.
  intros Hn. unfold create_profile_item, create_profile_call, try_catch, bind, lift.
  destruct (create_profile x token pm (Some fm) s) as [[a|e] s1]; by rewrite Hn.
Qed.

Lemma update_profile_item_settles token pm fm x r s n :
  py_getitem (upd_source x) "name" = Ok n ->
  update_profile_item token pm fm x r s =
  (Ok (settle add_updated Error_updating n
         (failure (fst (update_profile_call token pm fm x s))) r),
   snd (update_profile_call token pm fm x s)).
Proof.
  intros Hn. unfold update_profile_item, update_profile_call, try_catch, bind, lift.
  destruct (py_getitem (upd_destination x) "id") as [dest_id|e];
    [|by rewrite Hn].
  destruct (update_profile dest_id (upd_source x) token pm (Some fm) s)
    as [[a|e] s1]; by rewrite Hn.
Qed.

(** Creating a pattern always sends its normalized body. *)
Lemma create_pattern_trace token pattern clean s :
  _normalize_pattern pattern = Ok clean ->
  trace (snd (create_pattern pattern token s))
  = trace s ++ [create_pattern_request token clean].
Proof.
  intros Hc. unfold create_pattern, bind, lift. rewrite Hc.
  unfold requests. fold (create_pattern_request token clean).
  destruct (send _ (world s)) as [[response|e] w]; simpl; [|done].
  destruct (negb _); simpl; [done|].
  unfold response_json. by destruct (body response).
Qed.

Lemma attempts_create_pattern_trace token items cleans s :
  rmap _normalize_pattern items = Ok cleans ->
  trace (snd (attempts (create_pattern_call token) items s))
  = trace s ++ map (create_pattern_request token) cleans.
Proof.
  revert cleans s. induction items as [|x items IH]; intros cleans s Hc; simpl in *.
  - injection Hc as <-. simpl. by rewrite app_nil_r.
  - apply rbind_Ok in Hc as (c & Hx & Hc).
    apply rbind_Ok in Hc as (cleans' & Hcs & [= <-]).
    pose proof (create_pattern_trace token x c s Hx) as Htr.
    unfold create_pattern_call at 1.
    destruct (create_pattern x token s) as [res s1]. simpl in Htr.
    specialize (IH cleans' s1 Hcs).
    destruct (attempts (create_pattern_call token) items s1) as [os s'].
    simpl in *. rewrite IH, Htr. by rewrite <- (assoc_L (++)).
Qed.

Lemma named_normalizes items names :
  rmap (fun p => py_getitem p "name") items = Ok names ->
  exists cleans, rmap _normalize_pattern items = Ok cleans.
Proof.
  revert names. induction items as [|x items IH]; intros names Hn; simpl in *.
  - by eexists.
  - apply rbind_Ok in Hn as (n & Hx & Hn).
    apply rbind_Ok in Hn as (names' & Hnames & _).
    destruct (IH _ Hnames) as [cleans ->].
    destruct x; try done. simpl. by eexists.
Qed.

Lemma compare_patterns_named src dst pm fm p :
  compare_patterns src dst pm fm = Ok p ->
  Forall (fun e => is_Some (name_key e)) (entries_of p).
Proof.
  unfold compare_patterns, index_by_name. intros Hc.
  apply rbind_Ok in Hc as (sd & Hsd & Hc).
  apply rbind_Ok in Hsd as (es & _ & Hsd).
  apply rbind_Ok in Hc as (dd & _ & Hc).
  destruct (index_into_spec _ _ _ Hsd) as (_ & _ & Hnamed).
  destruct (compare_loop_spec _ _ _ _ _ _ Hc) as (Hperm & _).
  apply list.Forall_forall. intros e He. rewrite Hperm in He. simpl in He.
  apply list_elem_of_fmap in He as ([k e'] & -> & Hin). simpl.
  exists k. apply Hnamed; [|done].
  intros k' e'' Hin'. by apply not_elem_of_nil in Hin'.
Qed.

Lemma named_rmap {A} (f : A -> json) (items : list A) :
  Forall (fun x => is_Some (name_key (f x))) items ->
  exists names, rmap (fun x => py_getitem (f x) "name") items = Ok names.
Proof.
  induction 1 as [|x items [k Hk] _ [names IH]]; simpl; [by eexists|].
  unfold name_key in Hk. destruct (py_getitem (f x) "name"); [|done].
  simpl. rewrite IH. by eexists.
Qed.

(** C7: in each of the four apply loops every item has its turn: its call
    is made from the state the call before it left, failed or not, and the
    item is settled, its name appended to the created or updated names when
    the call returned and an error message with its name and the exception
    appended to the errors when it raised.  The loop itself never raises.
    For the creation of patterns the trace shows one [POST] per item, in
    order.  The plans of the classifier name all their items. *)
Theorem apply_loops_isolate_failures
  (token : string) (pm fm : dict key json) (r : kind_report) (s : state) :
  (forall src dst pm' fm' p,
      compare_patterns src dst pm' fm' = Ok p ->
      (exists names,
          rmap (fun e => py_getitem e "name") (to_create p) = Ok names) /\
      (exists names,
          rmap (fun it => py_getitem (upd_source it) "name") (to_update p)
          = Ok names)) /\
  (forall items names,
      rmap (fun e => py_getitem e "name") items = Ok names ->
      for_each (create_pattern_item token) items r s =
      (Ok (settle_all add_created Error_creating names
             (fst (attempts (create_pattern_call token) items s)) r),
       snd (attempts (create_pattern_call token) items s)) /\
      length (fst (attempts (create_pattern_call token) items s))
      = length items /\
      exists cleans,
        rmap _normalize_pattern items = Ok cleans /\
        trace (snd (attempts (create_pattern_call token) items s))
        = trace s ++ map (create_pattern_request token) cleans) /\
  (forall items names,
      rmap (fun it => py_getitem (upd_source it) "name") items = Ok names ->
      for_each (update_pattern_item token) items r s =
      (Ok (settle_all add_updated Error_updating names
             (fst (attempts (update_pattern_call token) items s)) r),
       snd (attempts (update_pattern_call token) items s)) /\
      length (fst (attempts (update_pattern_call token) items s))
      = length items) /\
  (forall items names,
      rmap (fun e => py_getitem e "name") items = Ok names ->
      for_each (create_profile_item token pm fm) items r s =
      (Ok (settle_all add_created Error_creating names
             (fst (attempts (create_profile_call token pm fm) items s)) r),
       snd (attempts (create_profile_call token pm fm) items s)) /\
      length (fst (attempts (create_profile_call token pm fm) items s))
      = length items) /\
  (forall items names,
      rmap (fun it => py_getitem (upd_source it) "name") items = Ok names ->
      for_each (update_profile_item token pm fm) items r s =
      (Ok (settle_all add_updated Error_updating names
             (fst (attempts (update_profile_call token pm fm) items s)) r),
       snd (attempts (update_profile_call token pm fm) items s)) /\
      length (fst (attempts (update_profile_call token pm fm) items s))
      = length items) /\
  (forall names outcomes,
      created (settle_all add_created Error_creating names outcomes r)
      = created r ++ succeeded names outcomes /\
      updated (settle_all add_created Error_creating names outcomes r)
      = updated r /\
      errors (settle_all add_created Error_creating names outcomes r)
      = errors r ++ failed Error_creating names outcomes) /\
  (forall names outcomes,
      updated (settle_all add_updated Error_updating names outcomes r)
      = updated r ++ succeeded names outcomes /\
      created (settle_all add_updated Error_updating names outcomes r)
      = created r /\
      errors (settle_all add_updated Error_updating names outcomes r)
      = errors r ++ failed Error_updating names outcomes).
Proof.
  split; [|split; [|split; [|split; [|split; [|split]]]]].
  - intros src dst pm' fm' p Hp.
    pose proof (compare_patterns_named _ _ _ _ _ Hp) as Hnamed.
    unfold entries_of in Hnamed.
    apply Forall_app in Hnamed as [Hc Hnamed].
    apply Forall_app in Hnamed as [Hu _].
    split.
    + apply (named_rmap (fun e => e)), Hc.
    + apply (named_rmap upd_source).
      apply list.Forall_forall. intros it Hit.
      rewrite list.Forall_forall in Hu. apply Hu.
      apply list_elem_of_In, in_map, list_elem_of_In, Hit.
  - intros items names Hn.
    destruct (isolated_loop (create_pattern_item token)
                (create_pattern_call token) (fun e => py_getitem e "name")
                add_created Error_creating
                (create_pattern_item_settles token) items names r s Hn)
      as [Hrun Hlen].
    split; [done|]. split; [done|].
    destruct (named_normalizes items names Hn) as [cleans Hc].
    exists cleans. split; [done|]. by apply attempts_create_pattern_trace.
  - intros items names Hn.
    exact (isolated_loop (update_pattern_item token)
             (update_pattern_call token)
             (fun it => py_getitem (upd_source it) "name")
             add_updated Error_updating
             (update_pattern_item_settles token) items names r s Hn).
  - intros items names Hn.
    exact (isolated_loop (create_profile_item token pm fm)
             (create_profile_call token pm fm) (fun e => py_getitem e "name")
             add_created Error_creating
             (create_profile_item_settles token pm fm) items names r s Hn).
  - intros items names Hn.
    exact (isolated_loop (update_profile_item token pm fm)
             (update_profile_call token pm fm)
             (fun it => py_getitem (upd_source it) "name")
             add_updated Error_updating
             (update_profile_item_settles token pm fm) items names r s Hn).
  - intros names outcomes. apply settle_all_created.
  - intros names outcomes. apply settle_all_updated.
Qed.
End Apply_loops.

Lemma apply_loops_isolate_failures_witness :
  exists r' s',
    for_each (create_pattern_item "dst")
      [Sample.credit_card; Sample.ssn_last; Sample.passport]
      empty_kind_report Sample.start = (Ok r', s') /\
    created r' = [JStr "SSN"; JStr "Passport"] /\
    errors r' = [Error_creating (JStr "Credit card")
                   (Failure "Error during creation" 400 "rejected")] /\
    length (trace s') = 3.
Proof.
  destruct (apply_loops_isolate_failures "dst" [] [] empty_kind_report
              Sample.start) as (_ & Hcreate & _).
  destruct (Hcreate [Sample.credit_card; Sample.ssn_last; Sample.passport]
              [JStr "Credit card"; JStr "SSN"; JStr "Passport"] eq_refl)
    as (Hrun & _ & _).
  eexists _, _. split; [exact Hrun|]. by vm_compute.
Defined.

(** ** The rewriters leave their input intact *)

Section HeapFrame.
Import Heap.
Local Open Scope heap_scope.

Ltac framed_split := split; [|split; [|split]].

Lemma framed_ret n0 {A} (P : A -> Prop) a : P a -> framed n0 P (hret a).
Proof.
  intros HP h Hn Hc. simpl. framed_split; [done|lia|done|by intros ? [= <-]].
Qed.

Lemma framed_raise n0 {A} (P : A -> Prop) e : framed n0 P (hraise e).
Proof. intros h Hn Hc. simpl. framed_split; [done|lia|done|done]. Qed.

Lemma framed_lift n0 {A} (r : result A) : framed n0 (fun _ => True) (hlift r).
Proof. intros h Hn Hc. simpl. framed_split; [done|lia|done|done]. Qed.

Lemma framed_weaken n0 {A} (P Q : A -> Prop) m :
  framed n0 P m -> (forall a, P a -> Q a) -> framed n0 Q m.
Proof.
  intros Hm HPQ h Hn Hc. destruct (Hm h Hn Hc) as (? & ? & ? & HP).
  framed_split; auto.
Qed.

Lemma framed_bind n0 {A B} (P : A -> Prop) (Q : B -> Prop) m (k : A -> HM B) :
  framed n0 P m -> (forall a, P a -> framed n0 Q (k a)) ->
  framed n0 Q (hbind m k).
Proof.
  intros Hm Hk h Hn Hc. destruct (Hm h Hn Hc) as (Hc1 & Hl1 & Hf1 & HP).
  unfold hbind. destruct (m h) as [[a|e] h1]; simpl in *.
  - destruct (Hk a (HP a eq_refl) h1) as (Hc2 & Hl2 & Hf2 & HQ); [lia|done|].
    framed_split; [done|lia| |done].
    intros l Hl. by rewrite Hf2, Hf1.
  - framed_split; done.
Qed.

Lemma framed_load n0 l :
  framed n0 (fun o => n0 <= l -> obj_fresh n0 o) (load l).
Proof.
  intros h Hn Hc. unfold load. destruct (h !! l) as [o|] eqn:Hl; simpl.
  - framed_split; [done|lia|done|]. intros ? [= <-] Hge. by eapply Hc.
  - framed_split; [done|lia|done|done].
Qed.

Lemma framed_alloc n0 o :
  obj_fresh n0 o -> framed n0 (fun l => n0 <= l) (alloc o).
Proof.
  intros Ho h Hn Hc. unfold alloc. simpl. framed_split.
  - intros l o' Hge Hl. apply lookup_app_Some in Hl as [Hl|[_ Hl]].
    + by eapply Hc.
    + apply list_lookup_singleton_Some in Hl as [_ <-]. done.
  - rewrite length_app. lia.
  - intros l Hl. apply lookup_app_l. lia.
  - by intros ? [= <-].
Qed.

Lemma framed_store n0 l o :
  n0 <= l -> obj_fresh n0 o -> framed n0 (fun _ => True) (store l o).
Proof.
  intros Hge Ho h Hn Hc. unfold store. simpl. framed_split.
  - intros l' o' Hge' Hl'. destruct (decide (l = l')) as [<-|Hne].
    + apply list_lookup_insert_Some in Hl' as [(_ & <- & _)|[? _]]; done.
    + rewrite list_lookup_insert_ne in Hl' by done. by eapply Hc.
  - by rewrite length_insert.
  - intros l' Hl'. apply list_lookup_insert_ne. lia.
  - done.
Qed.

Lemma framed_hfor n0 {A} (P : A -> Prop) (body : A -> HM unit) xs :
  (forall x, P x -> framed n0 (fun _ => True) (body x)) ->
  Forall P xs -> framed n0 (fun _ => True) (hfor body xs).
Proof.
  intros Hbody. induction 1 as [|x xs Hx _ IH]; simpl.
  - by apply framed_ret.
  - eapply framed_bind; [by apply Hbody|]. intros _ _. exact IH.
Qed.

Lemma fresh_dict_get n0 k (d : list (string * val)) v :
  Forall (fun kv => fresh n0 (snd kv)) d -> dict_get k d = Some v ->
  fresh n0 v.
Proof.
  intros Hd Hg. apply dict_get_Some_elem in Hg.
  rewrite list.Forall_forall in Hd. exact (Hd _ Hg).
Qed.

Lemma fresh_dict_set n0 k v (d : list (string * val)) :
  Forall (fun kv => fresh n0 (snd kv)) d -> fresh n0 v ->
  Forall (fun kv => fresh n0 (snd kv)) (dict_set k v d).
Proof.
  intros Hd Hv. induction Hd as [|[k' v'] d Hkv Hd IH]; simpl.
  - by repeat constructor.
  - destruct (decide (k' = k)); constructor; done.
Qed.

Lemma fresh_chars n0 s : Forall (fresh n0) (h_chars s).
Proof. induction s; simpl; by constructor. Qed.

Lemma framed_get n0 x k : fresh n0 x -> framed n0 (fresh n0) (h_get x k).
Proof.
  intros Hx. destruct x as [c|l]; simpl; [apply framed_raise|].
  eapply framed_bind; [apply framed_load|]. intros [items|d] Ho.
  - apply framed_raise.
  - apply framed_ret. destruct (dict_get k d) as [v|] eqn:Hg; simpl; [|done].
    eapply fresh_dict_get; [exact (Ho Hx)|exact Hg].
Qed.

Lemma framed_getitem n0 x k : fresh n0 x -> framed n0 (fresh n0) (h_getitem x k).
Proof.
  intros Hx. destruct x as [c|l]; simpl.
  - destruct c; apply framed_raise.
  - eapply framed_bind; [apply framed_load|]. intros [items|d] Ho.
    + apply framed_raise.
    + destruct (dict_get k d) as [v|] eqn:Hg; [|apply framed_raise].
      apply framed_ret. eapply fresh_dict_get; [exact (Ho Hx)|exact Hg].
Qed.

Lemma framed_setitem n0 x k v :
  fresh n0 x -> fresh n0 v -> framed n0 (fun _ => True) (h_setitem x k v).
Proof.
  intros Hx Hv. destruct x as [c|l]; simpl; [apply framed_raise|].
  eapply framed_bind; [apply framed_load|]. intros [items|d] Ho.
  - apply framed_raise.
  - apply framed_store; [exact Hx|]. simpl. apply fresh_dict_set; [|done].
    exact (Ho Hx).
Qed.

Lemma framed_append n0 x v :
  fresh n0 x -> fresh n0 v -> framed n0 (fun _ => True) (h_append x v).
Proof.
  intros Hx Hv. destruct x as [c|l]; simpl; [apply framed_raise|].
  eapply framed_bind; [apply framed_load|]. intros [items|d] Ho.
  - apply framed_store; [exact Hx|]. simpl. apply Forall_app.
    split; [exact (Ho Hx)|by repeat constructor].
  - apply framed_raise.
Qed.

Lemma framed_truthy n0 x : framed n0 (fun _ => True) (h_truthy x).
Proof.
  destruct x as [[| | |]|l]; simpl; try by apply framed_ret.
  eapply framed_bind; [apply framed_load|].
  intros [[|? ?]|[|? ?]] _; by apply framed_ret.
Qed.

Lemma framed_iter n0 x : fresh n0 x -> framed n0 (Forall (fresh n0)) (h_iter x).
Proof.
  intros Hx. destruct x as [c|l]; simpl.
  - destruct c; try apply framed_raise. apply framed_ret, fresh_chars.
  - eapply framed_bind; [apply framed_load|]. intros [items|d] Ho.
    + apply framed_ret. exact (Ho Hx).
    + apply framed_ret. clear. induction d; simpl; by constructor.
Qed.

Lemma framed_under n0 k body x :
  (forall v, fresh n0 v -> framed n0 (fun _ => True) (body v)) ->
  fresh n0 x -> framed n0 (fun _ => True) (h_under k body x).
Proof.
  intros Hbody Hx. unfold h_under.
  eapply framed_bind; [by apply framed_get|]. intros v _.
  eapply framed_bind; [apply framed_truthy|]. intros [|] _.
  - eapply framed_bind; [by apply framed_getitem|]. exact Hbody.
  - by apply framed_ret.
Qed.

Lemma framed_each n0 body v :
  (forall e, fresh n0 e -> framed n0 (fun _ => True) (body e)) ->
  fresh n0 v -> framed n0 (fun _ => True) (h_each body v).
Proof.
  intros Hbody Hv. unfold h_each.
  eapply framed_bind; [by apply framed_iter|]. intros items Hitems.
  by eapply framed_hfor.
Qed.

Lemma framed_remap_id n0 mapping item :
  fresh n0 item -> framed n0 (fun _ => True) (h_remap_id mapping item).
Proof.
  intros Hitem. unfold h_remap_id.
  eapply framed_bind; [by apply framed_get|]. intros i _.
  eapply framed_bind; [apply framed_lift|]. intros k _.
  destruct (dict_mem k mapping); [|by apply framed_ret].
  eapply framed_bind; [by apply framed_getitem|]. intros i' _.
  eapply framed_bind; [apply framed_lift|]. intros k' _.
  destruct (dict_get k' mapping); [|apply framed_raise].
  by apply framed_setitem.
Qed.

Lemma framed_remap_expression_tree n0 fuel mapping tree :
  fresh n0 tree ->
  framed n0 (fun _ => True) (Heap._remap_expression_tree fuel tree mapping).
Proof.
  revert tree. induction fuel as [|fuel IH]; intros tree Htree; simpl.
  - apply framed_raise.
  - eapply framed_bind.
    + apply framed_under; [|done]. intros. by apply framed_remap_id.
    + intros _ _. apply framed_under; [|done]. intros v Hv.
      apply framed_each; [|done]. intros. by apply IH.
Qed.

Section Copy.
Variable n0 : nat.
Variable copy : val -> list (nat * nat) -> HM (val * list (nat * nat)).
Hypothesis framed_copy :
  forall v memo,
    Forall (fun kv => n0 <= snd kv) memo ->
    framed n0
      (fun r => fresh n0 (fst r) /\ Forall (fun kv => n0 <= snd kv) (snd r))
      (copy v memo).

Lemma framed_copy_items l' items acc memo :
  n0 <= l' -> Forall (fresh n0) acc ->
  Forall (fun kv => n0 <= snd kv) memo ->
  framed n0 (fun r => Forall (fun kv => n0 <= snd kv) (snd r))
    (copy_items copy l' items acc memo).
Proof.
  intros Hl'. revert acc memo.
  induction items as [|a items IH]; intros acc memo Hacc Hmemo; simpl.
  - by apply framed_ret.
  - eapply framed_bind; [by apply framed_copy|].
    intros [a' memo'] [Ha' Hmemo']. simpl in Ha', Hmemo'. simpl fst. simpl snd.
    assert (Forall (fresh n0) (acc ++ [a'])).
    { apply Forall_app. split; [done|by repeat constructor]. }
    eapply framed_bind; [by apply framed_store|]. intros _ _.
    by apply IH.
Qed.

Lemma framed_copy_entries l' entries acc memo :
  n0 <= l' -> Forall (fun kv => fresh n0 (snd kv)) acc ->
  Forall (fun kv => n0 <= snd kv) memo ->
  framed n0 (fun r => Forall (fun kv => n0 <= snd kv) (snd r))
    (copy_entries copy l' entries acc memo).
Proof.
  intros Hl'. revert acc memo.
  induction entries as [|[k a] entries IH]; intros acc memo Hacc Hmemo; simpl.
  - by apply framed_ret.
  - eapply framed_bind; [by apply framed_copy|].
    intros [a' memo'] [Ha' Hmemo']. simpl in Ha', Hmemo'. simpl fst. simpl snd.
    assert (Forall (fun kv => fresh n0 (snd kv)) (dict_set k a' acc))
      by by apply fresh_dict_set.
    eapply framed_bind; [by apply framed_store|]. intros _ _.
    by apply IH.
Qed.
End Copy.

Lemma framed_deepcopy n0 fuel v memo :
  Forall (fun kv => n0 <= snd kv) memo ->
  framed n0
    (fun r => fresh n0 (fst r) /\ Forall (fun kv => n0 <= snd kv) (snd r))
    (deepcopy fuel v memo).
Proof.
  revert v memo. induction fuel as [|fuel IH]; intros v memo Hmemo.
  - destruct v as [c|l]; simpl; [by apply framed_ret|].
    destruct (dict_get l memo) as [l'|] eqn:Hg; [|apply framed_raise].
    apply framed_ret. split; [|done]. simpl.
    apply dict_get_Some_elem in Hg. rewrite list.Forall_forall in Hmemo.
    exact (Hmemo _ Hg).
  - destruct v as [c|l]; simpl; [by apply framed_ret|].
    destruct (dict_get l memo) as [l'|] eqn:Hg.
    { apply framed_ret. split; [|done]. simpl.
      apply dict_get_Some_elem in Hg. rewrite list.Forall_forall in Hmemo.
      exact (Hmemo _ Hg). }
    assert (Hset : forall l', n0 <= l' ->
              Forall (fun kv => n0 <= snd kv) (dict_set l l' memo)).
    { intros l' Hl'. apply list.Forall_forall. intros [a b] Hin.
      apply elem_of_dict_set in Hin as [[= -> ->]|Hin]; [done|].
      rewrite list.Forall_forall in Hmemo. exact (Hmemo _ Hin). }
    eapply framed_bind; [apply framed_load|]. intros [items|entries] _.
    + eapply framed_bind; [apply framed_alloc; by constructor|].
      intros l' Hl'. eapply framed_bind.
      { apply framed_copy_items; [exact IH|exact Hl'|constructor|by apply Hset]. }
      intros r Hr. by apply framed_ret.
    + eapply framed_bind; [apply framed_alloc; by constructor|].
      intros l' Hl'. eapply framed_bind.
      { apply framed_copy_entries;
          [exact IH|exact Hl'|constructor|by apply Hset]. }
      intros r Hr. by apply framed_ret.
Qed.

Lemma framed_remap_pattern_ids n0 fuel profile mapping :
  framed n0 (fresh n0) (Heap._remap_pattern_ids fuel profile mapping).
Proof.
  unfold Heap._remap_pattern_ids.
  eapply framed_bind; [apply framed_deepcopy; constructor|].
  intros [copy memo] [Hcopy _]. simpl in Hcopy. simpl fst.
  eapply framed_bind.
  { apply framed_under; [|done]. intros v Hv.
    apply framed_each; [|done]. intros rule Hrule.
    apply framed_under; [|done]. intros v' Hv'.
    apply framed_each; [|done]. intros condition Hcondition.
    apply framed_under; [|done]. intros v'' Hv''.
    apply framed_each; [|done]. intros. by apply framed_remap_id. }
  intros _ _. eapply framed_bind.
  { apply framed_under; [|done]. intros v Hv.
    apply framed_each; [|done]. intros rule Hrule.
    apply framed_under; [|done]. intros.
    by apply framed_remap_expression_tree. }
  intros _ _. by apply framed_ret.
Qed.

Lemma framed_remap_profile_id n0 mapping profile_id :
  fresh n0 profile_id ->
  framed n0 (fresh n0) (h_remap_profile_id mapping profile_id).
Proof.
  intros Hid. unfold h_remap_profile_id.
  eapply framed_bind; [apply framed_lift|]. intros k _.
  apply framed_ret. by destruct (dict_get k mapping).
Qed.

Lemma framed_remap_multi_profile n0 mapping multi_profile :
  fresh n0 multi_profile ->
  framed n0 (fun _ => True) (h_remap_multi_profile mapping multi_profile).
Proof.
  intros Hmp. unfold h_remap_multi_profile.
  eapply framed_bind; [by apply framed_get|]. intros ids _.
  eapply framed_bind; [apply framed_truthy|]. intros [|] _;
    [|by apply framed_ret].
  eapply framed_bind; [by apply framed_getitem|]. intros ids' Hids'.
  eapply framed_bind; [apply framed_alloc; by constructor|]. intros l Hl.
  eapply framed_bind; [by apply framed_iter|]. intros items Hitems.
  eapply framed_bind.
  { eapply framed_hfor; [|exact Hitems]. intros profile_id Hid. simpl in Hid.
    eapply framed_bind; [by apply framed_remap_profile_id|]. intros v Hv.
    by apply framed_append. }
  intros _ _. by apply framed_setitem.
Qed.

Lemma framed_remap_detection_rule n0 mapping detection_rule :
  fresh n0 detection_rule ->
  framed n0 (fun _ => True) (h_remap_detection_rule mapping detection_rule).
Proof.
  intros Hdr. unfold h_remap_detection_rule.
  eapply framed_bind; [by apply framed_get|]. intros rt _.
  destruct (h_is_str "multi_profile" rt); [|by apply framed_ret].
  eapply framed_bind; [by apply framed_get|]. intros mp Hmp.
  eapply framed_bind; [apply framed_truthy|]. intros [|] _;
    [|by apply framed_ret].
  by apply framed_remap_multi_profile.
Qed.

Lemma framed_remap_profile_ids n0 fuel profile mapping :
  framed n0 (fresh n0) (Heap._remap_profile_ids fuel profile mapping).
Proof.
  unfold Heap._remap_profile_ids.
  eapply framed_bind; [apply framed_deepcopy; constructor|].
  intros [copy memo] [Hcopy _]. simpl in Hcopy. simpl fst.
  eapply framed_bind.
  { apply framed_under; [|done]. intros v Hv.
    apply framed_each; [|done]. intros. by apply framed_remap_detection_rule. }
  intros _ _. by apply framed_ret.
Qed.

(** What a framed computation does to the objects that existed before. *)
Lemma framed_run {A} (P : A -> Prop) (m : HM A) h :
  framed (length h) P m ->
  take (length h) (snd (m h)) = h /\
  closed (length h) (snd (m h)) /\
  (forall a, fst (m h) = Ok a -> P a).
Proof.
  intros Hm. destruct (Hm h) as (Hc & Hl & Hf & HP); [lia| |].
  { intros l o Hge Hlo. apply lookup_lt_Some in Hlo. lia. }
  split; [|by split].
  apply list_eq. intros l. destruct (decide (l < length h)) as [Hlt|Hge].
  - rewrite lookup_take_lt by done. by apply Hf.
  - rewrite lookup_take_ge by lia. symmetry. apply lookup_ge_None. lia.
Qed.

(** Reading only consults the objects reached, so a value reads the same
    in every heap that keeps the objects of [h]. *)
Lemma read_take fuel h h' v j :
  take (length h) h' = h ->
  read fuel h v = Some j -> read fuel h' v = Some j.
Proof.
  intros Htake.
  assert (Hkeep : forall l o, h !! l = Some o -> h' !! l = Some o).
  { intros l o Hl. rewrite <- Htake in Hl.
    apply lookup_take_Some in Hl as [Hl _]. exact Hl. }
  revert v j. induction fuel as [|fuel IH]; intros [c|l] j; simpl; try done.
  destruct (h !! l) as [[items|entries]|] eqn:Hl; [| |done];
    rewrite (Hkeep _ _ Hl).
  - match goal with |- option_map _ (?f items) = _ -> _ => set (rd := f) end.
    match goal with |- _ -> option_map _ (?f items) = _ => set (rd' := f) end.
    assert (Hrd : forall js, rd items = Some js -> rd' items = Some js).
    { clear Hl. induction items as [|a items IHitems]; intros js; simpl;
        [done|].
      destruct (read fuel h a) as [ja|] eqn:Ha; [|done].
      rewrite (IH _ _ Ha).
      destruct (rd items) as [js'|] eqn:Hjs; [|done].
      by rewrite (IHitems _ eq_refl). }
    destruct (rd items) as [js|] eqn:Hjs; [|done]. by rewrite (Hrd _ eq_refl).
  - match goal with |- option_map _ (?f entries) = _ -> _ => set (rd := f) end.
    match goal with |- _ -> option_map _ (?f entries) = _ => set (rd' := f) end.
    assert (Hrd : forall js, rd entries = Some js -> rd' entries = Some js).
    { clear Hl. induction entries as [|[k a] entries IHentries]; intros js;
        simpl; [done|].
      destruct (read fuel h a) as [ja|] eqn:Ha; [|done].
      rewrite (IH _ _ Ha).
      destruct (rd entries) as [js'|] eqn:Hjs; [|done].
      by rewrite (IHentries _ eq_refl). }
    destruct (rd entries) as [js|] eqn:Hjs; [|done].
    by rewrite (Hrd _ eq_refl).
Qed.

End HeapFrame.

(** On the sample profile the rewriter on objects returns a new object that
    reads as the result of the rewriter on values, and the input reads as
    before. *)
Example heap_remap_pattern_ids_sample :
  let h := Heap.loaded Sample.profile in
  let r := Heap._remap_pattern_ids 9 (Heap.root Sample.profile)
             Sample.heap_pattern_id_mapping h in
  fst r = Ok (Heap.VRef 21) /\
  option_map Ok (Heap.read 9 (snd r) (Heap.VRef 21))
    = Some (_remap_pattern_ids Sample.profile Sample.pattern_id_mapping) /\
  Heap.read 9 (snd r) (Heap.root Sample.profile) = Some Sample.profile.
Proof. by vm_compute. Qed.

Example heap_remap_profile_ids_sample :
  let h := Heap.loaded Sample.multi_profile in
  let r := Heap._remap_profile_ids 9 (Heap.root Sample.multi_profile)
             Sample.heap_profile_id_mapping h in
  fst r = Ok (Heap.VRef 17) /\
  option_map Ok (Heap.read 9 (snd r) (Heap.VRef 17))
    = Some (_remap_profile_ids Sample.multi_profile Sample.profile_id_mapping) /\
  Heap.read 9 (snd r) (Heap.root Sample.multi_profile)
    = Some Sample.multi_profile.
Proof. by vm_compute. Qed.

(** The copy keeps what was shared: the two detection rules of the copy refer
    to one tree, which is rewritten once, and the six objects of the input
    are as they were. *)
Example heap_remap_pattern_ids_shared :
  Heap._remap_pattern_ids 9 (Heap.VRef 5) Sample.heap_pattern_id_mapping
    Sample.shared_heap
  = (Ok (Heap.VRef 6),
     Sample.shared_heap ++
     [Heap.ODict [("name", Heap.VScalar (Heap.SStr "Shared"));
                  ("detection_rules", Heap.VRef 7)];
      Heap.OList [Heap.VRef 8; Heap.VRef 11];
      Heap.ODict [("rule_type", Heap.VScalar (Heap.SStr "expression_tree"));
                  ("expression_tree", Heap.VRef 9)];
      Heap.ODict [("rule_item", Heap.VRef 10)];
      Heap.ODict [("id", Heap.VScalar (Heap.SStr "p9"))];
      Heap.ODict [("rule_type", Heap.VScalar (Heap.SStr "expression_tree"));
                  ("expression_tree", Heap.VRef 9)]]).
Proof. by vm_compute. Qed.

(** A cycle is copied as a cycle, and the traversal then fails on the list
    where it expects a dict. *)
Example heap_remap_pattern_ids_cyclic :
  Heap._remap_pattern_ids 9 (Heap.VRef 0) Sample.heap_pattern_id_mapping
    Sample.cyclic_heap
  = (Err (AttributeError "get"),
     [Heap.OList [Heap.VRef 0]; Heap.OList [Heap.VRef 1]]).
Proof. by vm_compute. Qed.

(** Without the copy the assignment shows in the input: rewriting the tree
    of the shared profile where it is changes what the profile reads as. *)
Example rewriting_in_place_is_visible :
  let r := Heap._remap_expression_tree 9 (Heap.VRef 1)
             Sample.heap_pattern_id_mapping Sample.shared_heap in
  fst r = Ok tt /\
  Heap.read 9 Sample.shared_heap (Heap.VRef 5) = Some Sample.shared_profile /\
  Heap.read 9 (snd r) (Heap.VRef 5) <> Some Sample.shared_profile.
Proof. vm_compute. by repeat split. Qed.

(** C4. [_remap_pattern_ids] and [_remap_profile_ids] do not mutate their
    input: whatever the profile, the mapping and the outcome of the call
    (a result or an exception), every object that existed before the call is
    unchanged after it, so the input profile reads as the same JSON value as
    before; and a returned profile is built on a deep copy, it and all the
    objects reached from it were allocated by the call. *)
Theorem remap_does_not_mutate fuel profile pattern_id_mapping
  profile_id_mapping h f j :
  Heap.read f h profile = Some j ->
  (take (length h)
     (snd (Heap._remap_pattern_ids fuel profile pattern_id_mapping h)) = h /\
   Heap.read f
     (snd (Heap._remap_pattern_ids fuel profile pattern_id_mapping h)) profile
     = Some j /\
   Heap.closed (length h)
     (snd (Heap._remap_pattern_ids fuel profile pattern_id_mapping h)) /\
   forall v,
     fst (Heap._remap_pattern_ids fuel profile pattern_id_mapping h) = Ok v ->
     Heap.fresh (length h) v) /\
  (take (length h)
     (snd (Heap._remap_profile_ids fuel profile profile_id_mapping h)) = h /\
   Heap.read f
     (snd (Heap._remap_profile_ids fuel profile profile_id_mapping h)) profile
     = Some j /\
   Heap.closed (length h)
     (snd (Heap._remap_profile_ids fuel profile profile_id_mapping h)) /\
   forall v,
     fst (Heap._remap_profile_ids fuel profile profile_id_mapping h) = Ok v ->
     Heap.fresh (length h) v).
Proof.
  intros Hread. split.
  - destruct (framed_run _ _ h
                (framed_remap_pattern_ids (length h) fuel profile
                   pattern_id_mapping)) as (Htake & Hclosed & Hfresh).
    repeat split; [exact Htake| |exact Hclosed|exact Hfresh].
    by eapply read_take.
  - destruct (framed_run _ _ h
                (framed_remap_profile_ids (length h) fuel profile
                   profile_id_mapping)) as (Htake & Hclosed & Hfresh).
    repeat split; [exact Htake| |exact Hclosed|exact Hfresh].
    by eapply read_take.
Qed.

Lemma remap_does_not_mutate_witness :
  Heap.read 9 (Heap.loaded Sample.multi_profile)
    (Heap.root Sample.multi_profile) = Some Sample.multi_profile /\
  take 17
    (snd (Heap._remap_profile_ids 9 (Heap.root Sample.multi_profile)
            Sample.heap_profile_id_mapping
            (Heap.loaded Sample.multi_profile)))
  = Heap.loaded Sample.multi_profile.
Proof.
  split; [by vm_compute|].
  apply (remap_does_not_mutate 9 (Heap.root Sample.multi_profile)
           Sample.heap_pattern_id_mapping Sample.heap_profile_id_mapping
           (Heap.loaded Sample.multi_profile) 9 Sample.multi_profile).
  by vm_compute.
Defined.

(** ** Sanity of the models on the samples *)

(** The comparison tells apart bodies that differ in a value, in how often
    an element occurs in a list, or in a key that is not excluded. *)
Example deep_eqb_tells_apart :
  deep_eqb (JDict [("a", JInt 1)]) (JDict [("a", JInt 2)]) = false /\
  deep_eqb (JList [JInt 1; JInt 1; JInt 2]) (JList [JInt 1; JInt 2; JInt 2])
  = false /\
  deep_eqb (JDict [("a", JInt 1)]) (JDict [("a", JInt 1); ("b", JNull)])
  = false /\
  deep_eqb (JDict [("a", JInt 1)])
    (JDict [("a", JInt 1); ("supported_confidence_levels", JNull)]) = true.
Proof. by vm_compute. Qed.

(** The same run issues three create calls without [dry_run] and none with
    it. *)
Example sample_run_creates :
  weight is_create
    (trace (snd (sync Sample.syncer_prod false None Sample.start))) = 3 /\
  weight is_create
    (trace (snd (sync Sample.syncer_prod true None Sample.start))) = 0.
Proof. by vm_compute. Qed.

(** * Further properties *)

(** ** Normalizing and rewriting *)

Lemma filter_metadata_idem (d : list (string * json)) :
  filter (fun kv => fst kv ∉ METADATA_FIELDS)
    (filter (fun kv => fst kv ∉ METADATA_FIELDS) d)
  = filter (fun kv => fst kv ∉ METADATA_FIELDS) d.
Proof.
  induction d as [|[k v] d IH]; [done|].
  rewrite filter_cons. cbn [fst].
  destruct (decide (k ∉ METADATA_FIELDS)) as [Hk|Hk]; [|exact IH].
  rewrite filter_cons. cbn [fst].
  destruct (decide (k ∉ METADATA_FIELDS)); [|done]. by rewrite IH.
Qed.

(** X1 (normalizing twice): a normalized entity is its own normal form, so
    the calls that normalize what the classifier or a caller had already
    normalized send the same body. *)
Theorem normalize_idempotent (pattern clean : json) :
  _normalize_pattern pattern = Ok clean ->
  _normalize_pattern clean = Ok clean.
Proof.
  destruct pattern as [| | | | |d]; try done. simpl. intros [= <-]. simpl.
  by rewrite filter_metadata_idem.
Qed.

Lemma normalize_idempotent_witness :
  exists clean,
    _normalize_pattern Sample.ssn_first = Ok clean /\
    _normalize_pattern clean = Ok clean.
Proof.
  eexists. split; [reflexivity|].
  apply (normalize_idempotent Sample.ssn_first). reflexivity.
Defined.

Lemma filter_dict_set (k : string) (v : json) (d : list (string * json)) :
  k ∉ METADATA_FIELDS ->
  filter (fun kv => fst kv ∉ METADATA_FIELDS) (dict_set k v d)
  = dict_set k v (filter (fun kv => fst kv ∉ METADATA_FIELDS) d).
Proof.
  intros Hk. induction d as [|[k' v'] d IH]; simpl.
  - rewrite filter_cons. cbn [fst]. by destruct (decide (k ∉ METADATA_FIELDS)).
  - destruct (decide (k' = k)) as [->|Hne].
    + rewrite !filter_cons. cbn [fst].
      destruct (decide (k ∉ METADATA_FIELDS)); [|done].
      simpl. by destruct (decide (k = k)).
    + rewrite !filter_cons. cbn [fst].
      destruct (decide (k' ∉ METADATA_FIELDS)); [|exact IH].
      simpl. destruct (decide (k' = k)); [done|]. by rewrite IH.
Qed.

(** Rewriting under a key that is not metadata and normalizing commute. *)
Lemma under_normalize k body (d : list (string * json)) :
  k ∉ METADATA_FIELDS ->
  under k body (JDict (filter (fun kv => fst kv ∉ METADATA_FIELDS) d))
  = rbind (under k body (JDict d)) _normalize_pattern.
Proof.
  intros Hk. unfold under. cbn [py_get rbind].
  rewrite normalize_get. destruct (decide (k ∉ METADATA_FIELDS)); [|done].
  destruct (truthy (default JNull (dict_get k d))); [|done].
  destruct (body (default JNull (dict_get k d))) as [v'|e]; [|done].
  simpl. by rewrite filter_dict_set.
Qed.

Lemma under_dict k body x x' :
  under k body x = Ok x' -> (exists d, x = JDict d) /\ exists d', x' = JDict d'.
Proof.
  unfold under. intros Hu. apply rbind_Ok in Hu as (v & Hv & Hu).
  destruct x as [| | | | |d]; try done. split; [by eexists|].
  destruct (truthy v); [|injection Hu as <-; by eexists].
  apply rbind_Ok in Hu as (v' & _ & [= <-]). by eexists.
Qed.

(** X2 (normalizing and rewriting commute): the rewriters only touch what is
    under [advance_data_patterns_rules] and [detection_rules], which are not
    metadata; rewriting the normalized profile, as [create_profile] and the
    classifier do, gives what normalizing the rewritten profile gives, with
    the same exception when the rewriting raises. *)
Theorem normalize_remap_commute (d : list (string * json))
  (mapping : dict key json) :
  rbind (_normalize_pattern (JDict d))
    (fun clean => _remap_pattern_ids clean mapping)
  = rbind (_remap_pattern_ids (JDict d) mapping) _normalize_pattern /\
  rbind (_normalize_pattern (JDict d))
    (fun clean => _remap_profile_ids clean mapping)
  = rbind (_remap_profile_ids (JDict d) mapping) _normalize_pattern.
Proof.
  assert (Ha : "advance_data_patterns_rules" ∉ METADATA_FIELDS).
  { apply (bool_decide_unpack _). by vm_compute. }
  assert (Hd : "detection_rules" ∉ METADATA_FIELDS).
  { apply (bool_decide_unpack _). by vm_compute. }
  split.
  - unfold _remap_pattern_ids. cbn [_normalize_pattern rbind].
    rewrite (under_normalize _ _ d Ha).
    destruct (under "advance_data_patterns_rules" _ (JDict d)) as [x1|e] eqn:H1;
      [|done].
    destruct (under_dict _ _ _ _ H1) as [_ [d1 ->]].
    cbn [rbind _normalize_pattern]. by rewrite (under_normalize _ _ d1 Hd).
  - unfold _remap_profile_ids. cbn [_normalize_pattern rbind].
    by rewrite (under_normalize _ _ d Hd).
Qed.

(** ** Rewriting with an empty mapping *)

Lemma rmap_id {A} (f : A -> result A) (xs ys : list A) :
  Forall (fun x => forall y, f x = Ok y -> y = x) xs ->
  rmap f xs = Ok ys -> ys = xs.
Proof.
  intros Hf. revert ys. induction Hf as [|x xs Hx _ IH]; intros ys; simpl.
  - by intros [= <-].
  - intros Hb. apply rbind_Ok in Hb as (y & Hy & Hb).
    apply rbind_Ok in Hb as (ys' & Hys & [= <-]).
    by rewrite (Hx _ Hy), (IH _ Hys).
Qed.

(** A body that returns what it is given makes [under] and [each] do so. *)
Lemma under_id k (P : json -> Prop) body x x' :
  (forall v v', P v -> body v = Ok v' -> v' = v) ->
  (forall d v, x = JDict d -> dict_get k d = Some v -> truthy v = true -> P v) ->
  under k body x = Ok x' -> x' = x.
Proof.
  intros Hbody HP Hu. unfold under in Hu.
  apply rbind_Ok in Hu as (v & Hv & Hu).
  destruct x as [| | | | |d]; try done. simpl in Hv. injection Hv as <-.
  destruct (truthy (default JNull (dict_get k d))) eqn:Htr;
    [|by injection Hu as <-].
  apply rbind_Ok in Hu as (v' & Hv' & [= <-]).
  destruct (dict_get k d) as [v|] eqn:Hg; [|done]. simpl in *.
  rewrite (Hbody v v' (HP d v eq_refl Hg Htr) Hv').
  by rewrite dict_set_same.
Qed.

Lemma each_id (P : json -> Prop) body v v' :
  (forall e e', P e -> body e = Ok e' -> e' = e) ->
  (forall l e, v = JList l -> e ∈ l -> P e) ->
  each body v = Ok v' -> v' = v.
Proof.
  intros Hbody HP He. destruct v as [| | |s|l|d]; simpl in He; try done.
  - apply rbind_Ok in He as (? & _ & [= <-]). done.
  - apply rbind_Ok in He as (l' & Hl' & [= <-]). f_equal.
    apply (rmap_id body); [|done]. apply list.Forall_forall.
    intros e Hin e' He'. apply Hbody; [|done]. by apply (HP l).
  - apply rbind_Ok in He as (? & _ & [= <-]). done.
Qed.

Lemma remap_id_empty item item' : remap_id [] item = Ok item' -> item' = item.
Proof.
  unfold remap_id. intros Hr. apply rbind_Ok in Hr as (i & _ & Hr).
  apply rbind_Ok in Hr as (k & _ & Hr). simpl in Hr. by injection Hr as <-.
Qed.

Lemma remap_tree_empty n tree tree' :
  remap_tree n [] tree = Ok tree' -> tree' = tree.
Proof.
  revert tree tree'. induction n as [|n IH]; intros tree tree'; [done|].
  simpl. intros Hr. apply rbind_Ok in Hr as (tree1 & H1 & H2).
  apply (under_id _ (fun _ => True)) in H1 as ->; [|by intros; eapply remap_id_empty|done].
  apply (under_id _ (fun _ => True)) in H2 as ->; [done| |done].
  intros v v' _. apply (each_id (fun _ => True)); [|done].
  intros e e' _. apply IH.
Qed.

Lemma wf_under_inv k wf d v :
  wf_under k wf (JDict d) = true -> dict_get k d = Some v ->
  truthy v = true -> wf v = true.
Proof. intros Hwf Hg Htr. simpl in Hwf. by rewrite Hg, Htr in Hwf. Qed.

(** X3 (empty mapping): with no identifier to translate the rewriters give
    the profile back.  [_remap_pattern_ids], which [create_profile] and
    [update_profile] call whatever the mapping, returns its argument whenever
    it returns; [_remap_profile_ids] returns its argument on every
    well-formed profile, where [data_profile_ids] is a list. *)
Theorem remap_with_empty_mapping (profile : json) :
  (forall profile', _remap_pattern_ids profile [] = Ok profile' ->
                    profile' = profile) /\
  (wf_profile_refs profile = true -> _remap_profile_ids profile [] = Ok profile).
Proof.
  split.
  - intros profile' Hr. unfold _remap_pattern_ids in Hr.
    apply rbind_Ok in Hr as (profile1 & H1 & H2).
    apply (under_id _ (fun _ => True)) in H1 as ->; [|clear|done].
    + apply (under_id _ (fun _ => True)) in H2 as ->; [done|clear|done].
      intros v v' _. apply (each_id (fun _ => True)); [|done]. intros e e' _.
      apply (under_id _ (fun _ => True)); [|done]. intros t t' _.
      apply remap_tree_empty.
    + intros v v' _. apply (each_id (fun _ => True)); [|done]. intros e e' _.
      apply (under_id _ (fun _ => True)); [|done]. intros c c' _.
      apply (each_id (fun _ => True)); [|done]. intros c1 c1' _.
      apply (under_id _ (fun _ => True)); [|done]. intros r r' _.
      apply (each_id (fun _ => True)); [|done]. intros i i' _.
      apply remap_id_empty.
  - intros Hwf.
    destruct (under_total "detection_rules" (wf_each wf_detection_rule)
                (each (remap_detection_rule_profiles [])))
      with profile as [profile' Hp]; [|done|].
    { apply each_total, remap_detection_rule_profiles_total. }
    unfold _remap_profile_ids. rewrite Hp. f_equal.
    apply (under_id _ (fun v => wf_each wf_detection_rule v = true)) in Hp;
      [done| |].
    + intros v v' Hv. apply (each_id (fun e => wf_detection_rule e = true)).
      * intros e e' He Hr. destruct e as [| | | | |d]; try done.
        cbn [wf_detection_rule] in He.
        unfold remap_detection_rule_profiles in Hr. cbn [py_get rbind] in Hr.
        destruct (is_str "multi_profile"
                    (default JNull (dict_get "rule_type" d)));
          [|by injection Hr as <-].
        apply (under_id _ (fun mp => wf_under "data_profile_ids"
                                       (wf_each hashable) mp = true)) in Hr;
          [done| |].
        -- intros mp mp' Hmp Hr'. rewrite remap_multi_profile_list in Hr' by done.
           apply (under_id _ (fun ids => wf_each hashable ids = true)) in Hr';
             [done| |].
           ++ intros ids ids' Hids.
              apply (each_id (fun i => hashable i = true)).
              ** intros i i' Hi. unfold remap_profile_id, hashable in *.
                 destruct (hash_key i); [|done]. simpl. by intros [= <-].
              ** intros l i -> Hin. simpl in Hids.
                 exact (forallb_elem _ _ _ Hids Hin).
           ++ intros d' ids -> Hg Htr. exact (wf_under_inv _ _ _ _ Hmp Hg Htr).
        -- intros d' mp [= <-] Hg Htr. exact (wf_under_inv _ _ _ _ He Hg Htr).
      * intros l e -> Hin. simpl in Hv. exact (forallb_elem _ _ _ Hv Hin).
    + intros d v -> Hg Htr. exact (wf_under_inv _ _ _ _ Hwf Hg Htr).
Qed.

Lemma remap_with_empty_mapping_witness :
  _remap_pattern_ids Sample.profile [] = Ok Sample.profile /\
  _remap_profile_ids Sample.multi_profile [] = Ok Sample.multi_profile.
Proof.
  split.
  - destruct (_remap_pattern_ids Sample.profile []) as [p|e] eqn:Hp.
    + f_equal. exact (proj1 (remap_with_empty_mapping Sample.profile) p Hp).
    + vm_compute in Hp. discriminate Hp.
  - apply (remap_with_empty_mapping Sample.multi_profile). reflexivity.
Defined.

(** ** The identity mappers *)

Lemma last_filter_cons {A} (P : A -> Prop) `{forall x, Decision (P x)}
  (x : A) (l : list A) :
  list.last (filter P (x :: l)) =
  match list.last (filter P l) with
  | Some y => Some y
  | None => if decide (P x) then Some x else None
  end.
Proof.
  rewrite filter_cons. destruct (decide (P x)); [|by destruct (list.last _)].
  rewrite last_cons. by destruct (list.last _).
Qed.

Lemma index_into_ids es acc d :
  index_into (fun p => py_getitem p "id") acc es = Ok d ->
  (forall k, dict_get k d =
             match last_named k es with
             | Some e => id_of e
             | None => dict_get k acc
             end) /\
  Forall (fun e => is_Some (id_of e)) es.
Proof.
  revert acc d. induction es as [|e es IH]; intros acc d; simpl.
  - intros [= <-]. done.
  - intros Hi. apply rbind_Ok in Hi as (n & Hn & Hi).
    apply rbind_Ok in Hi as (i & Hid & Hi).
    apply rbind_Ok in Hi as (ke & Hke & Hi).
    assert (Hname : name_key e = Some ke) by (unfold name_key; by rewrite Hn, Hke).
    assert (Hidof : id_of e = Some i) by (unfold id_of; by rewrite Hid).
    destruct (IH _ _ Hi) as (Hget & Hall). split.
    + intros k. rewrite Hget, last_named_cons.
      destruct (last_named k es); [done|]. rewrite Hname.
      destruct (decide (Some ke = Some k)) as [[= ->]|Hne].
      * by rewrite dict_get_set_eq.
      * apply dict_get_set_ne. congruence.
    + constructor; [by rewrite Hidof|done].
Qed.

Lemma last_named_elem k es e : last_named k es = Some e -> e ∈ es /\ name_key e = Some k.
Proof.
  unfold last_named. intros Hl. apply last_Some_elem_of in Hl.
  apply list_elem_of_filter in Hl as [? ?]. done.
Qed.

Lemma build_mapping_loop_lookup dbn dst acc src m :
  (forall k, dict_get k dbn = match last_named k dst with
                              | Some e => id_of e
                              | None => None
                              end) ->
  Forall (fun e => is_Some (id_of e)) dst ->
  build_mapping_loop dbn acc src = Ok m ->
  forall k,
    dict_get k m =
    match list.last (filter (fun sp => id_key sp = Some k /\
                                       is_Some (counterpart dst sp)) src) with
    | Some sp => counterpart_id dst sp
    | None => dict_get k acc
    end.
Proof.
  intros Hdbn Hdst. revert acc m.
  induction src as [|sp src IH]; intros acc m; simpl.
  - by intros [= <-].
  - intros Hl k. apply rbind_Ok in Hl as (n & Hn & Hl).
    apply rbind_Ok in Hl as (i & Hi & Hl).
    apply rbind_Ok in Hl as (kn & Hkn & Hl).
    assert (Hname : name_key sp = Some kn) by (unfold name_key; by rewrite Hn, Hkn).
    assert (Hidof : id_of sp = Some i) by (unfold id_of; by rewrite Hi).
    assert (Hcp : counterpart dst sp = last_named kn dst).
    { unfold counterpart. by rewrite Hname. }
    rewrite last_filter_cons. rewrite Hdbn in Hl.
    destruct (last_named kn dst) as [de|] eqn:Hde.
    + apply last_named_elem in Hde as [Hin _].
      rewrite list.Forall_forall in Hdst. destruct (Hdst de Hin) as [i' Hi'].
      rewrite Hi' in Hl. apply rbind_Ok in Hl as (ki & Hki & Hl).
      assert (Hik : id_key sp = Some ki) by (unfold id_key; by rewrite Hidof, Hki).
      rewrite (IH _ _ Hl k).
      destruct (list.last _); [done|].
      destruct (decide _) as [[Hk _]|Hne].
      * rewrite Hik in Hk. injection Hk as ->.
        unfold counterpart_id. by rewrite Hcp, dict_get_set_eq.
      * apply dict_get_set_ne. intros ->. apply Hne. by rewrite Hcp.
    + rewrite (IH _ _ Hl k). destruct (list.last _); [done|].
      destruct (decide _) as [[_ Hs]|]; [|done].
      rewrite Hcp in Hs. by destruct Hs.
Qed.

(** X4 (what the mapping holds): the mapping built from the entities of the
    source and of a destination sends the identifier of a source entity to
    the identifier of the destination entity of the same name; of the source
    entities that share an identifier the last one with a counterpart
    decides, of the destination entities that share a name the last one; a
    source entity without counterpart adds nothing.  The mapper of the
    profiles is the mapper of the patterns. *)
Theorem build_id_mapping_lookup (src dst : list json) (m : dict key json) :
  _build_pattern_id_mapping (JList src) (JList dst) = Ok m ->
  _build_profile_id_mapping (JList src) (JList dst) = Ok m /\
  forall k,
    dict_get k m =
    match list.last (filter (fun sp => id_key sp = Some k /\
                                       is_Some (counterpart dst sp)) src) with
    | Some sp => counterpart_id dst sp
    | None => None
    end.
Proof.
  intros Hb. split; [exact Hb|].
  unfold _build_pattern_id_mapping, index_by_name in Hb. cbn [py_iter rbind] in Hb.
  apply rbind_Ok in Hb as (dbn & Hdbn & Hb).
  destruct (index_into_ids _ _ _ Hdbn) as [Hget Hall].
  intros k. apply (build_mapping_loop_lookup dbn dst [] src m); [|done|done].
  intros k'. rewrite Hget. by destruct (last_named k' dst).
Qed.

Lemma build_id_mapping_lookup_witness :
  exists m,
    _build_pattern_id_mapping (JList Sample.source_patterns)
      (JList Sample.dest_patterns) = Ok m /\
    dict_get (KStr "p1") m = Some (JStr "q2").
Proof.
  eexists. split; [reflexivity|].
  rewrite (proj2 (build_id_mapping_lookup Sample.source_patterns
                    Sample.dest_patterns _ eq_refl) (KStr "p1")).
  reflexivity.
Defined.

Lemma index_into_ids_total es acc :
  Forall (fun e => is_Some (name_key e) /\ is_Some (id_of e)) es ->
  exists d, index_into (fun p => py_getitem p "id") acc es = Ok d.
Proof.
  intros Hes. revert acc.
  induction Hes as [|e es [[k Hk] [i Hi]] _ IH]; intros acc; simpl.
  - by eexists.
  - unfold name_key in Hk. unfold id_of in Hi.
    destruct (py_getitem e "name") as [n|]; [|done]. simpl.
    destruct (py_getitem e "id") as [i'|]; [|done]. simpl.
    destruct (hash_key n) as [k'|]; [|done]. simpl. apply IH.
Qed.

Lemma index_into_ids_stops good d rest acc n :
  Forall (fun e => is_Some (name_key e) /\ is_Some (id_of e)) good ->
  dict_get "name" d = Some n -> dict_get "id" d = None ->
  index_into (fun p => py_getitem p "id") acc (good ++ JDict d :: rest)
  = Err (KeyError "id").
Proof.
  intros Hgood Hn Hi. revert acc.
  induction Hgood as [|e es [[k Hk] [i Hi']] _ IH]; intros acc; simpl.
  - by rewrite Hn, Hi.
  - unfold name_key in Hk. unfold id_of in Hi'.
    destruct (py_getitem e "name") as [n'|]; [|done]. simpl.
    destruct (py_getitem e "id") as [i'|]; [|done]. simpl.
    destruct (hash_key n') as [k'|]; [|done]. simpl. apply IH.
Qed.

Lemma build_mapping_loop_total dbn acc src :
  Forall (fun e => is_Some (name_key e) /\ is_Some (id_key e)) src ->
  exists m, build_mapping_loop dbn acc src = Ok m.
Proof.
  intros Hsrc. revert acc.
  induction Hsrc as [|e es [[k Hk] [ki Hki]] _ IH]; intros acc; simpl.
  - by eexists.
  - unfold name_key in Hk. unfold id_key, id_of in Hki.
    destruct (py_getitem e "name") as [n|]; [|done]. simpl.
    destruct (py_getitem e "id") as [i|]; [|done]. simpl.
    destruct (hash_key n) as [k'|]; [|done]. simpl.
    destruct (dict_get k' dbn); [|apply IH].
    destruct (hash_key i); [|done]. simpl. apply IH.
Qed.

Lemma build_mapping_loop_stops dbn acc good d rest n :
  Forall (fun e => is_Some (name_key e) /\ is_Some (id_key e)) good ->
  dict_get "name" d = Some n -> dict_get "id" d = None ->
  build_mapping_loop dbn acc (good ++ JDict d :: rest) = Err (KeyError "id").
Proof.
  intros Hgood Hn Hi. revert acc.
  induction Hgood as [|e es [[k Hk] [ki Hki]] _ IH]; intros acc; simpl.
  - by rewrite Hn, Hi.
  - unfold name_key in Hk. unfold id_key, id_of in Hki.
    destruct (py_getitem e "name") as [n'|]; [|done]. simpl.
    destruct (py_getitem e "id") as [i|]; [|done]. simpl.
    destruct (hash_key n') as [k'|]; [|done]. simpl.
    destruct (dict_get k' dbn); [|apply IH].
    destruct (hash_key i); [|done]. simpl. apply IH.
Qed.

(** X5 (entities without identifier): the mappers return on entities that
    all carry a name and an identifier, and raise [KeyError('id')] for the
    first entity that has a name and no identifier, be it a destination
    entity that no source entity is named like or a source entity whose
    name the destination does not have: the identifier is read before the
    name is looked up. *)
Theorem build_id_mapping_needs_ids (good rest others : list json)
  (d : list (string * json)) (n : json) :
  Forall (fun e => is_Some (name_key e) /\ is_Some (id_key e)) good ->
  Forall (fun e => is_Some (name_key e) /\ is_Some (id_key e)) others ->
  dict_get "name" d = Some n ->
  dict_get "id" d = None ->
  (exists m, _build_pattern_id_mapping (JList good) (JList others) = Ok m) /\
  _build_pattern_id_mapping (JList (good ++ JDict d :: rest)) (JList others)
  = Err (KeyError "id") /\
  _build_pattern_id_mapping (JList others) (JList (good ++ JDict d :: rest))
  = Err (KeyError "id").
Proof.
  intros Hgood Hothers Hn Hi.
  assert (Hweak : forall l,
             Forall (fun e => is_Some (name_key e) /\ is_Some (id_key e)) l ->
             Forall (fun e => is_Some (name_key e) /\ is_Some (id_of e)) l).
  { intros l. apply Forall_impl. intros e [Hk [k Hik]]. split; [done|].
    unfold id_key in Hik. by destruct (id_of e). }
  unfold _build_pattern_id_mapping, index_by_name. cbn [py_iter rbind].
  destruct (index_into_ids_total others [] (Hweak _ Hothers)) as [dbn Hdbn].
  rewrite Hdbn. cbn [rbind]. split; [|split].
  - by apply build_mapping_loop_total.
  - by eapply build_mapping_loop_stops.
  - by erewrite index_into_ids_stops; [| apply Hweak |..].
Qed.

Lemma build_id_mapping_needs_ids_witness :
  _build_pattern_id_mapping
    (JList (Sample.source_patterns ++ [JDict [("name", JStr "Orphan")]]))
    (JList Sample.dest_patterns)
  = Err (KeyError "id").
Proof.
  apply (build_id_mapping_needs_ids Sample.source_patterns []
           Sample.dest_patterns [("name", JStr "Orphan")] (JStr "Orphan")).
  - repeat constructor; by eexists.
  - repeat constructor; by eexists.
  - reflexivity.
  - reflexivity.
Defined.

(** X6 (references follow the names): with the mapping built from the two
    lists, the identifier of a source entity is rewritten to the identifier
    of the destination entity of its name, and is left as it is when the
    destination has no entity of that name, provided the source entities
    that carry this identifier all go by that name. *)
Theorem references_follow_names (src dst : list json) (m : dict key json)
  (sp : json) (n k : key) (i : json) :
  _build_pattern_id_mapping (JList src) (JList dst) = Ok m ->
  sp ∈ src ->
  name_key sp = Some n ->
  id_of sp = Some i ->
  hash_key i = Ok k ->
  (forall sp', sp' ∈ src -> id_key sp' = Some k -> name_key sp' = Some n) ->
  match last_named n dst with
  | Some dp => exists i', id_of dp = Some i' /\ mapped m i = i'
  | None => mapped m i = i
  end.
Proof.
  intros Hb Hin Hname Hid Hk Huniq.
  pose proof (proj2 (build_id_mapping_lookup src dst m Hb) k) as Hget.
  assert (Hdst : forall de, de ∈ dst -> is_Some (id_of de)).
  { unfold _build_pattern_id_mapping, index_by_name in Hb.
    cbn [py_iter rbind] in Hb. apply rbind_Ok in Hb as (dbn & Hdbn & _).
    destruct (index_into_ids _ _ _ Hdbn) as [_ Hall].
    by apply list.Forall_forall. }
  assert (Hik : id_key sp = Some k) by (unfold id_key; by rewrite Hid, Hk).
  unfold mapped. rewrite Hk, Hget.
  destruct (last_named n dst) as [dp|] eqn:Hdp.
  - destruct (Hdst dp) as [i' Hi']; [by apply last_named_elem in Hdp as [? _]|].
    exists i'. split; [done|].
    destruct (list.last _) as [sp'|] eqn:Hlast.
    + apply last_Some_elem_of, list_elem_of_filter in Hlast as [[Hk' _] Hin'].
      unfold counterpart_id, counterpart.
      by rewrite (Huniq sp' Hin' Hk'), Hdp, Hi'.
    + apply last_None in Hlast.
      assert (Hsp : sp ∈ filter (fun sp => id_key sp = Some k /\
                                           is_Some (counterpart dst sp)) src).
      { apply list_elem_of_filter. split; [|done]. split; [done|].
        unfold counterpart. by rewrite Hname, Hdp. }
      rewrite Hlast in Hsp. by apply not_elem_of_nil in Hsp.
  - destruct (list.last _) as [sp'|] eqn:Hlast; [|done].
    apply last_Some_elem_of, list_elem_of_filter in Hlast as [[Hk' Hs] Hin'].
    unfold counterpart in Hs. rewrite (Huniq sp' Hin' Hk'), Hdp in Hs.
    by destruct Hs.
Qed.

Lemma references_follow_names_witness :
  exists m,
    _build_pattern_id_mapping (JList Sample.source_patterns)
      (JList Sample.dest_patterns) = Ok m /\
    mapped m (JStr "p3") = JStr "q2" /\
    mapped m (JStr "p2") = JStr "p2".
Proof.
  eexists. split; [reflexivity|].
  assert (Huniq : forall k n,
             (k, n) ∈ [(KStr "p3", KStr "SSN"); (KStr "p2", KStr "Credit card")] ->
             forall sp', sp' ∈ Sample.source_patterns ->
                         id_key sp' = Some k -> name_key sp' = Some n).
  { intros k n Hkn sp' Hin Hk.
    repeat (apply elem_of_cons in Hkn as [[= -> ->]|Hkn];
            [repeat (apply elem_of_cons in Hin as [->|Hin];
                     [by vm_compute in Hk|]);
             by apply not_elem_of_nil in Hin|]).
    by apply not_elem_of_nil in Hkn. }
  split.
  - pose proof (references_follow_names Sample.source_patterns
                  Sample.dest_patterns _ Sample.ssn_last (KStr "SSN")
                  (KStr "p3") (JStr "p3") eq_refl
                  ltac:(apply list_elem_of_further, list_elem_of_further,
                          list_elem_of_here)
                  eq_refl eq_refl eq_refl
                  (Huniq _ _ ltac:(apply list_elem_of_here))) as Hthm.
    cbn [last_named] in Hthm.
    change (last_named (KStr "SSN") Sample.dest_patterns)
      with (Some Sample.dest_ssn_last) in Hthm.
    destruct Hthm as (i' & Hi' & Hm). injection Hi' as <-. exact Hm.
  - exact (references_follow_names Sample.source_patterns
             Sample.dest_patterns _ Sample.credit_card (KStr "Credit card")
             (KStr "p2") (JStr "p2") eq_refl
             ltac:(apply list_elem_of_further, list_elem_of_here)
             eq_refl eq_refl eq_refl
             (Huniq _ _ ltac:(apply list_elem_of_further, list_elem_of_here))).
Defined.

(** ** The order and the edges of the classification *)

Lemma filter_all {A} (P : A -> Prop) `{forall x, Decision (P x)} (l : list A) :
  Forall P l -> filter P l = l.
Proof.
  induction 1 as [|x l Hx _ IH]; [done|].
  rewrite filter_cons. destruct (decide (P x)); [by rewrite IH|done].
Qed.

Lemma filter_none {A} (P : A -> Prop) `{forall x, Decision (P x)} (l : list A) :
  Forall (fun x => ~ P x) l -> filter P l = [].
Proof.
  induction 1 as [|x l Hx _ IH]; [done|].
  rewrite filter_cons. by destruct (decide (P x)).
Qed.

Lemma index_into_keys es acc d :
  index_into Ok acc es = Ok d ->
  dict_keys d =
  dict_keys acc ++
  filter (fun k => k ∉ dict_keys acc) (first_seen (omap name_key es)).
Proof.
  revert acc d. induction es as [|e es IH]; intros acc d; simpl.
  - intros [= <-]. by rewrite app_nil_r.
  - intros Hi. apply rbind_Ok in Hi as (n & Hn & Hi).
    apply rbind_Ok in Hi as (ke & Hke & Hi).
    assert (Hname : name_key e = Some ke) by (unfold name_key; by rewrite Hn, Hke).
    rewrite Hname. cbn [first_seen]. rewrite (IH _ _ Hi), dict_keys_set.
    rewrite filter_cons, list_filter_filter. unfold dict_mem.
    destruct (dict_get ke acc) as [v|] eqn:Hg.
    + assert (Hin : ke ∈ dict_keys acc).
      { destruct (decide (ke ∈ dict_keys acc)) as [|Hn']; [done|].
        apply dict_get_None_keys in Hn'. congruence. }
      destruct (decide (ke ∉ dict_keys acc)); [done|]. f_equal.
      apply list_filter_iff. intros k. split; [|by intros [? _]].
      intros Hk. split; [done|]. by intros ->.
    + apply dict_get_None_keys in Hg.
      destruct (decide (ke ∉ dict_keys acc)); [|done].
      rewrite <- (assoc_L (++)). simpl. do 2 f_equal.
      apply list_filter_iff. intros k. rewrite elem_of_app, list_elem_of_singleton.
      tauto.
Qed.

Lemma index_into_stops good d rest acc :
  Forall (fun e => is_Some (name_key e)) good ->
  dict_get "name" d = None ->
  index_into Ok acc (good ++ JDict d :: rest) = Err (KeyError "name").
Proof.
  intros Hgood Hn. revert acc.
  induction Hgood as [|e es [k Hk] _ IH]; intros acc; simpl.
  - by rewrite Hn.
  - unfold name_key in Hk.
    destruct (py_getitem e "name") as [n'|]; [|done]. simpl.
    destruct (hash_key n') as [k'|]; [|done]. simpl. apply IH.
Qed.

Lemma map_snd_filter_fst {K V} (P : K -> Prop)
  (dec1 : forall kv : K * V, Decision (P (fst kv)))
  (dec2 : forall k, Decision (P k))
  (g : K -> option V) (l : list (K * V)) :
  (forall k e, (k, e) ∈ l -> g k = Some e) ->
  map snd (filter (fun kv => P (fst kv)) l) = omap g (filter P (map fst l)).
Proof.
  induction l as [|[k e] l IH]; intros Hg; [done|].
  assert (Hrest : forall k e, (k, e) ∈ l -> g k = Some e).
  { intros k' e' Hin. by apply Hg, list_elem_of_further. }
  simpl. rewrite !filter_cons. cbn [fst].
  destruct (decide (P k)) as [HP|HP]; destruct (decide (P k)); try done;
    [|by apply IH].
  simpl. rewrite (Hg k e) by apply list_elem_of_here. by rewrite IH.
Qed.

Lemma omap_name_key_values (l : list (key * json)) :
  (forall k e, (k, e) ∈ l -> name_key e = Some k) ->
  omap name_key (map snd l) = map fst l.
Proof.
  induction l as [|[k e] l IH]; intros Hn; [done|]. simpl.
  rewrite (Hn k e) by apply list_elem_of_here. f_equal. apply IH.
  intros k' e' Hin. by apply Hn, list_elem_of_further.
Qed.

Section Plan_order.
Context `{Differ}.

(** What the loop of the classifier adds to each output: the items without
    destination entity, in order, to [to_create]; of the others, in order,
    those whose difference is not empty to [to_update] and the rest to
    [identical]. *)
Lemma compare_loop_exact dd pm fm items acc p :
  compare_loop dd pm fm items acc = Ok p ->
  to_create p =
  to_create acc ++ map snd (filter (fun kv => dict_get (fst kv) dd = None) items) /\
  exists us ids,
    to_update p = to_update acc ++ us /\
    identical p = identical acc ++ map snd ids /\
    (exists kus, kus `sublist_of` items /\ map upd_source us = map snd kus) /\
    ids `sublist_of` items /\
    Forall (fun u => exists k sn dn,
                (k, upd_source u) ∈ items /\
                dict_get k dd = Some (upd_destination u) /\
                source_norm_of (upd_source u) pm fm = Ok sn /\
                _normalize_pattern (upd_destination u) = Ok dn /\
                diff_nonempty (DeepDiff sn dn) = true) us /\
    Forall (fun kv => exists de sn dn,
                kv ∈ items /\
                dict_get (fst kv) dd = Some de /\
                source_norm_of (snd kv) pm fm = Ok sn /\
                _normalize_pattern de = Ok dn /\
                diff_nonempty (DeepDiff sn dn) = false) ids.
Proof.
  revert acc p. induction items as [|[k e] items IH]; intros acc p; simpl.
  - intros [= <-]. rewrite app_nil_r. split; [done|].
    exists [], []. rewrite !app_nil_r. repeat split; try done.
    exists []. by split.
  - rewrite !filter_cons. cbn [fst].
    destruct (dict_get k dd) as [de|] eqn:Hde.
    + intros Hl. apply rbind_Ok in Hl as (sn & Hsn & Hl).
      apply rbind_Ok in Hl as (dn & Hdn & Hl).
      destruct (decide (Some de = None)); [done|].
      destruct (diff_nonempty (DeepDiff sn dn)) eqn:Hdiff;
        destruct (IH _ _ Hl)
          as (Hc & us & ids & Hu & Hi & (kus & Hkus & Hmap) & Hids & Hfu & Hfi);
        simpl in Hc, Hu, Hi; (split; [done|]).
      * eexists (_ :: us), ids. rewrite Hu, Hi, <- (assoc_L (++)).
        repeat split; try done.
        -- exists ((k, e) :: kus). split; [by apply sublist_skip|].
           simpl. by rewrite Hmap.
        -- by apply sublist_cons.
        -- constructor; [exists k, sn, dn; simpl; split; [apply list_elem_of_here|done]|].
           eapply Forall_impl; [|exact Hfu]. intros u (k' & ? & ? & ? & ?).
           exists k'. eexists _, _. split; [by apply list_elem_of_further|done].
        -- eapply Forall_impl; [|exact Hfi]. intros kv (? & ? & ? & ? & ?).
           eexists _, _, _. split; [by apply list_elem_of_further|done].
      * exists us, ((k, e) :: ids). rewrite Hu, Hi, <- (assoc_L (++)).
        repeat split; try done.
        -- exists kus. split; [by apply sublist_cons|done].
        -- by apply sublist_skip.
        -- eapply Forall_impl; [|exact Hfu]. intros u (k' & ? & ? & ? & ?).
           exists k'. eexists _, _. split; [by apply list_elem_of_further|done].
        -- constructor; [exists de, sn, dn; simpl; split; [apply list_elem_of_here|done]|].
           eapply Forall_impl; [|exact Hfi]. intros kv (? & ? & ? & ? & ?).
           eexists _, _, _. split; [by apply list_elem_of_further|done].
    + intros Hl. destruct (decide (None = None)); [|done].
      destruct (IH _ _ Hl)
        as (Hc & us & ids & Hu & Hi & (kus & Hkus & Hmap) & Hids & Hfu & Hfi).
      simpl in Hc, Hu, Hi. split.
      * rewrite Hc, <- (assoc_L (++)). done.
      * exists us, ids. repeat split; try done.
        -- exists kus. split; [by apply sublist_cons|done].
        -- by apply sublist_cons.
        -- eapply Forall_impl; [|exact Hfu]. intros u (k' & ? & ? & ? & ?).
           exists k'. eexists _, _. split; [by apply list_elem_of_further|done].
        -- eapply Forall_impl; [|exact Hfi]. intros kv (? & ? & ? & ? & ?).
           eexists _, _, _. split; [by apply list_elem_of_further|done].
Qed.
End Plan_order.

Section Plan_order_theorems.
Context `{Differ}.

Lemma compare_patterns_index src dst pm fm p :
  compare_patterns (JList src) (JList dst) pm fm = Ok p ->
  exists sd dd,
    index_into Ok [] src = Ok sd /\ index_into Ok [] dst = Ok dd /\
    compare_loop dd pm fm sd
      {| to_create := []; to_update := []; identical := [] |} = Ok p /\
    map fst sd = first_seen (omap name_key src) /\
    (forall k e, (k, e) ∈ sd -> name_key e = Some k /\ last_named k src = Some e) /\
    (forall k, dict_get k dd = last_named k dst).
Proof.
  unfold compare_patterns, index_by_name. cbn [py_iter rbind].
  intros Hc. apply rbind_Ok in Hc as (sd & Hsd & Hc).
  apply rbind_Ok in Hc as (dd & Hdd & Hc).
  exists sd, dd. split; [done|]. split; [done|]. split; [done|].
  destruct (index_into_spec _ _ _ Hsd) as (Hsget & Hsnd & Hsnamed).
  destruct (index_into_spec _ _ _ Hdd) as (Hdget & _ & _).
  split; [|split].
  - pose proof (index_into_keys _ _ _ Hsd) as Hk. simpl in Hk.
    unfold dict_keys in Hk. rewrite Hk. apply filter_all.
    apply list.Forall_forall. intros k _. apply not_elem_of_nil.
  - intros k e Hin.
    assert (Hn : name_key e = Some k).
    { apply Hsnamed; [|done]. intros k' e' Hin'. by apply not_elem_of_nil in Hin'. }
    split; [done|].
    pose proof (dict_get_elem_NoDup k e sd) as Hg.
    specialize (Hsget k). destruct (last_named k src) as [e'|] eqn:Hl.
    + rewrite Hg in Hsget; [congruence| |done]. apply Hsnd, NoDup_nil_2.
    + rewrite Hg in Hsget; [done| |done]. apply Hsnd, NoDup_nil_2.
  - intros k. rewrite Hdget. by destruct (last_named k dst).
Qed.

(** X7 (the order of a plan): the entities to create are, in the order in
    which their names are first seen in the source list, the last source
    entity of each name that the destination does not have; the entities to
    update and the identical ones come in that order as well.  The apply
    loops create and update in this order. *)
Theorem plan_follows_source_order (src dst : list json)
  (pm fm : option (dict key json)) (p : plan) :
  compare_patterns (JList src) (JList dst) pm fm = Ok p ->
  to_create p =
  omap (fun k => last_named k src)
    (filter (fun k => last_named k dst = None)
       (first_seen (omap name_key src))) /\
  omap name_key (map upd_source (to_update p))
    `sublist_of` first_seen (omap name_key src) /\
  omap name_key (identical p) `sublist_of` first_seen (omap name_key src).
Proof.
  intros Hc.
  destruct (compare_patterns_index _ _ _ _ _ Hc)
    as (sd & dd & _ & _ & Hloop & Horder & Hsd & Hdd).
  destruct (compare_loop_exact _ _ _ _ _ _ Hloop)
    as (Hcreate & us & ids & Hu & Hi & (kus & Hkus & Hmap) & Hids & _).
  simpl in Hcreate, Hu, Hi. rewrite <- Horder.
  assert (Hsub : forall l, l `sublist_of` sd ->
                   omap name_key (map snd l) `sublist_of` map fst sd).
  { intros l Hl. rewrite omap_name_key_values.
    - change (map fst l) with (fst <$> l). change (map fst sd) with (fst <$> sd).
      by apply fmap_sublist.
    - intros k e Hin. apply Hsd. by eapply elem_of_sublist. }
  split; [|split].
  - rewrite Hcreate.
    assert (Hf : filter (fun kv => dict_get (fst kv) dd = None) sd
                 = filter (fun kv => last_named (fst kv) dst = None) sd).
    { apply list_filter_iff. intros [k e]. simpl. by rewrite Hdd. }
    rewrite Hf.
    apply (map_snd_filter_fst (fun k => last_named k dst = None) _ _).
    intros k e Hin. by apply Hsd.
  - rewrite Hu, Hmap. by apply Hsub.
  - rewrite Hi. by apply Hsub.
Qed.

Lemma compare_loop_no_destination pm fm items acc :
  compare_loop [] pm fm items acc =
  Ok {| to_create := to_create acc ++ map snd items;
        to_update := to_update acc; identical := identical acc |}.
Proof.
  revert acc. induction items as [|[k e] items IH]; intros acc; simpl.
  - rewrite app_nil_r. by destruct acc.
  - rewrite IH. simpl. by rewrite <- (assoc_L (++)).
Qed.

(** X8 (an empty destination): against a destination that has no entity,
    every source name is to create, with its last entity and in the order
    of first appearance; nothing is normalized, rewritten or compared, so
    the classification returns as soon as the source entities have names,
    whatever their bodies and the mappings. *)
Theorem compare_patterns_empty_destination (src : list json)
  (pm fm : option (dict key json)) :
  Forall (fun e => is_Some (name_key e)) src ->
  compare_patterns (JList src) (JList []) pm fm =
  Ok {| to_create :=
          omap (fun k => last_named k src) (first_seen (omap name_key src));
        to_update := []; identical := [] |}.
Proof.
  intros Hsrc.
  destruct (index_into_total src [] Hsrc) as [sd Hsd].
  assert (Hc : compare_patterns (JList src) (JList []) pm fm =
               Ok {| to_create := map snd sd; to_update := [];
                     identical := [] |}).
  { unfold compare_patterns, index_by_name. cbn [py_iter rbind].
    rewrite Hsd. cbn [index_into rbind]. by rewrite compare_loop_no_destination. }
  rewrite Hc. do 2 f_equal.
  destruct (plan_follows_source_order _ _ _ _ _ Hc) as [Hcreate _].
  simpl in Hcreate. rewrite Hcreate. f_equal. apply filter_all.
  by apply list.Forall_forall.
Qed.
End Plan_order_theorems.

Lemma plan_follows_source_order_witness :
  exists p,
    compare_patterns (JList Sample.source_patterns) (JList Sample.dest_patterns)
      None None = Ok p /\
    to_create p = [Sample.credit_card].
Proof.
  destruct (@compare_patterns_total spec_differ Sample.source_patterns
              Sample.dest_patterns) as [p Hp].
  - repeat constructor; by eexists.
  - repeat constructor; by eexists.
  - exists p. split; [exact Hp|].
    rewrite (proj1 (plan_follows_source_order _ _ _ _ p Hp)). reflexivity.
Defined.

Lemma compare_patterns_empty_destination_witness :
  @compare_patterns spec_differ (JList Sample.source_patterns) (JList [])
    None None =
  Ok {| to_create := [Sample.ssn_last; Sample.credit_card];
        to_update := []; identical := [] |}.
Proof.
  rewrite (compare_patterns_empty_destination Sample.source_patterns None None).
  - reflexivity.
  - repeat constructor; by eexists.
Defined.

Section Classifier_edges.
Context `{Differ}.

(** X9 (an entity without name): an entity that has no [name] makes the
    classification raise [KeyError('name')] and give no plan at all, be it
    in the source list, whatever the destination list holds, or in the
    destination list of a source whose entities all have names, even when
    no source entity is compared with it. *)
Theorem compare_patterns_needs_names (good rest others : list json)
  (dst : json) (d : list (string * json)) (pm fm : option (dict key json)) :
  Forall (fun e => is_Some (name_key e)) good ->
  Forall (fun e => is_Some (name_key e)) others ->
  dict_get "name" d = None ->
  compare_patterns (JList (good ++ JDict d :: rest)) dst pm fm
  = Err (KeyError "name") /\
  compare_patterns (JList others) (JList (good ++ JDict d :: rest)) pm fm
  = Err (KeyError "name").
Proof.
  intros Hgood Hothers Hn. unfold compare_patterns, index_by_name.
  cbn [py_iter rbind]. split.
  - by rewrite index_into_stops.
  - destruct (index_into_total others [] Hothers) as [sd ->].
    cbn [rbind]. by rewrite index_into_stops.
Qed.

Lemma last_named_Forall2 (R : json -> json -> Prop) src dst k :
  Forall2 (fun s d => name_key s = name_key d /\ R s d) src dst ->
  match last_named k src, last_named k dst with
  | Some e, Some de => R e de
  | None, None => True
  | _, _ => False
  end.
Proof.
  induction 1 as [|s d src dst [Hn HR] _ IH]; [done|].
  rewrite !last_named_cons, <- Hn.
  destruct (last_named k src), (last_named k dst); try done.
  by destruct (decide (name_key s = Some k)).
Qed.

End Classifier_edges.

Lemma same_modulo_refl x : same_modulo x x.
Proof.
  induction x as [| | | |l IH|d IH] using json_induction; try constructor.
  - apply sm_list with (l1' := l); [|done].
    induction IH; by constructor.
  - apply sm_dict_same_order.
    induction IH as [|[k v] d Hkv _ IHd]; [constructor|].
    rewrite filter_cons. destruct (decide _); [|done]. by constructor.
Qed.

Lemma compare_patterns_needs_names_witness :
  @compare_patterns spec_differ
    (JList [Sample.ssn_first; JDict [("regex", JStr "\d+")]; Sample.ssn_last])
    (JList Sample.dest_patterns) None None
  = Err (KeyError "name").
Proof.
  apply (@compare_patterns_needs_names spec_differ [Sample.ssn_first]
           [Sample.ssn_last] [] (JList Sample.dest_patterns)
           [("regex", JStr "\d+")] None None).
  - repeat constructor; by eexists.
  - constructor.
  - reflexivity.
Defined.

Section Classifier_translated.
Context `{Differ}.

Lemma compare_loop_all_identical dd pm fm items acc :
  (forall x, diff_nonempty (DeepDiff x x) = false) ->
  (forall k e, (k, e) ∈ items ->
     exists de n, dict_get k dd = Some de /\
                  source_norm_of e pm fm = Ok n /\
                  _normalize_pattern de = Ok n) ->
  compare_loop dd pm fm items acc
  = Ok {| to_create := to_create acc; to_update := to_update acc;
          identical := identical acc ++ map snd items |}.
Proof.
  intros Hrefl. revert acc.
  induction items as [|[k e] items IH]; intros acc Hall; simpl.
  - rewrite app_nil_r. by destruct acc.
  - destruct (Hall k e) as (de & n & -> & -> & Hn); [apply list_elem_of_here|].
    cbn [rbind]. rewrite Hn. cbn [rbind]. rewrite Hrefl.
    rewrite IH.
    + simpl. by rewrite <- (assoc_L (++)).
    + intros k' e' Hin. by apply Hall, list_elem_of_further.
Qed.

Lemma map_snd_omap {K V} (g : K -> option V) (l : list (K * V)) :
  (forall k e, (k, e) ∈ l -> g k = Some e) ->
  map snd l = omap g (map fst l).
Proof.
  induction l as [|[k e] l IH]; intros Hg; [done|]. simpl.
  rewrite (Hg k e) by apply list_elem_of_here. f_equal. apply IH.
  intros k' e' Hin. by apply Hg, list_elem_of_further.
Qed.

(** X10 (a destination that is in step): when the destination list holds,
    entity by entity, what the source list holds once it is normalized and
    its references are rewritten with the given mappings, as it does once a
    run has gone through, the classification succeeds with nothing to
    create and nothing to update: every name is identical, for any
    comparison that finds no difference between a value and itself. *)
Theorem entities_in_step_are_identical (src dst : list json)
  (pm fm : option (dict key json)) :
  (forall x, diff_nonempty (DeepDiff x x) = false) ->
  Forall (fun e => is_Some (name_key e)) src ->
  Forall2 (fun s d => name_key s = name_key d /\
                      exists n, source_norm_of s pm fm = Ok n /\
                                _normalize_pattern d = Ok n) src dst ->
  compare_patterns (JList src) (JList dst) pm fm
  = Ok {| to_create := []; to_update := [];
          identical := omap (fun k => last_named k src)
                         (first_seen (omap name_key src)) |}.
Proof.
  intros Hrefl Hsrc Hsd.
  assert (Hdst : Forall (fun e => is_Some (name_key e)) dst).
  { clear Hrefl. induction Hsd as [|s d src dst [Hn _] _ IH]; [done|].
    apply list.Forall_cons in Hsrc as [Hs Hsrc]. constructor; [|by apply IH].
    by rewrite <- Hn. }
  destruct (index_into_total src [] Hsrc) as [sd Hsd'].
  destruct (index_into_total dst [] Hdst) as [dd Hdd'].
  assert (Hsome : exists p, compare_patterns (JList src) (JList dst) pm fm = Ok p).
  { unfold compare_patterns, index_by_name. cbn [py_iter rbind].
    rewrite Hsd', Hdd'. cbn [rbind].
    destruct (index_into_spec _ _ _ Hsd') as (Hsget & Hsnd & Hsnamed).
    destruct (index_into_spec _ _ _ Hdd') as (Hdget & _ & _).
    eexists. apply compare_loop_all_identical; [done|].
    intros k e Hin.
    assert (Hl : last_named k src = Some e).
    { pose proof (dict_get_elem_NoDup k e sd) as Hg.
      specialize (Hsget k). rewrite Hg in Hsget; [| apply Hsnd, NoDup_nil_2|done].
      by destruct (last_named k src); [congruence|]. }
    pose proof (last_named_Forall2 _ _ _ k Hsd) as Hboth.
    rewrite Hl in Hboth. specialize (Hdget k).
    destruct (last_named k dst) as [de|]; [|done].
    destruct Hboth as (n & Hn1 & Hn2). by exists de, n. }
  destruct Hsome as [p Hp]. rewrite Hp. f_equal.
  destruct (compare_patterns_index _ _ _ _ _ Hp)
    as (sd2 & dd2 & Hsd2 & Hdd2 & Hloop & Horder & Hsdn & Hdd).
  rewrite compare_loop_all_identical in Hloop; [| done |].
  - injection Hloop as <-. simpl. f_equal. rewrite <- Horder.
    apply map_snd_omap. intros k e Hin. by apply Hsdn.
  - intros k e Hin. destruct (Hsdn k e Hin) as [_ Hl].
    pose proof (last_named_Forall2 _ _ _ k Hsd) as Hboth.
    rewrite Hl in Hboth. rewrite Hdd.
    destruct (last_named k dst) as [de|]; [|done].
    destruct Hboth as (n & Hn1 & Hn2). by exists de, n.
Qed.
End Classifier_translated.

Lemma entities_in_step_are_identical_witness :
  @compare_patterns spec_differ (JList [Sample.multi_profile])
    (JList [synced_group])
    (Some Sample.pattern_id_mapping) (Some Sample.profile_id_mapping)
  = Ok {| to_create := []; to_update := [];
          identical := [Sample.multi_profile] |}.
Proof.
  apply (@entities_in_step_are_identical spec_differ [Sample.multi_profile]
           [synced_group] (Some Sample.pattern_id_mapping)
           (Some Sample.profile_id_mapping)).
  - intros x. simpl. by rewrite (deep_eqb_same_modulo x x (same_modulo_refl x)).
  - repeat constructor; by eexists.
  - repeat constructor. eexists. split; reflexivity.
Defined.

(** ** The store calls *)

Lemma rfilter_dicts (f : json -> bool) (k : string) (l : list json) :
  Forall (fun p => exists d, p = JDict d) l ->
  rfilter (fun p => (t <- py_get p k ;; Ok (f t))%result) l
  = Ok (filter (fun p => match py_get p k with
                         | Ok t => f t
                         | Err _ => false
                         end = true) l).
Proof.
  induction 1 as [|p l [d ->] _ IH]; [done|].
  cbn [rfilter]. rewrite IH. cbn [py_get rbind]. rewrite filter_cons.
  cbn [py_get]. by destruct (f _); destruct (decide _).
Qed.

Section Listing.
Context `{Transport}.

(** X11 (what the listing of patterns keeps): on a [200] answer whose body
    holds the patterns under [resources] (none when the key is missing),
    the listing of the custom patterns keeps, in order and whole, every
    pattern whose [type] is not [predefined], those without [type]
    included; the listing of all patterns returns the list as it is.  Any
    other status raises the error with the status and the text, without
    decoding the body.  Either way the one request is a [GET] of the
    patterns with the token. *)
Theorem get_data_patterns_keeps_custom (token : string) (s : state)
  (resp : response) (w : World) :
  send (list_patterns_request token) (world s) = (Ok resp, w) ->
  (status_code resp <> 200%Z ->
   forall custom_only,
     get_data_patterns token custom_only s =
     (Err (Failure "Error during retrieval" (status_code resp) (text resp)),
      {| world := w; trace := trace s ++ [list_patterns_request token] |})) /\
  (forall d l,
      status_code resp = 200%Z ->
      body resp = Some (JDict d) ->
      default (JList []) (dict_get "resources" d) = JList l ->
      Forall (fun p => exists dp, p = JDict dp) l ->
      get_data_patterns token true s =
      (Ok (JList (filter (fun p => is_custom_pattern p = true) l)),
       {| world := w; trace := trace s ++ [list_patterns_request token] |}) /\
      get_data_patterns token false s =
      (Ok (JList l),
       {| world := w; trace := trace s ++ [list_patterns_request token] |})).
Proof.
  intros Hsend. unfold list_patterns_request in Hsend. split.
  - intros Hst custom_only. unfold get_data_patterns, bind, requests.
    rewrite Hsend. apply Z.eqb_neq in Hst. by rewrite Hst.
  - intros d l Hst Hbody Hres Hl.
    unfold get_data_patterns, bind, requests, response_json, lift, ret.
    rewrite Hsend, Hst, Hbody. cbn [py_get_or_empty]. rewrite Hres.
    cbn [Z.eqb negb py_iter]. simpl.
    rewrite (rfilter_dicts (fun t => negb (is_str "predefined" t)) "type" l Hl).
    done.
Qed.

(** X12 (what the listing of profiles keeps): the profiles may come as a
    bare list or under [resources] (none when the key is missing); in both
    shapes the listing of the custom profiles keeps, in order and whole,
    exactly the profiles whose [profile_type] is [custom], so a profile
    without [profile_type] is dropped, unlike a pattern without [type]. *)
Theorem get_data_profiles_keeps_custom (token : string) (s : state)
  (resp : response) (w : World) (l : list json) :
  send (list_profiles_request token) (world s) = (Ok resp, w) ->
  status_code resp = 200%Z ->
  (body resp = Some (JList l) \/
   exists d, body resp = Some (JDict d) /\
             default (JList []) (dict_get "resources" d) = JList l) ->
  Forall (fun p => exists dp, p = JDict dp) l ->
  get_data_profiles token true s =
  (Ok (JList (filter (fun p => is_custom_profile p = true) l)),
   {| world := w; trace := trace s ++ [list_profiles_request token] |}) /\
  get_data_profiles token false s =
  (Ok (JList l),
   {| world := w; trace := trace s ++ [list_profiles_request token] |}).
Proof.
  intros Hsend Hst Hbody Hl. unfold list_profiles_request in Hsend.
  unfold get_data_profiles, bind, requests, response_json, lift, ret.
  rewrite Hsend, Hst.
  destruct Hbody as [Hbody|(d & Hbody & Hres)]; rewrite Hbody;
    cbn [py_get_or_empty]; rewrite ?Hres; simpl;
    by rewrite (rfilter_dicts (is_str "custom") "profile_type" l Hl).
Qed.
End Listing.

Lemma get_data_patterns_keeps_custom_witness :
  fst (get_data_patterns "any" true Catalog.start)
  = Ok (JList [Catalog.custom_pattern; Catalog.untyped_pattern]) /\
  fst (get_data_patterns "down" true Sample.start)
  = Err (Failure "Error during retrieval" 503 "unavailable").
Proof.
  split.
  - destruct (@get_data_patterns_keeps_custom Catalog.service "any"
                Catalog.start _ tt eq_refl) as [_ Hok].
    destruct (Hok _ Catalog.all_patterns eq_refl eq_refl eq_refl) as [-> _].
    + repeat constructor; by eexists.
    + reflexivity.
  - destruct (@get_data_patterns_keeps_custom Sample.server "down"
                Sample.start _ tt eq_refl) as [Herr _].
    by rewrite Herr.
Defined.

Lemma get_data_profiles_keeps_custom_witness :
  fst (get_data_profiles "bare" true Catalog.start)
  = Ok (JList [Catalog.custom_profile]) /\
  fst (get_data_profiles "wrapped" true Catalog.start)
  = Ok (JList [Catalog.custom_profile]).
Proof.
  split.
  - destruct (@get_data_profiles_keeps_custom Catalog.service "bare"
                Catalog.start _ tt Catalog.all_profiles eq_refl eq_refl)
      as [-> _]; [by left| |reflexivity].
    repeat constructor; by eexists.
  - destruct (@get_data_profiles_keeps_custom Catalog.service "wrapped"
                Catalog.start _ tt Catalog.all_profiles eq_refl eq_refl)
      as [-> _]; [right; by eexists| |reflexivity].
    repeat constructor; by eexists.
Defined.

(** ** What is sent, and to whom *)

Section Only_issues.
Context `{Transport}.

Lemma oi_ret P {A} (a : A) : only_issues P (ret a).
Proof. intros s. exists []. by rewrite app_nil_r. Qed.

Lemma oi_raise P {A} (e : exn) : only_issues P (raise (A := A) e).
Proof. intros s. exists []. by rewrite app_nil_r. Qed.

Lemma oi_lift P {A} (r : result A) : only_issues P (lift r).
Proof. intros s. exists []. by rewrite app_nil_r. Qed.

Lemma oi_requests (P : request -> Prop) r : P r -> only_issues P (requests r).
Proof.
  intros HP s. exists [r]. unfold requests.
  destruct (send r (world s)). simpl. split; [done|by constructor].
Qed.

Lemma oi_bind P {A B} (m : M A) (k : A -> M B) :
  only_issues P m -> (forall a, only_issues P (k a)) ->
  only_issues P (bind m k).
Proof.
  intros Hm Hk s. destruct (Hm s) as (new1 & Ht1 & HP1). unfold bind.
  destruct (m s) as [[a|e] s1]; simpl in *.
  - destruct (Hk a s1) as (new2 & Ht2 & HP2). exists (new1 ++ new2).
    rewrite Ht2, Ht1, (assoc_L (++)). split; [done|]. by apply Forall_app.
  - by exists new1.
Qed.

Lemma oi_bind_lift P {A B} (r : result A) (k : A -> M B) :
  (forall a, r = Ok a -> only_issues P (k a)) ->
  only_issues P (bind (lift r) k).
Proof.
  intros Hk. destruct r as [a|e].
  - intros s. exact (Hk a eq_refl s).
  - intros s. exists []. by rewrite app_nil_r.
Qed.

Lemma oi_try_catch P {A} (body : M A) (handler : exn -> M A) :
  only_issues P body -> (forall e, only_issues P (handler e)) ->
  only_issues P (try_catch body handler).
Proof.
  intros Hb Hh s. destruct (Hb s) as (new1 & Ht1 & HP1). unfold try_catch.
  destruct (body s) as [[a|e] s1]; simpl in *.
  - by exists new1.
  - destruct (Hh e s1) as (new2 & Ht2 & HP2). exists (new1 ++ new2).
    rewrite Ht2, Ht1, (assoc_L (++)). split; [done|]. by apply Forall_app.
Qed.

Lemma oi_for_each P {A R} (body : A -> R -> M R) (items : list A) (r : R) :
  (forall x r, x ∈ items -> only_issues P (body x r)) ->
  only_issues P (for_each body items r).
Proof.
  revert r. induction items as [|x items IH]; intros r Hbody; simpl.
  - apply oi_ret.
  - apply oi_bind; [apply Hbody, list_elem_of_here|].
    intros r'. apply IH. intros y r'' Hy. by apply Hbody, list_elem_of_further.
Qed.

Lemma oi_weaken (P Q : request -> Prop) {A} (m : M A) :
  (forall rq, P rq -> Q rq) -> only_issues P m -> only_issues Q m.
Proof.
  intros HPQ Hm s. destruct (Hm s) as (new & Ht & HP). exists new.
  split; [done|]. eapply Forall_impl; [|exact HP]. exact HPQ.
Qed.

Lemma oi_response_json P r : only_issues P (response_json r).
Proof. unfold response_json. destruct (body r); [apply oi_ret|apply oi_raise]. Qed.

Lemma oi_updated_result P r : only_issues P (updated_result r).
Proof.
  unfold updated_result. destruct (String.eqb _ _);
    [apply oi_ret|apply oi_response_json].
Qed.
End Only_issues.

Ltac oi_step :=
  lazymatch goal with
  | |- only_issues _ (ret _) => simple apply oi_ret
  | |- only_issues _ (raise _) => simple apply oi_raise
  | |- only_issues _ (lift _) => simple apply oi_lift
  | |- only_issues _ (response_json _) => simple apply oi_response_json
  | |- only_issues _ (updated_result _) => simple apply oi_updated_result
  | |- only_issues _ (bind (requests _) _) => idtac
  | |- only_issues _ (bind _ _) =>
      simple apply oi_bind; [oi_step|intros ?; oi_step]
  | |- only_issues _ (if ?b then _ else _) => destruct b; oi_step
  | |- only_issues _ (match ?x with _ => _ end) => destruct x; oi_step
  | |- _ => idtac
  end.

Lemma normalized_clean (d : list (string * json)) :
  clean_body (JDict (filter (fun kv => fst kv ∉ METADATA_FIELDS) d)).
Proof.
  eexists. split; [done|]. intros k Hk. rewrite normalize_get.
  by destruct (decide (k ∉ METADATA_FIELDS)).
Qed.

Lemma normalize_clean pattern clean :
  _normalize_pattern pattern = Ok clean -> clean_body clean.
Proof.
  destruct pattern; try done. simpl. intros [= <-]. apply normalized_clean.
Qed.

Lemma under_normalized k body d x' :
  k ∉ METADATA_FIELDS ->
  under k body (JDict (filter (fun kv => fst kv ∉ METADATA_FIELDS) d)) = Ok x' ->
  exists d', x' = JDict (filter (fun kv => fst kv ∉ METADATA_FIELDS) d').
Proof.
  intros Hk. rewrite under_normalize by done. intros Hu.
  apply rbind_Ok in Hu as (y & Hy & Hn).
  destruct (under_dict _ _ _ _ Hy) as [_ [d' ->]].
  simpl in Hn. injection Hn as <-. by exists d'.
Qed.

(** The body of a profile call holds no metadata: the rewriters keep the
    normal form. *)
Lemma clean_profile_of_clean profile pm fm clean :
  clean_profile_of profile pm fm = Ok clean -> clean_body clean.
Proof.
  assert (Ha : "advance_data_patterns_rules" ∉ METADATA_FIELDS).
  { apply (bool_decide_unpack _). by vm_compute. }
  assert (Hd : "detection_rules" ∉ METADATA_FIELDS).
  { apply (bool_decide_unpack _). by vm_compute. }
  unfold clean_profile_of. intros Hc.
  apply rbind_Ok in Hc as (n & Hn & Hc).
  destruct profile as [| | | | |d]; try done. simpl in Hn. injection Hn as <-.
  apply rbind_Ok in Hc as (c1 & Hc1 & Hc).
  unfold _remap_pattern_ids in Hc1.
  apply rbind_Ok in Hc1 as (x1 & Hx1 & Hc1).
  apply under_normalized in Hx1 as [d1 ->]; [|done].
  apply under_normalized in Hc1 as [d2 ->]; [|done].
  destruct (mapping_given fm) as [m|].
  - unfold _remap_profile_ids in Hc.
    apply under_normalized in Hc as [d3 ->]; [|done]. apply normalized_clean.
  - injection Hc as <-. apply normalized_clean.
Qed.

Section Writes.
Context `{Transport}.

Lemma create_pattern_oi token pattern :
  only_issues (write_to token) (create_pattern pattern token).
Proof.
  unfold create_pattern. apply oi_bind_lift. intros clean Hclean.
  apply oi_bind; [|intros; oi_step].
  apply oi_requests. split; [done|]. simpl. by eapply normalize_clean.
Qed.

Lemma update_pattern_oi token pattern_id pattern :
  only_issues (write_to token) (update_pattern pattern_id pattern token).
Proof.
  unfold update_pattern. apply oi_bind_lift. intros clean Hclean.
  apply oi_bind; [|intros; oi_step].
  apply oi_requests. split; [done|]. simpl. by eapply normalize_clean.
Qed.

Lemma create_profile_oi token profile pm fm :
  only_issues (write_to token) (create_profile profile token pm fm).
Proof.
  unfold create_profile. apply oi_bind_lift. intros clean Hclean.
  apply oi_bind; [|intros; oi_step].
  apply oi_requests. split; [done|]. simpl. split; [done|].
  by eapply clean_profile_of_clean.
Qed.

Lemma update_profile_oi token profile_id profile pm fm :
  only_issues (write_to token) (update_profile profile_id profile token pm fm).
Proof.
  unfold update_profile. apply oi_bind_lift. intros clean Hclean.
  apply oi_bind; [|intros; oi_step].
  apply oi_requests. split; [done|]. simpl. split; [done|].
  by eapply clean_profile_of_clean.
Qed.

(** X13 (what the create and update calls send): each of the four calls
    issues nothing but a request with the token it is given, a [POST] to
    the collection of the patterns or to the creation endpoint of the
    profiles, a [PUT] to the entity for an update, whose body, under
    [dataProfile] for a profile, holds none of the metadata fields: the
    rewriting of the references does not bring them back. *)
Theorem writes_carry_clean_bodies (token : string) :
  (forall pattern, only_issues (write_to token) (create_pattern pattern token)) /\
  (forall pattern_id pattern,
      only_issues (write_to token) (update_pattern pattern_id pattern token)) /\
  (forall profile pm fm,
      only_issues (write_to token) (create_profile profile token pm fm)) /\
  (forall profile_id profile pm fm,
      only_issues (write_to token)
        (update_profile profile_id profile token pm fm)).
Proof.
  split; [|split; [|split]].
  - apply create_pattern_oi.
  - intros. apply update_pattern_oi.
  - intros. apply create_profile_oi.
  - intros. apply update_profile_oi.
Qed.
End Writes.

Section Confinement.
Context `{Differ} `{Transport}.

Lemma get_data_patterns_oi token custom_only :
  only_issues (fun rq => rq = list_patterns_request token)
    (get_data_patterns token custom_only).
Proof.
  unfold get_data_patterns. apply oi_bind; [by apply oi_requests|].
  intros response. oi_step.
Qed.

Lemma get_data_profiles_oi token custom_only :
  only_issues (fun rq => rq = list_profiles_request token)
    (get_data_profiles token custom_only).
Proof.
  unfold get_data_profiles. apply oi_bind; [by apply oi_requests|].
  intros response. oi_step.
Qed.

Lemma create_pattern_item_oi token pattern r :
  only_issues (write_to token) (create_pattern_item token pattern r).
Proof.
  unfold create_pattern_item. apply oi_try_catch; [|intros e; oi_step].
  apply oi_bind; [apply create_pattern_oi|intros; oi_step].
Qed.

Lemma update_pattern_item_oi token item r :
  only_issues (write_to token) (update_pattern_item token item r).
Proof.
  unfold update_pattern_item. apply oi_try_catch; [|intros e; oi_step].
  apply oi_bind; [apply oi_lift|intros dest_id].
  apply oi_bind; [apply update_pattern_oi|intros; oi_step].
Qed.

Lemma create_profile_item_oi token pm fm profile r :
  only_issues (write_to token) (create_profile_item token pm fm profile r).
Proof.
  unfold create_profile_item. apply oi_try_catch; [|intros e; oi_step].
  apply oi_bind; [apply create_profile_oi|intros; oi_step].
Qed.

Lemma update_profile_item_oi token pm fm item r :
  only_issues (write_to token) (update_profile_item token pm fm item r).
Proof.
  unfold update_profile_item. apply oi_try_catch; [|intros e; oi_step].
  apply oi_bind; [apply oi_lift|intros dest_id].
  apply oi_bind; [apply update_profile_oi|intros; oi_step].
Qed.

Lemma sync_tenant_oi self dry_run sp sf dest :
  only_issues (tenant_request self dry_run dest)
    (sync_tenant self dry_run sp sf dest).
Proof.
  assert (Hget : forall c,
             only_issues (tenant_request self dry_run dest)
               (get_data_patterns (dest_token dest) c)).
  { intros c. eapply oi_weaken; [|apply get_data_patterns_oi].
    intros rq Hrq. right. left. by left. }
  assert (Hgetp : forall c,
             only_issues (tenant_request self dry_run dest)
               (get_data_profiles (dest_token dest) c)).
  { intros c. eapply oi_weaken; [|apply get_data_profiles_oi].
    intros rq Hrq. right. left. by right. }
  assert (Hw : forall {A} (m : M A),
             dry_run = false -> only_issues (write_to (dest_token dest)) m ->
             only_issues (tenant_request self dry_run dest) m).
  { intros A m Hdry. apply oi_weaken. intros rq Hrq. right. by right. }
  unfold sync_tenant.
  apply oi_bind; [apply Hget|intros dest_patterns].
  apply oi_bind; [apply oi_lift|intros plan_p].
  apply oi_bind.
  { destruct dry_run; simpl; [apply oi_ret|].
    apply oi_bind; [|intros rp].
    { apply oi_for_each. intros x r _. apply Hw; [done|].
      apply create_pattern_item_oi. }
    apply oi_bind; [|intros rp'].
    { apply oi_for_each. intros x r _. apply Hw; [done|].
      apply update_pattern_item_oi. }
    apply oi_bind; [apply Hget|intros ?]. apply oi_ret. }
  intros rp.
  apply oi_bind.
  { eapply oi_weaken; [|apply get_data_patterns_oi]. intros rq ->. by left. }
  intros all_source.
  apply oi_bind; [apply Hget|intros all_dest].
  apply oi_bind; [apply oi_lift|intros pm].
  apply oi_bind; [apply Hgetp|intros dest_profiles].
  apply oi_bind; [apply oi_lift|intros fm].
  apply oi_bind; [apply oi_lift|intros plan_f].
  destruct dry_run; [apply oi_ret|].
  apply oi_bind; [|intros rf].
  { apply oi_for_each. intros x r _. apply Hw; [done|].
    apply create_profile_item_oi. }
  apply oi_bind; [|intros rf'].
  { apply oi_for_each. intros x r _. apply Hw; [done|].
    apply update_profile_item_oi. }
  apply oi_ret.
Qed.

Lemma sync_dest_oi self dry_run target sp sf dest tenants :
  dest ∈ tenants_to_sync self target ->
  only_issues (run_request self dry_run target)
    (sync_dest self dry_run sp sf dest tenants).
Proof.
  intros Hdest. unfold sync_dest.
  apply oi_try_catch; [|intros e; apply oi_ret].
  apply oi_bind; [|intros; apply oi_ret].
  eapply oi_weaken; [|apply sync_tenant_oi].
  intros rq [->|[Hrq|Hrq]].
  - left. by left.
  - right. exists dest. split; [done|by left].
  - right. exists dest. split; [done|by right].
Qed.

Lemma source_listings_oi self dry_run target {A} (k : json -> json -> M A) :
  (forall sp sf, only_issues (run_request self dry_run target) (k sp sf)) ->
  only_issues (run_request self dry_run target)
    (source_patterns <- get_data_patterns (source_token self) true ;;
     source_profiles <- get_data_profiles (source_token self) true ;;
     k source_patterns source_profiles)%sync.
Proof.
  intros Hk. apply oi_bind.
  { eapply oi_weaken; [|apply get_data_patterns_oi]. intros rq ->. left. by left. }
  intros source_patterns. apply oi_bind; [|intros; apply Hk].
  eapply oi_weaken; [|apply get_data_profiles_oi]. intros rq ->. left. by right.
Qed.

Lemma sync_oi (self : syncer) (dry_run : bool)
  (target_tenants : option (list string)) :
  only_issues (run_request self dry_run target_tenants)
    (sync self dry_run target_tenants).
Proof.
  unfold sync. apply source_listings_oi. intros sp sf.
  destruct (no_tenant_found _ _); [apply oi_ret|].
  apply oi_bind; [apply oi_lift|intros np].
  apply oi_bind; [apply oi_lift|intros nf].
  apply oi_bind; [|intros; apply oi_ret].
  apply oi_for_each. intros dest tenants Hdest. by apply sync_dest_oi.
Qed.

(** X14 (whom a run talks to): every request of a run is a listing with the
    token of the source, a listing with the token of a selected destination
    or, outside a dry run, a create or update call with the token of a
    selected destination and a body free of metadata.  Requests are told
    apart by their token: when no selected destination carries the token of
    the source, every request with that token is a [GET], so the source is
    only read; and a token that is neither that of the source nor that of a
    selected destination comes with no request, so a destination that is
    not selected and shares its token with none of them is not contacted. *)
Theorem sync_requests_are_confined (self : syncer) (dry_run : bool)
  (target_tenants : option (list string)) (s : state) :
  exists new,
    trace (snd (sync self dry_run target_tenants s)) = trace s ++ new /\
    Forall (run_request self dry_run target_tenants) new /\
    ((forall d, d ∈ tenants_to_sync self target_tenants ->
                dest_token d <> source_token self) ->
     Forall (fun rq => req_token rq = source_token self ->
                       req_method rq = GET) new) /\
    (forall token,
        token <> source_token self ->
        (forall d, d ∈ tenants_to_sync self target_tenants ->
                   dest_token d <> token) ->
        Forall (fun rq => req_token rq <> token) new).
Proof.
  destruct (sync_oi self dry_run target_tenants s) as (new & Hnew & Hall).
  exists new. split; [exact Hnew|]. split; [exact Hall|]. split.
  - intros Hapart. eapply Forall_impl; [|exact Hall].
    intros rq [[-> | ->]|(d & Hd & [[-> | ->]|[_ [Htok _]]])] Hsrc;
      try reflexivity.
    destruct (Hapart d Hd). by rewrite <- Htok, Hsrc.
  - intros token Hsrc Hdest. eapply Forall_impl; [|exact Hall].
    intros rq [[-> | ->]|(d & Hd & [[-> | ->]|[_ [Htok _]]])] Heq;
      simpl in Heq.
    + by apply Hsrc.
    + by apply Hsrc.
    + by apply (Hdest d Hd).
    + by apply (Hdest d Hd).
    + apply (Hdest d Hd). by rewrite <- Htok.
Qed.
End Confinement.

Lemma sync_requests_are_confined_witness :
  Forall (run_request Sample.syncer_prod_dev false (Some ["Prod"]))
    (trace (snd (@sync spec_differ Sample.server Sample.syncer_prod_dev false
                   (Some ["Prod"]) Sample.start))) /\
  Forall (fun rq => req_token rq = "src" -> req_method rq = GET)
    (trace (snd (@sync spec_differ Sample.server Sample.syncer_prod_dev false
                   (Some ["Prod"]) Sample.start))) /\
  Forall (fun rq => req_token rq <> "down")
    (trace (snd (@sync spec_differ Sample.server Sample.syncer_prod_dev false
                   (Some ["Prod"]) Sample.start))) /\
  length (trace (snd (@sync spec_differ Sample.server Sample.syncer_prod_dev
                        false (Some ["Prod"]) Sample.start))) = 10.
Proof.
  destruct (@sync_requests_are_confined spec_differ Sample.server
              Sample.syncer_prod_dev false (Some ["Prod"]) Sample.start)
    as (new & Hnew & Hall & Hread & Hout).
  split; [|split; [|split; [|by vm_compute]]]; rewrite Hnew; simpl.
  - exact Hall.
  - apply Hread. intros d Hd. vm_compute in Hd.
    apply list_elem_of_singleton in Hd as ->. done.
  - apply (Hout "down"); [done|]. intros d Hd. vm_compute in Hd.
    apply list_elem_of_singleton in Hd as ->. done.
Defined.

(** A destination that carries the token of the source: the create calls of
    its processing come with that token. *)
Example shared_token_is_written :
  Exists (fun rq => req_token rq = "src" /\ req_method rq = POST)
    (trace (snd (@sync spec_differ Mirror.service Mirror.syncer_mirror false
                   None Mirror.start))).
Proof.
  vm_compute.
  repeat first [by apply Exists_cons_hd | apply Exists_cons_tl].
Qed.

(** ** Runs without report *)

Section Stateless.
Context `{Transport}.

Lemma stateless_ret {A} (a : A) : stateless (ret a).
Proof. done. Qed.

Lemma stateless_raise {A} (e : exn) : stateless (raise (A := A) e).
Proof. done. Qed.

Lemma stateless_lift {A} (r : result A) : stateless (lift r).
Proof. done. Qed.

Lemma stateless_bind {A B} (m : M A) (k : A -> M B) :
  stateless m -> (forall a, stateless (k a)) -> stateless (bind m k).
Proof.
  intros Hm Hk s. unfold bind. specialize (Hm s).
  destruct (m s) as [[a|e] s1]; simpl in *; subst; [apply Hk|done].
Qed.

Lemma stateless_response_json r : stateless (response_json r).
Proof. unfold response_json. by destruct (body r). Qed.

Lemma requests_then {A} rq (k : response -> M A) s :
  (forall resp, stateless (k resp)) ->
  trace (snd (bind (requests rq) k s)) = trace s ++ [rq].
Proof.
  intros Hk. unfold bind, requests.
  destruct (send rq (world s)) as [[resp|e] w]; [|done].
  by rewrite Hk.
Qed.

Lemma get_data_patterns_trace token custom_only s :
  trace (snd (get_data_patterns token custom_only s))
  = trace s ++ [list_patterns_request token].
Proof.
  unfold get_data_patterns. apply requests_then. intros resp.
  destruct (negb _); [apply stateless_raise|].
  apply stateless_bind; [apply stateless_response_json|intros j].
  apply stateless_bind; [apply stateless_lift|intros patterns].
  destruct custom_only; [|apply stateless_ret].
  apply stateless_bind; [apply stateless_lift|intros es].
  apply stateless_bind; [apply stateless_lift|intros ps]. apply stateless_ret.
Qed.

Lemma get_data_profiles_trace token custom_only s :
  trace (snd (get_data_profiles token custom_only s))
  = trace s ++ [list_profiles_request token].
Proof.
  unfold get_data_profiles. apply requests_then. intros resp.
  destruct (negb _); [apply stateless_raise|].
  apply stateless_bind; [apply stateless_response_json|intros j].
  apply stateless_bind; [destruct j; first [apply stateless_ret|apply stateless_lift]|].
  intros profiles.
  destruct custom_only; [|apply stateless_ret].
  apply stateless_bind; [apply stateless_lift|intros es].
  apply stateless_bind; [apply stateless_lift|intros ps]. apply stateless_ret.
Qed.
End Stateless.

Section Runs.
Context `{Differ} `{Transport}.

(** X15 (a failing source): the two listings of the source are outside any
    [try]: when the source answers the listing of its patterns, or then of
    its profiles, with a status other than [200], the run raises the error
    of the listing, returns no report and has contacted no destination,
    whatever the mode and the selection. *)
Theorem sync_source_failure_aborts (self : syncer) (dry_run : bool)
  (target_tenants : option (list string)) (s : state)
  (resp : response) (w : World) :
  (send (list_patterns_request (source_token self)) (world s) = (Ok resp, w) ->
   status_code resp <> 200%Z ->
   sync self dry_run target_tenants s =
   (Err (Failure "Error during retrieval" (status_code resp) (text resp)),
    {| world := w;
       trace := trace s ++ [list_patterns_request (source_token self)] |})) /\
  (forall sp s1,
      get_data_patterns (source_token self) true s = (Ok sp, s1) ->
      send (list_profiles_request (source_token self)) (world s1) = (Ok resp, w) ->
      status_code resp <> 200%Z ->
      sync self dry_run target_tenants s =
      (Err (Failure "Error retrieving profiles" (status_code resp) (text resp)),
       {| world := w;
          trace := trace s1 ++ [list_profiles_request (source_token self)] |})).
Proof.
  split.
  - intros Hsend Hst. unfold sync, bind, get_data_patterns, bind, requests.
    unfold list_patterns_request in Hsend. rewrite Hsend.
    apply Z.eqb_neq in Hst. by rewrite Hst.
  - intros sp s1 Hsp Hsend Hst. unfold sync, bind. rewrite Hsp.
    unfold get_data_profiles, bind, requests.
    unfold list_profiles_request in Hsend. rewrite Hsend.
    apply Z.eqb_neq in Hst. by rewrite Hst.
Qed.

(** X16 (a selection that matches nothing): when names are given and no
    destination goes by any of them, the run still lists the patterns and
    the profiles of the source, then returns the empty result instead of a
    report; it issues nothing else. *)
Theorem sync_no_matching_tenant (self : syncer) (dry_run : bool)
  (t : string) (ts : list string) (s : state) :
  (forall d, d ∈ destinations self -> dest_name d ∉ t :: ts) ->
  exists new,
    trace (snd (sync self dry_run (Some (t :: ts)) s)) = trace s ++ new /\
    new `prefix_of` [list_patterns_request (source_token self);
                     list_profiles_request (source_token self)] /\
    (forall r, fst (sync self dry_run (Some (t :: ts)) s) = Ok r ->
               r = empty_result /\
               new = [list_patterns_request (source_token self);
                      list_profiles_request (source_token self)]).
Proof.
  intros Hnone.
  assert (Hsel : tenants_to_sync self (Some (t :: ts)) = []).
  { unfold tenants_to_sync. apply filter_none. apply list.Forall_forall.
    intros d Hd. by apply Hnone. }
  unfold sync. rewrite Hsel. simpl.
  unfold bind.
  pose proof (get_data_patterns_trace (source_token self) true s) as Hp.
  destruct (get_data_patterns (source_token self) true s) as [[sp|e] s1];
    simpl in Hp.
  - pose proof (get_data_profiles_trace (source_token self) true s1) as Hf.
    destruct (get_data_profiles (source_token self) true s1) as [[sf|e] s2];
      simpl in *; rewrite Hf, Hp, <- (assoc_L (++)); simpl;
      (eexists; split; [done|]); (split; [done|]); [|done].
    by intros r [= <-].
  - simpl. rewrite Hp. eexists. split; [done|]. split; [|done]. by eexists.
Qed.
End Runs.

Lemma sync_source_failure_aborts_witness :
  fst (@sync spec_differ Sample.server
         {| source_creds_name := "Source"; source_token := "down";
            destinations := [Sample.prod] |} false None Sample.start)
  = Err (Failure "Error during retrieval" 503 "unavailable").
Proof.
  destruct (@sync_source_failure_aborts spec_differ Sample.server
              {| source_creds_name := "Source"; source_token := "down";
                 destinations := [Sample.prod] |} false None Sample.start
              {| status_code := 503; text := "unavailable"; body := None |} tt)
    as [Hfail _].
  by rewrite Hfail.
Defined.

Lemma sync_no_matching_tenant_witness :
  @sync spec_differ Sample.server Sample.syncer_prod_dev false
    (Some ["Staging"]) Sample.start
  = (Ok empty_result,
     @Build_state Sample.server tt
       [list_patterns_request "src"; list_profiles_request "src"]).
Proof.
  destruct (@sync_no_matching_tenant spec_differ Sample.server
              Sample.syncer_prod_dev false "Staging" [] Sample.start)
    as (new & Hnew & _ & Hok).
  - intros d Hd Hin. apply list_elem_of_singleton in Hin.
    repeat (apply elem_of_cons in Hd as [->|Hd]; [done|]).
    by apply not_elem_of_nil in Hd.
  - reflexivity.
Defined.

(** ** The cost and the accounts of one destination *)

Section Tenant_listings.
Context `{Differ} `{Transport}.

Lemma sync_tenant_listings f self (dry_run : bool) sp sf dest (n_pat n_prof : nat) :
  f (list_patterns_request (source_token self)) = 0 ->
  f (list_patterns_request (dest_token dest)) = n_pat ->
  f (list_profiles_request (dest_token dest)) = n_prof ->
  (forall rq, req_method rq = POST \/ req_method rq = PUT -> f rq = 0) ->
  emits f ((if dry_run then 2 else 3) * n_pat + n_prof)
          ((if dry_run then 2 else 3) * n_pat + n_prof)
    (sync_tenant self dry_run sp sf dest).
Proof.
  intros Hsrc Hpat Hprof Hmut.
  assert (Hget : forall c, emits f n_pat n_pat
                             (get_data_patterns (dest_token dest) c)).
  { intros c. rewrite <- Hpat. apply get_data_patterns_emits. }
  assert (Hgetp : forall c, emits f n_prof n_prof
                              (get_data_profiles (dest_token dest) c)).
  { intros c. rewrite <- Hprof. apply get_data_profiles_emits. }
  set (k := if dry_run then 0 else n_pat).
  unfold sync_tenant.
  eapply emits_weaken;
    [apply (emits_bind f n_pat n_pat (k + n_pat + n_prof) (k + n_pat + n_prof))
    |(subst k; destruct dry_run; lia)..]; [apply Hget|intros dest_patterns].
  apply emits_bind_l; [apply emits_lift|intros plan_p].
  eapply emits_weaken;
    [apply (emits_bind f k k (n_pat + n_prof) (n_pat + n_prof))|lia..].
  { subst k. destruct dry_run; simpl; [apply emits_ret|].
    apply emits_bind_l; [|intros rp].
    { apply emits_for_each_zero. intros x r.
      apply create_pattern_item_emits. intros rq Hrq. apply Hmut. by left. }
    apply emits_bind_l; [|intros rp'].
    { apply emits_for_each_zero. intros x r.
      apply update_pattern_item_emits. intros rq Hrq. apply Hmut. by right. }
    apply emits_bind_r; [apply Hget|intros ?]. apply emits_ret. }
  intros rp.
  apply emits_bind_l.
  { rewrite <- Hsrc. apply get_data_patterns_emits. }
  intros all_source.
  apply (emits_bind f n_pat n_pat n_prof n_prof); [apply Hget|intros all_dest].
  apply emits_bind_l; [apply emits_lift|intros pm].
  apply emits_bind_r; [apply Hgetp|intros dest_profiles].
  apply emits_bind_l; [apply emits_lift|intros fm].
  apply emits_bind_l; [apply emits_lift|intros plan_f].
  destruct dry_run; [apply emits_ret|].
  apply emits_bind_l; [|intros rf].
  { apply emits_for_each_zero. intros x r.
    apply create_profile_item_emits. intros rq Hrq. apply Hmut. by left. }
  apply emits_bind_l; [|intros rf'].
  { apply emits_for_each_zero. intros x r.
    apply update_profile_item_emits. intros rq Hrq. apply Hmut. by right. }
  apply emits_ret.
Qed.

(** X17 (what a destination is asked): the processing of a destination
    whose token is not the token of the source lists the patterns of the
    destination at most three times, twice in a dry run, and its profiles
    at most once; when the processing returns, exactly so many times.  The
    listing after the pattern changes and the listing of all patterns come
    on top of the first one. *)
Theorem destination_listing_counts (self : syncer) (dry_run : bool)
  (sp sf : json) (dest : destination) (s : state) :
  dest_token dest <> source_token self ->
  exists new,
    trace (snd (sync_tenant self dry_run sp sf dest s)) = trace s ++ new /\
    weight (lists_patterns (dest_token dest)) new <= (if dry_run then 2 else 3) /\
    weight (lists_profiles (dest_token dest)) new <= 1 /\
    (is_ok (fst (sync_tenant self dry_run sp sf dest s)) = true ->
     weight (lists_patterns (dest_token dest)) new = (if dry_run then 2 else 3) /\
     weight (lists_profiles (dest_token dest)) new = 1).
Proof.
  intros Hne.
  assert (Hneb : String.eqb (source_token self) (dest_token dest) = false).
  { apply String.eqb_neq. congruence. }
  destruct (sync_tenant_listings (lists_patterns (dest_token dest)) self
              dry_run sp sf dest 1 0) with s as (new & Hnew & Hhi & Hlo).
  { unfold lists_patterns. simpl. by rewrite Hneb. }
  { unfold lists_patterns. simpl. by rewrite String.eqb_refl. }
  { done. }
  { intros rq [Hm|Hm]; unfold lists_patterns; by rewrite Hm. }
  destruct (sync_tenant_listings (lists_profiles (dest_token dest)) self
              dry_run sp sf dest 0 1) with s as (new' & Hnew' & Hhi' & Hlo').
  { done. }
  { done. }
  { unfold lists_profiles. simpl. by rewrite String.eqb_refl. }
  { intros rq [Hm|Hm]; unfold lists_profiles; by rewrite Hm. }
  assert (new' = new) as ->
      by (rewrite Hnew in Hnew'; by apply app_inv_head in Hnew').
  exists new. split; [done|].
  split; [destruct dry_run; lia|]. split; [destruct dry_run; lia|].
  intros Hok. specialize (Hlo Hok). specialize (Hlo' Hok).
  split; destruct dry_run; lia.
Qed.
End Tenant_listings.

Lemma destination_listing_counts_witness :
  weight (lists_patterns "dst")
    (trace (snd (@sync_tenant spec_differ Sample.server Sample.syncer_prod
                   false (JList Sample.source_patterns)
                   (JList [Sample.profile]) Sample.prod Sample.start))) = 3.
Proof.
  destruct (@destination_listing_counts spec_differ Sample.server
              Sample.syncer_prod false (JList Sample.source_patterns)
              (JList [Sample.profile]) Sample.prod Sample.start)
    as (new & Hnew & _ & _ & Hok); [done|].
  rewrite Hnew. simpl. exact (proj1 (Hok eq_refl)).
Defined.

Lemma count_if_app {A} (p : A -> bool) (l1 l2 : list A) :
  count_if p (l1 ++ l2) = count_if p l1 + count_if p l2.
Proof. induction l1 as [|x l1 IH]; simpl; [done|]. rewrite IH. lia. Qed.

Lemma tally_add_created n r : tally (add_created n r) = one_creation (tally r).
Proof.
  unfold tally, creating_errors, updating_errors. simpl.
  rewrite length_app. simpl. repeat f_equal. lia.
Qed.

Lemma tally_add_updated n r : tally (add_updated n r) = one_update (tally r).
Proof.
  unfold tally, creating_errors, updating_errors. simpl.
  rewrite length_app. simpl. repeat f_equal. lia.
Qed.

Lemma tally_creation_error n e r :
  tally (add_error (Error_creating n e) r) = one_creation (tally r).
Proof.
  unfold tally, creating_errors, updating_errors. simpl.
  rewrite !count_if_app. simpl. repeat f_equal; lia.
Qed.

Lemma tally_update_error n e r :
  tally (add_error (Error_updating n e) r) = one_update (tally r).
Proof.
  unfold tally, creating_errors, updating_errors. simpl.
  rewrite !count_if_app. simpl. repeat f_equal; lia.
Qed.

Section Accounts.
Context `{Differ} `{Transport}.

Lemma for_each_tally {A} (body : A -> kind_report -> M kind_report)
  (f : nat * nat * nat * nat * nat -> nat * nat * nat * nat * nat)
  (items : list A) :
  (forall x r s r' s', body x r s = (Ok r', s') -> tally r' = f (tally r)) ->
  forall r s r' s',
    for_each body items r s = (Ok r', s') ->
    tally r' = Nat.iter (length items) f (tally r).
Proof.
  intros Hbody. induction items as [|x items IH]; intros r s r' s'; simpl.
  - by intros [= <- <-].
  - intros Hrun. apply bind_Ok in Hrun as (r1 & s1 & Hx & Hrun).
    rewrite (IH _ _ _ _ Hrun), (Hbody _ _ _ _ _ Hx).
    clear. induction (length items) as [|n IHn]; simpl; [done|].
    by rewrite IHn.
Qed.

Lemma create_pattern_item_tally token x r s r' s' :
  create_pattern_item token x r s = (Ok r', s') ->
  tally r' = one_creation (tally r).
Proof.
  unfold create_pattern_item, try_catch, bind, lift, ret.
  destruct (create_pattern x token s) as [[a|e] s1];
    destruct (py_getitem x "name"); intros [= <- <-];
    [apply tally_add_created|apply tally_creation_error].
Qed.

Lemma create_profile_item_tally token pm fm x r s r' s' :
  create_profile_item token pm fm x r s = (Ok r', s') ->
  tally r' = one_creation (tally r).
Proof.
  unfold create_profile_item, try_catch, bind, lift, ret.
  destruct (create_profile x token pm (Some fm) s) as [[a|e] s1];
    destruct (py_getitem x "name"); intros [= <- <-];
    [apply tally_add_created|apply tally_creation_error].
Qed.

Lemma update_pattern_item_tally token x r s r' s' :
  update_pattern_item token x r s = (Ok r', s') ->
  tally r' = one_update (tally r).
Proof.
  unfold update_pattern_item, try_catch, bind, lift, ret.
  destruct (py_getitem (upd_destination x) "id") as [dest_id|e].
  - destruct (update_pattern dest_id (upd_source x) token s) as [[a|e] s1];
      destruct (py_getitem (upd_source x) "name"); intros [= <- <-];
      [apply tally_add_updated|apply tally_update_error].
  - destruct (py_getitem (upd_source x) "name"); intros [= <- <-].
    apply tally_update_error.
Qed.

Lemma update_profile_item_tally token pm fm x r s r' s' :
  update_profile_item token pm fm x r s = (Ok r', s') ->
  tally r' = one_update (tally r).
Proof.
  unfold update_profile_item, try_catch, bind, lift, ret.
  destruct (py_getitem (upd_destination x) "id") as [dest_id|e].
  - destruct (update_profile dest_id (upd_source x) token pm (Some fm) s)
      as [[a|e] s1];
      destruct (py_getitem (upd_source x) "name"); intros [= <- <-];
      [apply tally_add_updated|apply tally_update_error].
  - destruct (py_getitem (upd_source x) "name"); intros [= <- <-].
    apply tally_update_error.
Qed.

Lemma iter_one_creation n c u i dc du :
  Nat.iter n one_creation (c, u, i, dc, du) = (c, u, i, n + dc, du).
Proof.
  induction n as [|n IH]; simpl; [done|]. by rewrite IH.
Qed.

Lemma iter_one_update n c u i dc du :
  Nat.iter n one_update (c, u, i, dc, du) = (c, u, i, dc, n + du).
Proof.
  induction n as [|n IH]; simpl; [done|]. by rewrite IH.
Qed.

(** The report of a destination that was processed to the end, in terms of
    the two plans. *)
Lemma sync_tenant_tally self dry_run sp sf dest s rep s' :
  sync_tenant self dry_run sp sf dest s = (Ok rep, s') ->
  exists plan_p plan_f,
    (exists dest_patterns s1,
        get_data_patterns (dest_token dest) true s = (Ok dest_patterns, s1) /\
        compare_patterns sp dest_patterns None None = Ok plan_p) /\
    tally (patterns rep) =
    (length (to_create plan_p), length (to_update plan_p),
     length (identical plan_p),
     if dry_run then 0 else length (to_create plan_p),
     if dry_run then 0 else length (to_update plan_p)) /\
    tally (profiles rep) =
    (length (to_create plan_f), length (to_update plan_f),
     length (identical plan_f),
     if dry_run then 0 else length (to_create plan_f),
     if dry_run then 0 else length (to_update plan_f)).
Proof.
  unfold sync_tenant. intros Hrun.
  apply bind_Ok in Hrun as (dest_patterns & s1 & Hdp & Hrun).
  apply bind_Ok in Hrun as (plan_p & s2 & Hplan_p & Hrun).
  apply lift_Ok in Hplan_p as [Hplan_p ->].
  apply bind_Ok in Hrun as (rp & s3 & Hrp & Hrun).
  apply bind_Ok in Hrun as (all_source & s4 & _ & Hrun).
  apply bind_Ok in Hrun as (all_dest & s5 & _ & Hrun).
  apply bind_Ok in Hrun as (pm & s6 & _ & Hrun).
  apply bind_Ok in Hrun as (dest_profiles & s7 & _ & Hrun).
  apply bind_Ok in Hrun as (fm & s8 & _ & Hrun).
  apply bind_Ok in Hrun as (plan_f & s9 & Hplan_f & Hrun).
  apply lift_Ok in Hplan_f as [Hplan_f ->].
  exists plan_p, plan_f. split; [by eexists _, _|].
  destruct dry_run; simpl in Hrp, Hrun.
  - injection Hrp as <- <-. injection Hrun as <- <-. done.
  - apply bind_Ok in Hrp as (rp1 & t1 & Hc & Hrp).
    apply bind_Ok in Hrp as (rp2 & t2 & Hu & Hrp).
    apply bind_Ok in Hrp as (? & t3 & _ & Hrp). injection Hrp as <- <-.
    apply (for_each_tally _ one_creation) in Hc;
      [|intros *; apply create_pattern_item_tally].
    apply (for_each_tally _ one_update) in Hu;
      [|intros *; apply update_pattern_item_tally].
    apply bind_Ok in Hrun as (rf1 & u1 & Hfc & Hrun).
    apply bind_Ok in Hrun as (rf2 & u2 & Hfu & Hrun). injection Hrun as <- <-.
    apply (for_each_tally _ one_creation) in Hfc;
      [|intros *; apply create_profile_item_tally].
    apply (for_each_tally _ one_update) in Hfu;
      [|intros *; apply update_profile_item_tally].
    simpl. split.
    + rewrite Hu, Hc. unfold tally at 1, counts_of, creating_errors,
        updating_errors. simpl.
      rewrite iter_one_creation, iter_one_update. repeat f_equal; lia.
    + rewrite Hfu, Hfc. unfold tally at 1, set_counts, empty_kind_report,
        creating_errors, updating_errors. simpl.
      rewrite iter_one_creation, iter_one_update. repeat f_equal; lia.
Qed.

(** X18 (every planned item is accounted for): in the report that a run
    outside dry-run mode gives for a destination, every entity that was to
    create is among the created ones or has left its creation error, and
    every entity that was to update is among the updated ones or has left
    its update error, for the patterns and for the profiles: the counts of
    the plan and the outcome lists add up. *)
Theorem report_accounts_for_every_item (self : syncer)
  (target_tenants : option (list string)) (s : state) (g : global_report)
  (name : string) (rep : report) :
  fst (sync self false target_tenants s) = Ok (full_result g) ->
  dict_get name (tenants g) = Some (tenant_report rep) ->
  accounted (patterns rep) /\ accounted (profiles rep).
Proof.
  intros Hrun Hentry.
  destruct (sync self false target_tenants s) as [r s'] eqn:Hsync.
  simpl in Hrun. subst r.
  destruct (sync_full_result _ _ _ _ _ _ Hsync)
    as (sp & sf & s1 & s2 & _ & _ & _ & Hloop).
  destruct (for_each_sync_dest_entries _ _ _ _ _ _ _ _ _ Hloop)
    as (_ & _ & Hfrom).
  destruct (Hfrom name _ Hentry) as [Hnil|(d & s_d & _ & Hout)]; [done|].
  destruct (sync_tenant self false sp sf d s_d) as [[rep'|e] s_d'] eqn:Ht;
    simpl in Hout; [|done].
  injection Hout as ->.
  destruct (sync_tenant_tally _ _ _ _ _ _ _ _ Ht)
    as (plan_p & plan_f & _ & Hp & Hf).
  unfold tally in Hp, Hf. unfold accounted.
  injection Hp as Hp1 Hp2 Hp3 Hp4 Hp5. injection Hf as Hf1 Hf2 Hf3 Hf4 Hf5.
  repeat split; lia.
Qed.

(** X19 (the dry run announces the pattern changes): from the same state
    of the services, the processing of a destination counts the same
    patterns to create, to update and identical with and without dry-run
    mode: the patterns are classified before anything is changed. *)
Theorem dry_run_predicts_pattern_counts (self : syncer) (sp sf : json)
  (dest : destination) (s : state) (dry real : report) (s_dry s_real : state) :
  sync_tenant self true sp sf dest s = (Ok dry, s_dry) ->
  sync_tenant self false sp sf dest s = (Ok real, s_real) ->
  rep_to_create (patterns real) = rep_to_create (patterns dry) /\
  rep_to_update (patterns real) = rep_to_update (patterns dry) /\
  rep_identical (patterns real) = rep_identical (patterns dry).
Proof.
  intros Hdry Hreal.
  destruct (sync_tenant_tally _ _ _ _ _ _ _ _ Hdry)
    as (plan_p & plan_f & (dp & s1 & Hdp & Hplan) & Hp & _).
  destruct (sync_tenant_tally _ _ _ _ _ _ _ _ Hreal)
    as (plan_p' & plan_f' & (dp' & s1' & Hdp' & Hplan') & Hp' & _).
  rewrite Hdp in Hdp'. injection Hdp' as <- <-.
  rewrite Hplan in Hplan'. injection Hplan' as <-.
  unfold tally in Hp, Hp'.
  injection Hp as Hp1 Hp2 Hp3 _ _. injection Hp' as Hp1' Hp2' Hp3' _ _.
  repeat split; congruence.
Qed.
End Accounts.

Lemma report_accounts_for_every_item_witness :
  exists g rep,
    fst (@sync spec_differ Sample.server Sample.syncer_prod false None
           Sample.start) = Ok (full_result g) /\
    dict_get "Prod" (tenants g) = Some (tenant_report rep) /\
    rep_to_create (patterns rep) = 2 /\
    length (created (patterns rep)) = 1 /\
    creating_errors (patterns rep) = 1 /\
    accounted (patterns rep) /\ accounted (profiles rep).
Proof.
  eexists _, _. split; [by vm_compute|]. split; [reflexivity|].
  split; [reflexivity|]. split; [reflexivity|]. split; [reflexivity|].
  eapply (@report_accounts_for_every_item spec_differ Sample.server
            Sample.syncer_prod None Sample.start _ "Prod").
  - by vm_compute.
  - reflexivity.
Defined.

Lemma dry_run_predicts_pattern_counts_witness :
  exists dry real,
    fst (@sync_tenant spec_differ Sample.server Sample.syncer_prod true
           (JList Sample.source_patterns) (JList [Sample.profile]) Sample.prod
           Sample.start) = Ok dry /\
    fst (@sync_tenant spec_differ Sample.server Sample.syncer_prod false
           (JList Sample.source_patterns) (JList [Sample.profile]) Sample.prod
           Sample.start) = Ok real /\
    rep_to_create (patterns real) = rep_to_create (patterns dry).
Proof.
  eexists _, _. split; [by vm_compute|]. split; [by vm_compute|].
  eapply (@dry_run_predicts_pattern_counts spec_differ Sample.server
            Sample.syncer_prod (JList Sample.source_patterns)
            (JList [Sample.profile]) Sample.prod Sample.start).
  - by vm_compute.
  - by vm_compute.
Defined.

(** ** The modes of the script *)

Section Main_facts.
Context `{Differ} `{Transport} `{Console}.

Lemma sync_dry_run_emits f self target :
  f = is_create \/ f = is_update ->
  emits f 0 0 (sync self true target).
Proof.
  intros Hf. eapply emits_weaken; [apply sync_emits|..].
  - intros d _. by destruct Hf as [-> | ->].
  - by left.
  - destruct Hf as [-> | ->]; simpl; lia.
  - destruct Hf as [-> | ->]; simpl; lia.
Qed.

(** X20 (no change without [--execute]): without [--execute] the script
    issues no create call and no update call, whatever the other options
    and whatever is typed: every mode it can take is a dry run. *)
Theorem main_writes_need_execute (self : syncer) (all : bool)
  (tenants : option (list string)) (cin : Stdin) (s : state) :
  exists new,
    trace (snd (main_modes self false all tenants cin s)) = trace s ++ new /\
    weight is_create new = 0 /\ weight is_update new = 0.
Proof.
  assert (Hm : forall f, f = is_create \/ f = is_update ->
                 emits f 0 0 (main_modes self false all tenants cin)).
  { intros f Hf. unfold main_modes. rewrite andb_false_r. simpl.
    destruct tenants as [[|t ts]|];
      (apply emits_bind_l; [by apply sync_dry_run_emits|intros; apply emits_ret]). }
  destruct (Hm is_create (or_introl eq_refl) s) as (new & Hnew & Hc & _).
  destruct (Hm is_update (or_intror eq_refl) s) as (new' & Hnew' & Hu & _).
  assert (new' = new) as ->
      by (rewrite Hnew in Hnew'; by apply app_inv_head in Hnew').
  exists new. split; [done|]. split; lia.
Qed.

(** X21 ([--all] wins over [--tenant]): with [--execute] and [--all] the
    [--tenant] options are not looked at and nothing is asked: once the
    source is listed, the script runs outside dry-run mode over every
    destination, each of which gets an entry in the report and is asked for
    its patterns. *)
Theorem execute_all_ignores_selection (self : syncer)
  (selection : option (list string)) (cin : Stdin) (s s1 s2 : state)
  (sp sf : json) :
  get_data_patterns (source_token self) true s = (Ok sp, s1) ->
  get_data_profiles (source_token self) true s1 = (Ok sf, s2) ->
  exists g s',
    sync self false None s = (Ok (full_result g), s') /\
    main_modes self true true selection cin s = (Ok cin, s') /\
    (forall d, d ∈ destinations self ->
               is_Some (dict_get (dest_name d) (tenants g))) /\
    exists new,
      trace s' = trace s2 ++ new /\
      forall d, d ∈ destinations self ->
                list_patterns_request (dest_token d) ∈ new.
Proof.
  intros Hsp Hsf.
  destruct (for_each_sync_dest_total self false sp sf (destinations self) [] s2)
    as (entries & s' & Hloop).
  destruct (get_data_patterns_custom_list _ _ _ _ Hsp) as [lp ->].
  destruct (get_data_profiles_custom_list _ _ _ _ Hsf) as [lf ->].
  assert (Hsync : sync self false None s =
                  (Ok (full_result
                         {| source_name := source_creds_name self;
                            source_patterns_count := length lp;
                            source_profiles_count := length lf;
                            tenants := entries |}), s')).
  { unfold sync, bind. rewrite Hsp, Hsf. simpl. by rewrite Hloop. }
  eexists _, s'. split; [exact Hsync|]. split; [|split].
  - unfold main_modes. simpl. unfold bind. by rewrite Hsync.
  - simpl. by apply (for_each_sync_dest_entries _ _ _ _ _ _ _ _ _ Hloop).
  - destruct (for_each_sync_dest_contacts self false (JList lp) (JList lf)
                (destinations self) [] s2) as (new & Hnew & Hall).
    rewrite Hloop in Hnew. by exists new.
Qed.

Lemma confirmed_names_sub dests cin name :
  name ∈ confirmed_names dests cin -> exists d, d ∈ dests /\ dest_name d = name.
Proof.
  revert cin. induction dests as [|d dests IH]; intros cin; simpl.
  - intros Hin. by apply not_elem_of_nil in Hin.
  - destruct (input cin) as [[answer|e] cin'];
      [|intros Hin; by apply not_elem_of_nil in Hin].
    destruct (says_yes answer).
    + intros Hin. apply elem_of_cons in Hin as [->|Hin].
      * exists d. split; [apply list_elem_of_here|done].
      * destruct (IH _ Hin) as (d' & Hd' & Hn). exists d'.
        split; [by apply list_elem_of_further|done].
    + intros Hin. destruct (IH _ Hin) as (d' & Hd' & Hn). exists d'.
      split; [by apply list_elem_of_further|done].
Qed.

Lemma oi_bind_const P {A B C} (m : M A) (v : B) (k : B -> M C) :
  only_issues P m -> only_issues P (k v) ->
  only_issues P (bind (bind m (fun _ => ret v)) k).
Proof.
  intros Hm Hk s. destruct (Hm s) as (new1 & Ht1 & HP1). unfold bind, ret.
  destruct (m s) as [[a|e] s1]; simpl in *.
  - destruct (Hk s1) as (new2 & Ht2 & HP2). exists (new1 ++ new2).
    rewrite Ht2, Ht1, (assoc_L (++)). split; [done|]. by apply Forall_app.
  - by exists new1.
Qed.

Lemma confirmation_loop_oi self dests cin :
  only_issues
    (fun rq => (exists token, listing_of token rq) \/
               exists dest, dest ∈ destinations self /\
                            dest_name dest ∈ confirmed_names dests cin /\
                            write_to (dest_token dest) rq)
    (for_each (confirm_and_sync self) dests cin).
Proof.
  revert cin. induction dests as [|d dests IH]; intros cin; simpl.
  - apply oi_ret.
  - unfold confirm_and_sync at 1.
    destruct (input cin) as [[answer|e] cin'].
    + destruct (says_yes answer).
      * apply oi_bind_const.
        -- eapply oi_weaken; [|apply sync_oi].
           intros rq [Hrq|(d' & Hd' & [Hrq|[_ Hrq]])].
           ++ left. by eexists.
           ++ left. by eexists.
           ++ right. exists d'. simpl in Hd'.
              apply list_elem_of_filter in Hd' as [Hname Hd'].
              apply list_elem_of_singleton in Hname.
              split; [done|]. split; [|done]. rewrite Hname.
              apply list_elem_of_here.
        -- eapply oi_weaken; [|apply IH].
           intros rq [Hrq|(d' & Hd' & Hname & Hrq)]; [by left|].
           right. exists d'. split; [done|]. split; [|done].
           by apply list_elem_of_further.
      * intros s. exact (IH cin' s).
    + intros s. exists []. rewrite app_nil_r. by split.
Qed.

(** X22 (the interactive mode changes what is confirmed): with [--execute]
    alone the script first analyses every destination in a dry run, then
    asks for each destination in turn; every create or update call it
    issues goes to a destination that goes by a name that was confirmed
    with [yes], in any mix of cases; as the confirmed run selects by name,
    the destinations that share the name are changed with it.  The answers
    after one that cannot be read are not asked for. *)
Theorem interactive_writes_are_confirmed (self : syncer) (cin : Stdin) :
  only_issues (confirmed_request self cin) (main_modes self true false None cin).
Proof.
  unfold main_modes. simpl. apply oi_bind.
  - eapply oi_weaken; [|apply sync_oi].
    intros rq [Hrq|(d' & Hd' & [Hrq|[Hdry _]])]; [..|done]; left; by eexists.
  - intros _. apply confirmation_loop_oi.
Qed.
End Main_facts.

Lemma execute_all_ignores_selection_witness :
  exists g s',
    @main_modes spec_differ Sample.server scripted Sample.syncer_prod_dev
      true true (Some ["Prod"]) [] Sample.start = (Ok [], s') /\
    @sync spec_differ Sample.server Sample.syncer_prod_dev false None
      Sample.start = (Ok (full_result g), s') /\
    is_Some (dict_get "Dev" (tenants g)).
Proof.
  destruct (@execute_all_ignores_selection spec_differ Sample.server scripted
              Sample.syncer_prod_dev (Some ["Prod"]) [] Sample.start _ _ _ _
              eq_refl eq_refl) as (g & s' & Hsync & Hmain & Hall & _).
  exists g, s'. split; [exact Hmain|]. split; [exact Hsync|].
  apply (Hall Sample.dev). apply list_elem_of_here.
Defined.

Lemma interactive_writes_are_confirmed_witness :
  confirmed_names (destinations Sample.syncer_prod_dev) ["no"; "YeS"] = ["Prod"] /\
  Forall (confirmed_request Sample.syncer_prod_dev ["no"; "YeS"])
    (trace (snd (@main_modes spec_differ Sample.server scripted
                   Sample.syncer_prod_dev true false None ["no"; "YeS"]
                   Sample.start))) /\
  weight is_create
    (trace (snd (@main_modes spec_differ Sample.server scripted
                   Sample.syncer_prod_dev true false None ["no"; "YeS"]
                   Sample.start))) = 3.
Proof.
  split; [reflexivity|]. split; [|by vm_compute].
  destruct (@interactive_writes_are_confirmed spec_differ Sample.server
              scripted Sample.syncer_prod_dev ["no"; "YeS"] Sample.start)
    as (new & Hnew & Hall).
  by rewrite Hnew.
Defined.

(** ** Construction *)

Section Construction_facts.
Import Connect.
Context `{Authority}.

Lemma connect_dict d acc s :
  connect (JDict d) acc s =
  (Ok (match fst (_authenticate (JDict d) s) with
       | Ok tok =>
           acc ++ [{| name := default (default_name acc) (dict_get "name" d);
                      token := tok; creds := JDict d |}]
       | Err _ => acc
       end),
   snd (_authenticate (JDict d) s)).
Proof.
  unfold connect, atry, abind, alift, aret.
  by destruct (_authenticate (JDict d) s) as [[tok|e] s1].
Qed.

Lemma connect_all_spec dests acc s :
  Forall (fun c => exists d, c = JDict d) dests ->
  exists conns,
    connect_all dests acc s = (Ok (acc ++ conns), snd (attempts dests s)) /\
    map (fun c => (creds c, token c)) conns
    = connected dests (fst (attempts dests s)) /\
    forall i c,
      conns !! i = Some c ->
      exists d, creds c = JDict d /\
                name c = default (JStr ("Tenant " +:+
                                        pretty.pretty (length acc + i + 1)))
                           (dict_get "name" d).
Proof.
  intros Hd. revert acc s.
  induction Hd as [|c dests [d ->] _ IH]; intros acc s; simpl.
  - exists []. rewrite app_nil_r. split; [done|]. split; [done|].
    intros i c Hi. by rewrite lookup_nil in Hi.
  - unfold abind. rewrite connect_dict.
    destruct (_authenticate (JDict d) s) as [[tok|e] s1]; simpl.
    + destruct (IH (acc ++ [{| name := default (default_name acc)
                                        (dict_get "name" d);
                              token := tok; creds := JDict d |}]) s1)
        as (conns & Hrun & Hpairs & Hnames).
      destruct (attempts dests s1) as [ress s'] eqn:Hatt. simpl in *.
      eexists (_ :: conns). rewrite Hrun, <- (assoc_L (++)).
      split; [done|]. split; [simpl; by rewrite Hpairs|].
      intros [|i] c Hi; simpl in Hi.
      * injection Hi as <-. exists d. split; [done|]. simpl.
        unfold default_name. by rewrite Nat.add_0_r.
      * destruct (Hnames i c Hi) as (d' & Hc & Hn). exists d'.
        split; [done|]. rewrite Hn, length_app. simpl.
        by replace (length acc + 1 + i + 1) with (length acc + S i + 1) by lia.
    + destruct (IH acc s1) as (conns & Hrun & Hpairs & Hnames).
      destruct (attempts dests s1) as [ress s'] eqn:Hatt. simpl in *.
      by exists conns.
Qed.

(** X23 (who gets connected): the construction fails when the source does
    not authenticate, without trying any destination; otherwise it never
    fails because of a destination: every destination is tried in turn,
    from the state the one before it left, and the connected destinations
    are, in order, those that authenticated, with their token and their
    credentials. *)
Theorem init_keeps_what_authenticates (source : json)
  (dest_creds_list : list json) (s : auth_state) :
  Forall (fun c => exists d, c = JDict d) dest_creds_list ->
  match _authenticate source s with
  | (Err e, s1) => __init__ source dest_creds_list s = (Err e, s1)
  | (Ok tok, s1) =>
      exists conns,
        __init__ source dest_creds_list s =
        (Ok {| source_creds := source; source_token := tok;
               destinations := conns |},
         snd (attempts dest_creds_list s1)) /\
        map (fun c => (creds c, token c)) conns
        = connected dest_creds_list (fst (attempts dest_creds_list s1))
  end.
Proof.
  intros Hd. unfold __init__, abind.
  destruct (_authenticate source s) as [[tok|e] s1]; [|done].
  destruct (connect_all_spec dest_creds_list [] s1 Hd)
    as (conns & Hrun & Hpairs & _).
  exists conns. by rewrite Hrun.
Qed.

(** X24 (the default names): a destination whose credentials have no
    [name] is called [Tenant k], where [k] counts the destinations that
    are connected so far, itself included, not its place among the
    credentials: after a destination that failed to authenticate the
    numbers shift. *)
Theorem default_names_count_connected (source : json)
  (dest_creds_list : list json) (s s' : auth_state) (inst : instance) :
  Forall (fun c => exists d, c = JDict d) dest_creds_list ->
  __init__ source dest_creds_list s = (Ok inst, s') ->
  forall i c,
    destinations inst !! i = Some c ->
    exists d, creds c = JDict d /\
              name c = default (JStr ("Tenant " +:+ pretty.pretty (i + 1)))
                         (dict_get "name" d).
Proof.
  intros Hd. unfold __init__, abind.
  destruct (_authenticate source s) as [[tok|e] s1]; [|done].
  destruct (connect_all_spec dest_creds_list [] s1 Hd)
    as (conns & Hrun & _ & Hnames).
  rewrite Hrun. intros [= <- <-]. simpl. exact Hnames.
Qed.

(** X25 (an answer without token): when the endpoint answers [200] with a
    body that has no [access_token], the authentication does not fail: the
    token is [None], and a destination is connected with it. *)
Theorem authenticate_without_token (dest_creds : json)
  (scope service_account api_key : json) (s : auth_state)
  (resp : response) (w : Realm) (b : list (string * json))
  (acc : list connection) :
  py_getitem dest_creds "scope" = Ok scope ->
  py_getitem dest_creds "service_account" = Ok service_account ->
  py_getitem dest_creds "api_key" = Ok api_key ->
  token_endpoint {| auth_scope := scope;
                    auth_service_account := service_account;
                    auth_api_key := api_key |} (realm s) = (Ok resp, w) ->
  status_code resp = 200%Z ->
  body resp = Some (JDict b) ->
  dict_get "access_token" b = None ->
  fst (_authenticate dest_creds s) = Ok JNull /\
  exists n, fst (connect dest_creds acc s)
            = Ok (acc ++ [{| name := n; token := JNull;
                             creds := dest_creds |}]).
Proof.
  intros Hscope Hsa Hkey Hsend Hst Hbody Htok.
  assert (Hauth : fst (_authenticate dest_creds s) = Ok JNull).
  { unfold _authenticate, abind, alift, post.
    rewrite Hscope, Hsa, Hkey, Hsend, Hst, Hbody. simpl. by rewrite Htok. }
  split; [done|].
  destruct dest_creds as [| | | | |d]; try done.
  rewrite connect_dict, Hauth. by eexists.
Qed.
End Construction_facts.

Lemma init_keeps_what_authenticates_witness :
  exists conns,
    fst (Connect.__init__ (Connect.account "tsg_id:1" [])
           [Connect.account "tsg_id:9" [("name", JStr "Lab")];
            Connect.account "tsg_id:2" []] Connect.start)
    = Ok {| Connect.source_creds := Connect.account "tsg_id:1" [];
            Connect.source_token := JStr "t1";
            Connect.destinations := conns |} /\
    map (fun c => (Connect.creds c, Connect.token c)) conns
    = [(Connect.account "tsg_id:2" [], JStr "t2")].
Proof.
  pose proof (@init_keeps_what_authenticates Connect.endpoint
                (Connect.account "tsg_id:1" [])
                [Connect.account "tsg_id:9" [("name", JStr "Lab")];
                 Connect.account "tsg_id:2" []] Connect.start) as Hthm.
  destruct Hthm as (conns & Hrun & Hpairs).
  - repeat constructor; by eexists.
  - exists conns. split; [by rewrite Hrun|exact Hpairs].
Defined.

Lemma default_names_count_connected_witness :
  exists inst c,
    fst (Connect.__init__ (Connect.account "tsg_id:1" [])
           [Connect.account "tsg_id:9" []; Connect.account "tsg_id:2" []]
           Connect.start) = Ok inst /\
    Connect.destinations inst !! 0%nat = Some c /\
    Connect.name c = JStr "Tenant 1".
Proof.
  eexists _, _. split; [by vm_compute|]. split; [reflexivity|].
  destruct (@default_names_count_connected Connect.endpoint
              (Connect.account "tsg_id:1" [])
              [Connect.account "tsg_id:9" []; Connect.account "tsg_id:2" []]
              Connect.start _ _
              ltac:(repeat constructor; by eexists) eq_refl 0%nat _ eq_refl)
    as (d & Hd & Hn).
  injection Hd as <-. exact Hn.
Defined.

Lemma authenticate_without_token_witness :
  fst (Connect._authenticate (Connect.account "tsg_id:3" []) Connect.start)
  = Ok JNull.
Proof.
  apply (@authenticate_without_token Connect.endpoint
           (Connect.account "tsg_id:3" []) (JStr "tsg_id:3") (JStr "sa")
           (JStr "key") Connect.start
           {| status_code := 200; text := "{}"; body := Some (JDict []) |}
           tt [] []); reflexivity.
Defined.

(** ** What an update is addressed to *)

Section Update_target.
Context `{Differ} `{Transport}.

Lemma update_pattern_trace i e c token s :
  _normalize_pattern e = Ok c ->
  trace (snd (update_pattern i e token s))
  = trace s ++ [update_pattern_request token i c].
Proof.
  intros Hc. unfold update_pattern, bind, lift, requests. rewrite Hc.
  destruct (send _ _) as [[resp|err] w]; [|done].
  destruct (negb _); [done|].
  unfold updated_result. destruct (String.eqb _ _); [done|].
  unfold response_json. by destruct (body resp).
Qed.

Lemma update_profile_trace i e c token pm fm s :
  clean_profile_of e pm fm = Ok c ->
  trace (snd (update_profile i e token pm fm s))
  = trace s ++ [{| req_method := PUT; req_url := data_profile_item_url i;
                   req_token := token;
                   req_json := Some (JDict [("dataProfile", c)]) |}].
Proof.
  intros Hc. unfold update_profile, bind, lift, requests. rewrite Hc.
  destruct (send _ _) as [[resp|err] w]; [|done].
  destruct (negb _); [done|].
  unfold updated_result. destruct (String.eqb _ _); [done|].
  unfold response_json. by destruct (body resp).
Qed.

(** X26 (what an update is addressed to): an item of [to_update] pairs the
    source entity with the last destination entity of its name, and its
    turn in the loop of the patterns sends one request, the [PUT] of the
    normalized source body to the address made of the [id] of that
    destination entity; in the loop of the profiles the body is the
    rewritten one, under [dataProfile], and a body that cannot be built is
    an error of the item, without a request.  When the destination entity
    has no [id], nothing is sent and the report gets the error
    [KeyError('id')] under the name of the item. *)
Theorem updates_address_the_destination_entity (src dst : list json)
  (pm fm : option (dict key json)) (p : plan) (u : update_item) :
  compare_patterns (JList src) (JList dst) pm fm = Ok p ->
  u ∈ to_update p ->
  exists k name c,
    name_key (upd_source u) = Some k /\
    py_getitem (upd_source u) "name" = Ok name /\
    last_named k dst = Some (upd_destination u) /\
    _normalize_pattern (upd_source u) = Ok c /\
    forall (token : string) (pm' fm' : dict key json) (r : kind_report)
           (s : state),
      match id_of (upd_destination u) with
      | Some i =>
          trace (snd (update_pattern_item token u r s))
          = trace s ++ [update_pattern_request token i c] /\
          match clean_profile_of (upd_source u) pm' (Some fm') with
          | Ok b =>
              trace (snd (update_profile_item token pm' fm' u r s))
              = trace s ++
                [{| req_method := PUT; req_url := data_profile_item_url i;
                    req_token := token;
                    req_json := Some (JDict [("dataProfile", b)]) |}]
          | Err e =>
              update_profile_item token pm' fm' u r s
              = (Ok (add_error (Error_updating name e) r), s)
          end
      | None =>
          update_pattern_item token u r s
          = (Ok (add_error (Error_updating name (KeyError "id")) r), s) /\
          update_profile_item token pm' fm' u r s
          = (Ok (add_error (Error_updating name (KeyError "id")) r), s)
      end.
Proof.
  intros Hp Hu.
  destruct (compare_patterns_index _ _ _ _ _ Hp)
    as (sd & dd & _ & _ & Hloop & _ & Hsdn & Hdd).
  destruct (compare_loop_exact _ _ _ _ _ _ Hloop)
    as (_ & us & ids & Hus & _ & _ & _ & Hfu & _).
  simpl in Hus. rewrite Hus in Hu.
  rewrite list.Forall_forall in Hfu.
  destruct (Hfu u Hu) as (k & sn & dn & Hin & Hde & Hsn & Hdn & _).
  destruct (Hsdn _ _ Hin) as [Hk _].
  assert (Hname : exists name, py_getitem (upd_source u) "name" = Ok name).
  { unfold name_key in Hk. destruct (py_getitem (upd_source u) "name"); [|done].
    by eexists. }
  destruct Hname as [name Hname].
  assert (Hc : exists c, _normalize_pattern (upd_source u) = Ok c).
  { unfold source_norm_of in Hsn. apply rbind_Ok in Hsn as (c & Hc & _).
    by exists c. }
  destruct Hc as [c Hc].
  rewrite Hdd in Hde.
  exists k, name, c. repeat (split; [done|]).
  intros token pm' fm' r s.
  assert (Hd : exists d, upd_destination u = JDict d).
  { destruct (upd_destination u); try done. by eexists. }
  destruct Hd as [d Hd].
  unfold id_of, update_pattern_item, update_profile_item, try_catch.
  unfold bind at 1 4. unfold lift at 1 4.
  rewrite Hd. cbn [py_getitem]. destruct (dict_get "id" d) as [i|] eqn:Hi.
  - split.
    + pose proof (update_pattern_trace i _ _ token s Hc) as Ht.
      unfold bind, lift, ret. rewrite Hname.
      by destruct (update_pattern _ _ _ _) as [[?|?] ?].
    + destruct (clean_profile_of _ _ _) as [b|e] eqn:Hb.
      * pose proof (update_profile_trace i _ _ token pm' (Some fm') s Hb) as Ht.
        unfold bind, lift, ret. rewrite Hname.
        by destruct (update_profile _ _ _ _ _ _) as [[?|?] ?].
      * unfold update_profile, bind, lift, ret. by rewrite Hb, Hname.
  - unfold bind, lift, ret. by rewrite Hname.
Qed.
End Update_target.

Lemma updates_address_the_destination_entity_witness :
  @trace Sample.server
    (snd (@update_pattern_item spec_differ Sample.server "dst"
                (@Build_update_item spec_differ Sample.ssn_last
                   Sample.dest_ssn_first true)
                empty_kind_report Sample.start))
  = [update_pattern_request "dst" (JStr "q1")
       (JDict [("name", JStr "SSN"); ("regex", JStr "\d{3}-\d{2}-\d{4}")])].
Proof.
  destruct (@updates_address_the_destination_entity spec_differ Sample.server
              Sample.source_patterns [Sample.dest_ssn_first] None None _
              (@Build_update_item spec_differ Sample.ssn_last
                 Sample.dest_ssn_first true)
              eq_refl (list_elem_of_here _ _))
    as (k & name & c & _ & _ & _ & Hc & Hall).
  injection Hc as <-.
  exact (proj1 (Hall "dst" [] [] empty_kind_report Sample.start)).
Defined.

(** ** The rewriters in place and the rewriters on values *)

Section Represents.
Import Heap.

Lemma Forall3_impl_in {A B C} (R R' : A -> B -> C -> Prop) xs ys zs :
  Forall3 R xs ys zs ->
  (forall x y z, x ∈ xs -> z ∈ zs -> R x y z -> R' x y z) ->
  Forall3 R' xs ys zs.
Proof.
  induction 1 as [|x y z xs ys zs HR _ IH]; intros Himpl; constructor.
  - apply Himpl; [apply list_elem_of_here..|done].
  - apply IH. intros x' y' z' Hx Hz. apply Himpl; by apply list_elem_of_further.
Qed.

Lemma Forall3_Forall_r {A B C} (P : A -> Prop) (Q : C -> Prop)
  (R : A -> B -> C -> Prop) xs ys zs :
  Forall P xs -> Forall3 R xs ys zs ->
  (forall x y z, P x -> R x y z -> Q z) ->
  Forall Q zs.
Proof.
  intros HP HR Himpl. induction HR as [|x y z xs ys zs HR _ IH]; [done|].
  apply list.Forall_cons in HP as [Hx HP]. constructor; [by eapply Himpl|].
  by apply IH.
Qed.

Lemma Forall_snd {A B} (P : B -> Prop) (l : list (A * B)) :
  Forall (fun kv => P (snd kv)) l -> Forall P (map snd l).
Proof. induction 1; by constructor. Qed.

Lemma represents_bound h j :
  forall v fp, represents h j v fp -> Forall (fun l => l < length h) fp.
Proof.
  induction j as [| | | |js IH|d IH] using json_induction; intros v fp Hr;
    inversion Hr; subst; try by constructor.
  - constructor; [by eapply lookup_lt_Some|]. apply Forall_concat.
    eapply Forall3_Forall_r; [exact IH|eassumption|]. simpl. eauto.
  - constructor; [by eapply lookup_lt_Some|]. apply Forall_concat.
    apply (Forall_snd (fun j => forall v fp, represents h j v fp ->
                                  Forall (fun l => l < length h) fp)) in IH.
    eapply Forall3_Forall_r; [exact IH|eassumption|]. simpl. eauto.
Qed.

Lemma elem_of_concat_part {A} (x : A) z zs :
  z ∈ zs -> x ∈ z -> x ∈ concat zs.
Proof.
  induction 1 as [|z' zs zss Hz IH]; intros Hx; simpl; apply elem_of_app;
    [by left|right; by apply IH].
Qed.

Lemma Forall3_frame (R R' : json -> val -> list nat -> Prop) js items fps
  (S : nat -> Prop) :
  Forall (fun j => forall v fp, R j v fp -> (forall l, l ∈ fp -> S l) ->
                                R' j v fp) js ->
  Forall3 R js items fps ->
  (forall l, l ∈ concat fps -> S l) ->
  Forall3 R' js items fps.
Proof.
  intros IH HR. revert IH.
  induction HR as [|x y z xs ys zs HR _ IHf]; intros IH Hsame; constructor.
  - apply list.Forall_cons in IH as [IHx _]. apply IHx; [done|].
    intros l0 Hl0. apply Hsame. simpl. apply elem_of_app. by left.
  - apply list.Forall_cons in IH as [_ IH]. apply IHf; [done|].
    intros l0 Hl0. apply Hsame. simpl. apply elem_of_app. by right.
Qed.

(** A document only depends on its own objects. *)
Lemma represents_frame h h' j :
  forall v fp,
    represents h j v fp ->
    (forall l, l ∈ fp -> h' !! l = h !! l) ->
    represents h' j v fp.
Proof.
  induction j as [| | | |js IH|d IH] using json_induction; intros v fp Hr Hsame;
    inversion Hr as [| | | |l items js' fps Hl Hch|l entries d' fps Hl Hk Hch];
    subst; try by constructor.
  - apply rep_list with (items := items).
    + rewrite Hsame; [done|apply list_elem_of_here].
    + eapply (Forall3_frame _ _ _ _ _ (fun l => h' !! l = h !! l));
        [exact IH|done|].
      intros l0 Hl0. by apply Hsame, list_elem_of_further.
  - apply rep_dict with (entries := entries); [|done|].
    + rewrite Hsame; [done|apply list_elem_of_here].
    + eapply (Forall3_frame _ _ _ _ _ (fun l => h' !! l = h !! l));
        [|done|].
      * exact (Forall_snd (fun j => forall v fp, represents h j v fp ->
                 (forall l, l ∈ fp -> h' !! l = h !! l) ->
                 represents h' j v fp) _ IH).
      * intros l0 Hl0. by apply Hsame, list_elem_of_further.
Qed.
End Represents.
Section Represents_read.
Import Heap.

Lemma dict_children {A B C} (R : A -> B -> C -> Prop)
  (d : list (string * A)) (entries : list (string * B)) fps :
  map fst d = map fst entries ->
  Forall3 R (map snd d) (map snd entries) fps ->
  Forall3 (fun kj ka f => fst kj = fst ka /\ R (snd kj) (snd ka) f)
    d entries fps.
Proof.
  revert entries fps. induction d as [|[k j] d IH]; intros [|[k' a] entries] fps;
    simpl; try done.
  - intros _ HR. inversion HR. constructor.
  - intros [= -> Hk] HR. inversion HR; subst. constructor; [done|].
    by apply IH.
Qed.

Lemma children_dict {A B C} (R : A -> B -> C -> Prop)
  (d : list (string * A)) (entries : list (string * B)) fps :
  Forall3 (fun kj ka f => fst kj = fst ka /\ R (snd kj) (snd ka) f)
    d entries fps ->
  map fst d = map fst entries /\
  Forall3 R (map snd d) (map snd entries) fps.
Proof.
  induction 1 as [|[k j] [k' a] f d entries fps [Hk HR] _ [IH1 IH2]];
    simpl in *; [by split; [|constructor]|].
  subst. split; [by rewrite IH1|by constructor].
Qed.

Lemma json_depth_entry k v (d : list (string * json)) :
  (k, v) ∈ d -> (json_depth v < json_depth (JDict d))%nat.
Proof.
  intros Hin. induction d as [|[k' v'] d IH]; [by apply elem_of_nil in Hin|].
  apply elem_of_cons in Hin as [[= <- <-]|Hin]; simpl in *; [lia|].
  specialize (IH Hin). lia.
Qed.

(** Reading a document back. *)
Lemma represents_read h j :
  forall v fp fuel,
    represents h j v fp -> json_depth j < fuel -> read fuel h v = Some j.
Proof.
  induction j as [| | | |js IH|d IH] using json_induction; intros v fp fuel Hr Hn;
    inversion Hr as [| | | |l items js' fps Hl Hch|l entries d' fps Hl Hk Hch];
    subst; try by destruct fuel.
  - destruct fuel as [|n]; [lia|]. simpl. rewrite Hl.
    match goal with |- option_map _ (?f items) = _ => set (rd := f) end.
    assert (Hrd : rd items = Some js); [|by rewrite Hrd].
    assert (Hd : forall x, x ∈ js -> json_depth x < n).
    { intros x Hx. apply json_depth_elem in Hx. lia. }
    clear Hr Hl Hn. revert IH Hd.
    induction Hch as [|x y z xs ys zs HR _ IHf]; intros IH Hd; [done|].
    apply list.Forall_cons in IH as [IHx IH]. simpl.
    rewrite (IHx _ _ n HR) by apply Hd, list_elem_of_here.
    fold (rd ys). rewrite IHf; [done|done|].
    intros x' Hx'. by apply Hd, list_elem_of_further.
  - destruct fuel as [|n]; [simpl in Hn; lia|]. simpl. rewrite Hl.
    match goal with |- option_map _ (?f entries) = _ => set (rd := f) end.
    assert (Hrd : rd entries = Some d); [|by rewrite Hrd].
    assert (Hd : forall k x, (k, x) ∈ d -> json_depth x < n).
    { intros k x Hx. apply json_depth_entry in Hx. lia. }
    pose proof (dict_children _ _ _ _ Hk Hch) as Hall.
    clear Hr Hl Hn Hk Hch. revert IH Hd.
    induction Hall as [|[k x] [k' y] z xs ys zs [Hkk HR] _ IHf]; intros IH Hd;
      [done|].
    simpl in Hkk, HR. subst k'.
    apply list.Forall_cons in IH as [IHx IH]. simpl.
    rewrite (IHx _ _ n HR) by (eapply Hd, list_elem_of_here).
    fold (rd ys). rewrite IHf; [done|done|].
    intros k' x' Hx'. by eapply Hd, list_elem_of_further.
Qed.

(** What the decoder builds is the document, in objects of its own. *)
Lemma of_json_represents j :
  forall h0, exists v h fp,
    of_json j h0 = (Ok v, h) /\ represents h j v fp /\ NoDup fp /\
    Forall (fun l => length h0 <= l) fp /\ length h0 <= length h /\
    (forall l, l < length h0 -> h !! l = h0 !! l).
Proof.
  induction j as [| | | |js IH|d IH] using json_induction; intros h0.
  1-4: eexists _, h0, []; simpl; unfold hret;
    repeat split; try done; try constructor.
  - simpl. unfold hbind.
    match goal with |- context [ (?f js h0) ] => set (build := f) end.
    assert (Hb : forall h0, exists items h fps,
               build js h0 = (Ok items, h) /\
               Forall3 (represents h) js items fps /\ NoDup (concat fps) /\
               Forall (fun l => length h0 <= l) (concat fps) /\
               length h0 <= length h /\
               (forall l, l < length h0 -> h !! l = h0 !! l)).
    { clear h0. induction IH as [|x xs IHx _ IHxs]; intros h0.
      - exists [], h0, []. simpl. unfold hret.
        repeat split; try done; constructor.
      - destruct (IHx h0) as (v & h1 & f & Hv & Hrv & Hnd & Hge & Hlen & Hpre).
        destruct (IHxs h1)
          as (vs & h2 & fs & Hvs & Hrvs & Hnds & Hges & Hlens & Hpres).
        exists (v :: vs), h2, (f :: fs). simpl. unfold hbind. rewrite Hv.
        fold (build xs). rewrite Hvs. unfold hret.
        pose proof (represents_bound _ _ _ _ Hrv) as Hbv.
        rewrite list.Forall_forall in Hbv, Hge, Hges.
        split; [done|]. split; [|split; [|split; [|split]]].
        + constructor; [|done]. eapply represents_frame; [exact Hrv|].
          intros l Hl. apply Hpres. by apply Hbv.
        + apply list.NoDup_app. split; [done|]. split; [|done].
          intros l Hl Hl'. specialize (Hbv _ Hl). specialize (Hges _ Hl'). lia.
        + apply list.Forall_forall. intros l Hl.
          apply elem_of_app in Hl as [Hl|Hl]; [by apply Hge|].
          specialize (Hges _ Hl). lia.
        + lia.
        + intros l Hl. rewrite Hpres by lia. by apply Hpre. }
    destruct (Hb h0) as (items & h & fps & -> & Hr & Hnd & Hge & Hlen & Hpre).
    unfold alloc, hret. simpl.
    assert (Hbound : Forall (fun l => l < length h) (concat fps)).
    { apply Forall_concat. eapply Forall3_Forall_r with (P := fun _ => True);
        [by apply list.Forall_forall|exact Hr|].
      intros x y z _ Hxyz. by eapply represents_bound. }
    rewrite list.Forall_forall in Hbound, Hge.
    eexists _, _, (length h :: concat fps). split; [done|].
    split; [|split; [|split; [|split]]].
    + apply rep_list with (items := items).
      * by rewrite lookup_app_r, Nat.sub_diag.
      * eapply Forall3_impl; [exact Hr|]. intros x y z Hxyz.
        eapply represents_frame; [exact Hxyz|].
        intros l Hl. apply lookup_app_l.
        pose proof (represents_bound _ _ _ _ Hxyz) as Hb'.
        rewrite list.Forall_forall in Hb'. by apply Hb'.
    + constructor; [|done]. intros Hin. specialize (Hbound _ Hin). lia.
    + constructor; [lia|]. by apply list.Forall_forall.
    + rewrite length_app. simpl. lia.
    + intros l Hl. rewrite lookup_app_l by lia. by apply Hpre.
  - simpl. unfold hbind.
    match goal with |- context [ (?f d h0) ] => set (build := f) end.
    assert (Hb : forall h0, exists entries h fps,
               build d h0 = (Ok entries, h) /\
               map fst d = map fst entries /\
               Forall3 (represents h) (map snd d) (map snd entries) fps /\
               NoDup (concat fps) /\
               Forall (fun l => length h0 <= l) (concat fps) /\
               length h0 <= length h /\
               (forall l, l < length h0 -> h !! l = h0 !! l)).
    { clear h0. induction IH as [|[k x] xs IHx _ IHxs]; intros h0.
      - exists [], h0, []. simpl. unfold hret.
        repeat split; try done; constructor.
      - destruct (IHx h0) as (v & h1 & f & Hv & Hrv & Hnd & Hge & Hlen & Hpre).
        destruct (IHxs h1)
          as (vs & h2 & fs & Hvs & Hks & Hrvs & Hnds & Hges & Hlens & Hpres).
        exists ((k, v) :: vs), h2, (f :: fs). simpl. unfold hbind.
        simpl in Hv. rewrite Hv.
        fold (build xs). rewrite Hvs. unfold hret.
        pose proof (represents_bound _ _ _ _ Hrv) as Hbv.
        rewrite list.Forall_forall in Hbv, Hge, Hges.
        split; [done|]. split; [by rewrite Hks|].
        split; [|split; [|split; [|split]]].
        + constructor; [|done]. eapply represents_frame; [exact Hrv|].
          intros l Hl. apply Hpres. by apply Hbv.
        + apply list.NoDup_app. split; [done|]. split; [|done].
          intros l Hl Hl'. specialize (Hbv _ Hl). specialize (Hges _ Hl'). lia.
        + apply list.Forall_forall. intros l Hl.
          apply elem_of_app in Hl as [Hl|Hl]; [by apply Hge|].
          specialize (Hges _ Hl). lia.
        + lia.
        + intros l Hl. rewrite Hpres by lia. by apply Hpre. }
    destruct (Hb h0)
      as (entries & h & fps & -> & Hk & Hr & Hnd & Hge & Hlen & Hpre).
    unfold alloc, hret. simpl.
    assert (Hbound : Forall (fun l => l < length h) (concat fps)).
    { apply Forall_concat. eapply Forall3_Forall_r with (P := fun _ => True);
        [by apply list.Forall_forall|exact Hr|].
      intros x y z _ Hxyz. by eapply represents_bound. }
    rewrite list.Forall_forall in Hbound, Hge.
    eexists _, _, (length h :: concat fps). split; [done|].
    split; [|split; [|split; [|split]]].
    + apply rep_dict with (entries := entries); [|done|].
      * by rewrite lookup_app_r, Nat.sub_diag.
      * eapply Forall3_impl; [exact Hr|]. intros x y z Hxyz.
        eapply represents_frame; [exact Hxyz|].
        intros l Hl. apply lookup_app_l.
        pose proof (represents_bound _ _ _ _ Hxyz) as Hb'.
        rewrite list.Forall_forall in Hb'. by apply Hb'.
    + constructor; [|done]. intros Hin. specialize (Hbound _ Hin). lia.
    + constructor; [lia|]. by apply list.Forall_forall.
    + rewrite length_app. simpl. lia.
    + intros l Hl. rewrite lookup_app_l by lia. by apply Hpre.
Qed.
End Represents_read.
Section Copy_represents.
Import Heap.

Lemma dict_set_fresh {K V} `{EqDecision K} (k : K) (v : V) (d : list (K * V)) :
  k ∉ map fst d -> dict_set k v d = d ++ [(k, v)].
Proof.
  induction d as [|[k' v'] d IH]; simpl; [done|].
  intros Hk. apply not_elem_of_cons in Hk as [Hne Hk].
  destruct (decide (k' = k)); [congruence|]. by rewrite IH.
Qed.

Lemma Forall3_bound h js items fps :
  Forall3 (represents h) js items fps ->
  forall l, l ∈ concat fps -> l < length h.
Proof.
  intros Hr. apply list.Forall_forall, Forall_concat.
  eapply Forall3_Forall_r with (P := fun _ => True);
    [by apply list.Forall_forall|exact Hr|].
  intros x y z _ Hxyz. by eapply represents_bound.
Qed.

Lemma Forall3_represents_frame h h' js items fps :
  Forall3 (represents h) js items fps ->
  (forall l, l ∈ concat fps -> h' !! l = h !! l) ->
  Forall3 (represents h') js items fps.
Proof.
  intros Hr Hsame. eapply Forall3_impl_in; [exact Hr|].
  intros x y z _ Hz Hxyz. eapply represents_frame; [exact Hxyz|].
  intros l Hl. apply Hsame. by eapply elem_of_concat_part.
Qed.

Section Loops.
Variable copy : val -> dict nat nat -> HM (val * dict nat nat).
Variable l' : nat.

Lemma copy_items_represents js :
  Forall (copies copy) js ->
  forall items fps h acc jacc fpacc memo,
    Forall3 (represents h) js items fps ->
    NoDup (concat fps) -> l' ∉ concat fps ->
    (forall l, l ∈ concat fps -> dict_get l memo = None) ->
    h !! l' = Some (OList acc) ->
    Forall3 (represents h) jacc acc fpacc ->
    NoDup (concat fpacc) ->
    (forall l, l ∈ concat fpacc -> l' < l) ->
    exists final memo' h' fpnew,
      copy_items copy l' items acc memo h = (Ok (final, memo'), h') /\
      h' !! l' = Some (OList final) /\
      Forall3 (represents h') (jacc ++ js) final (fpacc ++ fpnew) /\
      NoDup (concat (fpacc ++ fpnew)) /\
      (forall l, l ∈ concat (fpacc ++ fpnew) -> l' < l) /\
      length h <= length h' /\
      (forall l, l < length h -> l <> l' -> h' !! l = h !! l) /\
      (forall l, l ∉ concat fps -> dict_get l memo' = dict_get l memo).
Proof.
  induction 1 as [|x xs Hx _ IH];
    intros items fps h acc jacc fpacc memo Hr Hnd Hl' Hmemo Hacc Hracc Hndacc
      Hgt.
  - inversion Hr; subst. exists acc, memo, h, []. simpl. unfold hret.
    rewrite !app_nil_r. by repeat split.
  - inversion Hr as [|x' a f xs' items' fps' Hxa Hrest]; subst.
    simpl in Hnd, Hl', Hmemo.
    apply list.NoDup_app in Hnd as (Hndf & Hdisj & Hndfps).
    apply not_elem_of_app in Hl' as [Hl'f Hl'fps].
    destruct (Hx h a f memo Hxa Hndf)
      as (a' & m1 & h1 & f' & Hcopy & Hra' & Hndf' & Hgef' & Hlen1 & Hpre1 & Hm1).
    { intros l Hl. apply Hmemo, elem_of_app. by left. }
    pose proof (lookup_lt_Some _ _ _ Hacc) as Hl'lt.
    pose proof (Forall3_bound _ _ _ _ Hrest) as Hbrest.
    pose proof (Forall3_bound _ _ _ _ Hracc) as Hbacc.
    pose proof (represents_bound _ _ _ _ Hra') as Hbf'.
    rewrite list.Forall_forall in Hbf', Hgef'.
    set (h2 := <[l' := OList (acc ++ [a'])]> h1).
    assert (Hh2 : forall l, l <> l' -> h2 !! l = h1 !! l).
    { intros l Hne. unfold h2. by rewrite list_lookup_insert_ne. }
    destruct (IH items' fps' h2 (acc ++ [a']) (jacc ++ [x]) (fpacc ++ [f']) m1)
      as (final & memo' & h' & fpnew & Hloop & Hfin & Hrfin & Hndfin & Hgtfin
          & Hlen' & Hpre' & Hm').
    + eapply Forall3_represents_frame; [exact Hrest|].
      intros l Hl. rewrite Hh2 by (intros ->; done).
      apply Hpre1. by apply Hbrest.
    + done.
    + done.
    + intros l Hl. rewrite Hm1; [apply Hmemo, elem_of_app; by right|].
      intros Hlf. by apply (Hdisj l).
    + unfold h2. apply list_lookup_insert_eq. lia.
    + apply Forall3_app.
      * eapply Forall3_represents_frame; [exact Hracc|].
        intros l Hl. rewrite Hh2 by (specialize (Hgt _ Hl); lia).
        apply Hpre1. by apply Hbacc.
      * constructor; [|constructor]. eapply represents_frame; [exact Hra'|].
        intros l Hl. apply Hh2. specialize (Hgef' _ Hl). lia.
    + rewrite concat_app. simpl. rewrite app_nil_r.
      apply list.NoDup_app. split; [done|]. split; [|done].
      intros l Hl Hlf. specialize (Hbacc _ Hl). specialize (Hgef' _ Hlf). lia.
    + intros l Hl. rewrite concat_app in Hl. simpl in Hl.
      rewrite app_nil_r in Hl. apply elem_of_app in Hl as [Hl|Hl];
        [by apply Hgt|]. specialize (Hgef' _ Hl). lia.
    + exists final, memo', h', (f' :: fpnew). simpl. unfold hbind.
      rewrite Hcopy. simpl. unfold store. fold h2. rewrite Hloop.
      assert (Hlen2 : length h2 = length h1) by apply length_insert.
      rewrite <- !(assoc_L (++)) in *. simpl in *.
      split; [done|]. split; [done|]. split; [done|]. split; [done|].
      split; [done|]. split; [lia|]. split.
      * intros l Hl Hne. rewrite Hpre' by (try lia; done).
        rewrite Hh2 by done. by apply Hpre1.
      * intros l Hl. apply not_elem_of_app in Hl as [Hlf Hlfps].
        rewrite Hm' by done. by apply Hm1.
Qed.

Lemma copy_entries_represents (d : list (string * json)) :
  Forall (fun kv => copies copy (snd kv)) d ->
  forall entries fps h acc jacc fpacc memo,
    map fst d = map fst entries ->
    Forall3 (represents h) (map snd d) (map snd entries) fps ->
    NoDup (map fst jacc ++ map fst d) ->
    NoDup (concat fps) -> l' ∉ concat fps ->
    (forall l, l ∈ concat fps -> dict_get l memo = None) ->
    h !! l' = Some (ODict acc) ->
    map fst jacc = map fst acc ->
    Forall3 (represents h) (map snd jacc) (map snd acc) fpacc ->
    NoDup (concat fpacc) ->
    (forall l, l ∈ concat fpacc -> l' < l) ->
    exists final memo' h' fpnew,
      copy_entries copy l' entries acc memo h = (Ok (final, memo'), h') /\
      h' !! l' = Some (ODict final) /\
      map fst (jacc ++ d) = map fst final /\
      Forall3 (represents h') (map snd (jacc ++ d)) (map snd final)
        (fpacc ++ fpnew) /\
      NoDup (concat (fpacc ++ fpnew)) /\
      (forall l, l ∈ concat (fpacc ++ fpnew) -> l' < l) /\
      length h <= length h' /\
      (forall l, l < length h -> l <> l' -> h' !! l = h !! l) /\
      (forall l, l ∉ concat fps -> dict_get l memo' = dict_get l memo).
Proof.
  induction 1 as [|[k x] xs Hx _ IH];
    intros entries fps h acc jacc fpacc memo Hk Hr Hkeys Hnd Hl' Hmemo Hacc
      Hkacc Hracc Hndacc Hgt.
  - destruct entries; [|done]. inversion Hr; subst.
    exists acc, memo, h, []. simpl. unfold hret.
    rewrite !app_nil_r. by repeat split.
  - destruct entries as [|[k' a] entries']; [done|].
    simpl in Hk. injection Hk as <- Hk. simpl in Hr, Hx.
    inversion Hr as [|x' a0 f xs' items' fps' Hxa Hrest]; subst.
    simpl in Hnd, Hl', Hmemo.
    apply list.NoDup_app in Hnd as (Hndf & Hdisj & Hndfps).
    apply not_elem_of_app in Hl' as [Hl'f Hl'fps].
    destruct (Hx h a f memo Hxa Hndf)
      as (a' & m1 & h1 & f' & Hcopy & Hra' & Hndf' & Hgef' & Hlen1 & Hpre1 & Hm1).
    { intros l Hl. apply Hmemo, elem_of_app. by left. }
    pose proof (lookup_lt_Some _ _ _ Hacc) as Hl'lt.
    pose proof (Forall3_bound _ _ _ _ Hrest) as Hbrest.
    pose proof (Forall3_bound _ _ _ _ Hracc) as Hbacc.
    pose proof (represents_bound _ _ _ _ Hra') as Hbf'.
    rewrite list.Forall_forall in Hbf', Hgef'.
    assert (Hfresh : dict_set k a' acc = acc ++ [(k, a')]).
    { apply dict_set_fresh. rewrite <- Hkacc.
      apply list.NoDup_app in Hkeys as (_ & Hkd & _). intros Hin.
      apply (Hkd _ Hin). simpl. apply list_elem_of_here. }
    set (h2 := <[l' := ODict (acc ++ [(k, a')])]> h1).
    assert (Hh2 : forall l, l <> l' -> h2 !! l = h1 !! l).
    { intros l Hne. unfold h2. by rewrite list_lookup_insert_ne. }
    destruct (IH entries' fps' h2 (acc ++ [(k, a')]) (jacc ++ [(k, x)])
                (fpacc ++ [f']) m1)
      as (final & memo' & h' & fpnew & Hloop & Hfin & Hkfin & Hrfin & Hndfin
          & Hgtfin & Hlen' & Hpre' & Hm').
    + done.
    + eapply Forall3_represents_frame; [exact Hrest|].
      intros l Hl. rewrite Hh2 by (intros ->; done).
      apply Hpre1. by apply Hbrest.
    + rewrite map_app. simpl. rewrite <- (assoc_L (++)). exact Hkeys.
    + done.
    + done.
    + intros l Hl. rewrite Hm1; [apply Hmemo, elem_of_app; by right|].
      intros Hlf. by apply (Hdisj l).
    + unfold h2. apply list_lookup_insert_eq. lia.
    + rewrite !map_app. simpl. by rewrite Hkacc.
    + rewrite !map_app. apply Forall3_app.
      * eapply Forall3_represents_frame; [exact Hracc|].
        intros l Hl. rewrite Hh2 by (specialize (Hgt _ Hl); lia).
        apply Hpre1. by apply Hbacc.
      * constructor; [|constructor]. eapply represents_frame; [exact Hra'|].
        intros l Hl. apply Hh2. specialize (Hgef' _ Hl). lia.
    + rewrite concat_app. simpl. rewrite app_nil_r.
      apply list.NoDup_app. split; [done|]. split; [|done].
      intros l Hl Hlf. specialize (Hbacc _ Hl). specialize (Hgef' _ Hlf). lia.
    + intros l Hl. rewrite concat_app in Hl. simpl in Hl.
      rewrite app_nil_r in Hl. apply elem_of_app in Hl as [Hl|Hl];
        [by apply Hgt|]. specialize (Hgef' _ Hl). lia.
    + exists final, memo', h', (f' :: fpnew). simpl. unfold hbind.
      rewrite Hcopy. simpl. unfold store. rewrite Hfresh. fold h2.
      rewrite Hloop.
      assert (Hlen2 : length h2 = length h1) by apply length_insert.
      rewrite <- !(assoc_L (++)) in *. simpl in *.
      split; [done|]. split; [done|]. split; [done|]. split; [done|].
      split; [done|]. split; [done|]. split; [lia|]. split.
      * intros l Hl Hne. rewrite Hpre' by (try lia; done).
        rewrite Hh2 by done. by apply Hpre1.
      * intros l Hl. apply not_elem_of_app in Hl as [Hlf Hlfps].
        rewrite Hm' by done. by apply Hm1.
Qed.
End Loops.

Lemma distinct_keys_list js :
  distinct_keys (JList js) = true -> Forall (fun j => distinct_keys j = true) js.
Proof.
  simpl. intros Hd. apply list.Forall_forall. intros x Hx.
  rewrite forallb_forall in Hd. apply Hd. by apply list_elem_of_In.
Qed.

Lemma distinct_keys_dict d :
  distinct_keys (JDict d) = true ->
  NoDup (map fst d) /\ Forall (fun kv => distinct_keys (snd kv) = true) d.
Proof.
  simpl. intros Hd. apply andb_true_iff in Hd as [Hnd Hd].
  split; [by apply bool_decide_eq_true in Hnd|].
  apply list.Forall_forall. intros x Hx.
  rewrite forallb_forall in Hd. apply Hd. by apply list_elem_of_In.
Qed.

(** A deep copy of a document is the document, in new objects. *)
Lemma deepcopy_represents j :
  forall fuel, distinct_keys j = true -> json_depth j <= fuel ->
               copies (deepcopy fuel) j.
Proof.
  induction j as [| | | |js IH|d IH] using json_induction;
    intros fuel Hdk Hfuel h v fp memo Hr Hndfp Hmemo;
    inversion Hr as [| | | |l items js' fps Hl Hch|l entries d' fps Hl Hk Hch];
    subst.
  1-4: eexists _, memo, h, []; destruct fuel; simpl; unfold hret;
    repeat split; try done; constructor.
  - destruct fuel as [|fuel]; [simpl in Hfuel; lia|].
    simpl. rewrite (Hmemo l) by apply list_elem_of_here.
    unfold hbind, load, alloc. rewrite Hl.
    apply list.NoDup_cons in Hndfp as [Hlfps Hndfps].
    pose proof (Forall3_bound _ _ _ _ Hch) as Hb.
    destruct (copy_items_represents (deepcopy fuel) (length h) js)
      with (items := items) (fps := fps) (h := h ++ [OList []])
           (acc := @nil val) (jacc := @nil json) (fpacc := @nil (list nat))
           (memo := dict_set l (length h) memo)
      as (final & memo' & h' & fpnew & Hloop & Hfin & Hrfin & Hndfin & Hgtfin
          & Hlen' & Hpre' & Hm').
    + pose proof (distinct_keys_list _ Hdk) as Hdks.
      rewrite list.Forall_forall in IH, Hdks.
      apply list.Forall_forall. intros x Hx. apply IH; [done|by apply Hdks|].
      apply json_depth_elem in Hx. lia.
    + eapply Forall3_represents_frame; [exact Hch|].
      intros l0 Hl0. apply lookup_app_l. by apply Hb.
    + done.
    + intros Hin. specialize (Hb _ Hin). lia.
    + intros l0 Hl0. rewrite dict_get_set_ne by (intros ->; done).
      by apply Hmemo, list_elem_of_further.
    + by rewrite lookup_app_r, Nat.sub_diag.
    + constructor.
    + constructor.
    + intros l0 Hl0. by apply elem_of_nil in Hl0.
    + rewrite Hloop. unfold hret. simpl in *.
      rewrite length_app in Hlen'. simpl in Hlen'.
      exists (VRef (length h)), memo', h', (length h :: concat fpnew).
      split; [done|]. split; [by apply rep_list with (items := final)|].
      split; [|split; [|split; [|split]]].
      * constructor; [|done]. intros Hin. specialize (Hgtfin _ Hin). lia.
      * constructor; [lia|]. apply list.Forall_forall. intros l0 Hl0.
        specialize (Hgtfin _ Hl0). lia.
      * lia.
      * intros l0 Hl0. rewrite Hpre'; [by apply lookup_app_l| |lia].
        rewrite length_app. simpl. lia.
      * intros l0 Hl0. apply not_elem_of_cons in Hl0 as [Hne Hl0].
        rewrite Hm' by done. by rewrite dict_get_set_ne.
  - destruct fuel as [|fuel]; [simpl in Hfuel; lia|].
    simpl. rewrite (Hmemo l) by apply list_elem_of_here.
    unfold hbind, load, alloc. rewrite Hl.
    apply list.NoDup_cons in Hndfp as [Hlfps Hndfps].
    pose proof (Forall3_bound _ _ _ _ Hch) as Hb.
    destruct (distinct_keys_dict _ Hdk) as [Hkeys Hdks].
    destruct (copy_entries_represents (deepcopy fuel) (length h) d)
      with (entries := entries) (fps := fps) (h := h ++ [ODict []])
           (acc := @nil (string * val)) (jacc := @nil (string * json))
           (fpacc := @nil (list nat))
           (memo := dict_set l (length h) memo)
      as (final & memo' & h' & fpnew & Hloop & Hfin & Hkfin & Hrfin & Hndfin
          & Hgtfin & Hlen' & Hpre' & Hm').
    + rewrite list.Forall_forall in IH, Hdks.
      apply list.Forall_forall. intros [k x] Hx.
      apply (IH _ Hx); [by apply (Hdks _ Hx)|].
      apply json_depth_entry in Hx. simpl in *. lia.
    + done.
    + eapply Forall3_represents_frame; [exact Hch|].
      intros l0 Hl0. apply lookup_app_l. by apply Hb.
    + done.
    + done.
    + intros Hin. specialize (Hb _ Hin). lia.
    + intros l0 Hl0. rewrite dict_get_set_ne by (intros ->; done).
      by apply Hmemo, list_elem_of_further.
    + by rewrite lookup_app_r, Nat.sub_diag.
    + done.
    + constructor.
    + constructor.
    + intros l0 Hl0. by apply elem_of_nil in Hl0.
    + rewrite Hloop. unfold hret. simpl in *.
      rewrite length_app in Hlen'. simpl in Hlen'.
      exists (VRef (length h)), memo', h', (length h :: concat fpnew).
      split; [done|]. split; [by apply rep_dict with (entries := final)|].
      split; [|split; [|split; [|split]]].
      * constructor; [|done]. intros Hin. specialize (Hgtfin _ Hin). lia.
      * constructor; [lia|]. apply list.Forall_forall. intros l0 Hl0.
        specialize (Hgtfin _ Hl0). lia.
      * lia.
      * intros l0 Hl0. rewrite Hpre'; [by apply lookup_app_l| |lia].
        rewrite length_app. simpl. lia.
      * intros l0 Hl0. apply not_elem_of_cons in Hl0 as [Hne Hl0].
        rewrite Hm' by done. by rewrite dict_get_set_ne.
Qed.
End Copy_represents.
Section In_place.
Import Heap.

Lemma hbind_Ok {A B} (m : HM A) (k : A -> HM B) h a h1 :
  m h = (Ok a, h1) -> hbind m k h = k a h1.
Proof. unfold hbind. by intros ->. Qed.

Lemma hbind_Err {A B} (m : HM A) (k : A -> HM B) h e h1 :
  m h = (Err e, h1) -> hbind m k h = (Err e, h1).
Proof. unfold hbind. by intros ->. Qed.

Lemma evolves_refl h fp : evolves h fp h fp.
Proof. split; [by left|]. by split. Qed.

Lemma evolves_trans h fp h1 fp1 h2 fp2 :
  evolves h fp h1 fp1 -> evolves h1 fp1 h2 fp2 -> evolves h fp h2 fp2.
Proof.
  intros (Hin1 & Hfr1 & Hlen1) (Hin2 & Hfr2 & Hlen2). split; [|split; [|lia]].
  - intros l Hl. destruct (Hin2 l Hl) as [Hl1|Hl1]; [|right; lia].
    by apply Hin1.
  - intros l Hl Hnot. rewrite Hfr2; [by apply Hfr1|lia|].
    intros Hl1. destruct (Hin1 l Hl1) as [?|?]; [done|lia].
Qed.

Lemma in_place_weaken (D D' : json -> Prop) b pb :
  in_place D b pb -> (forall j, D' j -> D j) -> in_place D' b pb.
Proof. intros Hb HD h v j fp Hj. apply Hb. by apply HD. Qed.

Lemma in_place_ext (D : json -> Prop) b b' pb pb' :
  in_place D b pb ->
  (forall v h, b v h = b' v h) -> (forall j, D j -> pb j = pb' j) ->
  in_place D b' pb'.
Proof.
  intros Hb Hbb Hpp h v j fp Hj Hr Hnd. rewrite <- Hbb, <- Hpp by done.
  by apply Hb.
Qed.

Lemma in_place_seq (D1 D2 : json -> Prop) b1 b2 p1 p2 :
  in_place D1 b1 p1 -> in_place D2 b2 p2 ->
  (forall j j', D1 j -> p1 j = Ok j' -> D2 j') ->
  in_place D1 (fun v => hbind (b1 v) (fun _ => b2 v))
    (fun j => rbind (p1 j) p2).
Proof.
  intros H1 H2 HD h v j fp Hj Hr Hnd. specialize (H1 h v j fp Hj Hr Hnd).
  destruct (p1 j) as [j1|e1] eqn:Hp1; simpl.
  - destruct H1 as (h1 & fp1 & Hb1 & Hr1 & Hnd1 & Hev1).
    specialize (H2 h1 v j1 fp1 (HD _ _ Hj Hp1) Hr1 Hnd1).
    rewrite (hbind_Ok _ _ _ _ _ Hb1).
    destruct (p2 j1) as [j2|e2]; [|done].
    destruct H2 as (h2 & fp2 & Hb2 & Hr2 & Hnd2 & Hev2).
    exists h2, fp2. repeat split; try done; by eapply evolves_trans.
  - destruct H1 as (e & h1 & Hb1). exists e, h1. by apply hbind_Err.
Qed.

(** *** Dicts *)

Lemma dict_focus {A B C} (R : A -> B -> C -> Prop) (k : string)
  (d : list (string * A)) (entries : list (string * B)) fps c :
  map fst d = map fst entries ->
  Forall3 R (map snd d) (map snd entries) fps ->
  dict_get k d = Some c ->
  exists d1 d2 e1 e2 a fps1 f fps2,
    d = d1 ++ (k, c) :: d2 /\ entries = e1 ++ (k, a) :: e2 /\
    fps = fps1 ++ f :: fps2 /\ (k ∉ map fst d1) /\
    map fst d1 = map fst e1 /\ map fst d2 = map fst e2 /\
    Forall3 R (map snd d1) (map snd e1) fps1 /\ R c a f /\
    Forall3 R (map snd d2) (map snd e2) fps2.
Proof.
  revert entries fps. induction d as [|[k0 c0] d IH];
    intros [|[k0' a0] entries] fps Hk HR Hget; try done.
  simpl in Hk, HR, Hget. injection Hk as <- Hk.
  inversion HR as [|? ? f0 ? ? fps0 Hhead Htail]; subst.
  destruct (decide (k0 = k)) as [->|Hne].
  - injection Hget as ->.
    exists [], d, [], entries, a0, [], f0, fps0. simpl.
    repeat split; try done. apply not_elem_of_nil. constructor.
  - destruct (IH entries fps0 Hk Htail Hget)
      as (d1 & d2 & e1 & e2 & a & fps1 & f & fps2 & -> & -> & -> & Hnot & Hk1
          & Hk2 & H1 & Hc & H2).
    exists ((k0, c0) :: d1), d2, ((k0, a0) :: e1), e2, a, (f0 :: fps1), f, fps2.
    simpl. repeat split; try done.
    + apply not_elem_of_cons. by split.
    + by rewrite Hk1.
    + by constructor.
Qed.

Lemma dict_get_split {V} (k : string) (c : V) d1 d2 :
  k ∉ map fst d1 -> dict_get k (d1 ++ (k, c) :: d2) = Some c.
Proof.
  induction d1 as [|[k' v'] d1 IH]; simpl.
  - intros _. by rewrite decide_True.
  - intros Hk. apply not_elem_of_cons in Hk as [Hne Hk].
    rewrite decide_False by done. by apply IH.
Qed.

Lemma dict_set_split {V} (k : string) (c c' : V) d1 d2 :
  k ∉ map fst d1 ->
  dict_set k c' (d1 ++ (k, c) :: d2) = d1 ++ (k, c') :: d2.
Proof.
  induction d1 as [|[k' v'] d1 IH]; simpl.
  - intros _. by rewrite decide_True.
  - intros Hk. apply not_elem_of_cons in Hk as [Hne Hk].
    rewrite decide_False by done. by rewrite IH.
Qed.

Lemma dict_get_keys_None {A B} (k : string) (d : list (string * A))
  (entries : list (string * B)) :
  map fst d = map fst entries -> dict_get k d = None ->
  dict_get k entries = None.
Proof.
  revert entries. induction d as [|[k0 c0] d IH]; intros [|[k0' a0] entries];
    try done.
  simpl. intros [= <- Hk]. destruct (decide (k0 = k)); [done|]. by apply IH.
Qed.

Lemma represents_dict_split h l d1 d2 e1 e2 k c a fps1 f fps2 :
  h !! l = Some (ODict (e1 ++ (k, a) :: e2)) ->
  map fst d1 = map fst e1 -> map fst d2 = map fst e2 ->
  Forall3 (represents h) (map snd d1) (map snd e1) fps1 ->
  represents h c a f ->
  Forall3 (represents h) (map snd d2) (map snd e2) fps2 ->
  represents h (JDict (d1 ++ (k, c) :: d2)) (VRef l)
    (l :: concat (fps1 ++ f :: fps2)).
Proof.
  intros Hl Hk1 Hk2 H1 Hc H2.
  apply rep_dict with (entries := e1 ++ (k, a) :: e2); [done|..].
  - rewrite !map_app. simpl. by rewrite Hk1, Hk2.
  - rewrite !map_app. simpl. apply Forall3_app; [done|]. by constructor.
Qed.

(** What the update of one part does to the whole. *)
Lemma evolves_focus h h' fps1 f f' fps2 :
  NoDup (concat (fps1 ++ f :: fps2)) ->
  (forall l, l ∈ concat (fps1 ++ f :: fps2) -> l < length h) ->
  NoDup f' -> evolves h f h' f' ->
  NoDup (concat (fps1 ++ f' :: fps2)) /\
  evolves h (concat (fps1 ++ f :: fps2)) h' (concat (fps1 ++ f' :: fps2)) /\
  (forall l, l ∈ concat fps1 ++ concat fps2 -> h' !! l = h !! l).
Proof.
  rewrite !concat_app. simpl. intros Hnd Hb Hnd' (Hin & Hfr & Hlen).
  apply list.NoDup_app in Hnd as (Hnd1 & Hd1 & Hnd2).
  apply list.NoDup_app in Hnd2 as (Hndf & Hd2 & Hnd2).
  assert (Hb1 : forall l, l ∈ concat fps1 -> l < length h).
  { intros l Hl. apply Hb, elem_of_app. by left. }
  assert (Hb2 : forall l, l ∈ concat fps2 -> l < length h).
  { intros l Hl. apply Hb, elem_of_app. right. apply elem_of_app. by right. }
  split; [|split].
  - apply list.NoDup_app. split; [done|]. split.
    + intros l Hl Hl'. apply elem_of_app in Hl' as [Hl'|Hl'].
      * destruct (Hin l Hl') as [Hlf|Hge]; [|specialize (Hb1 l Hl); lia].
        apply (Hd1 l Hl), elem_of_app. by left.
      * apply (Hd1 l Hl), elem_of_app. by right.
    + apply list.NoDup_app. split; [done|]. split; [|done].
      intros l Hl Hl'. destruct (Hin l Hl) as [Hlf|Hge];
        [by apply (Hd2 l Hlf)|specialize (Hb2 l Hl'); lia].
  - split; [|split; [|done]].
    + intros l Hl. apply elem_of_app in Hl as [Hl|Hl];
        [left; apply elem_of_app; by left|].
      apply elem_of_app in Hl as [Hl|Hl].
      * destruct (Hin l Hl) as [Hlf|Hge]; [|by right].
        left. apply elem_of_app. right. apply elem_of_app. by left.
      * left. apply elem_of_app. right. apply elem_of_app. by right.
    + intros l Hl Hnot. apply Hfr; [done|]. intros Hlf. apply Hnot.
      apply elem_of_app. right. apply elem_of_app. by left.
  - intros l Hl. apply elem_of_app in Hl as [Hl|Hl].
    + apply Hfr; [by apply Hb1|]. intros Hlf.
      apply (Hd1 l Hl), elem_of_app. by left.
    + apply Hfr; [by apply Hb2|]. intros Hlf. by apply (Hd2 l Hlf).
Qed.

(** What the update of the parts does to the object that holds them. *)
Lemma evolves_cons h h' l fp fp' :
  NoDup (l :: fp) -> l < length h ->
  NoDup fp' -> evolves h fp h' fp' ->
  NoDup (l :: fp') /\ evolves h (l :: fp) h' (l :: fp') /\
  h' !! l = h !! l.
Proof.
  intros Hnd Hl Hnd' (Hin & Hfr & Hlen).
  apply list.NoDup_cons in Hnd as [Hnot Hnd]. split; [|split].
  - constructor; [|done]. intros Hl'. destruct (Hin l Hl'); [done|lia].
  - split; [|split; [|done]].
    + intros l0 Hl0. apply elem_of_cons in Hl0 as [->|Hl0];
        [left; apply list_elem_of_here|].
      destruct (Hin l0 Hl0); [left; by apply list_elem_of_further|by right].
    + intros l0 Hl0 Hnot0. apply not_elem_of_cons in Hnot0 as [_ Hnot0].
      by apply Hfr.
  - by apply Hfr.
Qed.

Lemma truthy_represents h c a f :
  represents h c a f -> h_truthy a h = (Ok (truthy c), h).
Proof.
  intros Hr.
  inversion Hr as [| | | |l items js fps Hl Hch|l entries d fps Hl Hk Hch];
    subst; simpl; try done.
  - unfold hbind, load. rewrite Hl. by inversion Hch.
  - unfold hbind, load. rewrite Hl. destruct d, entries; try done.
Qed.

Lemma h_get_dict h l entries k :
  h !! l = Some (ODict entries) ->
  h_get (VRef l) k h = (Ok (default (VScalar SNull) (dict_get k entries)), h).
Proof. intros Hl. simpl. unfold hbind, load. by rewrite Hl. Qed.

Lemma h_getitem_dict h l entries k a :
  h !! l = Some (ODict entries) -> dict_get k entries = Some a ->
  h_getitem (VRef l) k h = (Ok a, h).
Proof. intros Hl Ha. simpl. unfold hbind, load. by rewrite Hl, Ha. Qed.

Lemma in_place_under (D D' : json -> Prop) k b pb :
  in_place D' b pb ->
  (forall d c, D (JDict d) -> dict_get k d = Some c -> D' c) ->
  in_place D (h_under k b) (under k pb).
Proof.
  intros Hb HD h v j fp Hj Hr Hnd. unfold under, h_under.
  pose proof (represents_bound _ _ _ _ Hr) as Hbound.
  rewrite list.Forall_forall in Hbound.
  inversion Hr as [| | | |l items js fps Hl Hch|l entries d fps Hl Hk Hch];
    subst; simpl; try by eexists _, _.
  - unfold hbind, load. rewrite Hl. by eexists _, _.
  - rewrite (hbind_Ok _ _ _ _ _ (h_get_dict _ _ _ k Hl)).
    destruct (dict_get k d) as [c|] eqn:Hc.
    + destruct (dict_focus _ _ _ _ _ _ Hk Hch Hc)
        as (d1 & d2 & e1 & e2 & a & fps1 & f & fps2 & -> & -> & -> & Hnot & Hk1
            & Hk2 & H1 & Hca & H2).
      assert (Hnot' : k ∉ map fst e1) by by rewrite <- Hk1.
      rewrite (dict_get_split k a e1 e2 Hnot'). simpl default.
      rewrite (hbind_Ok _ _ _ _ _ (truthy_represents _ _ _ _ Hca)).
      destruct (truthy c).
      * rewrite (hbind_Ok _ _ _ _ _
                   (h_getitem_dict _ _ _ k a Hl
                      (dict_get_split k a e1 e2 Hnot'))).
        apply list.NoDup_cons in Hnd as Hnd0. destruct Hnd0 as [Hlnot Hndc].
        assert (Hndf : NoDup f).
        { rewrite concat_app in Hndc. simpl in Hndc.
          apply list.NoDup_app in Hndc as (_ & _ & Hndc).
          by apply list.NoDup_app in Hndc as (? & _ & _). }
        specialize (Hb h a c f (HD _ _ Hj Hc) Hca Hndf).
        destruct (pb c) as [c'|e]; simpl; [|done].
        destruct Hb as (h' & f' & Hbody & Hrc' & Hndf' & Hev).
        destruct (evolves_focus h h' fps1 f f' fps2 Hndc) as (Hnd' & Hev' & Hsib);
          [|done|done|].
        { intros l0 Hl0. by apply Hbound, list_elem_of_further. }
        destruct (evolves_cons h h' l _ (concat (fps1 ++ f' :: fps2)) Hnd)
          as (Hnd'' & Hev'' & Hl');
          [by apply Hbound, list_elem_of_here|exact Hnd'|exact Hev'|].
        exists h', (l :: concat (fps1 ++ f' :: fps2)).
        split; [done|]. split; [|by split].
        rewrite dict_set_split by done.
        apply represents_dict_split with (a := a) (e1 := e1) (e2 := e2);
          try done.
        -- by rewrite Hl'.
        -- eapply Forall3_represents_frame; [exact H1|].
           intros l0 Hl0. apply Hsib, elem_of_app. by left.
        -- eapply Forall3_represents_frame; [exact H2|].
           intros l0 Hl0. apply Hsib, elem_of_app. by right.
      * exists h, (l :: concat (fps1 ++ f :: fps2)).
        split; [done|]. split; [done|]. split; [done|]. apply evolves_refl.
    + rewrite (dict_get_keys_None _ _ _ Hk Hc). simpl.
      exists h, (l :: concat fps).
      split; [done|]. split; [done|]. split; [done|]. apply evolves_refl.
Qed.

(** *** Loops *)

Lemma hfor_in_place (D' : json -> Prop) b pb :
  in_place D' b pb ->
  forall js items fps h,
    Forall D' js -> Forall3 (represents h) js items fps ->
    NoDup (concat fps) ->
    match rmap pb js with
    | Ok js' =>
        exists h' fps',
          hfor b items h = (Ok tt, h') /\
          Forall3 (represents h') js' items fps' /\
          NoDup (concat fps') /\
          evolves h (concat fps) h' (concat fps')
    | Err _ => exists e h', hfor b items h = (Err e, h')
    end.
Proof.
  intros Hb js. induction js as [|x xs IH]; intros items0 fps0 h HD Hr0 Hnd;
    inversion Hr0 as [|x0 a f xs0 items fps Hxa Hr]; subst.
  - simpl. exists h, []. split; [done|]. split; [constructor|].
    split; [done|apply evolves_refl].
  - apply list.Forall_cons in HD as [HDx HD]. simpl in Hnd.
    apply list.NoDup_app in Hnd as (Hndf & Hdisj & Hndfps).
    pose proof (Forall3_bound _ _ _ _ Hr) as Hbfps.
    specialize (Hb h a x f HDx Hxa Hndf). simpl.
    destruct (pb x) as [x'|e]; simpl.
    + destruct Hb as (h1 & f1 & Hbody & Hrx' & Hndf1 & (Hin1 & Hfr1 & Hlen1)).
      rewrite (hbind_Ok _ _ _ _ _ Hbody).
      assert (Hr1 : Forall3 (represents h1) xs items fps).
      { eapply Forall3_represents_frame; [exact Hr|].
        intros l Hl. apply Hfr1; [by apply Hbfps|]. intros Hlf.
        by apply (Hdisj l). }
      specialize (IH items fps h1 HD Hr1 Hndfps).
      destruct (rmap pb xs) as [xs'|e]; simpl; [|done].
      destruct IH as (h2 & fps2 & Hloop & Hr2 & Hnd2 & (Hin2 & Hfr2 & Hlen2)).
      pose proof (represents_bound _ _ _ _ Hrx') as Hbf1.
      rewrite list.Forall_forall in Hbf1.
      assert (Hsep : forall l, l ∈ f1 -> l ∉ concat fps).
      { intros l Hl Hl'. destruct (Hin1 l Hl) as [Hlf|Hge];
          [by apply (Hdisj l)|specialize (Hbfps l Hl'); lia]. }
      exists h2, (f1 :: fps2). simpl. split; [done|]. split; [|split].
      * constructor; [|done]. eapply represents_frame; [exact Hrx'|].
        intros l Hl. apply Hfr2; [by apply Hbf1|by apply Hsep].
      * apply list.NoDup_app. split; [done|]. split; [|done].
        intros l Hl Hl'. destruct (Hin2 l Hl') as [Hlfps|Hge];
          [by apply (Hsep l)|specialize (Hbf1 l Hl); lia].
      * split; [|split; [|lia]].
        -- intros l Hl. apply elem_of_app in Hl as [Hl|Hl].
           ++ destruct (Hin1 l Hl); [left; apply elem_of_app; by left|by right].
           ++ destruct (Hin2 l Hl); [left; apply elem_of_app; by right|].
              right. lia.
        -- intros l Hl Hnot. apply not_elem_of_app in Hnot as [Hnf Hnfps].
           rewrite Hfr2 by (try lia; done). by apply Hfr1.
    + destruct Hb as (e' & h1 & Hbody). exists e', h1. by apply hbind_Err.
Qed.

Lemma chars_represent h s :
  exists fps, Forall3 (represents h) (chars s) (h_chars s) fps /\
              concat fps = [].
Proof.
  induction s as [|c s (fps & Hr & Hc)]; simpl.
  - exists []. split; [constructor|done].
  - exists ([] :: fps). split; [|done]. constructor; [constructor|done].
Qed.

Lemma keys_represent {A B} h (d : list (string * A))
  (entries : list (string * B)) :
  map fst d = map fst entries ->
  exists fps,
    Forall3 (represents h) (map (fun kv => JStr (fst kv)) d)
      (map (fun kv => VScalar (SStr (fst kv))) entries) fps /\
    concat fps = [].
Proof.
  revert entries. induction d as [|[k x] d IH]; intros [|[k' a] entries];
    try done; simpl.
  - intros _. exists []. split; [constructor|done].
  - intros [= <- Hk]. destruct (IH _ Hk) as (fps & Hr & Hc).
    exists ([] :: fps). split; [|done]. constructor; [constructor|done].
Qed.

Lemma Forall_chars (P : json -> Prop) s :
  (forall s', P (JStr s')) -> Forall P (chars s).
Proof. intros HP. induction s; simpl; by constructor. Qed.

Lemma evolves_nil h h' fp' : evolves h [] h' fp' -> evolves h [] h' [].
Proof.
  intros (_ & Hfr & Hlen). split; [|by split].
  intros l Hl. by apply elem_of_nil in Hl.
Qed.

(** What leaves the objects of a document alone leaves the document. *)
Lemma evolves_apart h h' fp' j v fp :
  evolves h [] h' fp' -> represents h j v fp ->
  represents h' j v fp /\ evolves h fp h' fp.
Proof.
  intros (_ & Hfr & Hlen) Hr.
  pose proof (represents_bound _ _ _ _ Hr) as Hb.
  rewrite list.Forall_forall in Hb. split.
  - eapply represents_frame; [exact Hr|]. intros l Hl.
    apply Hfr; [by apply Hb|apply not_elem_of_nil].
  - split; [by left|]. split; [|done]. intros l Hl _.
    apply Hfr; [done|apply not_elem_of_nil].
Qed.

Lemma h_iter_list h l items :
  h !! l = Some (OList items) -> h_iter (VRef l) h = (Ok items, h).
Proof. intros Hl. simpl. unfold hbind, load. by rewrite Hl. Qed.

Lemma h_iter_dict h l entries :
  h !! l = Some (ODict entries) ->
  h_iter (VRef l) h
  = (Ok (map (fun kv => VScalar (SStr (fst kv))) entries), h).
Proof. intros Hl. simpl. unfold hbind, load. by rewrite Hl. Qed.

Lemma in_place_each (D D' : json -> Prop) b pb :
  in_place D' b pb ->
  (forall js x, D (JList js) -> x ∈ js -> D' x) ->
  (forall s, D' (JStr s)) ->
  in_place D (h_each b) (each pb).
Proof.
  intros Hb HD Hstr h v j fp Hj Hr Hnd. unfold each, h_each.
  pose proof (represents_bound _ _ _ _ Hr) as Hbound.
  rewrite list.Forall_forall in Hbound.
  inversion Hr as [| | |s|l items js fps Hl Hch|l entries d fps Hl Hk Hch];
    subst; try (simpl; by eexists _, _).
  - destruct (chars_represent h s) as (fps & Hrs & Hc).
    pose proof (hfor_in_place D' b pb Hb _ _ _ h (Forall_chars _ s Hstr) Hrs)
      as Hloop.
    rewrite Hc in Hloop. specialize (Hloop (NoDup_nil_2 (A := nat))).
    simpl. unfold hbind, hret. destruct (rmap pb (chars s)) as [js'|e]; simpl.
    + destruct Hloop as (h' & fps' & -> & _ & _ & Hev).
      exists h', []. split; [done|]. split; [constructor|]. split; [done|].
      by eapply evolves_nil.
    + destruct Hloop as (e' & h' & ->). by eexists _, _.
  - rewrite (hbind_Ok _ _ _ _ _ (h_iter_list _ _ _ Hl)).
    apply list.NoDup_cons in Hnd as Hnd0. destruct Hnd0 as [Hlnot Hndc].
    assert (HDs : Forall D' js).
    { apply list.Forall_forall. intros x Hx. by eapply HD. }
    pose proof (hfor_in_place D' b pb Hb _ _ _ h HDs Hch Hndc) as Hloop.
    destruct (rmap pb js) as [js'|e]; simpl.
    + destruct Hloop as (h' & fps' & Hfor & Hr' & Hnd' & Hev).
      destruct (evolves_cons h h' l _ (concat fps') Hnd)
        as (Hnd'' & Hev'' & Hl');
        [by apply Hbound, list_elem_of_here|done|done|].
      exists h', (l :: concat fps'). split; [done|]. split; [|by split].
      apply rep_list with (items := items); [by rewrite Hl'|done].
    + destruct Hloop as (e' & h' & ->). by eexists _, _.
  - rewrite (hbind_Ok _ _ _ _ _ (h_iter_dict _ _ _ Hl)).
    destruct (keys_represent h d entries Hk) as (fpk & Hrk & Hc).
    assert (HDs : Forall D' (map (fun kv => JStr (fst kv)) d)).
    { apply list.Forall_forall. intros x Hx.
      apply list_elem_of_fmap in Hx as (kv & -> & _). apply Hstr. }
    pose proof (hfor_in_place D' b pb Hb _ _ _ h HDs Hrk) as Hloop.
    rewrite Hc in Hloop. specialize (Hloop (NoDup_nil_2 (A := nat))).
    cbn [py_iter rbind].
    destruct (rmap pb _) as [js'|e]; simpl.
    + destruct Hloop as (h' & fps' & Hfor & _ & _ & Hev).
      destruct (evolves_apart _ _ _ _ _ _ Hev Hr) as [Hr' Hev'].
      exists h', (l :: concat fps). split; [done|]. split; [done|]. by split.
    + destruct Hloop as (e' & h' & ->). by eexists _, _.
Qed.
End In_place.
Section In_place_rewriters.
Import Heap.

Lemma scalar_mapping_get (m : dict key scalar) k :
  dict_get k (scalar_mapping m) = option_map json_of_scalar (dict_get k m).
Proof.
  induction m as [|[k' v] m IH]; simpl; [done|].
  by destruct (decide (k' = k)).
Qed.

Lemma scalar_mapping_mem (m : dict key scalar) k :
  dict_mem k (scalar_mapping m) = dict_mem k m.
Proof.
  unfold dict_mem. rewrite scalar_mapping_get. by destruct (dict_get k m).
Qed.

Lemma represents_scalar h c : represents h (json_of_scalar c) (VScalar c) [].
Proof. destruct c; constructor. Qed.

(** A value that can be hashed is a scalar. *)
Lemma hash_represents h c a f :
  represents h c a f ->
  match hash_key c with
  | Ok k => h_hash a = Ok k /\ f = [] /\ exists s, a = VScalar s
  | Err _ => exists e, h_hash a = Err e
  end.
Proof.
  intros Hr. inversion Hr; subst; simpl; try (by eexists);
    (split; [done|]); (split; [done|]); by eexists.
Qed.

Lemma concat_focus_nil {A} (fps1 fps2 : list (list A)) f :
  concat (fps1 ++ f :: fps2) = concat fps1 ++ f ++ concat fps2.
Proof. by rewrite concat_app. Qed.

(** Storing another scalar under a key that holds a scalar. *)
Lemma set_scalar_represents h l d1 d2 e1 e2 k c a s fps1 fps2 :
  h !! l = Some (ODict (e1 ++ (k, a) :: e2)) ->
  k ∉ map fst d1 ->
  map fst d1 = map fst e1 -> map fst d2 = map fst e2 ->
  Forall3 (represents h) (map snd d1) (map snd e1) fps1 ->
  Forall3 (represents h) (map snd d2) (map snd e2) fps2 ->
  NoDup (l :: concat (fps1 ++ [] :: fps2)) ->
  exists h',
    h_setitem (VRef l) k (VScalar s) h = (Ok tt, h') /\
    represents h' (JDict (dict_set k (json_of_scalar s) (d1 ++ (k, c) :: d2)))
      (VRef l) (l :: concat (fps1 ++ [] :: fps2)) /\
    evolves h (l :: concat (fps1 ++ [] :: fps2)) h'
      (l :: concat (fps1 ++ [] :: fps2)).
Proof.
  intros Hl Hnot Hk1 Hk2 H1 H2 Hnd.
  assert (Hnot' : k ∉ map fst e1) by by rewrite <- Hk1.
  exists (<[l := ODict (e1 ++ (k, VScalar s) :: e2)]> h).
  apply list.NoDup_cons in Hnd as [Hlnot Hnd].
  rewrite concat_app in Hlnot. simpl in Hlnot.
  apply not_elem_of_app in Hlnot as [Hl1 Hl2].
  split; [|split].
  - simpl. unfold hbind, load, store. rewrite Hl.
    by rewrite (dict_set_split k _ _ e1 e2 Hnot').
  - rewrite dict_set_split by done.
    apply represents_dict_split with (a := VScalar s) (e1 := e1) (e2 := e2);
      try done.
    + apply list_lookup_insert_eq. by eapply lookup_lt_Some.
    + eapply Forall3_represents_frame; [exact H1|].
      intros l0 Hl0. apply list_lookup_insert_ne. by intros ->.
    + apply represents_scalar.
    + eapply Forall3_represents_frame; [exact H2|].
      intros l0 Hl0. apply list_lookup_insert_ne. by intros ->.
  - split; [by left|]. split; [|by rewrite length_insert].
    intros l0 _ Hl0. apply not_elem_of_cons in Hl0 as [Hne _].
    by apply list_lookup_insert_ne.
Qed.

Lemma hbind_lift_Ok {A B} (a : A) (k : A -> HM B) h :
  hbind (hlift (Ok a)) k h = k a h.
Proof. done. Qed.

Lemma hbind_ret {A B} (a : A) (k : A -> HM B) h :
  hbind (hret a) k h = k a h.
Proof. done. Qed.

Lemma in_place_remap_id (m : dict key scalar) :
  in_place (fun _ => True) (h_remap_id m) (remap_id (scalar_mapping m)).
Proof.
  intros h v j fp _ Hr Hnd. unfold remap_id, h_remap_id.
  inversion Hr as [| | | |l items js fps Hl Hch|l entries d fps Hl Hk Hch];
    subst; try (simpl; by eexists _, _).
  - simpl. unfold hbind, load. rewrite Hl. by eexists _, _.
  - rewrite (hbind_Ok _ _ _ _ _ (h_get_dict _ _ _ "id" Hl)).
    cbn [py_get rbind].
    destruct (dict_get "id" d) as [c|] eqn:Hc.
    + destruct (dict_focus _ _ _ _ _ _ Hk Hch Hc)
        as (d1 & d2 & e1 & e2 & a & fps1 & f & fps2 & -> & -> & -> & Hnot & Hk1
            & Hk2 & H1 & Hca & H2).
      assert (Hnot' : "id" ∉ map fst e1) by by rewrite <- Hk1.
      assert (Hga : dict_get "id" (e1 ++ ("id", a) :: e2) = Some a)
        by by apply dict_get_split.
      rewrite Hga. cbn [from_option id].
      pose proof (hash_represents _ _ _ _ Hca) as Hhash.
      destruct (hash_key c) as [kk|e] eqn:Hhc; cbn [rbind].
      * destruct Hhash as (Hha & -> & s0 & ->). rewrite Hha, hbind_lift_Ok.
        rewrite scalar_mapping_mem. destruct (dict_mem kk m).
        -- cbn [py_getitem]. rewrite Hc. cbn [rbind]. rewrite Hhc.
           cbn [rbind].
           rewrite (hbind_Ok _ _ _ _ _ (h_getitem_dict _ _ _ "id" _ Hl Hga)).
           rewrite Hha, hbind_lift_Ok, scalar_mapping_get.
           destruct (dict_get kk m) as [sv|]; cbn [option_map];
             [|by eexists _, _].
           destruct (set_scalar_represents h l d1 d2 e1 e2 "id" c
                       (VScalar s0) sv fps1 fps2 Hl Hnot Hk1 Hk2 H1 H2 Hnd)
             as (h' & Hset & Hr' & Hev).
           exists h', (l :: concat (fps1 ++ [] :: fps2)).
           split; [exact Hset|]. split; [exact Hr'|]. by split.
        -- exists h, (l :: concat (fps1 ++ [] :: fps2)).
           split; [done|]. split; [done|]. split; [done|apply evolves_refl].
      * destruct Hhash as [e' ->]. by eexists _, _.
    + rewrite (dict_get_keys_None _ _ _ Hk Hc). cbn [from_option id hash_key rbind].
      change (h_hash (VScalar SNull)) with (Ok (A := key) KNone).
      rewrite hbind_lift_Ok.
      rewrite scalar_mapping_mem. destruct (dict_mem KNone m).
      * cbn [py_getitem]. rewrite Hc. cbn [rbind].
        simpl. unfold hbind, load. rewrite Hl.
        rewrite (dict_get_keys_None _ _ _ Hk Hc). by eexists _, _.
      * exists h, (l :: concat fps).
        split; [done|]. split; [done|]. split; [done|apply evolves_refl].
Qed.
End In_place_rewriters.
Section Tree_fuel.

Lemma rmap_ext {A B} (f g : A -> result B) (l : list A) :
  (forall x, x ∈ l -> f x = g x) -> rmap f l = rmap g l.
Proof.
  induction l as [|x l IH]; intros Hfg; [done|]. simpl.
  rewrite (Hfg x) by apply list_elem_of_here.
  rewrite IH; [done|]. intros y Hy. by apply Hfg, list_elem_of_further.
Qed.

Lemma each_ext (f g : json -> result json) (v : json) :
  (forall es x, py_iter v = Ok es -> x ∈ es -> f x = g x) ->
  each f v = each g v.
Proof.
  intros Hfg. unfold each.
  destruct v as [| | |s|l|d]; try done; cbn [py_iter rbind] in *.
  - by rewrite (rmap_ext f g (chars s)) by (intros x Hx; by eapply Hfg).
  - by rewrite (rmap_ext f g l) by (intros x Hx; by eapply Hfg).
  - by rewrite (rmap_ext f g (map (fun kv => JStr (fst kv)) d))
      by (intros x Hx; by eapply Hfg).
Qed.

Lemma under_ext k (f g : json -> result json) (x : json) :
  (forall d c, x = JDict d -> dict_get k d = Some c -> f c = g c) ->
  under k f x = under k g x.
Proof.
  intros Hfg. unfold under. destruct x as [| | | | |d]; try done.
  cbn [py_get rbind]. destruct (dict_get k d) as [c|] eqn:Hc; [|done].
  cbn [from_option id]. destruct (truthy c); [|done].
  by rewrite (Hfg d c).
Qed.

(** A call with a body under [k] leaves the other keys alone. *)
Lemma under_keeps k k' body d x' :
  under k body (JDict d) = Ok x' -> k <> k' ->
  exists d', x' = JDict d' /\ dict_get k' d' = dict_get k' d.
Proof.
  unfold under. cbn [py_get rbind]. intros Hu Hne.
  destruct (truthy _); [|injection Hu as <-; by eexists].
  apply rbind_Ok in Hu as (v' & _ & [= <-]).
  eexists. split; [done|]. by rewrite dict_get_set_ne.
Qed.

Lemma iter_depth v es x :
  py_iter v = Ok es -> x ∈ es ->
  json_depth x < json_depth v \/ json_depth x = 0.
Proof.
  destruct v as [| | |s|l|d]; try done; simpl; intros [= <-] Hx.
  - right. induction s as [|c s IH]; simpl in Hx; [by apply elem_of_nil in Hx|].
    apply elem_of_cons in Hx as [->|Hx]; [done|by apply IH].
  - left. apply json_depth_elem in Hx. simpl in Hx. lia.
  - right. apply list_elem_of_fmap in Hx as (kv & -> & _). done.
Qed.

(** The depth that is given to the recursion does not matter once it
    exceeds the depth of the tree. *)
Lemma remap_tree_fuel m n1 :
  forall n2 t, json_depth t < n1 -> json_depth t < n2 ->
               remap_tree n1 m t = remap_tree n2 m t.
Proof.
  induction n1 as [|n1 IH]; intros n2 t H1 H2; [lia|].
  destruct n2 as [|n2]; [lia|]. simpl.
  destruct (under "rule_item" (remap_id m) t) as [t1|e] eqn:Ht1; [|done].
  cbn [rbind]. destruct t as [| | | | |d]; try done.
  destruct (under_keeps _ "sub_expressions" _ _ _ Ht1) as (d1 & -> & Hd1);
    [done|].
  apply under_ext. intros d' c [= <-] Hc. rewrite Hd1 in Hc.
  apply json_depth_dict_get in Hc.
  apply each_ext. intros es x Hes Hx.
  destruct (iter_depth _ _ _ Hes Hx); apply IH; lia.
Qed.
End Tree_fuel.

Section In_place_patterns.
Import Heap.

Lemma in_place_scalar (D : json -> Prop) b pb :
  (forall j, D j -> json_depth j = 0) ->
  (forall h s, exists e h', b (VScalar s) h = (Err e, h')) ->
  (forall j, json_depth j = 0 -> exists e, pb j = Err e) ->
  in_place D b pb.
Proof.
  intros HD Hb Hpb h v j fp Hj Hr Hnd. specialize (HD j Hj).
  destruct (Hpb j HD) as [e ->].
  inversion Hr; subst; try done; apply Hb.
Qed.

Lemma in_place_remap_expression_tree (m : dict key scalar) fuel :
  in_place (fun t => json_depth t < fuel)
    (fun t => Heap._remap_expression_tree fuel t m)
    (remap_tree fuel (scalar_mapping m)).
Proof.
  induction fuel as [|fuel IH].
  { intros h v j fp Hj. lia. }
  destruct fuel as [|fuel].
  { apply in_place_scalar.
    - intros j Hj. lia.
    - intros h s. by eexists _, _.
    - intros j Hj. destruct j; try done; by eexists. }
  apply (in_place_seq (fun t => json_depth t < S (S fuel))
           (fun t1 => forall d c,
                t1 = JDict d -> dict_get "sub_expressions" d = Some c ->
                forall js x, c = JList js -> x ∈ js ->
                             json_depth x < S fuel)
           (h_under "rule_item" (h_remap_id m))
           (h_under "sub_expressions"
              (h_each (fun sub_expr =>
                         Heap._remap_expression_tree (S fuel) sub_expr m)))
           (under "rule_item" (remap_id (scalar_mapping m)))
           (under "sub_expressions"
              (each (remap_tree (S fuel) (scalar_mapping m))))).
  - eapply in_place_weaken with (D := fun _ => True); [|done].
    eapply in_place_under; [apply in_place_remap_id|done].
  - eapply in_place_under with
      (D' := fun c => forall js x, c = JList js -> x ∈ js ->
                                   json_depth x < S fuel).
    + eapply in_place_each; [exact IH| |].
      * intros js x Hc Hx. by eapply Hc.
      * intros s. simpl. lia.
    + intros d c Hd Hc. by eapply Hd.
  - intros j j' Hj Hu d' c -> Hc js x -> Hx.
    destruct j as [| | | | |d]; try done.
    destruct (under_keeps _ "sub_expressions" _ _ _ Hu) as (d1 & [= <-] & Hd1);
      [done|].
    rewrite Hd1 in Hc. apply json_depth_dict_get in Hc.
    apply json_depth_elem in Hx. lia.
Qed.
End In_place_patterns.
Section Patterns_in_place.

Lemma in_place_advance_rules (m : dict key Heap.scalar) :
  in_place (fun _ => True)
    (Heap.h_under "advance_data_patterns_rules"
       (Heap.h_each (Heap.h_under "conditions"
                  (Heap.h_each (Heap.h_under "rule_items"
                             (Heap.h_each (Heap.h_remap_id m)))))))
    (under "advance_data_patterns_rules"
       (each (under "conditions"
                (each (under "rule_items"
                         (each (remap_id (scalar_mapping m)))))))).
Proof.
  eapply in_place_under with (D' := fun _ => True); [|done].
  eapply in_place_each with (D' := fun _ => True); [|done..].
  eapply in_place_under with (D' := fun _ => True); [|done].
  eapply in_place_each with (D' := fun _ => True); [|done..].
  eapply in_place_under with (D' := fun _ => True); [|done].
  eapply in_place_each with (D' := fun _ => True); [|done..].
  apply in_place_remap_id.
Qed.

Lemma in_place_detection_trees (m : dict key Heap.scalar) fuel :
  in_place
    (fun p => forall d c, p = JDict d -> dict_get "detection_rules" d = Some c ->
                          json_depth c < S fuel)
    (Heap.h_under "detection_rules"
       (Heap.h_each (Heap.h_under "expression_tree"
                  (fun tree => Heap._remap_expression_tree (S fuel) tree m))))
    (under "detection_rules"
       (each (under "expression_tree"
                (fun tree =>
                   _remap_expression_tree tree (scalar_mapping m))))).
Proof.
  eapply in_place_under with (D' := fun c => json_depth c < S fuel).
  2:{ intros d c Hd Hc. by eapply Hd. }
  eapply in_place_each with (D' := fun r => json_depth r < S fuel).
  2:{ intros js x Hc Hx. apply json_depth_elem in Hx. lia. }
  2:{ intros s. simpl. lia. }
  eapply in_place_under with (D' := fun t => json_depth t < S fuel).
  2:{ intros d c Hd Hc. apply json_depth_dict_get in Hc. lia. }
  eapply in_place_ext; [apply in_place_remap_expression_tree|done|].
  intros t Ht. simpl in Ht. unfold _remap_expression_tree.
  apply remap_tree_fuel; lia.
Qed.

Lemma in_place_pattern_ids (m : dict key Heap.scalar) fuel :
  in_place (fun p => json_depth p <= S fuel)
    (fun profile =>
       Heap.hbind
         (Heap.h_under "advance_data_patterns_rules"
            (Heap.h_each (Heap.h_under "conditions"
                       (Heap.h_each (Heap.h_under "rule_items"
                                  (Heap.h_each (Heap.h_remap_id m))))))
            profile)
         (fun _ =>
            Heap.h_under "detection_rules"
              (Heap.h_each (Heap.h_under "expression_tree"
                         (fun tree =>
                            Heap._remap_expression_tree (S fuel) tree m)))
              profile))
    (fun p => _remap_pattern_ids p (scalar_mapping m)).
Proof.
  unfold _remap_pattern_ids.
  eapply (in_place_seq _ _ _ _ _ _
            (in_place_weaken _ _ _ _ (in_place_advance_rules m) _)
            (in_place_detection_trees m fuel)).
  intros j j' Hj Hu d' c -> Hc.
  destruct j as [| | | | |d]; try done.
  destruct (under_keeps _ "detection_rules" _ _ _ Hu) as (d1 & [= <-] & Hd1);
    [done|].
  rewrite Hd1 in Hc. apply json_depth_dict_get in Hc. lia.
  Unshelve. done.
Qed.
End Patterns_in_place.
Lemma hbind_assoc {A B C} (m : Heap.HM A) (k1 : A -> Heap.HM B)
  (k2 : B -> Heap.HM C) h :
  Heap.hbind (Heap.hbind m k1) k2 h
  = Heap.hbind m (fun a => Heap.hbind (k1 a) k2) h.
Proof. unfold Heap.hbind. by destruct (m h) as [[a|e] h1]. Qed.

(** X27 (the rewriter of pattern references, in place and on values): on a
    document as the decoder builds it, the rewriter that copies the profile
    and assigns into the objects of the copy raises exactly when the
    rewriter on values does, and otherwise returns an object that reads as
    the value the latter returns.  The keys of every dict are distinct, and
    the recursion depth covers the depth of the document. *)
Theorem remap_pattern_ids_in_place (j : json) (m : dict key Heap.scalar)
  (fuel : nat) (h0 : list Heap.obj) (v : Heap.val) (h : list Heap.obj) :
  distinct_keys j = true -> json_depth j <= fuel ->
  Heap.of_json j h0 = (Ok v, h) ->
  match _remap_pattern_ids j (scalar_mapping m) with
  | Ok j' =>
      exists v' h',
        Heap._remap_pattern_ids fuel v m h = (Ok v', h') /\
        Heap.read (S (json_depth j')) h' v' = Some j'
  | Err _ => exists e h', Heap._remap_pattern_ids fuel v m h = (Err e, h')
  end.
Proof.
  intros Hdk Hfuel Hof.
  destruct (of_json_represents j h0)
    as (v0 & h1 & fp & Hof' & Hr & Hnd & _ & _ & _).
  rewrite Hof in Hof'. injection Hof' as <- <-.
  destruct (deepcopy_represents j fuel Hdk Hfuel h v fp [] Hr Hnd)
    as (v' & memo' & h' & fp' & Hcopy & Hr' & Hnd' & _ & _ & _ & _);
    [done|].
  unfold Heap._remap_pattern_ids.
  rewrite (hbind_Ok _ _ _ _ _ Hcopy). cbn [fst].
  rewrite <- hbind_assoc.
  destruct fuel as [|fuel].
  { destruct j; simpl in Hfuel; try lia; inversion Hr'; subst;
      by eexists _, _. }
  pose proof (in_place_pattern_ids m fuel h' v' j fp' Hfuel Hr' Hnd') as Hin.
  cbv beta in Hin.
  destruct (_remap_pattern_ids j (scalar_mapping m)) as [j'|e].
  - destruct Hin as (h2 & fp2 & Hbody & Hr2 & _ & _).
    exists v', h2. split.
    + by rewrite (hbind_Ok _ _ _ _ _ Hbody).
    + eapply represents_read; [exact Hr2|lia].
  - destruct Hin as (e' & h2 & Hbody). exists e', h2.
    by rewrite (hbind_Err _ _ _ _ _ Hbody).
Qed.
Section In_place_profiles.
Import Heap.

Lemma is_str_represents h c a f s :
  represents h c a f -> h_is_str s a = is_str s c.
Proof. intros Hr. by inversion Hr. Qed.

Lemma h_truthy_heap a h : snd (h_truthy a h) = h.
Proof.
  destruct a as [[| | |]|l]; try done. simpl. unfold hbind, load.
  destruct (h !! l) as [[[|]|[|]]|]; done.
Qed.

(** [v = x.get(k); if v: body(v)] is [if x.get(k): body(x[k])]. *)
Lemma h_under_get k body x h :
  hbind (h_get x k)
    (fun v => hbind (h_truthy v)
                (fun b : bool => if b then body v else hret tt)) h
  = h_under k body x h.
Proof.
  unfold h_under. destruct x as [c|l]; [done|].
  destruct (h !! l) as [[items|entries]|] eqn:Hl.
  - assert (Hg : h_get (VRef l) k h = (Err (AttributeError "get"), h)).
    { simpl. unfold hbind, load. by rewrite Hl. }
    by rewrite !(hbind_Err _ _ _ _ _ Hg).
  - rewrite !(hbind_Ok _ _ _ _ _ (h_get_dict _ _ _ k Hl)).
    destruct (dict_get k entries) as [a|] eqn:Ha; cbn [from_option id];
      [|done].
    pose proof (h_truthy_heap a h) as Hh.
    destruct (h_truthy a h) as [[[|]|e] h1] eqn:Ht; simpl in Hh; subst h1.
    + rewrite !(hbind_Ok _ _ _ _ _ Ht).
      by rewrite (hbind_Ok _ _ _ _ _ (h_getitem_dict _ _ _ k a Hl Ha)).
    + by rewrite !(hbind_Ok _ _ _ _ _ Ht).
    + by rewrite !(hbind_Err _ _ _ _ _ Ht).
  - assert (Hg : h_get (VRef l) k h = (Err ReferenceError, h)).
    { simpl. unfold hbind, load. by rewrite Hl. }
    by rewrite !(hbind_Err _ _ _ _ _ Hg).
Qed.

Lemma scalars_represent h js vs :
  scalars_of js vs ->
  exists fps, Forall3 (represents h) js vs fps /\ concat fps = [].
Proof.
  induction 1 as [|j a js vs (s & -> & ->) _ (fps & Hr & Hc)].
  - exists []. split; [constructor|done].
  - exists ([] :: fps). split; [|done].
    constructor; [apply represents_scalar|done].
Qed.

Lemma iter_represents h c a f :
  represents h c a f ->
  match py_iter c with
  | Ok es =>
      exists items fps,
        h_iter a h = (Ok items, h) /\ Forall3 (represents h) es items fps /\
        (forall l, l ∈ concat fps -> l ∈ f)
  | Err _ => exists e, h_iter a h = (Err e, h)
  end.
Proof.
  intros Hr.
  inversion Hr as [| | |s|l items js fps Hl Hch|l entries d fps Hl Hk Hch];
    subst; try (simpl; by eexists).
  - destruct (chars_represent h s) as (fps & Hrs & Hc). simpl.
    exists (h_chars s), fps. split; [done|]. split; [done|].
    rewrite Hc. intros l Hl. by apply elem_of_nil in Hl.
  - cbn [py_iter]. exists items, fps. split; [by apply h_iter_list|].
    split; [done|]. intros l0 Hl0. by apply list_elem_of_further.
  - cbn [py_iter]. destruct (keys_represent h d entries Hk) as (fpk & Hrk & Hc).
    eexists _, fpk. split; [by apply h_iter_dict|]. split; [done|].
    rewrite Hc. intros l0 Hl0. by apply elem_of_nil in Hl0.
Qed.

(** One turn of the loop that fills the new list of identifiers. *)
Lemma remap_profile_id_turn (m : dict key scalar) (new : nat) h acc x a f :
  represents h x a f -> h !! new = Some (OList acc) ->
  match remap_profile_id (scalar_mapping m) x with
  | Ok jw =>
      exists sw,
        hbind (h_remap_profile_id m a) (fun v => h_append (VRef new) v) h
        = (Ok tt, <[new := OList (acc ++ [VScalar sw])]> h) /\
        jw = json_of_scalar sw
  | Err _ =>
      exists e h',
        hbind (h_remap_profile_id m a) (fun v => h_append (VRef new) v) h
        = (Err e, h')
  end.
Proof.
  intros Hxa Hacc. unfold remap_profile_id, h_remap_profile_id.
  pose proof (hash_represents _ _ _ _ Hxa) as Hhash.
  destruct (hash_key x) as [k|e]; cbn [rbind].
  - destruct Hhash as (Hha & -> & s & ->). rewrite Hha.
    rewrite hbind_assoc, hbind_lift_Ok, hbind_ret, scalar_mapping_get.
    destruct (dict_get k m) as [sv|]; cbn [option_map from_option id].
    + exists sv. split; [|done]. simpl. unfold hbind, load, store.
      by rewrite Hacc.
    + exists s. split; [|by inversion Hxa]. simpl. unfold hbind, load, store.
      by rewrite Hacc.
  - destruct Hhash as [e' ->]. by eexists _, _.
Qed.

(** The loop that fills the new list of identifiers. *)
Lemma remap_profile_ids_loop (m : dict key scalar) (new : nat) js :
  forall items fps h acc jacc,
    Forall3 (represents h) js items fps ->
    new ∉ concat fps ->
    h !! new = Some (OList acc) ->
    scalars_of jacc acc ->
    match rmap (remap_profile_id (scalar_mapping m)) js with
    | Ok js' =>
        exists final,
          hfor (fun profile_id =>
                  hbind (h_remap_profile_id m profile_id)
                    (fun v => h_append (VRef new) v)) items h
          = (Ok tt, <[new := OList final]> h) /\
          scalars_of (jacc ++ js') final
    | Err _ =>
        exists e h',
          hfor (fun profile_id =>
                  hbind (h_remap_profile_id m profile_id)
                    (fun v => h_append (VRef new) v)) items h
          = (Err e, h')
    end.
Proof.
  induction js as [|x xs IH]; intros items0 fps0 h acc jacc Hr0 Hnew Hacc Hsc;
    inversion Hr0 as [|x0 a f xs0 items fps Hxa Hr]; subst.
  - simpl. exists acc. rewrite app_nil_r. split; [|done].
    unfold hret. by rewrite list_insert_id.
  - simpl in Hnew. apply not_elem_of_app in Hnew as [Hnewf Hnewfps].
    cbn [rmap hfor]. cbv beta.
    pose proof (remap_profile_id_turn m new h acc x a f Hxa Hacc) as Hturn.
    destruct (remap_profile_id (scalar_mapping m) x) as [jw|e]; cbn [rbind].
    + destruct Hturn as (sw & Hturn & ->).
      rewrite (hbind_Ok _ _ _ _ _ Hturn).
      specialize (IH items fps (<[new := OList (acc ++ [VScalar sw])]> h)
                    (acc ++ [VScalar sw]) (jacc ++ [json_of_scalar sw])).
      destruct (rmap (remap_profile_id (scalar_mapping m)) xs) as [xs'|e];
        cbn [rbind].
      * destruct IH as (final & Hloop & Hfin).
        -- eapply Forall3_represents_frame; [exact Hr|].
           intros l Hl. apply list_lookup_insert_ne. by intros ->.
        -- done.
        -- apply list_lookup_insert_eq. by eapply lookup_lt_Some.
        -- apply Forall2_app; [done|]. constructor; [by eexists|constructor].
        -- exists final. rewrite Hloop, list_insert_insert_eq.
           split; [done|]. by rewrite <- (assoc_L (++)) in Hfin.
      * destruct IH as (e' & h' & ->); [..|by eexists _, _].
        -- eapply Forall3_represents_frame; [exact Hr|].
           intros l Hl. apply list_lookup_insert_ne. by intros ->.
        -- done.
        -- apply list_lookup_insert_eq. by eapply lookup_lt_Some.
        -- apply Forall2_app; [done|]. constructor; [by eexists|constructor].
    + destruct Hturn as (e' & h' & Hturn). exists e', h'.
      by rewrite (hbind_Err _ _ _ _ _ Hturn).
Qed.

Lemma hbind_alloc {B} (o : obj) (k : nat -> HM B) h :
  hbind (alloc o) k h = k (length h) (h ++ [o]).
Proof. done. Qed.

Lemma in_place_remap_multi_profile (m : dict key scalar) :
  in_place (fun _ => True) (h_remap_multi_profile m)
    (remap_multi_profile (scalar_mapping m)).
Proof.
  intros h v j fp _ Hr Hnd. unfold remap_multi_profile, h_remap_multi_profile.
  pose proof (represents_bound _ _ _ _ Hr) as Hbound.
  rewrite list.Forall_forall in Hbound.
  inversion Hr as [| | | |l items js fps Hl Hch|l entries d fps Hl Hk Hch];
    subst; try (simpl; by eexists _, _).
  - simpl. unfold hbind, load. rewrite Hl. by eexists _, _.
  - rewrite (hbind_Ok _ _ _ _ _ (h_get_dict _ _ _ "data_profile_ids" Hl)).
    cbn [py_get rbind].
    destruct (dict_get "data_profile_ids" d) as [c|] eqn:Hc.
    2:{ rewrite (dict_get_keys_None _ _ _ Hk Hc). simpl.
        exists h, (l :: concat fps).
        split; [done|]. split; [done|]. split; [done|apply evolves_refl]. }
    destruct (dict_focus _ _ _ _ _ _ Hk Hch Hc)
      as (d1 & d2 & e1 & e2 & a & fps1 & f & fps2 & -> & -> & -> & Hnot & Hk1
          & Hk2 & H1 & Hca & H2).
    assert (Hnot' : "data_profile_ids" ∉ map fst e1) by by rewrite <- Hk1.
    assert (Hga : dict_get "data_profile_ids"
                    (e1 ++ ("data_profile_ids", a) :: e2) = Some a)
      by by apply dict_get_split.
    rewrite Hga. cbn [from_option id].
    rewrite (hbind_Ok _ _ _ _ _ (truthy_represents _ _ _ _ Hca)).
    destruct (truthy c).
    2:{ exists h, (l :: concat (fps1 ++ f :: fps2)).
        split; [done|]. split; [done|]. split; [done|apply evolves_refl]. }
    rewrite (hbind_Ok _ _ _ _ _ (h_getitem_dict _ _ _ _ a Hl Hga)).
    rewrite hbind_alloc.
    set (new := length h). set (h1 := h ++ [OList []]).
    assert (Hlt : l < new) by (by apply Hbound, list_elem_of_here).
    assert (Hh1 : forall l0, l0 < new -> h1 !! l0 = h !! l0).
    { intros l0 Hl0. by apply lookup_app_l. }
    assert (Hca1 : represents h1 c a f).
    { eapply represents_frame; [exact Hca|]. intros l0 Hl0. apply Hh1.
      apply Hbound, list_elem_of_further. rewrite concat_app. simpl.
      apply elem_of_app. right. apply elem_of_app. by left. }
    pose proof (iter_represents _ _ _ _ Hca1) as Hiter.
    destruct (py_iter c) as [es|e]; cbn [rbind].
    2:{ destruct Hiter as [e' Hiter]. exists e', h1.
        by rewrite (hbind_Err _ _ _ _ _ Hiter). }
    destruct Hiter as (items & fpi & Hiter & Hri & Hfpi).
    rewrite (hbind_Ok _ _ _ _ _ Hiter).
    assert (Hnewf : forall l0, l0 ∈ f -> l0 < new).
    { intros l0 Hl0. apply Hbound, list_elem_of_further. rewrite concat_app.
      simpl. apply elem_of_app. right. apply elem_of_app. by left. }
    pose proof (remap_profile_ids_loop m new es items fpi h1 [] [] Hri) as Hloop.
    destruct (rmap (remap_profile_id (scalar_mapping m)) es) as [js'|e];
      cbn [rbind].
    2:{ destruct Hloop as (e' & h' & Hloop).
        - intros Hin. specialize (Hnewf _ (Hfpi _ Hin)). lia.
        - unfold h1, new. by rewrite lookup_app_r, Nat.sub_diag.
        - constructor.
        - exists e', h'. by rewrite (hbind_Err _ _ _ _ _ Hloop). }
    destruct Hloop as (final & Hloop & Hfin).
    { intros Hin. specialize (Hnewf _ (Hfpi _ Hin)). lia. }
    { unfold h1, new. by rewrite lookup_app_r, Nat.sub_diag. }
    { constructor. }
    simpl in Hfin. rewrite (hbind_Ok _ _ _ _ _ Hloop).
    set (h2 := <[new := OList final]> h1).
    set (h3 := <[l := ODict (e1 ++ ("data_profile_ids", VRef new) :: e2)]> h2).
    assert (Hlen1 : length h1 = S new).
    { unfold h1, new. rewrite length_app. simpl. lia. }
    assert (Hlen3 : length h3 = S new).
    { unfold h3, h2. by rewrite !length_insert. }
    assert (Hl2 : h2 !! l = Some (ODict (e1 ++ ("data_profile_ids", a) :: e2))).
    { unfold h2. rewrite list_lookup_insert_ne by lia. by rewrite Hh1. }
    assert (Hset : h_setitem (VRef l) "data_profile_ids" (VRef new) h2
                   = (Ok tt, h3)).
    { simpl. unfold hbind, load, store. rewrite Hl2.
      by rewrite (dict_set_split _ _ _ e1 e2 Hnot'). }
    assert (Hsame : forall l0, l0 < new -> l0 <> l -> h3 !! l0 = h !! l0).
    { intros l0 Hl0 Hne. unfold h3, h2.
      rewrite !list_lookup_insert_ne by lia. by apply Hh1. }
    apply list.NoDup_cons in Hnd as [Hlnot Hndc].
    rewrite concat_app in Hlnot, Hndc. simpl in Hlnot, Hndc.
    apply not_elem_of_app in Hlnot as [Hl1 Hl2'].
    apply not_elem_of_app in Hl2' as [Hlf Hl2'].
    apply list.NoDup_app in Hndc as (Hnd1 & Hd1 & Hndc).
    apply list.NoDup_app in Hndc as (Hndf & Hd2 & Hnd2).
    assert (Hb1 : forall l0, l0 ∈ concat fps1 -> l0 < new).
    { intros l0 Hl0. apply Hbound, list_elem_of_further. rewrite concat_app.
      apply elem_of_app. by left. }
    assert (Hb2 : forall l0, l0 ∈ concat fps2 -> l0 < new).
    { intros l0 Hl0. apply Hbound, list_elem_of_further. rewrite concat_app.
      simpl. apply elem_of_app. right. apply elem_of_app. by right. }
    exists h3, (l :: concat (fps1 ++ [new] :: fps2)).
    split; [exact Hset|]. split; [|split].
    + rewrite dict_set_split by done.
      apply represents_dict_split with (a := VRef new) (e1 := e1) (e2 := e2);
        try done.
      * unfold h3. apply list_lookup_insert_eq. unfold h2.
        rewrite length_insert. lia.
      * eapply Forall3_represents_frame; [exact H1|].
        intros l0 Hl0. apply Hsame; [by apply Hb1|by intros ->].
      * destruct (scalars_represent h3 _ _ Hfin) as (fpn & Hrn & Hcn).
        replace [new] with (new :: concat fpn) by (by rewrite Hcn).
        apply rep_list with (items := final); [|done].
        unfold h3. rewrite list_lookup_insert_ne by lia.
        unfold h2. apply list_lookup_insert_eq. lia.
      * eapply Forall3_represents_frame; [exact H2|].
        intros l0 Hl0. apply Hsame; [by apply Hb2|by intros ->].
    + rewrite concat_app. simpl. constructor.
      * intros Hin. apply elem_of_app in Hin as [Hin|Hin]; [done|].
        apply elem_of_cons in Hin as [->|Hin]; [lia|done].
      * apply list.NoDup_app. split; [done|]. split.
        -- intros l0 Hl0 Hin. apply elem_of_cons in Hin as [->|Hin].
           ++ specialize (Hb1 _ Hl0). lia.
           ++ apply (Hd1 l0 Hl0), elem_of_app. by right.
        -- constructor; [|done]. intros Hin. specialize (Hb2 _ Hin). lia.
    + split; [|split; [|lia]].
      * intros l0 Hl0. apply elem_of_cons in Hl0 as [->|Hl0];
          [left; apply list_elem_of_here|].
        rewrite concat_app in Hl0. simpl in Hl0.
        apply elem_of_app in Hl0 as [Hl0|Hl0].
        -- left. apply list_elem_of_further. rewrite concat_app.
           apply elem_of_app. by left.
        -- apply elem_of_cons in Hl0 as [->|Hl0]; [right; unfold new; lia|].
           left. apply list_elem_of_further. rewrite concat_app. simpl.
           apply elem_of_app. right. apply elem_of_app. by right.
      * intros l0 Hl0 Hnot0. apply not_elem_of_cons in Hnot0 as [Hne _].
        by apply Hsame.
Qed.

Lemma in_place_remap_detection_rule (m : dict key scalar) :
  in_place (fun _ => True) (h_remap_detection_rule m)
    (remap_detection_rule_profiles (scalar_mapping m)).
Proof.
  intros h v j fp _ Hr Hnd.
  pose proof (in_place_under (fun _ => True) (fun _ => True) "multi_profile"
                _ _ (in_place_remap_multi_profile m) (fun _ _ _ _ => I)
                h v j fp I Hr Hnd) as Hunder.
  unfold remap_detection_rule_profiles, h_remap_detection_rule.
  inversion Hr as [| | | |l items js fps Hl Hch|l entries d fps Hl Hk Hch];
    subst; try (simpl; by eexists _, _).
  - simpl. unfold hbind, load. rewrite Hl. by eexists _, _.
  - rewrite (hbind_Ok _ _ _ _ _ (h_get_dict _ _ _ "rule_type" Hl)).
    cbn [py_get rbind].
    assert (Hrt : h_is_str "multi_profile"
                    (default (VScalar SNull) (dict_get "rule_type" entries))
                  = is_str "multi_profile"
                      (default JNull (dict_get "rule_type" d))).
    { destruct (dict_get "rule_type" d) as [c|] eqn:Hc.
      - destruct (dict_focus _ _ _ _ _ _ Hk Hch Hc)
          as (d1 & d2 & e1 & e2 & a & fps1 & f & fps2 & -> & -> & -> & Hnot
              & Hk1 & Hk2 & H1 & Hca & H2).
        rewrite dict_get_split by (by rewrite <- Hk1).
        by apply (is_str_represents _ _ _ _ _ Hca).
      - by rewrite (dict_get_keys_None _ _ _ Hk Hc). }
    rewrite Hrt. destruct (is_str _ _).
    + by rewrite h_under_get.
    + exists h, (l :: concat fps).
      split; [done|]. split; [done|]. split; [done|apply evolves_refl].
Qed.
End In_place_profiles.

(** X28 (the rewriter of profile references, in place and on values): on a
    document as the decoder builds it, the rewriter that copies the profile
    and replaces the lists of profile identifiers in the copy raises exactly
    when the rewriter on values does, and otherwise returns an object that
    reads as the value the latter returns.  The keys of every dict are
    distinct, and the recursion depth of the copy covers the depth of the
    document. *)
Theorem remap_profile_ids_in_place (j : json) (m : dict key Heap.scalar)
  (fuel : nat) (h0 : list Heap.obj) (v : Heap.val) (h : list Heap.obj) :
  distinct_keys j = true -> json_depth j <= fuel ->
  Heap.of_json j h0 = (Ok v, h) ->
  match _remap_profile_ids j (scalar_mapping m) with
  | Ok j' =>
      exists v' h',
        Heap._remap_profile_ids fuel v m h = (Ok v', h') /\
        Heap.read (S (json_depth j')) h' v' = Some j'
  | Err _ => exists e h', Heap._remap_profile_ids fuel v m h = (Err e, h')
  end.
Proof.
  intros Hdk Hfuel Hof.
  destruct (of_json_represents j h0)
    as (v0 & h1 & fp & Hof' & Hr & Hnd & _ & _ & _).
  rewrite Hof in Hof'. injection Hof' as <- <-.
  destruct (deepcopy_represents j fuel Hdk Hfuel h v fp [] Hr Hnd)
    as (v' & memo' & h' & fp' & Hcopy & Hr' & Hnd' & _ & _ & _ & _);
    [done|].
  unfold Heap._remap_profile_ids.
  rewrite (hbind_Ok _ _ _ _ _ Hcopy). cbn [fst].
  assert (Hin : in_place (fun _ => True)
                  (Heap.h_under "detection_rules"
                     (Heap.h_each (Heap.h_remap_detection_rule m)))
                  (fun p => _remap_profile_ids p (scalar_mapping m))).
  { unfold _remap_profile_ids.
    eapply in_place_under with (D' := fun _ => True); [|done].
    eapply in_place_each with (D' := fun _ => True); [|done..].
    apply in_place_remap_detection_rule. }
  specialize (Hin h' v' j fp' I Hr' Hnd'). cbv beta in Hin.
  destruct (_remap_profile_ids j (scalar_mapping m)) as [j'|e].
  - destruct Hin as (h2 & fp2 & Hbody & Hr2 & _ & _).
    exists v', h2. split.
    + by rewrite (hbind_Ok _ _ _ _ _ Hbody).
    + eapply represents_read; [exact Hr2|lia].
  - destruct Hin as (e' & h2 & Hbody). exists e', h2.
    by rewrite (hbind_Err _ _ _ _ _ Hbody).
Qed.

Lemma remap_pattern_ids_in_place_witness :
  exists j',
    _remap_pattern_ids Sample.profile
      (scalar_mapping Sample.heap_pattern_id_mapping) = Ok j' /\
    exists v' h',
      Heap._remap_pattern_ids 9 (Heap.root Sample.profile)
        Sample.heap_pattern_id_mapping (Heap.loaded Sample.profile)
      = (Ok v', h') /\
      Heap.read (S (json_depth j')) h' v' = Some j'.
Proof.
  pose proof (remap_pattern_ids_in_place Sample.profile
                Sample.heap_pattern_id_mapping 9 []
                (Heap.root Sample.profile) (Heap.loaded Sample.profile)
                eq_refl) as Hin.
  destruct (_remap_pattern_ids Sample.profile
              (scalar_mapping Sample.heap_pattern_id_mapping))
    as [j'|e] eqn:Hpure; [|by vm_compute in Hpure].
  exists j'. split; [done|]. apply Hin; [vm_compute; lia|reflexivity].
Defined.

Lemma remap_profile_ids_in_place_witness :
  exists j',
    _remap_profile_ids Sample.multi_profile
      (scalar_mapping Sample.heap_profile_id_mapping) = Ok j' /\
    exists v' h',
      Heap._remap_profile_ids 9 (Heap.root Sample.multi_profile)
        Sample.heap_profile_id_mapping (Heap.loaded Sample.multi_profile)
      = (Ok v', h') /\
      Heap.read (S (json_depth j')) h' v' = Some j'.
Proof.
  pose proof (remap_profile_ids_in_place Sample.multi_profile
                Sample.heap_profile_id_mapping 9 []
                (Heap.root Sample.multi_profile)
                (Heap.loaded Sample.multi_profile) eq_refl) as Hin.
  destruct (_remap_profile_ids Sample.multi_profile
              (scalar_mapping Sample.heap_profile_id_mapping))
    as [j'|e] eqn:Hpure; [|by vm_compute in Hpure].
  exists j'. split; [done|]. apply Hin; [vm_compute; lia|reflexivity].
Defined.
